(** * Donor-Rewards-Bot: donation pipeline, draws and rewards

    A shallow embedding of the donation-processing code of the bot
    (the [messageCreate] event handlers and the [/admin] sub-commands that
    touch the same state) together with the properties the specification
    states about it.

    Conventions of the embedding.
    - JavaScript numbers that hold money (USD values, prices, bounds) are
      rationals [Q]: every finite double is one.  A decimal text and the
      product of a price and an amount are kept exact and stand for the
      double nearest to them.  The quotient of the entry count and the
      sums of donations are computed as IEEE 754 computes them: on the
      doubles nearest to the operands, and rounded to the nearest double,
      ties to even ([double]).  A quotient that reaches [2 ^ 1024] is an
      infinity; sums are taken to stay below it.  Comparisons are exact.
    - Numbers that hold entry counts are [jsint]: an integer or one of the
      non-finite values [Math.floor(v / 0)] produces.
    - A JavaScript object that the code iterates ([Object.entries],
      [Object.values]) is an ordered association list [obj]; keys are
      assumed not to be array indices (Discord snowflakes and [draw_<ms>]
      identifiers are not), so iteration order is insertion order.
    - A JavaScript object only read and written by key is a [gmap].
    - [null] / [undefined] are [None]; truthiness tests are written out.
    - Strings are byte strings, the UTF-8 encoding of the text;
      [toLowerCase] / [toUpperCase] act on ASCII letters only. *)

From Stdlib Require Import ZArith QArith Qround Qpower Qabs Lia Lqa.
From Stdlib Require Import Ascii String.
From stdpp Require Import gmap strings list pretty.

Local Open Scope Z_scope.
Local Open Scope string_scope.

(** ** JavaScript primitives *)

Module JS.

(** *** Characters and strings *)

Definition is_digit (c : ascii) : bool :=
  let n := nat_of_ascii c in (48 <=? n)%nat && (n <=? 57)%nat.

Definition is_upper (c : ascii) : bool :=
  let n := nat_of_ascii c in (65 <=? n)%nat && (n <=? 90)%nat.

Definition is_lower (c : ascii) : bool :=
  let n := nat_of_ascii c in (97 <=? n)%nat && (n <=? 122)%nat.

Definition lower_char (c : ascii) : ascii :=
  if is_upper c then ascii_of_nat (nat_of_ascii c + 32) else c.

Definition upper_char (c : ascii) : ascii :=
  if is_lower c then ascii_of_nat (nat_of_ascii c - 32) else c.

Fixpoint map_string (f : ascii -> ascii) (s : string) : string :=
  match s with
  | EmptyString => EmptyString
  | String c r => String (f c) (map_string f r)
  end.

Definition toLowerCase : string -> string := map_string lower_char.
Definition toUpperCase : string -> string := map_string upper_char.

Fixpoint filter_string (keep : ascii -> bool) (s : string) : string :=
  match s with
  | EmptyString => EmptyString
  | String c r =>
      if keep c then String c (filter_string keep r) else filter_string keep r
  end.

(** [s.includes(t)] *)
Fixpoint includes (s t : string) : bool :=
  String.prefix t s ||
  match s with
  | EmptyString => false
  | String _ r => includes r t
  end.

Fixpoint all_digits (s : string) : bool :=
  match s with
  | EmptyString => true
  | String c r => is_digit c && all_digits r
  end.

(** [/^\d+$/.test(s)] *)
Definition is_numeric_id (s : string) : bool :=
  match s with
  | EmptyString => false
  | _ => all_digits s
  end.

(** The longest prefix of digits, and what follows it. *)
Fixpoint take_digits (s : string) : string * string :=
  match s with
  | EmptyString => (EmptyString, EmptyString)
  | String c r =>
      if is_digit c then let '(d, rest) := take_digits r in (String c d, rest)
      else (EmptyString, s)
  end.

(** Whether a text starts with a digit. *)
Definition digit_headed (s : string) : bool :=
  match s with
  | String c _ => is_digit c
  | EmptyString => false
  end.

Fixpoint digits_value (s : string) (acc : Z) : Z :=
  match s with
  | EmptyString => acc
  | String c r => digits_value r (10 * acc + (Z.of_nat (nat_of_ascii c) - 48))
  end.

Fixpoint pow10 (k : nat) : positive :=
  match k with
  | O => 1%positive
  | S k' => (10 * pow10 k')%positive
  end.

(** [parseFloat(s)] on text made of digits and dots: the value of the
    longest prefix that is a decimal literal (digits, optionally a dot and
    more digits, or a dot and digits), [None] ([NaN]) when there is no such
    prefix.  Signs, exponents and leading white space do not occur in the
    strings the handlers pass. *)
Definition parseFloat (s : string) : option Q :=
  let '(i, rest) := take_digits s in
  match rest with
  | String "."%char f =>
      let fd := fst (take_digits f) in
      match i, fd with
      | EmptyString, EmptyString => None
      | _, _ =>
          let k := String.length fd in
          Some (Qmake (digits_value i 0 * Zpos (pow10 k) + digits_value fd 0)
                      (pow10 k))
      end
  | _ =>
      match i with
      | EmptyString => None
      | _ => Some (Qmake (digits_value i 0) 1)
      end
  end.

(** Truthiness of an optional string: [undefined], [null] and the empty
    string are falsy. *)
Definition truthy_str (o : option string) : bool :=
  match o with
  | Some s => negb (String.eqb s "")
  | None => false
  end.

(** *** Money *)

Definition Qltb (a b : Q) : bool := negb (Qle_bool b a).
Definition Qzero (a : Q) : bool := Qeq_bool a 0.

(** Truthiness of an optional number: [null], [undefined], [NaN] (all
    [None]) and [0] are falsy. *)
Definition truthy_Q (o : option Q) : bool :=
  match o with
  | Some q => negb (Qzero q)
  | None => false
  end.

(** *** Doubles

    A finite double is [k * 2 ^ p] for integers [k] and [p] with
    [|k| < 2 ^ 53] and [-1074 <= p]; arithmetic on doubles returns the
    double nearest to the exact result, the one with an even [k] when two
    are equally near. *)

Definition pow2 (z : Z) : Q := (2 ^ z)%Q.

(** The exponent [e] of a positive rational: [2 ^ e <= x < 2 ^ (e + 1)]. *)
Definition ilog2 (x : Q) : Z :=
  let k := Z.log2 (Qnum x) - Z.log2 (Zpos (Qden x)) in
  if Qle_bool (pow2 k) x then k else k - 1.

(** The nearest integer, the even one of two that are equally near. *)
Definition round_half_even (s : Q) : Z :=
  let f := Qfloor s in
  match ((s - inject_Z f) ?= (1 # 2))%Q with
  | Lt => f
  | Gt => f + 1
  | Eq => if Z.even f then f else f + 1
  end.

(** The exponent of the last of the 53 bits of a positive value; it is
    never below that of the smallest positive double, [2 ^ -1074]. *)
Definition ulp_exp (x : Q) : Z := Z.max (ilog2 x - 52) (-1074).

Definition double_pos (x : Q) : Q :=
  let p := ulp_exp x in
  Qred (inject_Z (round_half_even (x / pow2 p)) * pow2 p).

(** The double nearest to [x], as a fraction in lowest terms. *)
Definition double (x : Q) : Q :=
  match Qnum x with
  | Z0 => 0
  | Zpos _ => double_pos x
  | Zneg _ => - double_pos (- x)
  end.

(** The finite doubles, the bound on the exponent from above apart. *)
Definition is_double (y : Q) : Prop :=
  exists k p, (y == inject_Z k * pow2 p)%Q /\ Z.abs k < 2 ^ 53 /\ -1074 <= p.

(** [a + b] on numbers. *)
Definition fadd (a b : Q) : Q := double (double a + double b).

(** [a / b] on numbers, for a divisor that is not 0. *)
Definition fdiv (a b : Q) : Q := double (double a / double b).

#[global] Arguments pow2 : simpl never.
#[global] Arguments double : simpl never.
#[global] Arguments fadd : simpl never.
#[global] Arguments fdiv : simpl never.

(** *** Entry counts *)

Inductive jsint : Type :=
| Int (n : Z)
| PosInf
| NegInf
| NaN.

#[global] Instance jsint_eq_dec : EqDecision jsint.
Proof. solve_decision. Defined.

Definition jadd (a b : jsint) : jsint :=
  match a, b with
  | NaN, _ | _, NaN => NaN
  | PosInf, NegInf | NegInf, PosInf => NaN
  | PosInf, _ | _, PosInf => PosInf
  | NegInf, _ | _, NegInf => NegInf
  | Int x, Int y => Int (x + y)
  end.

Definition jneg (a : jsint) : jsint :=
  match a with
  | Int x => Int (- x)
  | PosInf => NegInf
  | NegInf => PosInf
  | NaN => NaN
  end.

Definition jsub (a b : jsint) : jsint := jadd a (jneg b).

(** [a <= b]; every comparison with [NaN] is false. *)
Definition jle (a b : jsint) : bool :=
  match a, b with
  | NaN, _ | _, NaN => false
  | NegInf, _ => true
  | _, PosInf => true
  | Int x, Int y => (x <=? y)%Z
  | _, _ => false
  end.

Definition jlt (a b : jsint) : bool :=
  match a, b with
  | NaN, _ | _, NaN => false
  | PosInf, _ => false
  | _, NegInf => false
  | Int x, Int y => (x <? y)%Z
  | _, _ => true
  end.

(** [Math.min(a, b)] *)
Definition jmin (a b : jsint) : jsint :=
  match a, b with
  | NaN, _ | _, NaN => NaN
  | NegInf, _ | _, NegInf => NegInf
  | PosInf, x | x, PosInf => x
  | Int x, Int y => Int (Z.min x y)
  end.

(** Truthiness of a count: [0] and [NaN] are falsy. *)
Definition truthy_int (a : jsint) : bool :=
  match a with
  | Int 0 | NaN => false
  | _ => true
  end.

Definition truthy_oint (o : option jsint) : bool :=
  match o with
  | Some a => truthy_int a
  | None => false
  end.

(** Truthiness of an optional integer field such as [draw.maxEntries]. *)
Definition truthy_Z (o : option Z) : bool :=
  match o with
  | Some 0 | None => false
  | Some _ => true
  end.

(** [Math.floor(v / m)] on finite operands: division by zero gives an
    infinity of the sign of [v], and [0 / 0] is [NaN]; a quotient that
    reaches [2 ^ 1024] is an infinity too, and any other is the double
    [fdiv v m], which is floored. *)
Definition floor_div (v m : Q) : jsint :=
  if Qzero (double m) then
    if Qltb 0 v then PosInf else if Qltb v 0 then NegInf else NaN
  else
    let q := fdiv v m in
    if Qle_bool (pow2 1024) q then PosInf
    else if Qle_bool q (- pow2 1024) then NegInf
    else Int (Qfloor q).

(** *** Ordered objects *)

Definition obj (V : Type) : Type := list (string * V).

Definition okeys {V} (o : obj V) : list string := map fst o.
Definition ovalues {V} (o : obj V) : list V := map snd o.

(** [o[k]] *)
Fixpoint oget {V} (k : string) (o : obj V) : option V :=
  match o with
  | [] => None
  | (k', v) :: r => if String.eqb k k' then Some v else oget k r
  end.

(** [o[k] = v]: an existing property keeps its position, a new one is
    added last. *)
Fixpoint oset {V} (k : string) (v : V) (o : obj V) : obj V :=
  match o with
  | [] => [(k, v)]
  | (k', v') :: r =>
      if String.eqb k k' then (k', v) :: r else (k', v') :: oset k v r
  end.

(** [delete o[k]] *)
Fixpoint odel {V} (k : string) (o : obj V) : obj V :=
  match o with
  | [] => []
  | (k', v') :: r => if String.eqb k k' then r else (k', v') :: odel k r
  end.

(** The names every object inherits from [Object.prototype]: where [o]
    has no property of its own under such a name, [o[k]] is the inherited
    member, an object or a function, and so truthy. *)
Definition inherited (k : string) : bool :=
  existsb (String.eqb k)
    ["constructor"; "__proto__"; "__defineGetter__"; "__defineSetter__";
     "__lookupGetter__"; "__lookupSetter__"; "hasOwnProperty";
     "isPrototypeOf"; "propertyIsEnumerable"; "toLocaleString"; "toString";
     "valueOf"].

(** [Object.values(o).reduce((sum, count) => sum + count, 0)] *)
Definition sum_counts (o : obj jsint) : jsint :=
  fold_left jadd (ovalues o) (Int 0).

End JS.
Import JS.

(** ** Data model: the per-guild database document *)

Record Donation : Type := {
  don_amount : Q;
  don_currency : string;
  don_originalAmount : option Q;   (* [None] is [NaN] *)
  don_timestamp : Z;
  don_recipient : string;
}.

Record Streaks : Type := {
  current : Z;
  longest : Z;
  lastDonation : option Z;
}.

Record Referrals : Type := {
  referred : list string;
  referrals_referredBy : option string;
}.

Module User.
Record t : Type := mk {
  totalDonated : Q;
  entries : option (gmap string jsint);
  donations : option (list Donation);
  achievements : option (list string);
  privacyEnabled : bool;
  wins : Z;
  referrals : option Referrals;
  luckyNumbers : option (list Z);
  milestones : option (list string);
  streaks : option Streaks;
  selectedDraw : option string;
  referredBy : option string;
}.

Definition set_totalDonated (x : Q) (u : t) : t :=
  mk x (entries u) (donations u) (achievements u) (privacyEnabled u) (wins u)
     (referrals u) (luckyNumbers u) (milestones u) (streaks u)
     (selectedDraw u) (referredBy u).
Definition set_entries (x : option (gmap string jsint)) (u : t) : t :=
  mk (totalDonated u) x (donations u) (achievements u) (privacyEnabled u)
     (wins u) (referrals u) (luckyNumbers u) (milestones u) (streaks u)
     (selectedDraw u) (referredBy u).
Definition set_donations (x : option (list Donation)) (u : t) : t :=
  mk (totalDonated u) (entries u) x (achievements u) (privacyEnabled u)
     (wins u) (referrals u) (luckyNumbers u) (milestones u) (streaks u)
     (selectedDraw u) (referredBy u).
Definition set_achievements (x : option (list string)) (u : t) : t :=
  mk (totalDonated u) (entries u) (donations u) x (privacyEnabled u)
     (wins u) (referrals u) (luckyNumbers u) (milestones u) (streaks u)
     (selectedDraw u) (referredBy u).
Definition set_wins (x : Z) (u : t) : t :=
  mk (totalDonated u) (entries u) (donations u) (achievements u)
     (privacyEnabled u) x (referrals u) (luckyNumbers u) (milestones u)
     (streaks u) (selectedDraw u) (referredBy u).
Definition set_streaks (x : option Streaks) (u : t) : t :=
  mk (totalDonated u) (entries u) (donations u) (achievements u)
     (privacyEnabled u) (wins u) (referrals u) (luckyNumbers u)
     (milestones u) x (selectedDraw u) (referredBy u).

(** The record a first donation creates. *)
Definition fresh_donor : t :=
  mk 0%Q (Some ∅) (Some []) (Some []) false 0
     (Some {| referred := []; referrals_referredBy := None |})
     (Some []) (Some [])
     (Some {| current := 0; longest := 0; lastDonation := None |})
     None None.

(** The record the admin commands create. *)
Definition fresh_admin : t :=
  mk 0%Q (Some ∅) (Some []) (Some []) false 0 None None None None None None.
End User.

Module Draw.
Record t : Type := mk {
  id : string;
  name : string;
  reward : string;
  minAmount : Q;
  maxAmount : option Q;
  maxEntries : option Z;
  vipOnly : bool;
  manualEntriesOnly : bool;
  active : bool;
  entries : option (obj jsint);
  winner : option string;
  winnerSelectedAt : option Z;
  selectedBy : option string;
  createdBy : string;
  createdAt : Z;
}.

Definition set_entries (x : option (obj jsint)) (d : t) : t :=
  mk (id d) (name d) (reward d) (minAmount d) (maxAmount d) (maxEntries d)
     (vipOnly d) (manualEntriesOnly d) (active d) x (winner d)
     (winnerSelectedAt d) (selectedBy d) (createdBy d) (createdAt d).

(** [draw.active = false; draw.winner = w; draw.winnerSelectedAt = now;
    draw.selectedBy = by] *)
Definition close (w : option string) (now : Z) (by_ : string) (d : t) : t :=
  mk (id d) (name d) (reward d) (minAmount d) (maxAmount d) (maxEntries d)
     (vipOnly d) (manualEntriesOnly d) false (entries d) w
     (Some now) (Some by_) (createdBy d) (createdAt d).

(** The ledger as the code reads it: [draw.entries || {}]. *)
Definition ledger (d : t) : obj jsint := default [] (entries d).
End Draw.

Record DonorRole : Type := {
  role_name : string;
  role_minAmount : Q;
  role_maxAmount : option Q;
  role_id : string;
}.

Record BlacklistEntry : Type := {
  bl_id : string;
  bl_username : string;
  bl_reason : string;
  bl_addedBy : string;
  bl_addedAt : Z;
}.

Record Blacklist : Type := {
  bl_users : list BlacklistEntry;
  bl_roles : list string;
}.

(** An element of [config.allowedRecipients]: a string, or anything else a
    corrupted document may hold. *)
Inductive jsval : Type :=
| VStr (s : string)
| VOther.

Module Config.
Record t : Type := mk {
  allowedRecipients : option (list jsval);
  acceptedCryptocurrencies : option (list string);
  donorRoles : option (obj DonorRole);
  vipRoleId : option string;
  adminRoleId : option string;
  globalBlacklist : option Blacklist;
  logChannelId : option string;
  notificationChannelId : option string;
}.

Definition empty : t := mk None None None None None None None None.

Definition set_globalBlacklist (x : option Blacklist) (c : t) : t :=
  mk (allowedRecipients c) (acceptedCryptocurrencies c) (donorRoles c)
     (vipRoleId c) (adminRoleId c) x (logChannelId c)
     (notificationChannelId c).
End Config.

Module Database.
Record t : Type := mk {
  config : option Config.t;
  users : obj User.t;
  donationDraws : option (obj Draw.t);
}.

Definition set_config (x : option Config.t) (db : t) : t :=
  mk x (users db) (donationDraws db).
Definition set_users (x : obj User.t) (db : t) : t :=
  mk (config db) x (donationDraws db).
Definition set_donationDraws (x : option (obj Draw.t)) (db : t) : t :=
  mk (config db) (users db) x.

(** [db.config?.f] *)
Definition cfg {A} (f : Config.t -> option A) (db : t) : option A :=
  config db ≫= f.
End Database.

(** ** The collaborators: guild, network, clock *)

Record Member : Type := {
  member_id : string;
  username : string;
  displayName : string;
  roles : gset string;          (* [member.roles.cache], a snapshot *)
}.

Record Guild : Type := {
  members_fetch : string -> option Member;   (* [None]: the fetch rejects *)
  members_cache : list Member;
  channels : list string;                    (* channel names *)
}.

Inductive Provider : Type := CoinGecko | CoinPaprika | CoinMarketCap.

(** What one HTTP request yields: a rejected fetch (also a timeout or a
    body that is not JSON), or a response with its [ok] flag and the USD
    field the provider's response shape carries. *)
Inductive HttpResult : Type :=
| NetworkError
| Response (ok : bool) (usd : option Q).

Record Net : Type := {
  http : Provider -> string -> HttpResult;
  COINMARKETCAP_API_KEY : option string;
}.

(** One request sent to a provider, as recorded in the run's trace. *)
Definition Call : Type := (Provider * string)%type.

Record Message : Type := {
  content : string;
  guildId : option string;
  guild : Guild;
}.

(** The fields a grammar extracts from a tip announcement. *)
Record Tip : Type := {
  tip_sender : string;
  tip_recipient : string;
  tip_amount : string;
  tip_currency : string;
}.

(** What a handler makes visible outside the database. *)
Inductive Event : Type :=
| RoleRemoved (member role : string)
| RoleAdded (member role : string)
| RoleUpgrade (channel member role : string) (total : Q)
| AchievementUnlocked (channel member key : string)
| EntriesAdded (draw : string) (n : jsint)
| Confirmation (member : string) (usd : Q) (entriesAdded : jsint) (total : Q).

(** ** The announcement grammars *)

Module Grammar.

(** The regular expressions of the handler are sequences of single
    character classes, each taken once, optionally, or repeated greedily;
    a capture group wraps one repeated class. *)
Inductive quant : Type := One | Opt | Star | Plus.

Record item : Type := {
  cls : ascii -> bool;
  rep : quant;
  captured : bool;
}.

Definition digit : ascii -> bool := is_digit.
Definition letter (c : ascii) : bool := is_upper c || is_lower c.
Definition word (c : ascii) : bool :=
  letter c || is_digit c || Ascii.eqb c "_"%char.
Definition digit_or_dot (c : ascii) : bool :=
  is_digit c || Ascii.eqb c "."%char.
(** [\s], for the white space of ASCII. *)
Definition space (c : ascii) : bool :=
  let n := nat_of_ascii c in
  (n =? 32)%nat || ((9 <=? n)%nat && (n <=? 13)%nat).
(** A literal character under the [i] flag. *)
Definition char_i (x : ascii) (c : ascii) : bool :=
  Ascii.eqb (lower_char x) (lower_char c).

Definition tok (p : ascii -> bool) (r : quant) : item :=
  {| cls := p; rep := r; captured := false |}.
Definition group (p : ascii -> bool) : item :=
  {| cls := p; rep := Plus; captured := true |}.

Fixpoint lit (s : string) : list item :=
  match s with
  | EmptyString => []
  | String c r => tok (char_i c) One :: lit r
  end.

Definition spaces : item := tok space Star.

(** A greedy repetition: take one more character when possible, and give
    it back when what follows cannot match. *)
Fixpoint star {R} (p : ascii -> bool) (s acc : string)
    (k : string -> string -> option R) : option R :=
  match s with
  | String c r =>
      if p c then
        match star p r (acc ++ String c "") k with
        | Some x => Some x
        | None => k s acc
        end
      else k s acc
  | EmptyString => k s acc
  end.

Definition run_item (it : item)
    (k : string -> list string -> option (list string))
    (s : string) (caps : list string) : option (list string) :=
  let push (consumed : string) : list string :=
    if captured it then (caps ++ [consumed])%list else caps in
  match rep it with
  | One =>
      match s with
      | String c r => if cls it c then k r (push (String c "")) else None
      | EmptyString => None
      end
  | Opt =>
      match s with
      | String c r =>
          if cls it c then
            match k r (push (String c "")) with
            | Some x => Some x
            | None => k s (push "")
            end
          else k s (push "")
      | EmptyString => k s (push "")
      end
  | Star => star (cls it) s "" (fun rest consumed => k rest (push consumed))
  | Plus =>
      match s with
      | String c r =>
          if cls it c
          then star (cls it) r (String c "")
                    (fun rest consumed => k rest (push consumed))
          else None
      | EmptyString => None
      end
  end.

(** A match that starts at the head of the text: the captured groups. *)
Fixpoint match_here (items : list item)
  : string -> list string -> option (list string) :=
  match items with
  | [] => fun _ caps => Some caps
  | it :: rest => run_item it (match_here rest)
  end.

(** [text.match(regex)]: the leftmost match. *)
Fixpoint search (items : list item) (s : string) : option (list string) :=
  match match_here items s [] with
  | Some caps => Some caps
  | None =>
      match s with
      | String _ r => search items r
      | EmptyString => None
      end
  end.

(** The tail every announcement of tip.cc ends with:
    [\s*\(≈\s*\$[\d.]+\)\.] *)
Definition price_tail : list item :=
  ([spaces] ++ lit "(≈" ++ [spaces] ++ lit "$" ++ [tok digit_or_dot Plus]
   ++ lit ").")%list.

Definition mention (capture : bool) : list item :=
  (lit "<@" ++ [tok (char_i "!"%char) Opt]
   ++ [{| cls := digit; rep := Plus; captured := capture |}] ++ lit ">")%list.

(** Pattern 1: [<:LTC:123> <@!123> sent <@123> **amount CURRENCY** (≈ $price).] *)
Definition tipRegex1 : list item :=
  (lit "<:" ++ [tok letter Plus] ++ lit ":" ++ [tok digit Plus] ++ lit ">"
   ++ [spaces] ++ mention true ++ [spaces] ++ lit "sent" ++ [spaces]
   ++ mention true ++ [spaces] ++ lit "**" ++ [group digit_or_dot]
   ++ [spaces] ++ [group letter] ++ lit "**" ++ price_tail)%list.

(** Pattern 2: [💰 @username sent @recipient amount CURRENCY (≈ $price).] *)
Definition tipRegex2 : list item :=
  (lit "💰" ++ [spaces] ++ lit "@" ++ [group word] ++ [spaces] ++ lit "sent"
   ++ [spaces] ++ lit "@" ++ [group word] ++ [spaces] ++ [group digit_or_dot]
   ++ [spaces] ++ [group word] ++ price_tail)%list.

(** Pattern 3: [<@!123> sent <@123> amount CURRENCY (≈ $price).] *)
Definition tipRegex3 : list item :=
  (mention true ++ [spaces] ++ lit "sent" ++ [spaces] ++ mention true
   ++ [spaces] ++ [group digit_or_dot] ++ [spaces] ++ [group word]
   ++ price_tail)%list.

(** Pattern 4: [username sent amount currency to recipient] *)
Definition tipRegex4 : list item :=
  ([group word] ++ [spaces] ++ lit "sent" ++ [spaces] ++ [group digit_or_dot]
   ++ [spaces] ++ [group word] ++ [spaces] ++ lit "to" ++ [spaces]
   ++ [group word])%list.

(** The fields of the first pattern that matches. *)
Definition parseTip (content : string) : option Tip :=
  match search tipRegex1 content with
  | Some [sender; recipient; amount; currency] =>
      Some {| tip_sender := sender; tip_recipient := recipient;
              tip_amount := amount; tip_currency := currency |}
  | _ =>
  match search tipRegex2 content with
  | Some [sender; recipient; amount; currency] =>
      Some {| tip_sender := sender; tip_recipient := recipient;
              tip_amount := amount; tip_currency := currency |}
  | _ =>
  match search tipRegex3 content with
  | Some [sender; recipient; amount; currency] =>
      Some {| tip_sender := sender; tip_recipient := recipient;
              tip_amount := amount; tip_currency := currency |}
  | _ =>
  match search tipRegex4 content with
  | Some [sender; amount; currency; recipient] =>
      Some {| tip_sender := sender; tip_recipient := recipient;
              tip_amount := amount; tip_currency := currency |}
  | _ => None
  end end end end.

End Grammar.

(** ** Price resolution *)

Module Price.

(** What [\d+\.?\d*] captures at the head of [s], when it starts with a
    digit. *)
Definition capture_amount (s : string) : option string :=
  let '(d, rest) := take_digits s in
  match d with
  | EmptyString => None
  | _ =>
      match rest with
      | String "."%char f => Some (d ++ "." ++ fst (take_digits f))
      | _ => Some d
      end
  end.

(** Group 1 of [content.match(priceRegex)], where [priceRegex] is a dollar
    sign followed by [\d+\.?\d*]: the match starts at the leftmost dollar
    sign that a digit follows. *)
Fixpoint match_price (s : string) : option string :=
  match s with
  | EmptyString => None
  | String c r =>
      if Ascii.eqb c "$"%char then
        match capture_amount r with
        | Some m => Some m
        | None => match_price r
        end
      else match_price r
  end.

(** [extractPriceFromTipMessage(content, amount)]: the amount argument is
    not used. *)
Definition extractPriceFromTipMessage (content : string) (amount : option Q)
  : option Q :=
  match match_price content with
  | Some m => parseFloat m
  | None => None
  end.

Definition coinGeckoIds : obj string :=
  [("BTC", "bitcoin"); ("ETH", "ethereum"); ("LTC", "litecoin");
   ("SOL", "solana"); ("USDT", "tether"); ("USDC", "usd-coin");
   ("XRP", "ripple"); ("DOGE", "dogecoin"); ("SHIB", "shiba-inu");
   ("BNB", "binancecoin"); ("ADA", "cardano"); ("AVAX", "avalanche-2");
   ("TON", "the-open-network"); ("TRX", "tron"); ("TRON", "tron")].

Definition coinPaprikaIds : obj string :=
  [("BTC", "btc-bitcoin"); ("ETH", "eth-ethereum"); ("LTC", "ltc-litecoin");
   ("SOL", "sol-solana"); ("USDT", "usdt-tether"); ("USDC", "usdc-usd-coin");
   ("XRP", "xrp-xrp"); ("DOGE", "doge-dogecoin"); ("SHIB", "shib-shiba-inu");
   ("BNB", "bnb-binance-coin"); ("ADA", "ada-cardano");
   ("AVAX", "avax-avalanche"); ("TON", "ton-the-open-network");
   ("TRX", "trx-tron"); ("TRON", "trx-tron")].

Definition getCoinGeckoId (symbol : string) : string :=
  match oget (toUpperCase symbol) coinGeckoIds with
  | Some i => i
  | None => toLowerCase symbol
  end.

Definition getCoinPaprikaId (symbol : string) : option string :=
  oget (toUpperCase symbol) coinPaprikaIds.

(** A provider function either returns a price or [null], or throws; with
    it comes the list of requests it sent. *)
Inductive outcome : Type :=
| Returned (price : option Q)
| Threw.

(** [x || null] *)
Definition or_null (x : option Q) : option Q :=
  if truthy_Q x then x else None.

Definition request (net : Net) (p : Provider) (ident : string)
  : outcome * list Call :=
  match http net p ident with
  | NetworkError => (Threw, [(p, ident)])
  | Response false _ => (Threw, [(p, ident)])
  | Response true usd => (Returned (or_null usd), [(p, ident)])
  end.

Definition fetchCoinGeckoPrice (net : Net) (symbol : string)
  : outcome * list Call :=
  let coinId := getCoinGeckoId symbol in
  if negb (truthy_str (Some coinId)) then (Returned None, [])
  else request net CoinGecko coinId.

Definition fetchCoinPaprikaPrice (net : Net) (symbol : string)
  : outcome * list Call :=
  let coinId := getCoinPaprikaId symbol in
  match coinId with
  | Some i => if truthy_str coinId then request net CoinPaprika i
              else (Returned None, [])
  | None => (Returned None, [])
  end.

Definition fetchCoinMarketCapPrice (net : Net) (symbol : string)
  : outcome * list Call :=
  if negb (truthy_str (COINMARKETCAP_API_KEY net)) then (Threw, [])
  else request net CoinMarketCap (toUpperCase symbol).

(** The [apis] array: the fixed priority order. *)
Definition apis (net : Net) : list (string * (string -> outcome * list Call)) :=
  [("CoinGecko", fetchCoinGeckoPrice net);
   ("CoinPaprika", fetchCoinPaprikaPrice net);
   ("CoinMarketCap", fetchCoinMarketCapPrice net)].

(** [price && price > 0] *)
Definition usable (r : outcome) : option Q :=
  match r with
  | Returned (Some price) => if Qltb 0 price then Some price else None
  | _ => None
  end.

(** The [for (const api of apis)] loop of [getCryptoPrice]. *)
Fixpoint getCryptoPrice_loop
    (l : list (string * (string -> outcome * list Call)))
    (symbol : string) (amount : option Q) : option Q * list Call :=
  match l with
  | [] => (None, [])
  | (_, func) :: rest =>
      let '(r, calls) := func symbol in
      match usable r with
      | Some price => (Qmult price <$> amount, calls)
      | None =>
          let '(v, more) := getCryptoPrice_loop rest symbol amount in
          (v, (calls ++ more)%list)
      end
  end.

Definition getCryptoPrice (net : Net) (symbol : string) (amount : option Q)
  : option Q * list Call :=
  getCryptoPrice_loop (apis net) symbol amount.

(** The resolution step of the handler:
    [let usdValue = await extractPriceFromTipMessage(content, amount);
     if (!usdValue) usdValue = await getCryptoPrice(currency, amount)]. *)
Definition resolveUsdValue (net : Net) (content currency : string)
    (amount : option Q) : option Q * list Call :=
  let usdValue := extractPriceFromTipMessage content amount in
  if negb (truthy_Q usdValue) then getCryptoPrice net currency amount
  else (usdValue, []).

End Price.

(** ** Recipient and currency policy *)

Module Policy.

(** [s.replace(/[@<>!]/g, '')] *)
Definition decoration (c : ascii) : bool :=
  Ascii.eqb c "@"%char || Ascii.eqb c "<"%char ||
  Ascii.eqb c ">"%char || Ascii.eqb c "!"%char.

Definition clean (s : string) : string :=
  filter_string (fun c => negb (decoration c)) s.

(** The handler that compares cleaned strings for equality. *)
Definition isAllowedRecipient (allowedRecipients : list jsval)
    (recipient : string) : bool :=
  existsb (fun allowed =>
    match allowed with
    | VStr a => String.eqb (clean a) (clean recipient)
    | VOther => false
    end) allowedRecipients.

(** The handler that first turns a numeric recipient into the member's
    user name, then tests containment in either direction. *)
Definition recipientToCheck (g : Guild) (recipient : string) : string :=
  if is_numeric_id recipient then
    match members_fetch g recipient with
    | Some m => username m
    | None => recipient
    end
  else recipient.

Definition matches_flexible (cleanRecipient : string) (allowed : jsval) : bool :=
  match allowed with
  | VStr a =>
      let cleanAllowed := toLowerCase (clean a) in
      includes cleanRecipient cleanAllowed || includes cleanAllowed cleanRecipient
  | VOther => false
  end.

Definition isAllowedRecipient_flexible (g : Guild)
    (allowedRecipients : list jsval) (recipient : string) : bool :=
  let cleanRecipient := toLowerCase (clean (recipientToCheck g recipient)) in
  existsb (matches_flexible cleanRecipient) allowedRecipients.

(** [acceptedCurrencies.includes(currency.toUpperCase())] with the default
    list when the guild has none. *)
Definition currencyAccepted (DEFAULT_ACCEPTED_CRYPTOCURRENCIES : list string)
    (db : Database.t) (currency : string) : bool :=
  let acceptedCurrencies :=
    default DEFAULT_ACCEPTED_CRYPTOCURRENCIES
            (Database.cfg Config.acceptedCryptocurrencies db) in
  existsb (String.eqb (toUpperCase currency)) acceptedCurrencies.

End Policy.

(** ** Rewards: streaks, donor roles, achievements *)

Record Achievement : Type := {
  ach_name : string;
  ach_description : string;
}.

Module Rewards.

Definition oneDayMs : Z := 24 * 60 * 60 * 1000.

(** Truthiness of a stored timestamp. *)
Definition truthy_time (o : option Z) : bool :=
  match o with
  | Some 0 | None => false
  | Some _ => true
  end.

(** [updateDonationStreak(userData)], with [now] the value of
    [Date.now()]. *)
Definition updateStreaks (now : Z) (s0 : option Streaks) : Streaks :=
  let s := default {| current := 0; longest := 0; lastDonation := None |} s0 in
  let cur :=
    match lastDonation s with
    | Some t =>
        if truthy_time (Some t) then
          let timeSinceLastDonation := now - t in
          if (timeSinceLastDonation <=? oneDayMs)%Z then current s + 1
          else if (timeSinceLastDonation <=? 2 * oneDayMs)%Z then current s
          else 1
        else 1
    | None => 1
    end in
  let lng := if (longest s <? cur)%Z then cur else longest s in
  {| current := cur; longest := lng; lastDonation := Some now |}.

Definition updateDonationStreak (now : Z) (userData : User.t) : User.t :=
  User.set_streaks (Some (updateStreaks now (User.streaks userData))) userData.

Definition has_role (m : Member) (r : string) : bool :=
  bool_decide (r ∈ roles m).

(** [total >= role.minAmount && (!role.maxAmount || total <= role.maxAmount)] *)
Definition in_range (total : Q) (role : DonorRole) : bool :=
  Qle_bool (role_minAmount role) total &&
  (negb (truthy_Q (role_maxAmount role)) ||
   match role_maxAmount role with
   | Some mx => Qle_bool total mx
   | None => false
   end).

(** The shape of the two loops of [assignDonorRoles]: keep the qualifying
    role whose [minAmount] is above the best value so far. *)
Definition highest_from (qualifies : DonorRole -> bool) (l : list DonorRole)
    (init : option DonorRole * Q) : option DonorRole * Q :=
  fold_left (fun '(cur, val) role =>
               if qualifies role && Qltb val (role_minAmount role)
               then (Some role, role_minAmount role) else (cur, val))
            l init.

(** The first loop: among the configured roles the member holds, the one
    with the largest [minAmount] above 0. *)
Definition currentRole (m : Member) (donorRoles : obj DonorRole)
  : option DonorRole * Q :=
  highest_from (fun role => has_role m (role_id role)) (ovalues donorRoles)
               (None, 0%Q).

(** The second loop: among the roles whose range holds [newTotal], the
    one with the largest [minAmount] above 0. *)
Definition newRole (newTotal : Q) (donorRoles : obj DonorRole)
  : option DonorRole * Q :=
  highest_from (in_range newTotal) (ovalues donorRoles) (None, 0%Q).

(** [channels.cache.find(ch => ch.name.includes('general') ||
    ch.name.includes('chat'))] *)
Definition announceChannel (g : Guild) : option string :=
  List.find (fun ch => includes ch "general" || includes ch "chat") (channels g).

(** The role commands of an update: every configured role the member holds
    is removed, then the new one is added. *)
Definition replaceRoles (m : Member) (donorRoles : obj DonorRole)
    (new : DonorRole) : list Event :=
  (map (fun role => RoleRemoved (member_id m) (role_id role))
       (List.filter (fun role => has_role m (role_id role)) (ovalues donorRoles))
   ++ [RoleAdded (member_id m) (role_id new)])%list.

Definition upgradeNotice (g : Guild) (m : Member) (new : DonorRole)
    (newTotal : Q) : list Event :=
  match announceChannel g with
  | Some ch => [RoleUpgrade ch (member_id m) (role_name new) newTotal]
  | None => []
  end.

(** [assignDonorRoles(member, newTotal, oldTotal)] of the handler that
    reads the roles the member holds. *)
Definition assignDonorRoles (db : Database.t) (g : Guild) (m : Member)
    (newTotal oldTotal : Q) : list Event :=
  let donorRoles := default [] (Database.cfg Config.donorRoles db) in
  match okeys donorRoles with
  | [] => []
  | _ =>
      let '(cur, currentRoleValue) := currentRole m donorRoles in
      let '(new, newRoleValue) := newRole newTotal donorRoles in
      match new with
      | Some nr =>
          if match cur with None => true | Some _ => false end
             || Qltb currentRoleValue newRoleValue
          then (replaceRoles m donorRoles nr ++ upgradeNotice g m nr newTotal)%list
          else []
      | None => []
      end
  end.

(** The [switch (key)] that decides whether an achievement is earned. *)
Definition referralCount (users : obj User.t) (uid : string) : Z :=
  Z.of_nat (length (List.filter
    (fun u => bool_decide (User.referredBy u = Some uid)) (ovalues users))).

Definition earned (users : obj User.t) (uid : string) (userData : User.t)
    (key : string) : bool :=
  if String.eqb key "first_steps" then Qltb 0 (User.totalDonated userData)
  else if String.eqb key "generous_donor"
       then Qle_bool 100 (User.totalDonated userData)
  else if String.eqb key "big_spender"
       then Qle_bool 500 (User.totalDonated userData)
  else if String.eqb key "whale"
       then Qle_bool 1000 (User.totalDonated userData)
  else if String.eqb key "streak_master"
       then match User.streaks userData with
            | Some s => (7 <=? current s)%Z
            | None => false
            end
  else if String.eqb key "community_pillar"
       then (3 <=? referralCount users uid)%Z
  else if String.eqb key "lucky_winner" then (0 <? User.wins userData)%Z
  else false.

(** [arr.includes(key)] *)
Definition holds (arr : list string) (key : string) : bool :=
  existsb (String.eqb key) arr.

(** The loop over the keys of the catalogue, for a given test [earn]: the
    achievement array after the loop and the keys pushed by it, in
    order. *)
Definition evaluate_from (earn : string -> bool) (keys : list string)
    (init : list string * list string) : list string * list string :=
  fold_left (fun '(arr, new) key =>
               if holds arr key then (arr, new)
               else if earn key
                    then ((arr ++ [key])%list, (new ++ [key])%list)
                    else (arr, new))
            keys init.

(** The loop over [Object.entries(ACHIEVEMENTS)]. *)
Definition evaluate (ACHIEVEMENTS : obj Achievement) (users : obj User.t)
    (uid : string) (userData : User.t) (held : list string)
  : list string * list string :=
  evaluate_from (earned users uid userData) (okeys ACHIEVEMENTS) (held, []).

(** [checkAndAssignAchievements(member, userData, db)] *)
Definition checkAndAssignAchievements (ACHIEVEMENTS : obj Achievement)
    (g : Guild) (m : Member) (userData : User.t) (users : obj User.t)
  : User.t * list Event :=
  let held := default [] (User.achievements userData) in
  let '(arr, new) := evaluate ACHIEVEMENTS users (member_id m) userData held in
  (User.set_achievements (Some arr) userData,
   match new, announceChannel g with
   | _ :: _, Some ch => map (AchievementUnlocked ch (member_id m)) new
   | _, _ => []
   end).

End Rewards.

(** The handler that derives the role from the old and the new total. *)
Module Legacy.

(** The loop keeps the last entry of the table whose range holds the
    total. *)
Definition roleFor (DONOR_ROLES : obj DonorRole) (total : Q)
  : option (string * DonorRole) :=
  fold_left (fun acc kr => if Rewards.in_range total (snd kr) then Some kr else acc)
            DONOR_ROLES None.

(** [newRole !== oldRole]: two roles of the table are the same object
    exactly when they sit under the same key. *)
Definition same_role (a b : option (string * DonorRole)) : bool :=
  match a, b with
  | Some x, Some y => String.eqb (fst x) (fst y)
  | None, None => true
  | _, _ => false
  end.

Definition assignDonorRoles (DONOR_ROLES : obj DonorRole) (g : Guild)
    (m : Member) (newTotal oldTotal : Q) : list Event :=
  let newRole := roleFor DONOR_ROLES newTotal in
  let oldRole := roleFor DONOR_ROLES oldTotal in
  match newRole with
  | Some (_, nr) =>
      if negb (same_role newRole oldRole)
      then (Rewards.replaceRoles m DONOR_ROLES nr
            ++ Rewards.upgradeNotice g m nr newTotal)%list
      else []
  | None => []
  end.

(** [execute(message)] of this handler: whether the message is handed to
    [handleTipccDonation].  Messages of bots are ignored first, and the
    account of tip.cc is a bot. *)
Definition execute (author_id : string) (author_bot : bool) : bool :=
  if author_bot then false
  else String.eqb author_id "617037497574359050".

End Legacy.

(** ** Entry allocation and the donation handler *)

Module Donation.

(** [usdValue < draw.minAmount ||
     (draw.maxAmount && usdValue > draw.maxAmount)] *)
Definition out_of_range (usdValue : Q) (draw : Draw.t) : bool :=
  Qltb usdValue (Draw.minAmount draw) ||
  (truthy_Q (Draw.maxAmount draw) &&
   match Draw.maxAmount draw with
   | Some mx => Qltb mx usdValue
   | None => false
   end).

(** [selectedDrawId && selectedDrawId !== 'auto' && drawId !== selectedDrawId] *)
Definition other_selected (selectedDrawId : option string) (drawId : string)
  : bool :=
  match selectedDrawId with
  | Some s =>
      truthy_str selectedDrawId && negb (String.eqb s "auto")
      && negb (String.eqb drawId s)
  | None => false
  end.

(** [draw.vipOnly && db.config?.vipRoleId] and the member lacks the role. *)
Definition vip_blocked (vipRoleId : option string) (m : Member) (draw : Draw.t)
  : bool :=
  match vipRoleId with
  | Some r =>
      Draw.vipOnly draw && truthy_str vipRoleId && negb (Rewards.has_role m r)
  | None => false
  end.

(** [draw.maxEntries && currentEntries >= draw.maxEntries] *)
Definition full (draw : Draw.t) (currentEntries : jsint) : bool :=
  match Draw.maxEntries draw with
  | Some mx => truthy_Z (Some mx) && jle (Int mx) currentEntries
  | None => false
  end.

(** [draw.maxEntries ? Math.min(entries, draw.maxEntries - currentEntries)
                      : entries] *)
Definition entriesToAdd (draw : Draw.t) (entries currentEntries : jsint)
  : jsint :=
  match Draw.maxEntries draw with
  | Some mx =>
      if truthy_Z (Some mx) then jmin entries (jsub (Int mx) currentEntries)
      else entries
  | None => entries
  end.

(** [if (!o[k]) o[k] = 0; o[k] += n] on the draw's ledger. *)
Definition ledger_add (k : string) (n : jsint) (l : obj jsint) : obj jsint :=
  let l0 := if truthy_oint (oget k l) then l else oset k (Int 0) l in
  oset k (jadd (default (Int 0) (oget k l0)) n) l0.

(** The same two statements on the user's per-draw counts. *)
Definition entries_add (k : string) (n : jsint) (e : gmap string jsint)
  : gmap string jsint :=
  let e0 := if truthy_oint (e !! k) then e else <[k := Int 0]> e in
  <[k := jadd (default (Int 0) (e0 !! k)) n]> e0.

(** The number of entries the loop body grants to one draw: [None] when a
    [continue] is taken. *)
Definition grant (vipRoleId : option string) (m : Member)
    (selectedDrawId : option string) (usdValue : Q)
    (drawId : string) (draw : Draw.t) : option jsint :=
  if negb (Draw.active draw) then None
  else if out_of_range usdValue draw then None
  else if Draw.manualEntriesOnly draw then None
  else if other_selected selectedDrawId drawId then None
  else if vip_blocked vipRoleId m draw then None
  else
    let entries := floor_div usdValue (Draw.minAmount draw) in
    if jle entries (Int 0) then None
    else
      let currentEntries := sum_counts (Draw.ledger draw) in
      if full draw currentEntries then None
      else Some (entriesToAdd draw entries currentEntries).

(** The state the loop threads: the draws already visited, the sender's
    record, the running total and the log lines. *)
Record LoopState : Type := {
  ls_draws : obj Draw.t;
  ls_user : User.t;
  ls_entriesAdded : jsint;
  ls_log : list Event;
}.

(** One iteration of
    [for (const [drawId, draw] of Object.entries(db.donationDraws || {}))]. *)
Definition loop_body (vipRoleId : option string) (m : Member)
    (senderId : string) (selectedDrawId : option string) (usdValue : Q)
    (st : LoopState) (kd : string * Draw.t) : LoopState :=
  let '(drawId, draw) := kd in
  match grant vipRoleId m selectedDrawId usdValue drawId draw with
  | None =>
      {| ls_draws := (ls_draws st ++ [(drawId, draw)])%list;
         ls_user := ls_user st;
         ls_entriesAdded := ls_entriesAdded st;
         ls_log := ls_log st |}
  | Some n =>
      let draw' :=
        Draw.set_entries (Some (ledger_add senderId n (Draw.ledger draw))) draw in
      let user' :=
        User.set_entries
          (Some (entries_add drawId n (default ∅ (User.entries (ls_user st)))))
          (ls_user st) in
      {| ls_draws := (ls_draws st ++ [(drawId, draw')])%list;
         ls_user := user';
         ls_entriesAdded := jadd (ls_entriesAdded st) n;
         ls_log := (ls_log st ++ [EntriesAdded (Draw.name draw) n])%list |}
  end.

(** The whole loop. *)
Definition addEntries (vipRoleId : option string) (m : Member)
    (senderId : string) (usdValue : Q) (userData : User.t)
    (donationDraws : obj Draw.t) : LoopState :=
  fold_left
    (loop_body vipRoleId m senderId (User.selectedDraw userData) usdValue)
    donationDraws
    {| ls_draws := []; ls_user := userData;
       ls_entriesAdded := Int 0; ls_log := [] |}.

(** The sender lookup: by id when the sender is all digits, then by user
    name, then by display name. *)
Definition findSender (g : Guild) (sender : string) : option Member :=
  let byId := if is_numeric_id sender then members_fetch g sender else None in
  match byId with
  | Some m => Some m
  | None =>
      match List.find (fun m => includes (toLowerCase (username m))
                                         (toLowerCase sender))
                      (members_cache g) with
      | Some m => Some m
      | None =>
          List.find (fun m => includes (toLowerCase (displayName m))
                                       (toLowerCase sender))
                    (members_cache g)
      end
  end.

(** What one run of the handler leaves behind. *)
Record Outcome : Type := {
  out_db : Database.t;          (* the document in memory *)
  out_saved : bool;             (* whether [saveDatabase] was called *)
  out_events : list Event;
  out_calls : list Call;        (* requests sent to price providers *)
}.

Definition dropped (db : Database.t) (calls : list Call) : Outcome :=
  {| out_db := db; out_saved := false; out_events := []; out_calls := calls |}.

(** The settings that come from [config.js] and the clock. *)
Record Settings : Type := {
  DEFAULT_ACCEPTED_CRYPTOCURRENCIES : list string;
  ACHIEVEMENTS : obj Achievement;
  now_donation : Z;             (* [Date.now()] of the donation record *)
  now_streak : Z;               (* [Date.now()] of the streak update *)
}.

(** The part of the handler that follows a resolved, non-zero USD value
    and a found sender. *)
Definition recordDonation (cfg : Settings) (msg : Message) (tip : Tip)
    (usdValue : Q) (senderMember : Member) (calls : list Call)
    (db : Database.t) : Outcome :=
  let senderId := member_id senderMember in
  let user0 := default User.fresh_donor (oget senderId (Database.users db)) in
  let oldTotal := User.totalDonated user0 in
  let user1 := User.set_totalDonated (fadd oldTotal usdValue) user0 in
  let user2 :=
    User.set_donations
      (Some (default [] (User.donations user1) ++
             [{| don_amount := usdValue;
                 don_currency := tip_currency tip;
                 don_originalAmount := parseFloat (tip_amount tip);
                 don_timestamp := now_donation cfg;
                 don_recipient := tip_recipient tip |}])%list) user1 in
  let user3 := Rewards.updateDonationStreak (now_streak cfg) user2 in
  let db3 := Database.set_users (oset senderId user3 (Database.users db)) db in
  let roleEvents :=
    Rewards.assignDonorRoles db3 (guild msg) senderMember
                             (User.totalDonated user3) oldTotal in
  let '(user4, achEvents) :=
    Rewards.checkAndAssignAchievements (ACHIEVEMENTS cfg) (guild msg)
      senderMember user3 (Database.users db3) in
  let st :=
    addEntries (Database.cfg Config.vipRoleId db3) senderMember senderId
               usdValue user4 (default [] (Database.donationDraws db3)) in
  let db5 :=
    Database.mk (Database.config db3)
                (oset senderId (ls_user st) (Database.users db3))
                (match Database.donationDraws db3 with
                 | Some _ => Some (ls_draws st)
                 | None => None
                 end) in
  {| out_db := db5;
     out_saved := true;
     out_events :=
       (roleEvents ++ achEvents ++ ls_log st ++
        (if jlt (Int 0) (ls_entriesAdded st)
         then [Confirmation senderId usdValue (ls_entriesAdded st)
                            (User.totalDonated (ls_user st))]
         else []))%list;
     out_calls := calls |}.

(** [handleTipccDonation(message)], for the document [db] that
    [getDatabase(message.guildId)] returns. *)
Definition handleTipccDonation (cfg : Settings) (net : Net)
    (msg : Message) (db : Database.t) : Outcome :=
  if negb (truthy_str (guildId msg)) then dropped db []
  else
    match Grammar.parseTip (content msg) with
    | None => dropped db []
    | Some tip =>
        match Database.cfg Config.allowedRecipients db with
        | None | Some [] => dropped db []
        | Some allowed =>
            if negb (Policy.isAllowedRecipient allowed (tip_recipient tip))
            then dropped db []
            else if negb (Policy.currencyAccepted
                            (DEFAULT_ACCEPTED_CRYPTOCURRENCIES cfg) db
                            (tip_currency tip))
            then dropped db []
            else
              let '(usdValue, calls) :=
                Price.resolveUsdValue net (content msg) (tip_currency tip)
                                      (parseFloat (tip_amount tip)) in
              match usdValue with
              | Some v =>
                  if negb (truthy_Q usdValue) then dropped db calls
                  else
                    match findSender (guild msg) (tip_sender tip) with
                    | None => dropped db calls
                    | Some senderMember =>
                        recordDonation cfg msg tip v senderMember calls db
                    end
              | None => dropped db calls
              end
        end
    end.

(** [execute(message)]: whether the message is handed to
    [handleTipccDonation].  The author is compared with the id of tip.cc
    before messages of bots are ignored. *)
Definition execute (author_id : string) (author_bot : bool) : bool :=
  String.eqb author_id "617037497574359050".

End Donation.

(** ** The admin sub-commands that touch draws, users and the blacklist *)

Module Admin.

Inductive Reply : Type :=
| DrawNotFound
| DrawNotActive
| NoEntriesFound
| WinnerSelected (winnerId : option string) (totalEntries : jsint)
| EntriesMustBePositive
| NeedUserOrRole
| MemberFetchFailed
| NoUsersFound
| NoSpace (totalNewEntries : Z) (remaining : jsint)
| EntriesAssigned (perUser : Z) (assignedCount : Z)
| DrawCreated (drawId : string).

(** [handleCreateDraw]: the options are stored as given;
    [max_amount] falls back to 1000000 when absent or 0. *)
Definition handleCreateDraw (name reward : string) (min_amount : Q)
    (max_amount : option Q) (max_entries : Z) (vip_only manual_entries : option bool)
    (now : Z) (by_ : string) (db : Database.t) : Database.t * Reply :=
  let drawId := "draw_" ++ pretty now in
  let newDraw :=
    Draw.mk drawId name reward min_amount
            (if truthy_Q max_amount then max_amount else Some 1000000%Q)
            (Some max_entries)
            (default false vip_only) (default false manual_entries)
            true (Some []) None None None by_ now in
  (Database.set_donationDraws
     (Some (oset drawId newDraw (default [] (Database.donationDraws db)))) db,
   DrawCreated drawId).

(** The inner [for (let i = 0; i < entryCount; i++)] loop pushes the id
    [entryCount] times; it does not end when the count is infinite. *)
Definition copies (userId : string) (entryCount : jsint) : option (list string) :=
  match entryCount with
  | Int n => Some (replicate (Z.to_nat n) userId)
  | PosInf => None
  | NegInf | NaN => Some []
  end.

Fixpoint weightedEntries (entries : obj jsint) : option (list string) :=
  match entries with
  | [] => Some []
  | (userId, entryCount) :: rest =>
      match copies userId entryCount, weightedEntries rest with
      | Some c, Some w => Some (c ++ w)%list
      | _, _ => None
      end
  end.

(** [weightedEntries[Math.floor(random * weightedEntries.length)]] *)
Definition pick (random : Q) (w : list string) : option string :=
  let randomIndex := Qfloor (random * inject_Z (Z.of_nat (length w))) in
  if (randomIndex <? 0)%Z then None else w !! Z.to_nat randomIndex.

(** [handleSelectWinner]: [random] is the value of [Math.random()], [now]
    of [Date.now()], [by_] the id of the invoking admin.  The result is
    [None] when the weighted array cannot be built. *)
Definition handleSelectWinner (drawId : string) (random : Q) (now : Z)
    (by_ : string) (db : Database.t) : option (Database.t * bool * Reply) :=
  match Database.donationDraws db ≫= oget drawId with
  | None => Some (db, false, DrawNotFound)
  | Some draw =>
      if negb (Draw.active draw) then Some (db, false, DrawNotActive)
      else
        let entries := Draw.ledger draw in
        let totalEntries := sum_counts entries in
        if bool_decide (totalEntries = Int 0) then Some (db, false, NoEntriesFound)
        else
          match weightedEntries entries with
          | None => None
          | Some w =>
              let winnerId := pick random w in
              let draw' := Draw.close winnerId now by_ draw in
              let key := default "undefined" winnerId in
              let user := default User.fresh_admin (oget key (Database.users db)) in
              let user' := User.set_wins (User.wins user + 1) user in
              Some (Database.mk
                      (Database.config db)
                      (oset key user' (Database.users db))
                      (Some (oset drawId draw'
                               (default [] (Database.donationDraws db)))),
                    true, WinnerSelected winnerId totalEntries)
          end
  end.

(** A missing [maxEntries] compares as [NaN]. *)
Definition toNumber (o : option Z) : jsint :=
  match o with
  | Some z => Int z
  | None => NaN
  end.

(** One iteration of [for (const targetUser of targetUsers)]. *)
Definition assign_one (drawId : string) (entries : Z)
    (st : obj jsint * obj User.t) (targetUser : string)
  : obj jsint * obj User.t :=
  let '(ledger, users) := st in
  let user := default User.fresh_admin (oget targetUser users) in
  let user' :=
    User.set_entries
      (Some (Donation.entries_add drawId (Int entries)
               (default ∅ (User.entries user)))) user in
  (Donation.ledger_add targetUser (Int entries) ledger,
   oset targetUser user' users).

(** [handleAssignEntries]: [user] and [role] are the optional targets,
    [members] the result of [guild.members.fetch()] ([None] when it
    rejects). *)
Definition handleAssignEntries (user role : option string) (drawId : string)
    (entries : Z) (members : option (list Member)) (db : Database.t)
  : Database.t * bool * Reply :=
  match Database.donationDraws db ≫= oget drawId with
  | None => (db, false, DrawNotFound)
  | Some draw =>
      if negb (Draw.active draw) then (db, false, DrawNotActive)
      else if (entries <=? 0)%Z then (db, false, EntriesMustBePositive)
      else
        let targets : option (option (list string)) :=
          match user, role with
          | Some u, _ => Some (Some [u])
          | None, Some r =>
              Some ((fun ms => map member_id
                       (List.filter (fun m => Rewards.has_role m r) ms))
                    <$> members)
          | None, None => None
          end in
        match targets with
        | None => (db, false, NeedUserOrRole)
        | Some None => (db, false, MemberFetchFailed)
        | Some (Some []) => (db, false, NoUsersFound)
        | Some (Some targetUsers) =>
            let currentEntries := sum_counts (Draw.ledger draw) in
            let totalNewEntries := Z.of_nat (length targetUsers) * entries in
            if jlt (toNumber (Draw.maxEntries draw))
                   (jadd currentEntries (Int totalNewEntries))
            then (db, false,
                  NoSpace totalNewEntries
                          (jsub (toNumber (Draw.maxEntries draw)) currentEntries))
            else
              let '(ledger, users) :=
                fold_left (assign_one drawId entries) targetUsers
                          (Draw.ledger draw, Database.users db) in
              (Database.mk
                 (Database.config db) users
                 (Some (oset drawId (Draw.set_entries (Some ledger) draw)
                          (default [] (Database.donationDraws db)))),
               true,
               EntriesAssigned entries (Z.of_nat (length targetUsers)))
        end
  end.

(** [fixUserAchievements(guild, db, userId, ACHIEVEMENTS)]: the document
    after the call and the number of achievements added; [None] when
    [db.users[userId]] is missing and the property access throws. *)
Definition fixUserAchievements (ACHIEVEMENTS : obj Achievement)
    (db : Database.t) (userId : string) : option (Database.t * Z) :=
  match oget userId (Database.users db) with
  | None => None
  | Some userData =>
      let held := default [] (User.achievements userData) in
      let '(arr, new) :=
        Rewards.evaluate ACHIEVEMENTS (Database.users db) userId userData held in
      Some (Database.set_users
              (oset userId (User.set_achievements (Some arr) userData)
                    (Database.users db)) db,
            Z.of_nat (length new))
  end.

Record FixReport : Type := {
  fix_db : Database.t;
  fix_saved : bool;
  fixedCount : Z;
  usersProcessed : Z;
}.

(** One iteration of the loop over [Object.entries(db.users)]; the loop
    stops at the first call that throws. *)
Definition fix_step (ACHIEVEMENTS : obj Achievement)
    (st : option (Database.t * Z * Z)) (ku : string * User.t)
  : option (Database.t * Z * Z) :=
  match st with
  | None => None
  | Some (db, fixed, processed) =>
      if Qltb 0 (User.totalDonated (snd ku)) then
        match fixUserAchievements ACHIEVEMENTS db (fst ku) with
        | Some (db', n) => Some (db', fixed + n, processed + 1)
        | None => None
        end
      else Some (db, fixed, processed)
  end.

(** [handleFixAchievements]: for one user when [targetUser] is given, for
    every user with a positive total otherwise. *)
Definition handleFixAchievements (ACHIEVEMENTS : obj Achievement)
    (targetUser : option string) (db : Database.t) : FixReport :=
  match targetUser with
  | Some userId =>
      match fixUserAchievements ACHIEVEMENTS db userId with
      | Some (db', n) =>
          {| fix_db := db'; fix_saved := true; fixedCount := n; usersProcessed := 1 |}
      | None =>
          {| fix_db := db; fix_saved := true; fixedCount := 0; usersProcessed := 0 |}
      end
  | None =>
      match fold_left (fix_step ACHIEVEMENTS) (Database.users db) (Some (db, 0, 0)) with
      | Some (db', fixed, processed) =>
          {| fix_db := db'; fix_saved := true;
             fixedCount := fixed; usersProcessed := processed |}
      | None =>
          {| fix_db := db; fix_saved := false; fixedCount := 0; usersProcessed := 0 |}
      end
  end.

Inductive BlacklistAction : Type := add_user | remove_user | list_users.

(** [handleBlacklist]: the document after the call and whether it was
    saved.  The two initialisations at the top happen on every path. *)
Definition handleBlacklist (action : BlacklistAction)
    (user : option (string * string)) (reason : option string) (by_ : string)
    (now : Z) (db : Database.t) : Database.t * bool :=
  let config := default Config.empty (Database.config db) in
  let bl := default {| bl_users := []; bl_roles := [] |}
                    (Config.globalBlacklist config) in
  let with_bl (b : Blacklist) : Database.t :=
    Database.set_config (Some (Config.set_globalBlacklist (Some b) config)) db in
  match action, user with
  | add_user, None | remove_user, None => (with_bl bl, false)
  | add_user, Some (uid, uname) =>
      if existsb (fun e => String.eqb (bl_id e) uid) (bl_users bl)
      then (with_bl bl, false)
      else
        (with_bl {| bl_users :=
                      (bl_users bl ++
                       [{| bl_id := uid; bl_username := uname;
                           bl_reason := default "No reason provided" reason;
                           bl_addedBy := by_; bl_addedAt := now |}])%list;
                    bl_roles := bl_roles bl |}, true)
  | remove_user, Some (uid, _) =>
      if existsb (fun e => String.eqb (bl_id e) uid) (bl_users bl)
      then
        (with_bl {| bl_users :=
                      (fix drop (l : list BlacklistEntry) :=
                         match l with
                         | [] => []
                         | e :: r => if String.eqb (bl_id e) uid then r
                                     else e :: drop r
                         end) (bl_users bl);
                    bl_roles := bl_roles bl |}, true)
      else (with_bl bl, false)
  | list_users, _ => (with_bl bl, true)
  end.

End Admin.

(** ** Vocabulary of the specification *)

Module Spec.

(** A count that is a plain integer. *)
Definition finite (a : jsint) : Prop := exists n, a = Int n.

(** An optional bound that the code treats as absent. *)
Definition unset_Q (o : option Q) : Prop :=
  match o with
  | Some q => (q == 0)%Q
  | None => True
  end.

Definition unset_str (o : option string) : Prop :=
  o = None \/ o = Some "".

(** The bounds, targeting and mode conditions of a draw, as the loop tests
    them. *)
Definition open_to (selectedDraw : option string) (usdValue : Q)
    (drawId : string) (d : Draw.t) : Prop :=
  Draw.active d = true /\
  (Draw.minAmount d <= usdValue)%Q /\
  (unset_Q (Draw.maxAmount d) \/
   exists mx, Draw.maxAmount d = Some mx /\ (usdValue <= mx)%Q) /\
  Draw.manualEntriesOnly d = false /\
  (unset_str selectedDraw \/ selectedDraw = Some "auto" \/
   selectedDraw = Some drawId).

(** The member holds the VIP role the guild has configured. *)
Definition holds_vip (vipRoleId : option string) (m : Member) : Prop :=
  exists r, vipRoleId = Some r /\ r <> "" /\ r ∈ roles m.

(** Eligibility in the words of the specification: a VIP-only draw asks
    for the configured VIP role. *)
Definition eligible_stated (vipRoleId : option string) (m : Member)
    (selectedDraw : option string) (usdValue : Q) (drawId : string)
    (d : Draw.t) : Prop :=
  open_to selectedDraw usdValue drawId d /\
  (Draw.vipOnly d = true -> holds_vip vipRoleId m).

(** Eligibility as the code decides it: the VIP test applies only when a
    VIP role is configured. *)
Definition eligible (vipRoleId : option string) (m : Member)
    (selectedDraw : option string) (usdValue : Q) (drawId : string)
    (d : Draw.t) : Prop :=
  open_to selectedDraw usdValue drawId d /\
  (Draw.vipOnly d = true -> ~ unset_str vipRoleId -> holds_vip vipRoleId m).

(** [e] entries clamped to the room a draw with [c] entries has left;
    a [maxEntries] of 0 or none is no bound. *)
Definition clamp (d : Draw.t) (c e : Z) : Z :=
  match Draw.maxEntries d with
  | Some mx => if (mx =? 0)%Z then e else Z.max 0 (Z.min e (mx - c))
  | None => e
  end.

(** The count one draw receives, 0 when it is skipped. *)
Definition granted (g : option jsint) : jsint := default (Int 0) g.

(** The draw one iteration of the loop leaves, in closed form; it serves
    the proofs. *)
Definition credit (senderId : string) (g : option jsint) (d : Draw.t) : Draw.t :=
  match g with
  | Some n =>
      Draw.set_entries (Some (Donation.ledger_add senderId n (Draw.ledger d))) d
  | None => d
  end.

(** [t] occurs in [s]. *)
Definition contains (s t : string) : Prop :=
  exists p q, s = p ++ t ++ q.

(** What the achievement tests read of a user. *)
Definition facts (u : User.t) : Q * option Streaks * Z * option string :=
  (User.totalDonated u, User.streaks u, User.wins u, User.referredBy u).

(** Two user tables with the same ids, in the same order, and the same
    facts under each id. *)
Definition same_facts (us us' : obj User.t) : Prop :=
  map (fun ku => (ku.1, facts ku.2)) us = map (fun ku => (ku.1, facts ku.2)) us'.

(** A user whose achievements a new evaluation would leave as they are. *)
Definition settled (ACHIEVEMENTS : obj Achievement) (users : obj User.t)
    (k : string) : Prop :=
  exists u arr,
    oget k users = Some u /\ User.achievements u = Some arr /\
    Rewards.evaluate ACHIEVEMENTS users k u arr = (arr, []).

(** The number of users the repair of all users visits. *)
Definition positives (us : obj User.t) : Z :=
  Z.of_nat (length (List.filter
    (fun ku : string * User.t => Qltb 0 (User.totalDonated ku.2)) us)).

(** Two documents that differ at most in [config.globalBlacklist] and in
    the channel ids of [config], which no handler reads; a missing
    [config] counts as one whose fields are all missing. *)
Definition blind (db1 db2 : Database.t) : Prop :=
  Database.users db1 = Database.users db2 /\
  Database.donationDraws db1 = Database.donationDraws db2 /\
  Database.cfg Config.allowedRecipients db1
    = Database.cfg Config.allowedRecipients db2 /\
  Database.cfg Config.acceptedCryptocurrencies db1
    = Database.cfg Config.acceptedCryptocurrencies db2 /\
  Database.cfg Config.donorRoles db1 = Database.cfg Config.donorRoles db2 /\
  Database.cfg Config.vipRoleId db1 = Database.cfg Config.vipRoleId db2 /\
  Database.cfg Config.adminRoleId db1 = Database.cfg Config.adminRoleId db2.

End Spec.

(** ** Sample data for the examples *)

Module Sample.

Definition alice : Member :=
  {| member_id := "111111111111111111"; username := "alice";
     displayName := "Alice"; roles := ∅ |}.

Definition guild_1 : Guild :=
  {| members_fetch :=
       fun i => if String.eqb i "111111111111111111" then Some alice else None;
     members_cache := [alice];
     channels := ["general"] |}.

(** A draw as [/admin create_draw] stores it. *)
Definition draw_of (name : string) (min_amount : Q) (max_entries : Z)
    (vip_only : bool) (now : Z) : Draw.t :=
  Draw.mk ("draw_" ++ pretty now) name "prize" min_amount (Some 1000000%Q)
          (Some max_entries) vip_only false true (Some []) None None None
          "659745190382141453" now.

Definition weekly : Draw.t := draw_of "Weekly" 5%Q 100 false 1.
Definition free_for_all : Draw.t := draw_of "Free" 0%Q 100 false 2.
Definition vip_draw : Draw.t := draw_of "VIP" 5%Q 100 true 3.

(** Donor tiers, and a member who already holds the highest of them. *)
Definition bronze : DonorRole :=
  {| role_name := "Bronze"; role_minAmount := 5; role_maxAmount := Some 25%Q;
     role_id := "900000000000000001" |}.
Definition silver : DonorRole :=
  {| role_name := "Silver"; role_minAmount := 26; role_maxAmount := Some 50%Q;
     role_id := "900000000000000002" |}.
Definition gold : DonorRole :=
  {| role_name := "Gold"; role_minAmount := 51; role_maxAmount := Some 100%Q;
     role_id := "900000000000000003" |}.

Definition tiers : obj DonorRole :=
  [("bronze", bronze); ("silver", silver); ("gold", gold)].

Definition golden : Member :=
  {| member_id := "222222222222222222"; username := "midas";
     displayName := "Midas"; roles := {[ role_id gold ]} |}.

(** A draw that was closed by hand while holding entries. *)
Definition closed_draw : Draw.t :=
  Draw.mk "draw_4" "Closed" "prize" 5%Q (Some 1000000%Q) (Some 100) false false
          false (Some [("111111111111111111", Int 3)]) None None None
          "659745190382141453" 4.

Definition closed_db : Database.t :=
  Database.mk None [] (Some [("draw_4", closed_draw)]).

(** A guild in which [bob] may receive donations and one draw is open. *)
Definition live_db : Database.t :=
  Database.mk
    (Some (Config.mk (Some [VStr "bob"; VOther]) None (Some tiers) None None
                     None None None))
    []
    (Some [("draw_1", weekly)]).

(** The same guild with only the draw whose minimum is 0. *)
Definition zero_db : Database.t :=
  Database.mk
    (Some (Config.mk (Some [VStr "bob"; VOther]) None (Some tiers) None None
                     None None None))
    []
    (Some [("draw_2", free_for_all)]).

(** The same guild, without a VIP role, with only the VIP-only draw. *)
Definition vip_db : Database.t :=
  Database.mk
    (Some (Config.mk (Some [VStr "bob"; VOther]) None (Some tiers) None None
                     None None None))
    []
    (Some [("draw_3", vip_draw)]).

(** A draw created with [max_entries] 0, alone in the same guild. *)
Definition no_room : Draw.t := draw_of "NoRoom" 5%Q 0 false 6.

Definition no_room_db : Database.t :=
  Database.mk
    (Some (Config.mk (Some [VStr "bob"; VOther]) None (Some tiers) None None
                     None None None))
    []
    (Some [("draw_6", no_room)]).

Definition settings : Donation.Settings :=
  {| Donation.DEFAULT_ACCEPTED_CRYPTOCURRENCIES := ["BTC"; "ETH"; "LTC"];
     Donation.ACHIEVEMENTS :=
       [("first_steps", {| ach_name := "First Steps"; ach_description := "" |});
        ("generous_donor", {| ach_name := "Generous Donor"; ach_description := "" |})];
     Donation.now_donation := 1700000000000;
     Donation.now_streak := 1700000000001 |}.

Definition offline : Net :=
  {| http := fun _ _ => NetworkError; COINMARKETCAP_API_KEY := None |}.

Definition announcement (text : string) : Message :=
  {| content := text; guildId := Some "800000000000000001"; guild := guild_1 |}.

(** A draw with a minimum of ten cents, alone in the same guild. *)
Definition dime : Draw.t := draw_of "Dime" (1 # 10)%Q 100 false 8.

Definition dime_db : Database.t :=
  Database.mk
    (Some (Config.mk (Some [VStr "bob"; VOther]) None (Some tiers) None None
                     None None None))
    []
    (Some [("draw_8", dime)]).

(** An open draw in which two users hold entries. *)
Definition running_draw : Draw.t :=
  Draw.mk "draw_5" "Running" "prize" 5%Q (Some 1000000%Q) (Some 100) false false
          true (Some [("111111111111111111", Int 2); ("222222222222222222", Int 1)])
          None None None "659745190382141453" 5.

Definition running_db : Database.t :=
  Database.mk None [] (Some [("draw_5", running_draw)]).

End Sample.

(** ** The admin sub-commands that edit the configuration *)

Module Configure.

Definition set_allowedRecipients (x : option (list jsval)) (c : Config.t)
  : Config.t :=
  Config.mk x (Config.acceptedCryptocurrencies c) (Config.donorRoles c)
            (Config.vipRoleId c) (Config.adminRoleId c)
            (Config.globalBlacklist c) (Config.logChannelId c)
            (Config.notificationChannelId c).
Definition set_acceptedCryptocurrencies (x : option (list string))
    (c : Config.t) : Config.t :=
  Config.mk (Config.allowedRecipients c) x (Config.donorRoles c)
            (Config.vipRoleId c) (Config.adminRoleId c)
            (Config.globalBlacklist c) (Config.logChannelId c)
            (Config.notificationChannelId c).
Definition set_donorRoles (x : option (obj DonorRole)) (c : Config.t)
  : Config.t :=
  Config.mk (Config.allowedRecipients c) (Config.acceptedCryptocurrencies c) x
            (Config.vipRoleId c) (Config.adminRoleId c)
            (Config.globalBlacklist c) (Config.logChannelId c)
            (Config.notificationChannelId c).
Definition set_adminRoleId (x : option string) (c : Config.t) : Config.t :=
  Config.mk (Config.allowedRecipients c) (Config.acceptedCryptocurrencies c)
            (Config.donorRoles c) (Config.vipRoleId c) x
            (Config.globalBlacklist c) (Config.logChannelId c)
            (Config.notificationChannelId c).
(** [if (channel) db.config.logChannelId = channel.id], and the same for
    [notificationChannelId]: an option that is not given leaves the field. *)
Definition set_channels (logChannel notificationChannel : option string)
    (c : Config.t) : Config.t :=
  Config.mk (Config.allowedRecipients c) (Config.acceptedCryptocurrencies c)
            (Config.donorRoles c) (Config.vipRoleId c) (Config.adminRoleId c)
            (Config.globalBlacklist c)
            (match logChannel with
             | Some ch => Some ch
             | None => Config.logChannelId c
             end)
            (match notificationChannel with
             | Some ch => Some ch
             | None => Config.notificationChannelId c
             end).

(** [db.config] after [if (!db.config) db.config = {}]. *)
Definition config_of (db : Database.t) : Config.t :=
  default Config.empty (Database.config db).

Inductive Reply : Type :=
| NoPermission
| NeedAdministrator
| SetupComplete (adminRole : string) (logChannel notificationChannel : option string)
| AlreadyListed (recipient : string)
| RecipientAdded (recipient : string) (current : list jsval)
| NoRecipientsConfigured
| NotListed (recipient : string)
| RecipientRemoved (recipient : string) (current : list jsval)
| RecipientsCleaned (originalCount cleanedCount removedCount : Z)
                    (current : list jsval)
| DrawNotFound
| DrawUpdated (drawId : string) (active manualEntriesOnly vipOnly : bool)
| MemberUpdated (drawId : string)
| CommandFailed
| FeatureStatus (featureList : list (bool * string))
| FeatureIs (name : string) (currentStatus : bool)
| FeatureUpdated (name : string) (oldStatus enabled : bool)
| CurrencyList (accepted : list string) (count : Z)
| NeedCurrency
| AlreadyAccepted (currency : string)
| CurrencyAdded (currency : string) (accepted : list string)
| NotAccepted (currency : string)
| CurrencyRemoved (currency : string) (accepted : list string)
| CurrenciesReset (accepted : list string)
| InvalidAction
| NoDonorRoles
| DonorRolesListed (roles : obj DonorRole)
| AutoConfigured (setupCount : Z)
| NoMatchingRoles
| NeedRoleAndMinimum
| DonorRoleAdded (role : DonorRole)
| NeedRole
| DonorRoleRemoved (name : string)
| NotADonorRole (name : string)
| DonorRolesReset.

(** What a sub-command leaves behind: the document in memory, whether
    [saveDatabase] was called, and the reply. *)
Record Result : Type := {
  res_db : Database.t;
  res_saved : bool;
  res_reply : Reply;
}.

(** *** Access *)

(** [process.env.OWNER_ID || "659745190382141453"] *)
Definition ownerId (OWNER_ID : option string) : string :=
  match OWNER_ID with
  | Some s => if truthy_str OWNER_ID then s else "659745190382141453"
  | None => "659745190382141453"
  end.

(** [checkAdminPermissions(interaction, db)]: [userId] is
    [interaction.user.id], [g] the guild of the interaction. *)
Definition checkAdminPermissions (OWNER_ID : option string) (g : Guild)
    (userId : string) (db : Database.t) : bool :=
  if String.eqb userId (ownerId OWNER_ID) then true
  else
    match Database.cfg Config.adminRoleId db with
    | Some adminRoleId =>
        if negb (truthy_str (Some adminRoleId)) then false
        else
          match members_fetch g userId with
          | Some member => Rewards.has_role member adminRoleId
          | None => false
          end
    | None => false
    end.

(** [handleSetup]: [administrator] is
    [interaction.member.permissions.has("Administrator")], [adminRole] the
    id of the role option, the channel options the ids of the channels
    given. *)
Definition handleSetup (OWNER_ID : option string) (userId : string)
    (administrator : bool) (adminRole : string)
    (logChannel notificationChannel : option string) (db : Database.t)
  : Result :=
  if negb (String.eqb userId (ownerId OWNER_ID)) && negb administrator
  then {| res_db := db; res_saved := false; res_reply := NeedAdministrator |}
  else
    {| res_db :=
         Database.set_config
           (Some (set_channels logChannel notificationChannel
                    (set_adminRoleId (Some adminRole) (config_of db)))) db;
       res_saved := true;
       res_reply := SetupComplete adminRole logChannel notificationChannel |}.

(** [/admin setup] as [execute] runs it: the permission check that
    precedes every sub-command, then the handler. *)
Definition setup (OWNER_ID : option string) (g : Guild) (userId : string)
    (administrator : bool) (adminRole : string)
    (logChannel notificationChannel : option string) (db : Database.t)
  : Result :=
  if negb (checkAdminPermissions OWNER_ID g userId db)
  then {| res_db := db; res_saved := false; res_reply := NoPermission |}
  else handleSetup OWNER_ID userId administrator adminRole logChannel
                   notificationChannel db.

(** *** Recipients *)

(** [x === recipient] for an element of the list: only a string can be
    equal to the option the command receives. *)
Definition is_str (recipient : string) (x : jsval) : bool :=
  match x with
  | VStr a => String.eqb a recipient
  | VOther => false
  end.

(** [l.splice(l.indexOf(x), 1)] for an [x] that occurs: the first match
    goes. *)
Fixpoint splice_first {A} (p : A -> bool) (l : list A) : list A :=
  match l with
  | [] => []
  | a :: r => if p a then r else a :: splice_first p r
  end.

Definition with_allowed (allowed : list jsval) (db : Database.t) : Database.t :=
  Database.set_config
    (Some (set_allowedRecipients (Some allowed) (config_of db))) db.

Definition handleAddRecipient (recipient : string) (db : Database.t) : Result :=
  let allowed := default [] (Config.allowedRecipients (config_of db)) in
  if existsb (is_str recipient) allowed then
    {| res_db := with_allowed allowed db; res_saved := false;
       res_reply := AlreadyListed recipient |}
  else
    let allowed' := (allowed ++ [VStr recipient])%list in
    {| res_db := with_allowed allowed' db; res_saved := true;
       res_reply := RecipientAdded recipient allowed' |}.

Definition handleRemoveRecipient (recipient : string) (db : Database.t)
  : Result :=
  match Database.cfg Config.allowedRecipients db with
  | None =>
      {| res_db := db; res_saved := false; res_reply := NoRecipientsConfigured |}
  | Some allowed =>
      if existsb (is_str recipient) allowed then
        let allowed' := splice_first (is_str recipient) allowed in
        {| res_db := with_allowed allowed' db; res_saved := true;
           res_reply := RecipientRemoved recipient allowed' |}
      else
        {| res_db := db; res_saved := false; res_reply := NotListed recipient |}
  end.

(** The white space of [String.prototype.trim] beyond ASCII, as the three
    bytes of its UTF-8 encoding: U+1680, U+2000 to U+200A, U+2028, U+2029,
    U+202F, U+205F, U+3000 and U+FEFF. *)
Definition white3 (a b c : nat) : bool :=
  ((a =? 225) && (b =? 154) && (c =? 128)
   || (a =? 226) && (b =? 128)
      && (((128 <=? c) && (c <=? 138)) || (c =? 168) || (c =? 169) || (c =? 175))
   || (a =? 226) && (b =? 129) && (c =? 159)
   || (a =? 227) && (b =? 128) && (c =? 128)
   || (a =? 239) && (b =? 187) && (c =? 191))%nat.

(** [s.trim().length > 0] fails: the string is made of white space, which
    is the white space of ASCII, U+00A0 (bytes 194 160) and the
    characters of [white3]. *)
Fixpoint blank (s : string) : bool :=
  match s with
  | EmptyString => true
  | String c r =>
      if Grammar.space c then blank r
      else
        match r with
        | String c1 r1 =>
            if ((nat_of_ascii c =? 194) && (nat_of_ascii c1 =? 160))%nat
            then blank r1
            else
              match r1 with
              | String c2 r2 =>
                  white3 (nat_of_ascii c) (nat_of_ascii c1) (nat_of_ascii c2)
                  && blank r2
              | EmptyString => false
              end
        | EmptyString => false
        end
  end.

(** [typeof recipient === 'string' && recipient.trim().length > 0] *)
Definition proper (x : jsval) : bool :=
  match x with
  | VStr a => negb (blank a)
  | VOther => false
  end.

Definition handleCleanRecipients (db : Database.t) : Result :=
  let allowed := default [] (Config.allowedRecipients (config_of db)) in
  let originalCount := Z.of_nat (length allowed) in
  let cleaned := List.filter proper allowed in
  let cleanedCount := Z.of_nat (length cleaned) in
  {| res_db := with_allowed cleaned db; res_saved := true;
     res_reply := RecipientsCleaned originalCount cleanedCount
                                    (originalCount - cleanedCount) cleaned |}.

(** *** Draws *)

(** The two fields [edit_draw] stamps on the draw ([lastModified],
    [modifiedBy]); no code of the bot reads them, and they are kept beside
    the document. *)
Record Stamp : Type := {
  lastModified : Z;
  modifiedBy : string;
}.

(** [handleEditDraw]: a text option replaces the field when it is not
    empty, every other option when it is given.

    [db.donationDraws?.[drawId]] also finds the members of
    [Object.prototype].  For such a [drawId] that is no draw, the command
    writes to the member, which is no part of the document, saves and
    replies as for a draw ([MemberUpdated]; the reply shows properties of
    the member).  All members but the one under ["__proto__"] are
    functions, whose [name] cannot be assigned in a module: with a name
    given the assignment throws before anything is written, and [execute]
    replies that the command failed. *)
Definition handleEditDraw (drawId : string) (newName newReward : option string)
    (newMinAmount newMaxAmount : option Q) (newMaxEntries : option Z)
    (newActive newManualEntries newVipOnly : option bool)
    (now : Z) (by_ : string) (db : Database.t) : Result * option Stamp :=
  match Database.donationDraws db ≫= oget drawId with
  | None =>
      if match Database.donationDraws db with Some _ => true | None => false end
         && inherited drawId
      then
        if truthy_str newName && negb (String.eqb drawId "__proto__")
        then ({| res_db := db; res_saved := false;
                 res_reply := CommandFailed |}, None)
        else ({| res_db := db; res_saved := true;
                 res_reply := MemberUpdated drawId |},
              Some {| lastModified := now; modifiedBy := by_ |})
      else
        ({| res_db := db; res_saved := false; res_reply := DrawNotFound |},
         None)
  | Some draw =>
      let draw' :=
        Draw.mk (Draw.id draw)
          (match newName with
           | Some n => if truthy_str newName then n else Draw.name draw
           | None => Draw.name draw
           end)
          (match newReward with
           | Some r => if truthy_str newReward then r else Draw.reward draw
           | None => Draw.reward draw
           end)
          (default (Draw.minAmount draw) newMinAmount)
          (match newMaxAmount with
           | Some x => Some x
           | None => Draw.maxAmount draw
           end)
          (match newMaxEntries with
           | Some x => Some x
           | None => Draw.maxEntries draw
           end)
          (default (Draw.vipOnly draw) newVipOnly)
          (default (Draw.manualEntriesOnly draw) newManualEntries)
          (default (Draw.active draw) newActive)
          (Draw.entries draw) (Draw.winner draw) (Draw.winnerSelectedAt draw)
          (Draw.selectedBy draw) (Draw.createdBy draw) (Draw.createdAt draw) in
      ({| res_db :=
            Database.set_donationDraws
              (Some (oset drawId draw' (default [] (Database.donationDraws db))))
              db;
          res_saved := true;
          res_reply := DrawUpdated drawId (Draw.active draw')
                                   (Draw.manualEntriesOnly draw')
                                   (Draw.vipOnly draw') |},
       Some {| lastModified := now; modifiedBy := by_ |})
  end.

(** *** Feature toggles *)

Definition defaultToggles : obj bool :=
  [("vipDraws", true); ("achievementSystem", true);
   ("seasonalLeaderboards", true); ("drawNotifications", true);
   ("anonymousMode", true); ("automatedDraws", true)].

Definition featureNames : obj string :=
  [("vipDraws", "VIP Draws"); ("achievementSystem", "Achievement System");
   ("seasonalLeaderboards", "Seasonal Leaderboards");
   ("drawNotifications", "Draw Notifications");
   ("anonymousMode", "Privacy Controls"); ("automatedDraws", "Automated Draws")].

(** [names[key] || key] *)
Definition getFeatureName (key : string) : string :=
  default key (oget key featureNames).

(** [handleFeatures]: [featureToggles] is [db.config.featureToggles], which
    only this command reads; it is passed and returned beside the
    document. *)
Definition handleFeatures (feature : string) (enabled : option bool)
    (db : Database.t) (featureToggles : option (obj bool))
  : Result * obj bool :=
  let db0 := Database.set_config (Some (config_of db)) db in
  let toggles := default defaultToggles featureToggles in
  if String.eqb feature "view_all" then
    ({| res_db := db0; res_saved := false;
        res_reply :=
          FeatureStatus (map (fun ke => (snd ke, getFeatureName (fst ke)))
                             toggles) |},
     toggles)
  else
    match enabled with
    | None =>
        ({| res_db := db0; res_saved := false;
            res_reply := FeatureIs (getFeatureName feature)
                                   (default false (oget feature toggles)) |},
         toggles)
    | Some e =>
        let oldStatus := default false (oget feature toggles) in
        ({| res_db := db0; res_saved := true;
            res_reply := FeatureUpdated (getFeatureName feature) oldStatus e |},
         oset feature e toggles)
    end.

(** *** Accepted currencies *)

(** A run of a sub-command that can end in an exception: the result, or
    the document in memory when the exception leaves the handler. *)
Inductive Run : Type :=
| Done (r : Result)
| Threw (db : Database.t).

Definition with_accepted (accepted : list string) (db : Database.t)
  : Database.t :=
  Database.set_config
    (Some (set_acceptedCryptocurrencies (Some accepted) (config_of db))) db.

(** [handleCryptocurrencies].  [DEFAULTS] is what the expression
    [CONFIG.DEFAULT_ACCEPTED_CRYPTOCURRENCIES] evaluates to in the module of
    the command: the list, or [None] when the evaluation throws.  The
    module imports discord.js, the database and the logger only, so the
    identifier [CONFIG] is not bound there and [None] is the case of the
    code as it stands. *)
Definition handleCryptocurrencies (DEFAULTS : option (list string))
    (action : string) (currency : option string) (db : Database.t) : Run :=
  let currency := toUpperCase <$> currency in
  let db0 := Database.set_config (Some (config_of db)) db in
  let initialised :=
    match Config.acceptedCryptocurrencies (config_of db) with
    | Some l => Some l
    | None => DEFAULTS
    end in
  match initialised with
  | None => Threw db0
  | Some accepted =>
      if String.eqb action "list" then
        Done {| res_db := with_accepted accepted db; res_saved := false;
                res_reply := CurrencyList accepted
                                          (Z.of_nat (length accepted)) |}
      else if String.eqb action "add" then
        match currency with
        | Some c =>
            if negb (truthy_str currency) then
              Done {| res_db := with_accepted accepted db; res_saved := false;
                      res_reply := NeedCurrency |}
            else if existsb (String.eqb c) accepted then
              Done {| res_db := with_accepted accepted db; res_saved := false;
                      res_reply := AlreadyAccepted c |}
            else
              let accepted' := (accepted ++ [c])%list in
              Done {| res_db := with_accepted accepted' db; res_saved := true;
                      res_reply := CurrencyAdded c accepted' |}
        | None =>
            Done {| res_db := with_accepted accepted db; res_saved := false;
                    res_reply := NeedCurrency |}
        end
      else if String.eqb action "remove" then
        match currency with
        | Some c =>
            if negb (truthy_str currency) then
              Done {| res_db := with_accepted accepted db; res_saved := false;
                      res_reply := NeedCurrency |}
            else if existsb (String.eqb c) accepted then
              let accepted' := splice_first (String.eqb c) accepted in
              Done {| res_db := with_accepted accepted' db; res_saved := true;
                      res_reply := CurrencyRemoved c accepted' |}
            else
              Done {| res_db := with_accepted accepted db; res_saved := false;
                      res_reply := NotAccepted c |}
        | None =>
            Done {| res_db := with_accepted accepted db; res_saved := false;
                    res_reply := NeedCurrency |}
        end
      else if String.eqb action "reset" then
        match DEFAULTS with
        | Some d =>
            Done {| res_db := with_accepted d db; res_saved := true;
                    res_reply := CurrenciesReset d |}
        | None => Threw (with_accepted accepted db)
        end
      else
        Done {| res_db := with_accepted accepted db; res_saved := false;
                res_reply := InvalidAction |}
  end.

(** *** Donor roles *)

Definition with_donorRoles (donorRoles : obj DonorRole) (db : Database.t)
  : Database.t :=
  Database.set_config
    (Some (set_donorRoles (Some donorRoles) (config_of db))) db.

(** The table of [auto_setup]: a name to look for, and the range the role
    found under it gets. *)
Definition donorRoleNames : list (string * Q * option Q) :=
  [("bronze donor", 5%Q, Some 25%Q); ("silver donor", 26%Q, Some 50%Q);
   ("gold donor", 51%Q, Some 100%Q); ("platinum donor", 101%Q, Some 250%Q);
   ("diamond donor", 251%Q, Some 500%Q); ("onyx donor", 500%Q, None)].

(** [guild.roles.cache.find(r =>
      r.name.toLowerCase().includes(roleConfig.name.toLowerCase()))],
    for the roles of the guild as pairs of an id and a name. *)
Definition findRole (guildRoles : list (string * string)) (name : string)
  : option (string * string) :=
  List.find (fun r => includes (toLowerCase (snd r)) (toLowerCase name))
            guildRoles.

(** One iteration of [for (const roleConfig of donorRoleNames)]. *)
Definition auto_step (guildRoles : list (string * string))
    (st : obj DonorRole * Z) (roleConfig : string * Q * option Q)
  : obj DonorRole * Z :=
  let '(name, min, max) := roleConfig in
  match findRole guildRoles name with
  | Some (rid, rname) =>
      (oset rid {| role_name := rname; role_minAmount := min;
                   role_maxAmount := max; role_id := rid |} (fst st),
       snd st + 1)
  | None => st
  end.

(** [handleConfigureDonorRoles]: [role] is the optional role option as a
    pair of an id and a name, [guildRoles] is [guild.roles.cache]. *)
Definition handleConfigureDonorRoles (guildRoles : list (string * string))
    (action : string) (role : option (string * string))
    (minAmount maxAmount : option Q) (db : Database.t) : Result :=
  let donorRoles := default [] (Config.donorRoles (config_of db)) in
  if String.eqb action "view" then
    {| res_db := with_donorRoles donorRoles db; res_saved := false;
       res_reply := match okeys donorRoles with
                    | [] => NoDonorRoles
                    | _ => DonorRolesListed donorRoles
                    end |}
  else if String.eqb action "auto_setup" then
    let '(donorRoles', setupCount) :=
      fold_left (auto_step guildRoles) donorRoleNames (donorRoles, 0) in
    if (0 <? setupCount)%Z then
      {| res_db := with_donorRoles donorRoles' db; res_saved := true;
         res_reply := AutoConfigured setupCount |}
    else
      {| res_db := with_donorRoles donorRoles' db; res_saved := false;
         res_reply := NoMatchingRoles |}
  else if String.eqb action "add" then
    match role, minAmount with
    | Some (rid, rname), Some min =>
        let new := {| role_name := rname; role_minAmount := min;
                      role_maxAmount := maxAmount; role_id := rid |} in
        {| res_db := with_donorRoles (oset rid new donorRoles) db;
           res_saved := true; res_reply := DonorRoleAdded new |}
    | _, _ =>
        {| res_db := with_donorRoles donorRoles db; res_saved := false;
           res_reply := NeedRoleAndMinimum |}
    end
  else if String.eqb action "remove" then
    match role with
    | Some (rid, rname) =>
        match oget rid donorRoles with
        | Some _ =>
            {| res_db := with_donorRoles (odel rid donorRoles) db;
               res_saved := true; res_reply := DonorRoleRemoved rname |}
        | None =>
            {| res_db := with_donorRoles donorRoles db; res_saved := false;
               res_reply := NotADonorRole rname |}
        end
    | None =>
        {| res_db := with_donorRoles donorRoles db; res_saved := false;
           res_reply := NeedRole |}
    end
  else if String.eqb action "reset" then
    {| res_db := with_donorRoles [] db; res_saved := true;
       res_reply := DonorRolesReset |}
  else
    {| res_db := with_donorRoles donorRoles db; res_saved := false;
       res_reply := InvalidAction |}.

End Configure.

(** ** The dashboard and the analytics *)

Module Stats.

(** [Object.values(db.users || {}).reduce((sum, user) =>
      sum + (user.totalDonated || 0), 0)] *)
Definition totalDonations (users : obj User.t) : Q :=
  fold_left (fun sum user => fadd sum (User.totalDonated user))
            (ovalues users) 0%Q.

(** [Object.values(draws).filter((d) => d.active)] *)
Definition activeDraws (draws : obj Draw.t) : list Draw.t :=
  List.filter Draw.active (ovalues draws).

(** [Object.values(draws).filter((d) => !d.active && d.winner)] *)
Definition completedDraws (draws : obj Draw.t) : list Draw.t :=
  List.filter (fun d => negb (Draw.active d) && truthy_str (Draw.winner d))
              (ovalues draws).

(** [Object.values(draws).reduce((sum, draw) =>
      sum + Object.values(draw.entries || {}).reduce((s, c) => s + c, 0), 0)] *)
Definition totalEntries (draws : obj Draw.t) : jsint :=
  fold_left (fun sum draw => jadd sum (sum_counts (Draw.ledger draw)))
            (ovalues draws) (Int 0).

(** [Object.values(users).reduce((sum, user) => sum + (user.wins || 0), 0)] *)
Definition totalWins (users : obj User.t) : Z :=
  fold_left (fun sum user => sum + User.wins user) (ovalues users) 0.

(** [Object.values(users).flatMap((user) => user.donations || [])] *)
Definition allDonations (users : obj User.t) : list Donation :=
  flat_map (fun user => default [] (User.donations user)) (ovalues users).

(** [total / n] when [n > 0], 0 otherwise. *)
Definition average (total : Q) (n : nat) : Q :=
  match n with
  | O => 0%Q
  | S _ => fdiv total (inject_Z (Z.of_nat n))
  end.

Inductive Report : Type :=
| Dashboard (activeDraws totalUsers : Z) (totalDonations : Q)
| Overview (totalDonations avgDonation : Q)
           (totalDraws activeDraws activeUsers : Z)
| Donations (count : Z) (totalAmount avgDonationAmount : Q)
| Draws (totalDraws activeDraws completedDraws : Z) (totalEntries : jsint)
| Users (totalUsers totalWins usersWithPrivacy : Z)
| NoFields.

Definition count {A} (l : list A) : Z := Z.of_nat (length l).

(** [handleDashboard] *)
Definition handleDashboard (db : Database.t) : Report :=
  Dashboard (count (activeDraws (default [] (Database.donationDraws db))))
            (count (okeys (Database.users db)))
            (totalDonations (Database.users db)).

(** [handleAnalytics]: [type] is the optional [type] option. *)
Definition handleAnalytics (type : option string) (db : Database.t) : Report :=
  let type := match type with
              | Some t => if truthy_str type then t else "overview"
              | None => "overview"
              end in
  let users := Database.users db in
  let draws := default [] (Database.donationDraws db) in
  if String.eqb type "overview" then
    Overview (totalDonations users)
             (average (totalDonations users) (length (okeys users)))
             (count (okeys draws)) (count (activeDraws draws))
             (count (okeys users))
  else if String.eqb type "donations" then
    let donations := allDonations users in
    let totalAmount :=
      fold_left (fun sum d => fadd sum (don_amount d)) donations 0%Q in
    Donations (count donations) totalAmount
              (average totalAmount (length donations))
  else if String.eqb type "draws" then
    Draws (count (okeys draws)) (count (activeDraws draws))
          (count (completedDraws draws)) (totalEntries draws)
  else if String.eqb type "users" then
    Users (count (okeys users)) (totalWins users)
          (count (List.filter User.privacyEnabled (ovalues users)))
  else NoFields.

End Stats.

(** ** The price lookup of the handler that asks two providers *)

Module LegacyPrice.

(** [getCryptoPrice(symbol, amount)]: one [try] around both requests, so
    a request that rejects ends the lookup. *)
Definition getCryptoPrice (net : Net) (symbol : string) (amount : option Q)
  : option Q * list Call :=
  let coinId := Price.getCoinGeckoId symbol in
  match http net CoinGecko coinId with
  | NetworkError => (None, [(CoinGecko, coinId)])
  | Response ok usd =>
      if ok && truthy_Q usd then
        (usd ≫= fun price => Qmult price <$> amount, [(CoinGecko, coinId)])
      else if negb (truthy_str (COINMARKETCAP_API_KEY net)) then
        (None, [(CoinGecko, coinId)])
      else
        let calls := [(CoinGecko, coinId); (CoinMarketCap, toUpperCase symbol)] in
        match http net CoinMarketCap (toUpperCase symbol) with
        | NetworkError => (None, calls)
        | Response _ price =>
            if truthy_Q price
            then (price ≫= fun p => Qmult p <$> amount, calls)
            else (None, calls)
        end
  end.

End LegacyPrice.

(** ** Vocabulary of the further properties *)

Module Notions.

(** The record of a user after donations at the given instants, as far as
    the streak goes. *)
Definition after_donations (times : list Z) (u : User.t) : User.t :=
  fold_left (fun u t => Rewards.updateDonationStreak t u) times u.

(** Each donation comes at most a day after the one before it, [last]
    being the instant of the one before the first; no instant is 0. *)
Fixpoint within_a_day (last : Z) (times : list Z) : Prop :=
  match times with
  | [] => True
  | t :: r =>
      last <> 0 /\ t - last <= Rewards.oneDayMs /\ within_a_day t r
  end.

(** How often a string occurs in a list of recipients. *)
Definition occurrences (recipient : string) (l : list jsval) : Z :=
  Z.of_nat (length (List.filter (Configure.is_str recipient) l)).

(** The recipient test of the handler that compares for equality,
    together with the test that precedes it: a missing or empty list
    accepts nobody. *)
Definition accepts (db : Database.t) (recipient : string) : bool :=
  Policy.isAllowedRecipient
    (default [] (Database.cfg Config.allowedRecipients db)) recipient.

(** Every character of the string passes the test. *)
Fixpoint made_of (p : ascii -> bool) (s : string) : bool :=
  match s with
  | EmptyString => true
  | String c r => p c && made_of p r
  end.

(** What a pattern item captures: characters of its class, at least one
    when the class is repeated one or more times. *)
Definition cap_ok (it : Grammar.item) (c : string) : Prop :=
  made_of (Grammar.cls it) c = true /\ (Grammar.rep it = Grammar.Plus -> c <> "").

(** A field that is not empty and made of the given characters. *)
Definition field_of (p : ascii -> bool) (s : string) : Prop :=
  s <> "" /\ made_of p s = true.

(** The shape of what a grammar extracts: no field is empty; sender,
    recipient and currency are made of letters, digits and underscores,
    the amount of digits and dots. *)
Definition well_formed (tip : Tip) : Prop :=
  field_of Grammar.word (tip_sender tip) /\
  field_of Grammar.word (tip_recipient tip) /\
  field_of Grammar.digit_or_dot (tip_amount tip) /\
  field_of Grammar.word (tip_currency tip).

(** A total that falls between the ranges of the table of [auto_setup],
    or below the first of them. *)
Definition between_tiers (t : Q) : Prop :=
  (t < 5 \/ (25 < t /\ t < 26) \/ (50 < t /\ t < 51) \/
   (100 < t /\ t < 101) \/ (250 < t /\ t < 251))%Q.

(** The donor roles of a document, as the handlers read them. *)
Definition donorRoles_of (db : Database.t) : obj DonorRole :=
  default [] (Database.cfg Config.donorRoles db).

(** [o[kv.1] = kv.2] *)
Definition put {V} (o : obj V) (kv : string * V) : obj V := oset kv.1 kv.2 o.

(** What one row of the table of [auto_setup] assigns: the role found
    under the row's name, with the row's range, under the id of the
    role; nothing when the guild has no such role. *)
Definition assignment (guildRoles : list (string * string))
    (roleConfig : string * Q * option Q) : option (string * DonorRole) :=
  match Configure.findRole guildRoles roleConfig.1.1 with
  | Some (rid, rname) =>
      Some (rid, {| role_name := rname; role_minAmount := roleConfig.1.2;
                    role_maxAmount := roleConfig.2; role_id := rid |})
  | None => None
  end.

(** The ids on the blacklist of a document, in order. *)
Definition blacklisted (db : Database.t) : list string :=
  map bl_id
      (bl_users (default {| bl_users := []; bl_roles := [] |}
                         (Database.cfg Config.globalBlacklist db))).

(** The count a stored value stands for: a value that is missing, 0 or
    [NaN] counts as 0. *)
Definition held (o : option jsint) : jsint :=
  if truthy_oint o then default (Int 0) o else Int 0.

(** The entries a user's record lists; none for a user without a record
    or without the field. *)
Definition entries_of (users : obj User.t) (userId : string)
  : gmap string jsint :=
  default ∅ (oget userId users ≫= User.entries).

(** The two copies of every count agree: what the ledger of a draw gives
    a user is what the user's record gives for the draw. *)
Definition in_step (db : Database.t) : Prop :=
  forall drawId d userId,
    Database.donationDraws db ≫= oget drawId = Some d ->
    held (oget userId (Draw.ledger d))
    = held (entries_of (Database.users db) userId !! drawId).

(** A document in step: the running draw of the samples, with the records
    of its two entrants. *)
Definition synced_db : Database.t :=
  Database.mk None
    [("111111111111111111",
      User.set_entries (Some {[ "draw_5" := Int 2 ]}) User.fresh_donor);
     ("222222222222222222",
      User.set_entries (Some {[ "draw_5" := Int 1 ]}) User.fresh_donor)]
    (Some [("draw_5", Sample.running_draw)]).

End Notions.

(** * Properties *)

(** ** Facts about the primitives *)

Section JSFacts.

Lemma Qltb_true (a b : Q) : Qltb a b = true <-> (a < b)%Q.
Proof.
  unfold Qltb. rewrite negb_true_iff, <- not_true_iff_false, Qle_bool_iff.
  split; [apply Qnot_le_lt | apply Qlt_not_le].
Qed.

Lemma Qltb_false (a b : Q) : Qltb a b = false <-> (b <= a)%Q.
Proof.
  unfold Qltb. rewrite negb_false_iff. apply Qle_bool_iff.
Qed.

Lemma Qzero_true (a : Q) : Qzero a = true <-> (a == 0)%Q.
Proof. apply Qeq_bool_iff. Qed.

Lemma Qzero_false (a : Q) : Qzero a = false <-> ~ (a == 0)%Q.
Proof. rewrite <- not_true_iff_false, Qzero_true. tauto. Qed.

Lemma truthy_Q_Some (q : Q) : truthy_Q (Some q) = true <-> ~ (q == 0)%Q.
Proof. simpl. rewrite negb_true_iff. apply Qzero_false. Qed.

Lemma truthy_Z_Some (z : Z) : truthy_Z (Some z) = true <-> z <> 0.
Proof. destruct z; simpl; split; intros; try congruence; try lia. Qed.

(** *** Rounding to a double *)

Section Rounding.
Local Open Scope Q_scope.

Lemma pow2_pos z : 0 < pow2 z.
Proof. apply Qpower_0_lt. reflexivity. Qed.

Lemma pow2_add a b : pow2 (a + b) == pow2 a * pow2 b.
Proof. apply Qpower_plus. discriminate. Qed.

Lemma pow2_le a b : (a <= b)%Z -> pow2 a <= pow2 b.
Proof. intros H. apply Qpower_le_compat_l; [exact H|]. discriminate. Qed.

Lemma pow2_lt_inv a b : pow2 a < pow2 b -> (a < b)%Z.
Proof.
  intros H. destruct (Z.lt_ge_cases a b) as [|Hge]; [assumption|].
  apply pow2_le in Hge. lra.
Qed.

Lemma pow2_inject n : (0 <= n)%Z -> pow2 n == inject_Z (2 ^ n).
Proof. intros H. unfold pow2. now rewrite Zpower_Qpower. Qed.

Lemma pow2_0 : pow2 0 == 1.
Proof. reflexivity. Qed.

Lemma Q_as_fraction x : x == inject_Z (Qnum x) / inject_Z (Zpos (Qden x)).
Proof. destruct x as [n d]. apply Qmake_Qdiv. Qed.

Lemma ilog2_spec x :
  0 < x -> pow2 (ilog2 x) <= x /\ x < pow2 (ilog2 x + 1).
Proof.
  intros Hx.
  assert (Hn : (0 < Qnum x)%Z).
  { destruct x as [n d]. unfold Qlt in Hx. simpl in *. lia. }
  set (a := Z.log2 (Qnum x)). set (b := Z.log2 (Zpos (Qden x))).
  assert (Ha : (2 ^ a <= Qnum x < 2 ^ (a + 1))%Z).
  { replace (a + 1)%Z with (Z.succ a) by lia. now apply Z.log2_spec. }
  assert (Hb : (2 ^ b <= Zpos (Qden x) < 2 ^ (b + 1))%Z).
  { replace (b + 1)%Z with (Z.succ b) by lia. now apply Z.log2_spec. }
  assert (Ha0 : (0 <= a)%Z) by apply Z.log2_nonneg.
  assert (Hb0 : (0 <= b)%Z) by apply Z.log2_nonneg.
  assert (Hd : 0 < inject_Z (Zpos (Qden x))) by reflexivity.
  assert (Hlow : pow2 (a - b - 1) <= x).
  { rewrite (Q_as_fraction x). apply Qle_shift_div_l; [exact Hd|].
    apply Qle_trans with (pow2 (a - b - 1) * pow2 (b + 1)).
    - apply Qmult_le_l; [apply pow2_pos|].
      rewrite pow2_inject by lia. rewrite <- Zle_Qle. lia.
    - rewrite <- pow2_add. replace (a - b - 1 + (b + 1))%Z with a by lia.
      rewrite pow2_inject by lia. rewrite <- Zle_Qle. lia. }
  assert (Hup : x < pow2 (a - b + 1)).
  { rewrite (Q_as_fraction x). apply Qlt_shift_div_r; [exact Hd|].
    apply Qlt_le_trans with (pow2 (a - b + 1) * pow2 b).
    - rewrite <- pow2_add. replace (a - b + 1 + b)%Z with (a + 1)%Z by lia.
      rewrite pow2_inject by lia. rewrite <- Zlt_Qlt. lia.
    - apply Qmult_le_l; [apply pow2_pos|].
      rewrite pow2_inject by lia. rewrite <- Zle_Qle. lia. }
  unfold ilog2. fold a b.
  destruct (Qle_bool (pow2 (a - b)) x) eqn:E.
  - apply Qle_bool_iff in E. split; [exact E | exact Hup].
  - split; [exact Hlow|].
    replace (a - b - 1 + 1)%Z with (a - b)%Z by lia.
    apply Qnot_le_lt. intros H. apply Qle_bool_iff in H. congruence.
Qed.

Lemma ilog2_mono x y : 0 < x -> x <= y -> (ilog2 x <= ilog2 y)%Z.
Proof.
  intros Hx Hxy.
  destruct (ilog2_spec x Hx) as [H1 _].
  destruct (ilog2_spec y) as [_ H2]; [lra|].
  assert (H : (ilog2 x < ilog2 y + 1)%Z) by (apply pow2_lt_inv; lra).
  lia.
Qed.

Lemma round_half_even_bounds s :
  (Qfloor s <= round_half_even s <= Qfloor s + 1)%Z.
Proof.
  unfold round_half_even.
  destruct (s - inject_Z (Qfloor s) ?= 1 # 2); try lia.
  destruct (Z.even (Qfloor s)); lia.
Qed.

Lemma round_half_even_int k : round_half_even (inject_Z k) = k.
Proof.
  unfold round_half_even. rewrite Qfloor_Z.
  assert (H : (inject_Z k - inject_Z k ?= 1 # 2) = Lt).
  { apply (proj1 (Qlt_alt _ _)). generalize (inject_Z k). intros q. lra. }
  now rewrite H.
Qed.

Lemma round_half_even_mono s t :
  s <= t -> (round_half_even s <= round_half_even t)%Z.
Proof.
  intros Hst.
  pose proof (Qfloor_resp_le _ _ Hst) as Hf.
  pose proof (round_half_even_bounds s) as Hs.
  pose proof (round_half_even_bounds t) as Ht.
  destruct (Z.eq_dec (Qfloor s) (Qfloor t)) as [E|]; [|lia].
  unfold round_half_even. rewrite <- E.
  destruct (s - inject_Z (Qfloor s) ?= 1 # 2) eqn:Cs;
    destruct (t - inject_Z (Qfloor s) ?= 1 # 2) eqn:Ct;
    try (destruct (Z.even (Qfloor s)); lia); try lia; exfalso.
  all: first [apply (proj2 (Qeq_alt _ _)) in Cs
            |apply (proj2 (Qgt_alt _ _)) in Cs];
    first [apply (proj2 (Qeq_alt _ _)) in Ct
          |apply (proj2 (Qlt_alt _ _)) in Ct];
    lra.
Qed.

(** The value before reduction. *)
Lemma double_pos_eq x :
  double_pos x
  == inject_Z (round_half_even (x / pow2 (ulp_exp x))) * pow2 (ulp_exp x).
Proof. unfold double_pos. cbv zeta. apply Qred_correct. Qed.

Lemma scaled_bounds x :
  0 < x ->
  pow2 (ilog2 x - ulp_exp x) <= x / pow2 (ulp_exp x) /\
  x / pow2 (ulp_exp x) < pow2 (ilog2 x + 1 - ulp_exp x).
Proof.
  intros Hx. destruct (ilog2_spec x Hx) as [H1 H2].
  pose proof (pow2_pos (ulp_exp x)) as Hp.
  split.
  - apply Qle_shift_div_l; [exact Hp|]. rewrite <- pow2_add.
    now replace (ilog2 x - ulp_exp x + ulp_exp x)%Z with (ilog2 x) by lia.
  - apply Qlt_shift_div_r; [exact Hp|]. rewrite <- pow2_add.
    now replace (ilog2 x + 1 - ulp_exp x + ulp_exp x)%Z
      with (ilog2 x + 1)%Z by lia.
Qed.

(** A value in the normal range rounds to at least its power of two. *)
Lemma double_pos_lower x :
  0 < x -> ulp_exp x = (ilog2 x - 52)%Z -> pow2 (ilog2 x) <= double_pos x.
Proof.
  intros Hx Hp. rewrite double_pos_eq.
  destruct (scaled_bounds x Hx) as [H1 _].
  rewrite Hp in *. replace (ilog2 x - (ilog2 x - 52))%Z with 52%Z in H1 by lia.
  assert (Hk : (2 ^ 52 <= round_half_even (x / pow2 (ilog2 x - 52)))%Z).
  { rewrite <- (round_half_even_int (2 ^ 52)).
    apply round_half_even_mono. now rewrite <- pow2_inject by lia. }
  apply Qle_trans with (inject_Z (2 ^ 52) * pow2 (ilog2 x - 52)).
  - rewrite <- pow2_inject by lia. rewrite <- pow2_add.
    replace (52 + (ilog2 x - 52))%Z with (ilog2 x) by lia. apply Qle_refl.
  - apply Qmult_le_compat_r; [|apply Qlt_le_weak, pow2_pos].
    now rewrite <- Zle_Qle.
Qed.

(** It never rounds beyond the next power of two, or beyond the smallest
    positive double. *)
Lemma double_pos_upper x :
  0 < x -> double_pos x <= pow2 (Z.max (ilog2 x + 1) (ulp_exp x)).
Proof.
  intros Hx. rewrite double_pos_eq.
  destruct (scaled_bounds x Hx) as [_ H2].
  set (p := ulp_exp x) in *. set (e := ilog2 x) in *.
  pose proof (pow2_pos p) as Hp.
  destruct (Z.le_gt_cases p (e + 1)) as [Hle|Hgt].
  - rewrite Z.max_l by lia.
    assert (Hk : (round_half_even (x / pow2 p) <= 2 ^ (e + 1 - p))%Z).
    { rewrite <- (round_half_even_int (2 ^ (e + 1 - p))).
      apply round_half_even_mono. rewrite <- pow2_inject by lia. lra. }
    apply Qle_trans with (inject_Z (2 ^ (e + 1 - p)) * pow2 p).
    + apply Qmult_le_compat_r; [|lra]. now rewrite <- Zle_Qle.
    + rewrite <- pow2_inject by lia. rewrite <- pow2_add.
      replace (e + 1 - p + p)%Z with (e + 1)%Z by lia. apply Qle_refl.
  - rewrite Z.max_r by lia.
    assert (Hk : (round_half_even (x / pow2 p) <= 1)%Z).
    { rewrite <- (round_half_even_int 1).
      apply round_half_even_mono.
      apply Qle_trans with (pow2 (e + 1 - p)); [lra|].
      rewrite <- pow2_0. apply pow2_le. lia. }
    apply Qle_trans with (inject_Z 1 * pow2 p).
    + apply Qmult_le_compat_r; [|lra]. now rewrite <- Zle_Qle.
    + change (inject_Z 1) with 1. lra.
Qed.

Lemma double_pos_mono x y : 0 < x -> x <= y -> double_pos x <= double_pos y.
Proof.
  intros Hx Hxy. assert (Hy : 0 < y) by lra.
  pose proof (ilog2_mono x y Hx Hxy) as He.
  destruct (Z.eq_dec (ulp_exp x) (ulp_exp y)) as [E|Hne].
  - rewrite !double_pos_eq, E.
    apply Qmult_le_compat_r; [|apply Qlt_le_weak, pow2_pos].
    rewrite <- Zle_Qle. apply round_half_even_mono.
    apply Qmult_le_compat_r; [exact Hxy|].
    apply Qlt_le_weak, Qinv_lt_0_compat, pow2_pos.
  - assert (Hn : ulp_exp y = (ilog2 y - 52)%Z) by (unfold ulp_exp in *; lia).
    apply Qle_trans with (pow2 (Z.max (ilog2 x + 1) (ulp_exp x)));
      [now apply double_pos_upper|].
    apply Qle_trans with (pow2 (ilog2 y)); [|now apply double_pos_lower].
    apply pow2_le. unfold ulp_exp in *. lia.
Qed.

Lemma double_pos_nonneg x : 0 < x -> 0 <= double_pos x.
Proof.
  intros Hx. rewrite double_pos_eq.
  apply Qmult_le_0_compat; [|apply Qlt_le_weak, pow2_pos].
  change 0 with (inject_Z 0). rewrite <- Zle_Qle.
  pose proof (round_half_even_bounds (x / pow2 (ulp_exp x))).
  assert (0 <= Qfloor (x / pow2 (ulp_exp x)))%Z; [|lia].
  change 0%Z with (Qfloor 0). apply Qfloor_resp_le.
  apply Qle_shift_div_l; [apply pow2_pos|]. lra.
Qed.

Lemma double_of_pos x : 0 < x -> double x = double_pos x.
Proof.
  intros Hx. unfold double. destruct x as [[|n|n] d]; try reflexivity;
    unfold Qlt in Hx; simpl in Hx; lia.
Qed.

Lemma double_of_neg x : x < 0 -> double x = - double_pos (- x).
Proof.
  intros Hx. unfold double. destruct x as [[|n|n] d]; try reflexivity;
    unfold Qlt in Hx; simpl in Hx; lia.
Qed.

Lemma double_of_zero x : x == 0 -> double x = 0.
Proof.
  intros Hx. unfold double. destruct x as [[|n|n] d]; try reflexivity;
    unfold Qeq in Hx; simpl in Hx; lia.
Qed.

(** Rounding keeps the order. *)
Lemma double_mono x y : x <= y -> double x <= double y.
Proof.
  intros Hxy.
  destruct (Qlt_le_dec 0 x) as [Hx|Hx].
  - rewrite (double_of_pos x Hx), (double_of_pos y) by lra.
    now apply double_pos_mono.
  - destruct (Qlt_le_dec 0 y) as [Hy|Hy].
    + rewrite (double_of_pos y Hy).
      apply Qle_trans with 0; [|now apply double_pos_nonneg].
      destruct (Qeq_dec x 0) as [E|E].
      * rewrite (double_of_zero x E). apply Qle_refl.
      * rewrite (double_of_neg x) by lra.
        assert (0 <= double_pos (- x)) by (apply double_pos_nonneg; lra). lra.
    + destruct (Qeq_dec y 0) as [Ey|Ey].
      * rewrite (double_of_zero y Ey).
        destruct (Qeq_dec x 0) as [E|E].
        -- rewrite (double_of_zero x E). apply Qle_refl.
        -- rewrite (double_of_neg x) by lra.
           assert (0 <= double_pos (- x)) by (apply double_pos_nonneg; lra).
           lra.
      * rewrite (double_of_neg x), (double_of_neg y) by lra.
        assert (double_pos (- y) <= double_pos (- x))
          by (apply double_pos_mono; lra).
        lra.
Qed.

(** Equal rationals have the same exponent and round alike. *)
Lemma ilog2_unique x a : pow2 a <= x -> x < pow2 (a + 1) -> ilog2 x = a.
Proof.
  intros H1 H2.
  assert (Hx : 0 < x) by (pose proof (pow2_pos a); lra).
  destruct (ilog2_spec x Hx) as [H3 H4].
  assert (ilog2 x < a + 1)%Z by (apply pow2_lt_inv; lra).
  assert (a < ilog2 x + 1)%Z by (apply pow2_lt_inv; lra).
  lia.
Qed.

Lemma round_half_even_eq s t : s == t -> round_half_even s = round_half_even t.
Proof.
  intros H. apply Z.le_antisymm; apply round_half_even_mono; lra.
Qed.

Lemma log2_pow2 k : (0 < k)%Z ->
  pow2 (Z.log2 k) <= inject_Z k /\ inject_Z k < pow2 (Z.log2 k + 1).
Proof.
  intros Hk. pose proof (Z.log2_spec k Hk) as [H1 H2].
  pose proof (Z.log2_nonneg k).
  rewrite !pow2_inject by lia. rewrite <- Zle_Qle, <- Zlt_Qlt.
  replace (Z.log2 k + 1)%Z with (Z.succ (Z.log2 k)) by lia. lia.
Qed.

(** A value that has the form of a double rounds to itself. *)
Lemma double_pos_fix x k p :
  x == inject_Z k * pow2 p ->
  (0 < k < 2 ^ 53)%Z -> (-1074 <= p)%Z -> (-1074 < p -> 2 ^ 52 <= k)%Z ->
  double_pos x == x.
Proof.
  intros Hx Hk Hp Hn.
  destruct (log2_pow2 k) as [L1 L2]; [lia|].
  pose proof (pow2_pos p) as Hpp.
  assert (He : ilog2 x = (Z.log2 k + p)%Z).
  { apply ilog2_unique; rewrite Hx.
    - rewrite pow2_add. apply Qmult_le_compat_r; lra.
    - replace (Z.log2 k + p + 1)%Z with (Z.log2 k + 1 + p)%Z by lia.
      rewrite pow2_add. apply Qmult_lt_compat_r; lra. }
  assert (Hlog : (Z.log2 k <= 52)%Z).
  { assert (Z.log2 k < 53)%Z; [|lia]. apply Z.log2_lt_pow2; lia. }
  assert (Hu : ulp_exp x = p).
  { unfold ulp_exp. rewrite He.
    destruct (Z.eq_dec p (-1074)%Z) as [->|Hne]; [lia|].
    assert (52 <= Z.log2 k)%Z; [|lia].
    apply Z.log2_le_pow2; lia. }
  rewrite double_pos_eq, Hu.
  assert (Hs : x / pow2 p == inject_Z k).
  { rewrite Hx. field. lra. }
  rewrite (round_half_even_eq _ _ Hs), round_half_even_int.
  now rewrite Hx.
Qed.

Lemma double_pos_form x :
  0 < x ->
  double_pos x == 0 \/
  exists k p, double_pos x == inject_Z k * pow2 p /\
              (0 < k < 2 ^ 53)%Z /\ (-1074 <= p)%Z /\
              (-1074 < p -> 2 ^ 52 <= k)%Z.
Proof.
  intros Hx.
  set (p := ulp_exp x). set (e := ilog2 x).
  set (k := round_half_even (x / pow2 p)).
  pose proof (pow2_pos p) as Hpp.
  destruct (scaled_bounds x Hx) as [S1 S2]. fold p e in S1, S2.
  assert (Hk0 : (0 <= k)%Z).
  { pose proof (round_half_even_bounds (x / pow2 p)) as [Hb _].
    assert (0 <= Qfloor (x / pow2 p))%Z; [|unfold k; lia].
    change 0%Z with (Qfloor 0). apply Qfloor_resp_le.
    apply Qle_shift_div_l; lra. }
  assert (Hp : (-1074 <= p)%Z) by (unfold p, ulp_exp; lia).
  assert (Hk53 : (k <= 2 ^ 53)%Z).
  { unfold k. rewrite <- (round_half_even_int (2 ^ 53)).
    apply round_half_even_mono. rewrite <- pow2_inject by lia.
    apply Qle_trans with (pow2 (e + 1 - p)); [lra|].
    apply pow2_le. unfold p, ulp_exp. fold e. lia. }
  assert (Hk52 : (-1074 < p -> 2 ^ 52 <= k)%Z).
  { intros Hn. unfold k. rewrite <- (round_half_even_int (2 ^ 52)).
    apply round_half_even_mono. rewrite <- pow2_inject by lia.
    apply Qle_trans with (pow2 (e - p)); [|lra].
    apply pow2_le. unfold p, ulp_exp in *. fold e in Hn |- *. lia. }
  assert (Hval : double_pos x == inject_Z k * pow2 p) by apply double_pos_eq.
  destruct (Z.eq_dec k 0%Z) as [E0|E0].
  { left. rewrite Hval, E0. ring. }
  right. destruct (Z.eq_dec k (2 ^ 53)%Z) as [E|E].
  - exists (2 ^ 52)%Z, (p + 1)%Z. split; [|split; [lia|split; lia]].
    rewrite Hval, E, pow2_add.
    rewrite <- !pow2_inject by lia.
    change (pow2 53) with (pow2 (52 + 1)). rewrite pow2_add. ring.
  - exists k, p. split; [exact Hval|]. split; [lia|]. split; [exact Hp|exact Hk52].
Qed.

Lemma double_pos_pos_idem x : 0 < x -> double (double_pos x) == double_pos x.
Proof.
  intros Hx. destruct (double_pos_form x Hx) as [H0|(k & p & Hv & Hk & Hp & Hn)].
  - rewrite (double_of_zero _ H0). now rewrite H0.
  - assert (Hpos : 0 < double_pos x).
    { rewrite Hv. apply Qmult_lt_0_compat; [|apply pow2_pos].
      change 0 with (inject_Z 0). rewrite <- Zlt_Qlt. lia. }
    rewrite (double_of_pos _ Hpos).
    exact (double_pos_fix _ k p Hv Hk Hp Hn).
Qed.

Lemma double_comp x y : x == y -> double x == double y.
Proof. intros H. apply Qle_antisym; apply double_mono; lra. Qed.

Lemma double_reduced x : Qred (double x) = double x.
Proof.
  unfold double. destruct (Qnum x); [reflexivity| |].
  - unfold double_pos. cbv zeta. apply Qred_complete, Qred_correct.
  - unfold double_pos. cbv zeta. rewrite Qred_opp. f_equal.
    apply Qred_complete, Qred_correct.
Qed.

Lemma double_idem_eq x : double (double x) == double x.
Proof.
  destruct (Qlt_le_dec 0 x) as [Hx|Hx].
  - rewrite (double_of_pos x Hx). now apply double_pos_pos_idem.
  - destruct (Qeq_dec x 0) as [E|E].
    + rewrite (double_of_zero x E). reflexivity.
    + assert (Hn : 0 < - x) by lra.
      rewrite (double_of_neg x) by lra.
      pose proof (double_pos_pos_idem (- x) Hn) as H.
      pose proof (double_pos_nonneg (- x) Hn) as H0.
      destruct (Qeq_dec (double_pos (- x)) 0) as [Z|Z].
      * rewrite (double_of_zero (- double_pos (- x))) by lra. lra.
      * rewrite (double_of_neg (- double_pos (- x))) by lra.
        assert (Hd : double_pos (- - double_pos (- x))
                     == double_pos (- x)).
        { rewrite <- (double_of_pos (- - double_pos (- x))) by lra.
          rewrite (double_comp (- - double_pos (- x)) (double_pos (- x)))
            by ring.
          exact H. }
        lra.
Qed.

(** Rounding a double changes nothing. *)
Lemma double_idem x : double (double x) = double x.
Proof.
  transitivity (Qred (double x)); [|apply double_reduced].
  rewrite <- (double_reduced (double x)).
  apply Qred_complete, double_idem_eq.
Qed.

Lemma Qabs_le_cases a b :
  (a <= b \/ a <= - b) -> (- a <= b \/ - a <= - b) -> Qabs a <= Qabs b.
Proof.
  intros H1 H2. apply Qabs_Qle_condition.
  pose proof (Qle_Qabs b) as Hb. pose proof (Qle_Qabs (- b)) as Hb'.
  rewrite Qabs_opp in Hb'.
  split; [destruct H2; lra | destruct H1; lra].
Qed.

(** No integer is nearer than the one rounding picks. *)
Lemma round_half_even_nearest s j :
  Qabs (inject_Z (round_half_even s) - s) <= Qabs (inject_Z j - s).
Proof.
  pose proof (Qfloor_le s) as Hf. pose proof (Qlt_floor s) as Hc.
  set (f := Qfloor s) in *.
  assert (Hf1 : inject_Z (f + 1) == inject_Z f + 1)
    by (rewrite inject_Z_plus; reflexivity).
  rewrite Hf1 in Hc.
  assert (Hj : inject_Z j <= inject_Z f \/ inject_Z f + 1 <= inject_Z j).
  { destruct (Z.le_gt_cases j f) as [H|H].
    - left. now rewrite <- Zle_Qle.
    - right. rewrite <- Hf1, <- Zle_Qle. lia. }
  unfold round_half_even. fold f.
  destruct (s - inject_Z f ?= 1 # 2) eqn:C.
  - apply (proj2 (Qeq_alt _ _)) in C.
    destruct (Z.even f); [|rewrite Hf1];
      apply Qabs_le_cases; destruct Hj; lra.
  - apply (proj2 (Qlt_alt _ _)) in C.
    apply Qabs_le_cases; destruct Hj; lra.
  - apply (proj2 (Qgt_alt _ _)) in C. rewrite Hf1.
    apply Qabs_le_cases; destruct Hj; lra.
Qed.

(** The same on the grid of the multiples of [2 ^ p]. *)
Lemma grid_nearest x p j :
  Qabs (inject_Z (round_half_even (x / pow2 p)) * pow2 p - x)
  <= Qabs (inject_Z j * pow2 p - x).
Proof.
  pose proof (pow2_pos p) as Hp.
  pose proof (round_half_even_nearest (x / pow2 p) j) as H.
  assert (E : forall z, inject_Z z * pow2 p - x
                        == (inject_Z z - x / pow2 p) * pow2 p).
  { intros z. field. lra. }
  rewrite !E, !Qabs_Qmult, (Qabs_pos (pow2 p)) by lra.
  apply Qmult_le_compat_r; lra.
Qed.

Lemma double_pos_nearest x y :
  0 < x -> is_double y -> Qabs (double_pos x - x) <= Qabs (y - x).
Proof.
  intros Hx (j & q & Hy & Hj & Hq).
  rewrite double_pos_eq. set (p := ulp_exp x).
  pose proof (pow2_pos p) as Hp. pose proof (pow2_pos q) as Hpq.
  destruct (Z.le_gt_cases p q) as [Hpq'|Hpq'].
  - (* [y] lies on the grid *)
    assert (Ey : y == inject_Z (j * 2 ^ (q - p)) * pow2 p).
    { rewrite Hy, inject_Z_mult, <- pow2_inject by lia.
      rewrite <- Qmult_assoc, <- pow2_add.
      now replace (q - p + p)%Z with q by lia. }
    rewrite Ey. apply grid_nearest.
  - (* [y] is below the power of two under [x] *)
    assert (Hn : p = (ilog2 x - 52)%Z) by (unfold p, ulp_exp in *; lia).
    destruct (ilog2_spec x Hx) as [He _].
    assert (Hy2 : y <= pow2 (ilog2 x)).
    { rewrite Hy.
      apply Qle_trans with (inject_Z (2 ^ 53) * pow2 q).
      - apply Qmult_le_compat_r; [|lra]. rewrite <- Zle_Qle. lia.
      - rewrite <- pow2_inject, <- pow2_add by lia. apply pow2_le. lia. }
    apply Qle_trans with (Qabs (inject_Z (2 ^ 52) * pow2 p - x));
      [apply grid_nearest|].
    assert (Eg : inject_Z (2 ^ 52) * pow2 p == pow2 (ilog2 x)).
    { rewrite <- pow2_inject, <- pow2_add by lia.
      now replace (52 + p)%Z with (ilog2 x) by lia. }
    rewrite Eg. apply Qabs_le_cases; right; lra.
Qed.

Lemma is_double_opp y : is_double y -> is_double (- y).
Proof.
  intros (k & p & Hy & Hk & Hp). exists (- k)%Z, p.
  split; [rewrite Hy, inject_Z_opp; ring|]. split; [lia|exact Hp].
Qed.

(** [double x] is a double, and no double is nearer to [x]. *)
Lemma double_is_double x : is_double (double x).
Proof.
  assert (Hpos : forall z, 0 < z -> is_double (double_pos z)).
  { intros z Hz.
    destruct (double_pos_form z Hz) as [H0|(k & p & Hv & Hk & Hp & _)].
    - exists 0%Z, 0%Z. split; [rewrite H0; reflexivity|]. split; lia.
    - exists k, p. split; [exact Hv|]. split; lia. }
  destruct (Qlt_le_dec 0 x) as [Hx|Hx].
  - rewrite (double_of_pos x Hx). now apply Hpos.
  - destruct (Qeq_dec x 0) as [E|E].
    + rewrite (double_of_zero x E). exists 0%Z, 0%Z.
      split; [reflexivity|]. split; lia.
    + rewrite (double_of_neg x) by lra. apply is_double_opp, Hpos. lra.
Qed.

Lemma double_nearest x y :
  is_double y -> Qabs (double x - x) <= Qabs (y - x).
Proof.
  intros Hy. destruct (Qlt_le_dec 0 x) as [Hx|Hx].
  - rewrite (double_of_pos x Hx). now apply double_pos_nearest.
  - destruct (Qeq_dec x 0) as [E|E].
    + rewrite (double_of_zero x E).
      rewrite (Qabs_wd (0 - x) 0) by lra. apply Qabs_nonneg.
    + rewrite (double_of_neg x) by lra.
      assert (Hn : 0 < - x) by lra.
      pose proof (double_pos_nearest (- x) (- y) Hn (is_double_opp y Hy)) as H.
      rewrite <- (Qabs_opp (- double_pos (- x) - x)).
      rewrite <- (Qabs_opp (y - x)).
      rewrite (Qabs_wd (- (- double_pos (- x) - x)) (double_pos (- x) - - x))
        by ring.
      rewrite (Qabs_wd (- (y - x)) (- y - - x)) by ring.
      exact H.
Qed.

End Rounding.

Lemma double_1 : double 1 = 1%Q.
Proof. reflexivity. Qed.

Lemma double_0 : double 0 = 0%Q.
Proof. reflexivity. Qed.

Lemma floor_div_zero (v m : Q) :
  (m == 0)%Q -> (0 < v)%Q -> floor_div v m = PosInf.
Proof.
  intros Hm Hv. unfold floor_div.
  rewrite (double_of_zero m Hm). change (Qzero 0) with true. cbv iota.
  apply Qltb_true in Hv. now rewrite Hv.
Qed.

(** A count that is an integer is the floor of the quotient of doubles. *)
Lemma floor_div_Int (v m : Q) (e : Z) :
  floor_div v m = Int e ->
  ~ (double m == 0)%Q /\ e = Qfloor (fdiv v m) /\
  (- pow2 1024 < fdiv v m < pow2 1024)%Q.
Proof.
  unfold floor_div. destruct (Qzero (double m)) eqn:Ez.
  - destruct (Qltb 0 v); [discriminate|]. destruct (Qltb v 0); discriminate.
  - apply Qzero_false in Ez.
    destruct (Qle_bool (pow2 1024) (fdiv v m)) eqn:E1; [discriminate|].
    destruct (Qle_bool (fdiv v m) (- pow2 1024)) eqn:E2; [discriminate|].
    intros [= <-]. split; [exact Ez|]. split; [reflexivity|].
    split; apply Qnot_le_lt; intros H; apply Qle_bool_iff in H; congruence.
Qed.

Lemma floor_div_NaN (v m : Q) : floor_div v m = NaN -> (v == 0)%Q.
Proof.
  unfold floor_div. destruct (Qzero (double m)).
  - destruct (Qltb 0 v) eqn:E1; [discriminate|].
    destruct (Qltb v 0) eqn:E2; [discriminate|].
    intros _. apply Qltb_false in E1, E2. lra.
  - destruct (Qle_bool _ _); [discriminate|].
    destruct (Qle_bool _ _); discriminate.
Qed.

(** The rounding at work: 0.1 is read as the double next to it, the
    quotient of 0.3 and 0.1 is just below 3, and 0.01 + 4.02 + 0.97 is
    the double that prints as 4.999999999999999. *)
Example double_tenth :
  double (1 # 10) = (3602879701896397 # 36028797018963968)%Q.
Proof. vm_compute. reflexivity. Qed.

Example floor_div_thirty_cents :
  floor_div (3 # 10) (1 # 10) = Int 2 /\ Qfloor ((3 # 10) / (1 # 10)) = 3.
Proof. split; vm_compute; reflexivity. Qed.

Example fadd_three_donations :
  fadd (fadd (fadd 0 (1 # 100)) (402 # 100)) (97 # 100)
  = double (4999999999999999 # 1000000000000000) /\
  (fadd (fadd (fadd 0 (1 # 100)) (402 # 100)) (97 # 100) < 5)%Q.
Proof. split; vm_compute; reflexivity. Qed.

(** From the minimum on, the count is at least 1. *)
Lemma floor_div_ge (v m : Q) :
  (0 < m)%Q -> (m <= v)%Q ->
  floor_div v m = PosInf \/
  exists e, floor_div v m = Int e /\ 1 <= e /\ e = Qfloor (fdiv v m).
Proof.
  intros Hm Hv. unfold floor_div.
  destruct (Qzero (double m)) eqn:Ez.
  - left. assert (Hpos : (0 < v)%Q) by lra.
    apply Qltb_true in Hpos. now rewrite Hpos.
  - apply Qzero_false in Ez.
    assert (H0 : (0 <= double m)%Q).
    { rewrite <- double_0. apply double_mono. lra. }
    assert (Hmv : (double m <= double v)%Q) by now apply double_mono.
    assert (Hq : (1 <= fdiv v m)%Q).
    { unfold fdiv. rewrite <- double_1 at 1. apply double_mono.
      apply Qle_shift_div_l; lra. }
    destruct (Qle_bool (pow2 1024) (fdiv v m)); [now left|].
    destruct (Qle_bool (fdiv v m) (- pow2 1024)) eqn:E2.
    + apply Qle_bool_iff in E2. pose proof (pow2_pos 1024). lra.
    + right. eexists. split; [reflexivity|]. split; [|reflexivity].
      change 1 with (Qfloor 1). now apply Qfloor_resp_le.
Qed.

End JSFacts.

(** ** Ordered objects and sums of counts *)

Section ObjFacts.
Context {V : Type}.
Implicit Types (o : obj V) (k : string) (v : V).

Lemma oget_oset_eq k v o : oget k (oset k v o) = Some v.
Proof.
  induction o as [|[k' v'] r IH]; simpl.
  - now rewrite String.eqb_refl.
  - destruct (String.eqb k k') eqn:E; simpl; rewrite E; [reflexivity | exact IH].
Qed.

Lemma oget_oset_ne k k' v o : k <> k' -> oget k' (oset k v o) = oget k' o.
Proof.
  intros Hne. induction o as [|[k0 v0] r IH]; simpl.
  - destruct (String.eqb k' k) eqn:E; [|reflexivity].
    apply String.eqb_eq in E. congruence.
  - destruct (String.eqb k k0) eqn:E; simpl.
    + apply String.eqb_eq in E. subst k0.
      destruct (String.eqb k' k) eqn:E'; [|reflexivity].
      apply String.eqb_eq in E'. congruence.
    + now rewrite IH.
Qed.

Lemma oset_same k v o : oget k o = Some v -> oset k v o = o.
Proof.
  induction o as [|[k' v'] r IH]; simpl; [discriminate|].
  destruct (String.eqb k k') eqn:E.
  - intros [= ->]. reflexivity.
  - intros H. now rewrite IH.
Qed.

Lemma oset_fresh k v o : oget k o = None -> oset k v o = (o ++ [(k, v)])%list.
Proof.
  induction o as [|[k' v'] r IH]; simpl; [reflexivity|].
  destruct (String.eqb k k'); [discriminate|].
  intros H. now rewrite IH.
Qed.

Lemma oget_In k v o : oget k o = Some v -> In (k, v) o.
Proof.
  induction o as [|[k' v'] r IH]; simpl; [discriminate|].
  destruct (String.eqb k k') eqn:E.
  - intros [= ->]. apply String.eqb_eq in E. subst. now left.
  - intros H. right. now apply IH.
Qed.

Lemma In_oget k v o : NoDup (okeys o) -> In (k, v) o -> oget k o = Some v.
Proof.
  induction o as [|[k' v'] r IH]; simpl; [tauto|].
  intros Hnd [[= -> ->]|Hin].
  - now rewrite String.eqb_refl.
  - apply NoDup_cons in Hnd as [Hk Hnd].
    destruct (String.eqb k k') eqn:E.
    + apply String.eqb_eq in E. subst k'. exfalso. apply Hk.
      apply list_elem_of_In. change k with (fst (k, v)). now apply in_map.
    + now apply IH.
Qed.

End ObjFacts.

Section SumFacts.

Import Spec.

Lemma jadd_not_finite_l a b : ~ finite a -> ~ finite (jadd a b).
Proof.
  intros Ha [n Hn]. destruct a, b; simpl in Hn; try discriminate.
  apply Ha. now eexists.
Qed.

Lemma fold_jadd_not_finite l a :
  ~ finite a -> ~ finite (fold_left jadd l a).
Proof.
  revert a. induction l as [|x l IH]; simpl; intros a Ha; [exact Ha|].
  apply IH. now apply jadd_not_finite_l.
Qed.

Lemma fold_jadd_shift l a c :
  fold_left jadd l (Int a) = Int c ->
  forall b, fold_left jadd l (Int b) = Int (c - a + b).
Proof.
  revert a. induction l as [|x l IH]; simpl; intros a H b.
  - injection H as ->. f_equal. lia.
  - destruct x as [y| | |].
    + simpl in *. rewrite (IH _ H (b + y)). f_equal. lia.
    + exfalso. apply (fold_jadd_not_finite l (jadd (Int a) PosInf)).
      * intros [? [=]].
      * exists c. exact H.
    + exfalso. apply (fold_jadd_not_finite l (jadd (Int a) NegInf)).
      * intros [? [=]].
      * exists c. exact H.
    + exfalso. apply (fold_jadd_not_finite l (jadd (Int a) NaN)).
      * intros [? [=]].
      * exists c. exact H.
Qed.

Lemma sum_counts_cons k x (l : obj jsint) c :
  sum_counts ((k, x) :: l) = Int c ->
  exists y r, x = Int y /\ sum_counts l = Int r /\ c = y + r.
Proof.
  unfold sum_counts, ovalues. simpl. intros H.
  destruct x as [y| | |]; simpl in H;
    [| exfalso; eapply fold_jadd_not_finite; [|eexists; exact H];
       intros [? [=]] ..].
  exists y, (c - y). split; [reflexivity|]. split; [|lia].
  rewrite (fold_jadd_shift _ _ _ H 0). f_equal. lia.
Qed.

Lemma sum_counts_cons_Int k y (l : obj jsint) r :
  sum_counts l = Int r -> sum_counts ((k, Int y) :: l) = Int (y + r).
Proof.
  unfold sum_counts, ovalues. simpl. intros H.
  rewrite (fold_jadd_shift _ _ _ H (0 + y)). f_equal. lia.
Qed.

Lemma sum_counts_app_Int (l : obj jsint) k y c :
  sum_counts l = Int c -> sum_counts (l ++ [(k, Int y)])%list = Int (c + y).
Proof.
  unfold sum_counts, ovalues. rewrite map_app, fold_left_app. simpl.
  now intros ->.
Qed.

Lemma sum_counts_In k x (l : obj jsint) c :
  sum_counts l = Int c -> In (k, x) l -> finite x.
Proof.
  revert c. induction l as [|[k' x'] l IH]; simpl; intros c H; [tauto|].
  apply sum_counts_cons in H as (y & r & -> & Hr & ->).
  intros [[= -> <-]|Hin]; [now eexists | eauto].
Qed.

Lemma sum_counts_oset (l : obj jsint) k c o v :
  sum_counts l = Int c -> oget k l = Some (Int o) ->
  sum_counts (oset k (Int v) l) = Int (c - o + v).
Proof.
  revert c. induction l as [|[k' x'] l IH]; simpl; intros c H; [discriminate|].
  apply sum_counts_cons in H as (y & r & -> & Hr & ->).
  destruct (String.eqb k k') eqn:E.
  - intros [= ->]. rewrite (sum_counts_cons_Int _ _ _ _ Hr). f_equal. lia.
  - intros Hget. rewrite (sum_counts_cons_Int _ _ _ _ (IH _ Hr Hget)).
    f_equal. lia.
Qed.

(** Crediting [n] entries to a ledger of integers raises its sum by [n]. *)
Lemma sum_counts_ledger_add (l : obj jsint) k c n :
  sum_counts l = Int c ->
  sum_counts (Donation.ledger_add k (Int n) l) = Int (c + n).
Proof.
  intros H. unfold Donation.ledger_add.
  destruct (oget k l) as [x|] eqn:G.
  - destruct (sum_counts_In _ _ _ _ H (oget_In _ _ _ G)) as [o ->].
    assert (Hl0 : (if truthy_oint (Some (Int o)) then l else oset k (Int 0) l)
                  = l /\ (o <> 0 \/ o = 0)).
    { destruct o; simpl; (split; [|lia]); try reflexivity.
      now apply oset_same. }
    destruct Hl0 as [-> _]. rewrite G. simpl.
    rewrite (sum_counts_oset _ _ _ _ _ H G). f_equal. lia.
  - simpl. rewrite (oset_fresh _ _ _ G).
    assert (G' : oget k (l ++ [(k, Int 0)])%list = Some (Int 0)).
    { rewrite <- (oset_fresh _ _ _ G). apply oget_oset_eq. }
    rewrite G'. simpl.
    rewrite (sum_counts_oset _ k (c + 0) 0 (0 + n)
               (sum_counts_app_Int _ _ _ _ H) G').
    f_equal. lia.
Qed.
End SumFacts.

(** ** Entry allocation *)

Section Allocation.
Variables (vipRoleId : option string) (m : Member) (sel : option string).
Variables (v : Q) (drawId : string) (d : Draw.t).

Lemma out_of_range_false :
  Donation.out_of_range v d = false <->
  (Draw.minAmount d <= v)%Q /\
  (Spec.unset_Q (Draw.maxAmount d) \/
   exists mx, Draw.maxAmount d = Some mx /\ (v <= mx)%Q).
Proof.
  unfold Donation.out_of_range. rewrite orb_false_iff, Qltb_false.
  apply and_iff_compat_l.
  destruct (Draw.maxAmount d) as [mx|]; simpl.
  - destruct (Qzero mx) eqn:E; simpl.
    + apply Qzero_true in E. tauto.
    + apply Qzero_false in E. rewrite Qltb_false. split.
      * intros H. right. eauto.
      * intros [H|(mx' & [= <-] & H)]; [tauto | exact H].
  - tauto.
Qed.

Lemma other_selected_false :
  Donation.other_selected sel drawId = false <->
  Spec.unset_str sel \/ sel = Some "auto" \/ sel = Some drawId.
Proof.
  unfold Donation.other_selected, Spec.unset_str.
  destruct sel as [s|]; [|intuition congruence].
  simpl. destruct (String.eqb_spec s ""); simpl; [subst; tauto|].
  destruct (String.eqb_spec s "auto"); simpl; [subst; tauto|].
  destruct (String.eqb_spec drawId s); simpl; [subst; tauto|].
  split; [discriminate|]. intros [[|]|[|]]; congruence.
Qed.

Lemma vip_blocked_false :
  Donation.vip_blocked vipRoleId m d = false <->
  (Draw.vipOnly d = true -> ~ Spec.unset_str vipRoleId ->
   Spec.holds_vip vipRoleId m).
Proof.
  unfold Donation.vip_blocked, Spec.unset_str, Spec.holds_vip, Rewards.has_role.
  destruct vipRoleId as [r|].
  - simpl. destruct (Draw.vipOnly d); simpl; [|split; [discriminate|reflexivity]].
    destruct (String.eqb_spec r ""); simpl.
    + subst. split; [|reflexivity]. intros _ _ H. exfalso. apply H. now right.
    + rewrite negb_false_iff, bool_decide_eq_true. split.
      * intros H _ _. exists r. auto.
      * intros H. destruct H as (r' & [= <-] & _ & H); try reflexivity; auto.
        intros [|[=]]; congruence.
  - split; [|reflexivity]. intros _ _ H. exfalso. apply H. now left.
Qed.

(** The five tests that precede the computation of the count pass exactly
    for the eligible draws. *)
Lemma grant_eligible :
  Spec.eligible vipRoleId m sel v drawId d ->
  Donation.grant vipRoleId m sel v drawId d =
  let entries := floor_div v (Draw.minAmount d) in
  if jle entries (Int 0) then None
  else if Donation.full d (sum_counts (Draw.ledger d)) then None
  else Some (Donation.entriesToAdd d entries (sum_counts (Draw.ledger d))).
Proof.
  intros [(Ha & Hmin & Hmax & Hman & Hsel) Hvip].
  unfold Donation.grant. rewrite Ha, Hman. simpl.
  rewrite (proj2 out_of_range_false (conj Hmin Hmax)).
  rewrite (proj2 other_selected_false Hsel).
  rewrite (proj2 vip_blocked_false Hvip). reflexivity.
Qed.

Lemma grant_not_eligible :
  ~ Spec.eligible vipRoleId m sel v drawId d ->
  Donation.grant vipRoleId m sel v drawId d = None.
Proof.
  intros Hn. unfold Donation.grant.
  destruct (Draw.active d) eqn:Ha; simpl; [|reflexivity].
  destruct (Donation.out_of_range v d) eqn:Hr; [reflexivity|].
  destruct (Draw.manualEntriesOnly d) eqn:Hman; [reflexivity|].
  destruct (Donation.other_selected sel drawId) eqn:Hs; [reflexivity|].
  destruct (Donation.vip_blocked vipRoleId m d) eqn:Hv; [reflexivity|].
  exfalso. apply Hn.
  apply out_of_range_false in Hr as [Hmin Hmax].
  apply other_selected_false in Hs.
  exact (conj (conj Ha (conj Hmin (conj Hmax (conj Hman Hs))))
              (proj1 vip_blocked_false Hv)).
Qed.

Lemma grant_Some_eligible n :
  Donation.grant vipRoleId m sel v drawId d = Some n ->
  Spec.eligible vipRoleId m sel v drawId d.
Proof.
  intros H. unfold Donation.grant in H.
  destruct (Draw.active d) eqn:Ha; simpl in H; [|discriminate].
  destruct (Donation.out_of_range v d) eqn:Hr; [discriminate|].
  destruct (Draw.manualEntriesOnly d) eqn:Hman; [discriminate|].
  destruct (Donation.other_selected sel drawId) eqn:Hs; [discriminate|].
  destruct (Donation.vip_blocked vipRoleId m d) eqn:Hv; [discriminate|].
  apply out_of_range_false in Hr as [Hmin Hmax].
  apply other_selected_false in Hs.
  exact (conj (conj Ha (conj Hmin (conj Hmax (conj Hman Hs))))
              (proj1 vip_blocked_false Hv)).
Qed.

Lemma full_iff mx c :
  Draw.maxEntries d = Some mx -> mx <> 0 ->
  Donation.full d (Int c) = true <-> mx <= c.
Proof.
  intros Hmx Hne. unfold Donation.full. rewrite Hmx.
  rewrite (proj2 (truthy_Z_Some mx) Hne). simpl. apply Z.leb_le.
Qed.

Lemma full_unbounded c :
  truthy_Z (Draw.maxEntries d) = false -> Donation.full d c = false.
Proof.
  unfold Donation.full. destruct (Draw.maxEntries d); [|reflexivity].
  now intros ->.
Qed.

(** For an eligible draw with a ledger of integers, a computed count that
    is an integer above 0 is clamped to the room left. *)
Lemma grant_count c e :
  Spec.eligible vipRoleId m sel v drawId d ->
  sum_counts (Draw.ledger d) = Int c ->
  floor_div v (Draw.minAmount d) = Int e -> 1 <= e ->
  Donation.grant vipRoleId m sel v drawId d =
    (if (0 <? Spec.clamp d c e)%Z then Some (Int (Spec.clamp d c e)) else None).
Proof.
  intros He Hc Hf He1.
  rewrite (grant_eligible He). cbv zeta. rewrite Hf, Hc. simpl.
  destruct (Z.leb_spec e 0); [lia|].
  unfold Spec.clamp, Donation.full, Donation.entriesToAdd.
  destruct (Draw.maxEntries d) as [mx|] eqn:Hmx.
  - destruct (Z.eqb_spec mx 0) as [->|Hne]; simpl.
    + destruct (Z.ltb_spec 0 e); [reflexivity | lia].
    + assert (Ht : match mx with 0 => false | _ => true end = true)
        by (destruct mx; congruence).
      rewrite Ht. simpl.
      destruct (Z.leb_spec mx c).
      * destruct (Z.ltb_spec 0 (Z.max 0 (Z.min e (mx - c)))); [lia | reflexivity].
      * destruct (Z.ltb_spec 0 (Z.max 0 (Z.min e (mx - c)))); [|lia].
        do 2 f_equal. replace (mx + - c) with (mx - c) by lia. lia.
  - simpl. destruct (Z.ltb_spec 0 e); [reflexivity | lia].
Qed.

(** A computed count that is infinite fills the room left. *)
Lemma grant_infinite c :
  Spec.eligible vipRoleId m sel v drawId d ->
  sum_counts (Draw.ledger d) = Int c ->
  floor_div v (Draw.minAmount d) = PosInf ->
  Donation.grant vipRoleId m sel v drawId d =
    match Draw.maxEntries d with
    | Some mx =>
        if (mx =? 0)%Z then Some PosInf
        else if (mx <=? c)%Z then None else Some (Int (mx - c))
    | None => Some PosInf
    end.
Proof.
  intros He Hc Hf.
  rewrite (grant_eligible He). cbv zeta. rewrite Hf, Hc. simpl.
  unfold Donation.full, Donation.entriesToAdd.
  destruct (Draw.maxEntries d) as [mx|]; [|reflexivity].
  destruct (Z.eqb_spec mx 0) as [->|Hne]; [reflexivity|].
  assert (Ht : truthy_Z (Some mx) = true) by now apply truthy_Z_Some.
  rewrite Ht. simpl. destruct (mx <=? c)%Z; reflexivity.
Qed.

End Allocation.

Section Loop.
Variables (vipRoleId : option string) (m : Member) (senderId : string).
Variables (sel : option string) (v : Q).

Let step (kd : string * Draw.t) : string * Draw.t :=
  (kd.1, Spec.credit senderId (Donation.grant vipRoleId m sel v kd.1 kd.2) kd.2).
Let count (kd : string * Draw.t) : jsint :=
  Spec.granted (Donation.grant vipRoleId m sel v kd.1 kd.2).

Lemma jadd_0_r a : jadd a (Int 0) = a.
Proof. destruct a; simpl; try reflexivity. f_equal. lia. Qed.

(** The loop visits the draws independently: each draw is credited with
    its own grant, and the running total is the sum of the grants. *)
Lemma loop_fold (l : obj Draw.t) (st0 : Donation.LoopState) :
  let st := fold_left (Donation.loop_body vipRoleId m senderId sel v) l st0 in
  Donation.ls_draws st = (Donation.ls_draws st0 ++ map step l)%list /\
  Donation.ls_entriesAdded st =
    fold_left jadd (map count l) (Donation.ls_entriesAdded st0).
Proof.
  revert st0. induction l as [|[k d] l IH]; intros st0; simpl.
  - now rewrite app_nil_r.
  - destruct (IH (Donation.loop_body vipRoleId m senderId sel v st0 (k, d)))
      as [IHd IHe].
    simpl in IHd, IHe. rewrite IHd, IHe. clear IHd IHe.
    unfold Donation.loop_body, step, count. simpl.
    destruct (Donation.grant vipRoleId m sel v k d) as [n|]; simpl.
    + now rewrite <- app_assoc.
    + now rewrite <- app_assoc, jadd_0_r.
Qed.

End Loop.

Lemma addEntries_draws vipRoleId m senderId v userData draws :
  Donation.ls_draws
    (Donation.addEntries vipRoleId m senderId v userData draws) =
  map (fun kd =>
         (kd.1, Spec.credit senderId
                  (Donation.grant vipRoleId m (User.selectedDraw userData)
                                  v kd.1 kd.2) kd.2)) draws.
Proof.
  unfold Donation.addEntries.
  now destruct (loop_fold vipRoleId m senderId (User.selectedDraw userData) v
                          draws
                 {| Donation.ls_draws := []; Donation.ls_user := userData;
                    Donation.ls_entriesAdded := Int 0;
                    Donation.ls_log := [] |}) as [-> _].
Qed.

Lemma addEntries_total vipRoleId m senderId v userData draws :
  Donation.ls_entriesAdded
    (Donation.addEntries vipRoleId m senderId v userData draws) =
  fold_left jadd
    (map (fun kd =>
            Spec.granted
              (Donation.grant vipRoleId m (User.selectedDraw userData)
                              v kd.1 kd.2)) draws)
    (Int 0).
Proof.
  unfold Donation.addEntries.
  now destruct (loop_fold vipRoleId m senderId (User.selectedDraw userData) v
                          draws
                 {| Donation.ls_draws := []; Donation.ls_user := userData;
                    Donation.ls_entriesAdded := Int 0;
                    Donation.ls_log := [] |}) as [_ ->].
Qed.

Lemma lookup_map {A B} (f : A -> B) (l : list A) (i : nat) :
  map f l !! i = f <$> (l !! i).
Proof.
  revert i. induction l as [|x l IH]; intros [|i]; simpl; auto.
Qed.

(** What the two statements [if (!o[k]) o[k] = 0; o[k] += n] leave under
    the key and under the other keys. *)
Lemma oget_ledger_add_eq (k : string) (n : jsint) (l : obj jsint) :
  oget k (Donation.ledger_add k n l)
  = Some (jadd (match oget k l with
                | Some a => if truthy_int a then a else Int 0
                | None => Int 0
                end) n).
Proof.
  unfold Donation.ledger_add. cbv zeta. rewrite oget_oset_eq.
  destruct (oget k l) as [a|] eqn:E; simpl.
  - destruct (truthy_int a); [now rewrite E|]. now rewrite oget_oset_eq.
  - now rewrite oget_oset_eq.
Qed.

Lemma oget_ledger_add_ne (k u : string) (n : jsint) (l : obj jsint) :
  u <> k -> oget u (Donation.ledger_add k n l) = oget u l.
Proof.
  intros Hu. unfold Donation.ledger_add. cbv zeta.
  rewrite oget_oset_ne by congruence.
  destruct (truthy_oint (oget k l)); [reflexivity|].
  now rewrite oget_oset_ne by congruence.
Qed.

(** C1 (as amended). For a donation of [v] USD by [userData]: the loop
    leaves the draws in their places; a draw that is granted nothing stays
    as it is, and a draw that is granted [n] changes in its ledger only,
    where the sender's count, taken as 0 when it is missing, 0 or not a
    number, has grown by [n] and every other count is as before; the total
    is the sum of the per-draw grants.  A draw that is not eligible is
    granted nothing.  For an eligible draw with a positive [minAmount] and
    a ledger of integers the computed count is [Math.floor(v / minAmount)],
    the quotient being the one of doubles: it is infinite, and the draw is
    granted all the room it has left, or it is an integer of at least 1,
    and the draw is granted that integer clamped to the room left, a count
    that is never negative.  Eligible means: active, [v] within the bounds
    (a missing or zero [maxAmount] is no bound), not manual-only, no other
    draw selected by the user, and for a VIP-only draw the member holds the
    VIP role if the guild has configured one. *)
Theorem allocation_grants
    (vipRoleId : option string) (m : Member) (senderId : string) (v : Q)
    (userData : User.t) (draws : obj Draw.t) :
  let sel := User.selectedDraw userData in
  let st := Donation.addEntries vipRoleId m senderId v userData draws in
  let g := fun kd : string * Draw.t =>
             Donation.grant vipRoleId m sel v kd.1 kd.2 in
  let prior := fun d : Draw.t =>
                 match oget senderId (Draw.ledger d) with
                 | Some a => if truthy_int a then a else Int 0
                 | None => Int 0
                 end in
  (length (Donation.ls_draws st) = length draws /\
   forall (i : nat) drawId d,
     draws !! i = Some (drawId, d) ->
     exists d',
       Donation.ls_draws st !! i = Some (drawId, d') /\
       (g (drawId, d) = None -> d' = d) /\
       forall n,
         g (drawId, d) = Some n ->
         d' = Draw.set_entries (Draw.entries d') d /\
         oget senderId (Draw.ledger d') = Some (jadd (prior d) n) /\
         forall u, u <> senderId ->
                   oget u (Draw.ledger d') = oget u (Draw.ledger d)) /\
  Donation.ls_entriesAdded st =
    fold_left jadd (map (fun kd => Spec.granted (g kd)) draws) (Int 0) /\
  forall drawId d,
    (~ Spec.eligible vipRoleId m sel v drawId d -> g (drawId, d) = None) /\
    forall c,
      Spec.eligible vipRoleId m sel v drawId d ->
      (0 < Draw.minAmount d)%Q ->
      sum_counts (Draw.ledger d) = Int c ->
      (floor_div v (Draw.minAmount d) = PosInf /\
       g (drawId, d) =
         match Draw.maxEntries d with
         | Some mx =>
             if (mx =? 0)%Z then Some PosInf
             else if (mx <=? c)%Z then None else Some (Int (mx - c))
         | None => Some PosInf
         end) \/
      exists e,
        floor_div v (Draw.minAmount d) = Int e /\
        e = Qfloor (fdiv v (Draw.minAmount d)) /\ 1 <= e /\
        let n := Spec.clamp d c e in
        0 <= n /\ Spec.granted (g (drawId, d)) = Int n /\
        (0 < n -> g (drawId, d) = Some (Int n)).
Proof.
  intros sel st g prior. split; [|split; [apply addEntries_total|]].
  - subst st. rewrite addEntries_draws. split; [apply length_map|].
    intros i drawId d Hi. unfold obj in *. rewrite lookup_map, Hi.
    cbn [fmap option_fmap option_map fst snd].
    eexists. split; [reflexivity|].
    fold sel. change (Donation.grant vipRoleId m sel v drawId d)
      with (g (drawId, d)).
    destruct (g (drawId, d)) as [n0|]; cbn [Spec.credit].
    + split; [discriminate|]. intros n [= <-].
      split; [reflexivity|].
      change (Draw.ledger (Draw.set_entries (Some ?l) d)) with l.
      split; [apply oget_ledger_add_eq|].
      intros u Hu. now apply oget_ledger_add_ne.
    + split; [reflexivity | discriminate].
  - intros drawId d. split; [apply grant_not_eligible|].
    intros c He Hm Hc.
    destruct (floor_div_ge v (Draw.minAmount d) Hm) as [Hinf|(e & Hf & He1 & Hq)];
      [apply He| |].
    + left. split; [exact Hinf|].
      exact (grant_infinite vipRoleId m sel v drawId d c He Hc Hinf).
    + right. exists e. split; [exact Hf|]. split; [exact Hq|].
      split; [exact He1|]. intros n.
      pose proof (grant_count vipRoleId m sel v drawId d c e He Hc Hf He1)
        as Hg.
      fold n in Hg. unfold g. cbn [fst snd]. rewrite Hg.
      assert (Hn : 0 <= n).
      { unfold n, Spec.clamp. destruct (Draw.maxEntries d) as [mx|]; [|lia].
        destruct (mx =? 0)%Z; lia. }
      split; [exact Hn|].
      destruct (Z.ltb_spec 0 n); simpl.
      * split; [reflexivity | reflexivity].
      * split; [f_equal; lia | lia].
Qed.

(** A donation of 30 cents to a draw with a minimum of 10 cents gives two
    entries, as the quotient of the two doubles is below 3. *)
Example thirty_cents_two_entries :
  Database.donationDraws
    (Donation.out_db
       (Donation.handleTipccDonation Sample.settings Sample.offline
          (Sample.announcement "alice sent 0.01 LTC to bob ($0.30)")
          Sample.dime_db))
  = Some [("draw_8",
           Draw.set_entries (Some [("111111111111111111", Int 2)])
                            Sample.dime)].
Proof. vm_compute. reflexivity. Qed.

(** ** Capacity *)

Section Capacity.
Variables (vipRoleId : option string) (m : Member) (sel : option string).
Variables (v : Q) (drawId : string) (d : Draw.t).

(** With a non-zero [maxEntries] and a non-zero donation, a grant is a
    positive integer that fits in the room left. *)
Lemma grant_fits mx c :
  Draw.maxEntries d = Some mx -> mx <> 0 ->
  sum_counts (Draw.ledger d) = Int c -> ~ (v == 0)%Q ->
  match Donation.grant vipRoleId m sel v drawId d with
  | Some n => exists k, n = Int k /\ 1 <= k /\ c + k <= mx
  | None => True
  end.
Proof.
  intros Hmx Hne Hc Hv. unfold Donation.grant.
  destruct (Draw.active d); simpl; [|exact I].
  destruct (Donation.out_of_range v d); [exact I|].
  destruct (Draw.manualEntriesOnly d); [exact I|].
  destruct (Donation.other_selected sel drawId); [exact I|].
  destruct (Donation.vip_blocked vipRoleId m d); [exact I|].
  rewrite Hc.
  assert (Ht : truthy_Z (Some mx) = true) by now apply truthy_Z_Some.
  unfold Donation.full, Donation.entriesToAdd. rewrite Hmx, Ht.
  destruct (floor_div v (Draw.minAmount d)) as [e| | |] eqn:Hf; simpl.
  - destruct (Z.leb_spec e 0); [exact I|].
    destruct (Z.leb_spec mx c); [exact I|].
    eexists. split; [reflexivity | lia].
  - destruct (Z.leb_spec mx c); [exact I|].
    exists (mx + - c). split; [reflexivity | lia].
  - exact I.
  - exfalso. apply Hv. exact (floor_div_NaN _ _ Hf).
Qed.

Lemma grant_at_capacity mx c :
  Draw.maxEntries d = Some mx -> mx <> 0 ->
  sum_counts (Draw.ledger d) = Int c -> mx <= c ->
  Donation.grant vipRoleId m sel v drawId d = None.
Proof.
  intros Hmx Hne Hc Hfull. unfold Donation.grant.
  destruct (Draw.active d); simpl; [|reflexivity].
  destruct (Donation.out_of_range v d); [reflexivity|].
  destruct (Draw.manualEntriesOnly d); [reflexivity|].
  destruct (Donation.other_selected sel drawId); [reflexivity|].
  destruct (Donation.vip_blocked vipRoleId m d); [reflexivity|].
  destruct (jle _ _); [reflexivity|].
  rewrite Hc, (proj2 (full_iff d mx c Hmx Hne) Hfull). reflexivity.
Qed.

(** The effect of one loop iteration on the ledger of a bounded draw. *)
Lemma credit_capacity senderId mx c :
  Draw.maxEntries d = Some mx -> mx <> 0 ->
  sum_counts (Draw.ledger d) = Int c -> ~ (v == 0)%Q ->
  let d' := Spec.credit senderId (Donation.grant vipRoleId m sel v drawId d) d in
  Draw.maxEntries d' = Some mx /\
  (mx <= c -> d' = d) /\
  exists c', sum_counts (Draw.ledger d') = Int c' /\
             ((d' = d /\ c' = c) \/ (c < c' /\ c' <= mx)).
Proof.
  intros Hmx Hne Hc Hv d'.
  pose proof (grant_fits mx c Hmx Hne Hc Hv) as Hfit.
  pose proof (grant_at_capacity mx c Hmx Hne Hc) as Hcap.
  subst d'. destruct (Donation.grant vipRoleId m sel v drawId d) as [n|].
  - destruct Hfit as (k & -> & Hk1 & Hk2). simpl.
    split; [exact Hmx|]. split.
    + intros Hfull. specialize (Hcap Hfull). discriminate.
    + exists (c + k). split; [|right; lia].
      unfold Draw.ledger at 1. simpl. now apply sum_counts_ledger_add.
  - simpl. split; [exact Hmx|]. split; [reflexivity|].
    exists c. split; [exact Hc | left; split; reflexivity].
Qed.

End Capacity.

Section Assign.
Variables (drawId : string) (entries : Z).

(** Closes the goals of the paths that reply with an error. *)
Local Ltac rejected :=
  simpl; split; [intros _; reflexivity | left; reflexivity].

Lemma assign_fold_sum (targets : list string) :
  forall ledger users c,
    sum_counts ledger = Int c ->
    sum_counts (fold_left (Admin.assign_one drawId entries) targets
                          (ledger, users)).1
    = Int (c + Z.of_nat (length targets) * entries).
Proof.
  induction targets as [|t ts IH]; intros ledger users c Hc.
  - simpl. rewrite Hc. f_equal. lia.
  - cbn [fold_left]. unfold Admin.assign_one at 2.
    rewrite (IH _ _ (c + entries)).
    + f_equal. cbn [length]. lia.
    + now apply sum_counts_ledger_add.
Qed.

(** Manual assignment either leaves the document as it is, or raises the
    sum of the target draw within its bound. *)
Lemma assign_capacity user role members db draw mx c :
  Database.donationDraws db ≫= oget drawId = Some draw ->
  Draw.maxEntries draw = Some mx ->
  sum_counts (Draw.ledger draw) = Int c ->
  let db' := (Admin.handleAssignEntries user role drawId entries members db).1.1 in
  (mx <= c -> db' = db) /\
  (db' = db \/
   exists draw' c',
     Database.donationDraws db' ≫= oget drawId = Some draw' /\
     Draw.maxEntries draw' = Some mx /\
     sum_counts (Draw.ledger draw') = Int c' /\ c < c' /\ c' <= mx).
Proof.
  intros Hd Hmx Hc db'. subst db'.
  unfold Admin.handleAssignEntries. rewrite Hd.
  destruct (Draw.active draw); simpl; [|rejected].
  destruct (Z.leb_spec entries 0) as [|Hpos]; simpl; [rejected|].
  set (targets := match user, role with
                  | Some u, _ => _ | None, Some r => _ | None, None => _ end).
  destruct targets as [[[|t ts]|]|]; simpl; try rejected.
  rewrite Hmx, Hc. simpl.
  set (total := Z.of_nat (S (length ts)) * entries).
  assert (Htot : total = Z.of_nat (length (t :: ts)) * entries) by reflexivity.
  assert (Hgt : 0 < total) by (unfold total; nia).
  destruct (Z.ltb_spec mx (c + total)) as [|Hroom]; simpl; [rejected|].
  pose proof (assign_fold_sum (t :: ts) (Draw.ledger draw) (Database.users db)
                              c Hc) as Hsum.
  cbn [fold_left] in Hsum.
  destruct (fold_left _ ts _) as [ledger users] eqn:Hfold. simpl in *.
  split; [intros Hfull; lia|]. right.
  eexists. exists (c + total). rewrite oget_oset_eq.
  split; [reflexivity|]. split; [exact Hmx|].
  split; [|lia]. unfold Draw.ledger at 1. simpl. rewrite Hsum, Htot. reflexivity.
Qed.

End Assign.

(** The loop on a bounded draw: its ledger either stays as it is, or
    grows within the bound. *)
Lemma addEntries_capacity
    (vipRoleId : option string) (m : Member) (senderId : string) (v : Q)
    (userData : User.t) (draws : obj Draw.t)
    (i : nat) (drawId : string) (d : Draw.t) (mx c : Z) :
  Draw.maxEntries d = Some mx -> mx <> 0 ->
  sum_counts (Draw.ledger d) = Int c ->
  ~ (v == 0)%Q -> draws !! i = Some (drawId, d) ->
  exists d' c',
    Donation.ls_draws (Donation.addEntries vipRoleId m senderId v userData draws)
      !! i = Some (drawId, d') /\
    Draw.maxEntries d' = Some mx /\
    sum_counts (Draw.ledger d') = Int c' /\
    (mx <= c -> d' = d) /\
    ((d' = d /\ c' = c) \/ (c < c' /\ c' <= mx)).
Proof.
  intros Hmx Hne Hc Hv Hi.
  rewrite addEntries_draws. unfold obj in *. rewrite lookup_map, Hi. simpl.
  destruct (credit_capacity vipRoleId m (User.selectedDraw userData) v drawId
              d senderId mx c Hmx Hne Hc Hv) as (H1 & H2 & c' & H3 & H4).
  eexists. exists c'. split; [reflexivity|].
  split; [exact H1|]. split; [exact H3|]. split; [exact H2 | exact H4].
Qed.

(** ** Draws with a minimum of zero *)

(** C3 (as amended). A draw whose [minAmount] is 0 is not excluded: for a
    positive donation the computed count is [floor(v / 0)], which is
    infinite, so an eligible draw with a non-zero [maxEntries] and a ledger
    of integers is granted all the room it has left, and an eligible draw
    without a bound is granted an infinite count. *)
Theorem zero_minimum_is_granted
    (vipRoleId : option string) (m : Member) (sel : option string) (v : Q)
    (drawId : string) (d : Draw.t) :
  Spec.eligible vipRoleId m sel v drawId d ->
  (Draw.minAmount d == 0)%Q -> (0 < v)%Q ->
  (truthy_Z (Draw.maxEntries d) = false ->
   Donation.grant vipRoleId m sel v drawId d = Some PosInf) /\
  (forall mx c,
     Draw.maxEntries d = Some mx -> mx <> 0 ->
     sum_counts (Draw.ledger d) = Int c ->
     Donation.grant vipRoleId m sel v drawId d =
       if (mx <=? c)%Z then None else Some (Int (mx - c))).
Proof.
  intros He Hm Hv.
  rewrite (grant_eligible _ _ _ _ _ _ He). cbn zeta.
  rewrite (floor_div_zero _ _ Hm Hv). simpl. split.
  - intros Hun. rewrite (full_unbounded _ _ Hun).
    unfold Donation.entriesToAdd.
    destruct (Draw.maxEntries d) as [mx|]; [|reflexivity].
    now rewrite Hun.
  - intros mx c Hmx Hne Hc. rewrite Hc.
    unfold Donation.full, Donation.entriesToAdd. rewrite Hmx.
    rewrite (proj2 (truthy_Z_Some mx) Hne). simpl.
    destruct (mx <=? c)%Z; reflexivity.
Qed.

Lemma free_for_all_eligible :
  Spec.eligible None Sample.alice None 10%Q "draw_2" Sample.free_for_all.
Proof.
  split; [|intros [=]].
  split; [reflexivity|]. split; [vm_compute; discriminate|].
  split; [right; eexists; split; [reflexivity | vm_compute; discriminate]|].
  split; [reflexivity | left; now left].
Qed.

Lemma zero_minimum_is_granted_witness :
  Donation.grant None Sample.alice None 10%Q "draw_2" Sample.free_for_all =
  Some (Int 100).
Proof.
  exact (proj2 (zero_minimum_is_granted None Sample.alice None 10%Q "draw_2"
                  Sample.free_for_all free_for_all_eligible
                  ltac:(reflexivity) ltac:(reflexivity))
               100 0 eq_refl ltac:(discriminate) eq_refl).
Defined.

(** The sample draw with a minimum of 0 is what [/admin create_draw]
    stores for [min_amount] 0 and [max_entries] 100. *)
Example free_for_all_created :
  Admin.handleCreateDraw "Free" "prize" 0%Q None 100 None None 2
                         "659745190382141453" (Database.mk None [] None)
  = (Database.mk None [] (Some [("draw_2", Sample.free_for_all)]),
     Admin.DrawCreated "draw_2").
Proof. reflexivity. Qed.

(** The statement of C3 fails: a draw created with [min_amount] 0 and
    [max_entries] 100 receives 100 entries from a donation of 10 USD. *)
Lemma zero_minimum_excluded_fails :
  (Draw.minAmount Sample.free_for_all == 0)%Q /\
  Database.donationDraws
    (Donation.out_db
       (Donation.handleTipccDonation Sample.settings Sample.offline
          (Sample.announcement "alice sent 0.5 LTC to bob ($10.00)")
          Sample.zero_db))
  = Some [("draw_2",
           Draw.set_entries (Some [("111111111111111111", Int 100)])
                            Sample.free_for_all)].
Proof. split; [reflexivity | vm_compute; reflexivity]. Qed.

(** The statement of C1 fails: with no VIP role configured, a VIP-only
    draw grants 2 entries to a member who holds no role at all. *)
Lemma vip_gate_open_without_role :
  roles Sample.alice = ∅ /\
  Draw.vipOnly Sample.vip_draw = true /\
  ~ Spec.eligible_stated None Sample.alice None 10%Q "draw_3" Sample.vip_draw /\
  Donation.grant None Sample.alice None 10%Q "draw_3" Sample.vip_draw
    = Some (Int 2) /\
  Database.donationDraws
    (Donation.out_db
       (Donation.handleTipccDonation Sample.settings Sample.offline
          (Sample.announcement "alice sent 0.5 LTC to bob ($10.00)")
          Sample.vip_db))
  = Some [("draw_3",
           Draw.set_entries (Some [("111111111111111111", Int 2)])
                            Sample.vip_draw)].
Proof.
  split; [reflexivity|]. split; [reflexivity|]. split.
  - intros [_ H]. destruct (H eq_refl) as (r & [=] & _).
  - split; vm_compute; reflexivity.
Qed.

(** ** Recipient policy *)

Section Strings.

Lemma append_cons (c : ascii) (t q : string) :
  String c t ++ q = String c (t ++ q).
Proof. reflexivity. Qed.

Lemma append_nil (q : string) : "" ++ q = q.
Proof. reflexivity. Qed.

Lemma prefix_spec (t s : string) :
  String.prefix t s = true <-> exists q, s = t ++ q.
Proof.
  revert s. induction t as [|c t IH]; intros [|c' s]; simpl.
  - split; [intros _; now exists "" | reflexivity].
  - split; [intros _; now eexists | reflexivity].
  - split; [discriminate | intros [q [=]]].
  - setoid_rewrite append_cons.
    destruct (ascii_dec c c') as [->|Hne].
    + rewrite IH. split; intros [q Hq]; exists q; congruence.
    + split; [discriminate | intros [q Hq]; congruence].
Qed.

Lemma includes_spec (s t : string) :
  includes s t = true <-> Spec.contains s t.
Proof.
  unfold Spec.contains. induction s as [|c r IH].
  - cbn [includes]. rewrite orb_false_r, prefix_spec. split.
    + intros [q Hq]. exists "", q. exact Hq.
    + intros (p & q & H). exists q. destruct p; [exact H | discriminate].
  - cbn [includes]. rewrite orb_true_iff, IH, prefix_spec. split.
    + intros [[q Hq]|(p & q & Hq)].
      * exists "", q. exact Hq.
      * exists (String c p), q. rewrite append_cons. now rewrite Hq.
    + intros (p & q & Hq). destruct p as [|c' p].
      * left. now exists q.
      * right. exists p, q. rewrite append_cons in Hq. congruence.
Qed.

End Strings.

Lemma flexible_spec (g : Guild) (allowed : list jsval) (r : string) :
  Policy.isAllowedRecipient_flexible g allowed r = true <->
  exists a, In (VStr a) allowed /\
    let ca := toLowerCase (Policy.clean a) in
    let cr := toLowerCase (Policy.clean (Policy.recipientToCheck g r)) in
    Spec.contains cr ca \/ Spec.contains ca cr.
Proof.
  unfold Policy.isAllowedRecipient_flexible. rewrite existsb_exists. split.
  - intros ([a|] & Hin & Hm); simpl in Hm; [|discriminate].
    exists a. split; [exact Hin|].
    apply orb_true_iff in Hm. now rewrite !includes_spec in Hm.
  - intros (a & Hin & Hm). exists (VStr a). split; [exact Hin|].
    simpl. apply orb_true_iff. now rewrite !includes_spec.
Qed.

Lemma exact_spec (allowed : list jsval) (r : string) :
  Policy.isAllowedRecipient allowed r = true <->
  exists a, In (VStr a) allowed /\ Policy.clean a = Policy.clean r.
Proof.
  unfold Policy.isAllowedRecipient. rewrite existsb_exists. split.
  - intros ([a|] & Hin & Hm); [|discriminate].
    exists a. split; [exact Hin | now apply String.eqb_eq].
  - intros (a & Hin & Hm). exists (VStr a). split; [exact Hin|].
    now apply String.eqb_eq.
Qed.

(** C4 (as amended). Entries of the allowed list that are not strings never
    match.  The handler that tests containment accepts a recipient exactly
    when, after the decoration characters are removed and both sides are
    lowered, one cleaned string occurs in the other (equal strings
    included); there, recipient "bobby" matches the allowed entry "bob".
    The handler that tests equality accepts a recipient exactly when the
    cleaned strings are equal, case included; there, "bobby" does not
    match "bob". *)
Theorem recipient_policy (g : Guild) (allowed : list jsval) (r : string) :
  (Policy.isAllowedRecipient_flexible g allowed r = true <->
   exists a, In (VStr a) allowed /\
     let ca := toLowerCase (Policy.clean a) in
     let cr := toLowerCase (Policy.clean (Policy.recipientToCheck g r)) in
     Spec.contains cr ca \/ Spec.contains ca cr) /\
  (Policy.isAllowedRecipient allowed r = true <->
   exists a, In (VStr a) allowed /\ Policy.clean a = Policy.clean r) /\
  Policy.isAllowedRecipient_flexible g [VStr "bob"] "bobby" = true /\
  Policy.isAllowedRecipient [VStr "bob"] "bobby" = false /\
  Policy.isAllowedRecipient_flexible g [VOther] r = false /\
  Policy.isAllowedRecipient [VOther] r = false.
Proof.
  split; [apply flexible_spec|]. split; [apply exact_spec|].
  repeat split; reflexivity.
Qed.

(** The statement of C4 fails on the handler that tests equality: "bob"
    occurs in "bobby", yet the recipient is not accepted. *)
Lemma containment_not_accepted :
  Spec.contains (toLowerCase (Policy.clean "bobby"))
                (toLowerCase (Policy.clean "bob")) /\
  Policy.isAllowedRecipient [VStr "bob"] "bobby" = false.
Proof.
  split; [|reflexivity]. exists "", "by". reflexivity.
Qed.

(** ** Price resolution *)

Section Providers.
Variables (symbol : string) (amount : option Q).

Let apiT : Type := (string * (string -> Price.outcome * list Call))%type.
Let unusable (api : apiT) : Prop := Price.usable (api.2 symbol).1 = None.
Let calls_of (api : apiT) : list Call := (api.2 symbol).2.

Lemma usable_positive (r : Price.outcome) (p : Q) :
  Price.usable r = Some p -> (0 < p)%Q.
Proof.
  destruct r as [[q|]|]; simpl; try discriminate.
  destruct (Qltb 0 q) eqn:E; [|discriminate].
  intros [= <-]. now apply Qltb_true.
Qed.


Lemma loop_all_unusable (l : list apiT) :
  Forall unusable l ->
  Price.getCryptoPrice_loop l symbol amount = (None, concat (map calls_of l)).
Proof.
  intros Hl. induction Hl as [|[n g] l Hg Hl IH]; simpl; [reflexivity|].
  unfold unusable in Hg. simpl in Hg. unfold calls_of at 1. simpl.
  destruct (g symbol) as [r calls]. simpl in *. now rewrite Hg, IH.
Qed.

End Providers.

Section PricePattern.

Lemma take_digits_spec (s : string) :
  s = (take_digits s).1 ++ (take_digits s).2 /\
  all_digits (take_digits s).1 = true /\
  digit_headed (take_digits s).2 = false.
Proof.
  induction s as [|c r IH]; simpl; [repeat split|].
  destruct (is_digit c) eqn:E.
  - destruct (take_digits r) as [d rest]. simpl in *.
    destruct IH as (-> & Hd & Hr). rewrite E. repeat split; assumption.
  - simpl. rewrite E. repeat split.
Qed.






End PricePattern.




(** ** The donation handler *)

Section Handler.
Variables (cfg : Donation.Settings) (net : Net).
Variables (msg : Message) (db : Database.t).

(** Every path that ends before [recordDonation] leaves the document as
    it was and sends nothing. *)
Lemma dropped_unchanged calls :
  let o := Donation.dropped db calls in
  Donation.out_db o = db /\ Donation.out_saved o = false /\
  Donation.out_events o = [].
Proof. repeat split. Qed.

Lemma handler_aborts_without_value (tip : Tip) :
  Grammar.parseTip (content msg) = Some tip ->
  truthy_Q (Price.resolveUsdValue net (content msg) (tip_currency tip)
                                  (parseFloat (tip_amount tip))).1 = false ->
  let o := Donation.handleTipccDonation cfg net msg db in
  Donation.out_db o = db /\ Donation.out_saved o = false /\
  Donation.out_events o = [].
Proof.
  intros Hp Hv. unfold Donation.handleTipccDonation.
  destruct (negb (truthy_str (guildId msg))); [apply dropped_unchanged|].
  rewrite Hp.
  destruct (Database.cfg Config.allowedRecipients db) as [[|a l]|];
    try apply dropped_unchanged.
  destruct (negb (Policy.isAllowedRecipient _ _)); [apply dropped_unchanged|].
  destruct (negb (Policy.currencyAccepted _ _ _)); [apply dropped_unchanged|].
  destruct (Price.resolveUsdValue _ _ _ _) as [[q|] calls]; simpl in Hv |- *.
  - rewrite Hv. repeat split.
  - repeat split.
Qed.

End Handler.

(** The statement of C2 fails for a draw whose [maxEntries] is 0: the
    automatic allocation takes 0 for no bound and grants two entries. *)
Lemma zero_capacity_is_no_bound :
  Draw.maxEntries Sample.no_room = Some 0 /\
  sum_counts (Draw.ledger Sample.no_room) = Int 0 /\
  Database.donationDraws
    (Donation.out_db
       (Donation.handleTipccDonation Sample.settings Sample.offline
          (Sample.announcement "alice sent 0.5 LTC to bob ($10.00)")
          Sample.no_room_db))
  = Some [("draw_6",
           Draw.set_entries (Some [("111111111111111111", Int 2)])
                            Sample.no_room)].
Proof. repeat split; vm_compute; reflexivity. Qed.

Section Positive.

Lemma digits_value_nonneg (s : string) (acc : Z) :
  all_digits s = true -> 0 <= acc -> 0 <= digits_value s acc.
Proof.
  revert acc. induction s as [|c r IH]; intros acc Hd Hacc; simpl; [exact Hacc|].
  simpl in Hd. apply andb_true_iff in Hd as [Hc Hr].
  apply IH; [exact Hr|].
  unfold is_digit in Hc. apply andb_true_iff in Hc as [Hc _].
  apply Nat.leb_le in Hc. lia.
Qed.

Lemma parseFloat_nonneg (s : string) (q : Q) :
  parseFloat s = Some q -> (0 <= q)%Q.
Proof.
  unfold parseFloat.
  destruct (take_digits_spec s) as (_ & Hi & _).
  destruct (take_digits s) as [i rest]. simpl in Hi.
  assert (H0 : 0 <= digits_value i 0) by (apply digits_value_nonneg; [exact Hi | lia]).
  assert (Hint : (0 <= Qmake (digits_value i 0) 1)%Q).
  { unfold Qle. simpl. lia. }
  assert (Hfrac : forall f,
            (0 <= Qmake (digits_value i 0 * Z.pos (pow10 (String.length (take_digits f).1))
                         + digits_value (take_digits f).1 0)
                        (pow10 (String.length (take_digits f).1)))%Q).
  { intros f. destruct (take_digits_spec f) as (_ & Hf & _).
    pose proof (digits_value_nonneg _ 0 Hf ltac:(lia)).
    unfold Qle. simpl. nia. }
  destruct rest as [|x f].
  - destruct i; [discriminate|]. now intros [= <-].
  - destruct x as [[] [] [] [] [] [] [] []];
      try (destruct i; [discriminate | now intros [= <-]]).
    destruct i, (take_digits f).1 eqn:E; try discriminate;
      intros [= <-]; specialize (Hfrac f); rewrite E in Hfrac; exact Hfrac.
Qed.

Lemma getCryptoPrice_loop_value l symbol amount v calls :
  Price.getCryptoPrice_loop l symbol amount = (Some v, calls) ->
  exists p q, (0 < p)%Q /\ amount = Some q /\ v = (p * q)%Q.
Proof.
  revert calls. induction l as [|[n f] l IH]; intros calls; simpl; [discriminate|].
  destruct (f symbol) as [r cs].
  destruct (Price.usable r) as [p|] eqn:Hu.
  - destruct amount as [q|]; simpl; [|discriminate].
    intros [= <- _]. exists p, q. split; [exact (usable_positive _ _ Hu)|].
    split; reflexivity.
  - destruct (Price.getCryptoPrice_loop l symbol amount) as [v' more] eqn:E.
    intros [= -> _]. exact (IH more eq_refl).
Qed.

(** A resolved USD value is never negative. *)
Lemma resolved_value_nonneg net content currency amount v calls :
  Price.resolveUsdValue net content currency (parseFloat amount)
    = (Some v, calls) ->
  (0 <= v)%Q.
Proof.
  unfold Price.resolveUsdValue, Price.extractPriceFromTipMessage.
  destruct (Price.match_price content) as [shown|].
  - destruct (parseFloat shown) as [usd|] eqn:Hs; simpl.
    + destruct (Qzero usd) eqn:Hz; simpl.
      * intros H. apply getCryptoPrice_loop_value in H as (p & q & Hp & Hq & ->).
        apply parseFloat_nonneg in Hq. apply Qmult_le_0_compat; lra.
      * intros [= <- _]. exact (parseFloat_nonneg _ _ Hs).
    + intros H. apply getCryptoPrice_loop_value in H as (p & q & Hp & Hq & ->).
      apply parseFloat_nonneg in Hq. apply Qmult_le_0_compat; lra.
  - simpl. intros H.
    apply getCryptoPrice_loop_value in H as (p & q & Hp & Hq & ->).
    apply parseFloat_nonneg in Hq. apply Qmult_le_0_compat; lra.
Qed.

End Positive.

(** What a run of the handler can be: a run that stops early and leaves
    the document as it was, or the recording of a donation whose USD value
    is positive. *)
Lemma handler_outcome (cfg : Donation.Settings) (net : Net) (msg : Message)
    (db : Database.t) :
  let o := Donation.handleTipccDonation cfg net msg db in
  Donation.out_db o = db \/
  exists tip v sender calls,
    (0 < v)%Q /\
    o = Donation.recordDonation cfg msg tip v sender calls db.
Proof.
  unfold Donation.handleTipccDonation.
  destruct (negb (truthy_str (guildId msg))); [now left|].
  destruct (Grammar.parseTip (content msg)) as [tip|]; [|now left].
  destruct (Database.cfg Config.allowedRecipients db) as [[|a l]|];
    try (now left).
  destruct (negb (Policy.isAllowedRecipient _ _)); [now left|].
  destruct (negb (Policy.currencyAccepted _ _ _)); [now left|].
  destruct (Price.resolveUsdValue _ _ _ _) as [[v|] calls] eqn:Hr; [|now left].
  destruct (negb (truthy_Q (Some v))) eqn:Hv; [now left|].
  destruct (Donation.findSender _ _) as [sender|]; [|now left].
  right. exists tip, v, sender, calls. split; [|reflexivity].
  apply resolved_value_nonneg in Hr.
  apply negb_false_iff, truthy_Q_Some in Hv. lra.
Qed.

(** The draws a recorded donation leaves are those the loop leaves. *)
Lemma recordDonation_draws (cfg : Donation.Settings) (msg : Message)
    (tip : Tip) (v : Q) (sender : Member) (calls : list Call)
    (db : Database.t) :
  exists userData,
    Database.donationDraws
      (Donation.out_db (Donation.recordDonation cfg msg tip v sender calls db))
    = (fun draws =>
         Donation.ls_draws
           (Donation.addEntries (Database.cfg Config.vipRoleId db) sender
                                (member_id sender) v userData draws))
      <$> Database.donationDraws db.
Proof.
  unfold Donation.recordDonation.
  destruct (Rewards.checkAndAssignAchievements _ _ _ _ _) as [user4 achEvents].
  exists user4. simpl. destruct (Database.donationDraws db); reflexivity.
Qed.

(** C2 (as amended). For a draw whose [maxEntries] is set and whose
    ledger holds integers: after a manual assignment, and, when
    [maxEntries] is not 0, after the handling of a donation announcement,
    the ledger of the draw either is as it was, or has grown to a sum that
    is at most [maxEntries]; a draw that is already at or above capacity
    keeps its ledger. *)
Theorem capacity_never_exceeded
    (cfg : Donation.Settings) (net : Net) (msg : Message)
    (user role : option string) (entries : Z) (members : option (list Member))
    (db : Database.t) (draws : obj Draw.t) (i : nat) (drawId : string)
    (d : Draw.t) (mx c : Z) :
  Database.donationDraws db = Some draws ->
  draws !! i = Some (drawId, d) ->
  Draw.maxEntries d = Some mx ->
  sum_counts (Draw.ledger d) = Int c ->
  (* automatic allocation *)
  (mx <> 0 ->
   exists draws' d' c',
     Database.donationDraws
       (Donation.out_db (Donation.handleTipccDonation cfg net msg db))
       = Some draws' /\
     draws' !! i = Some (drawId, d') /\
     Draw.maxEntries d' = Some mx /\
     sum_counts (Draw.ledger d') = Int c' /\
     (mx <= c -> d' = d) /\
     ((d' = d /\ c' = c) \/ (c < c' /\ c' <= mx))) /\
  (* manual assignment *)
  (oget drawId draws = Some d ->
   let db' := (Admin.handleAssignEntries user role drawId entries members db).1.1 in
   (mx <= c -> db' = db) /\
   (db' = db \/
    exists d' c',
      Database.donationDraws db' ≫= oget drawId = Some d' /\
      Draw.maxEntries d' = Some mx /\
      sum_counts (Draw.ledger d') = Int c' /\ c < c' /\ c' <= mx)).
Proof.
  intros Hds Hi Hmx Hc. split.
  - intros Hne.
    destruct (handler_outcome cfg net msg db)
      as [->|(tip & v & sender & calls & Hv & ->)].
    + exists draws, d, c. repeat split; auto.
    + destruct (recordDonation_draws cfg msg tip v sender calls db)
        as [userData ->].
      rewrite Hds. simpl.
      assert (Hv' : ~ (v == 0)%Q) by lra.
      destruct (addEntries_capacity (Database.cfg Config.vipRoleId db) sender
                  (member_id sender) v userData draws i drawId d mx c
                  Hmx Hne Hc Hv' Hi) as (d' & c' & H).
      eexists. exists d', c'. split; [reflexivity | exact H].
  - intros Hd.
    apply (assign_capacity drawId entries user role members db d mx c);
      [|exact Hmx|exact Hc].
    rewrite Hds. exact Hd.
Qed.

(** C6. When the announcement shows no price and no provider has a usable
    price for the currency, the handler stops before it touches anything:
    the document (totals, donation history, streaks, achievements,
    per-draw entries, every draw's ledger) is the one it was given, it is
    not saved, and no role command or message is sent. *)
Theorem no_price_no_mutation (cfg : Donation.Settings) (net : Net)
    (msg : Message) (db : Database.t) (tip : Tip) :
  Grammar.parseTip (content msg) = Some tip ->
  Price.extractPriceFromTipMessage (content msg)
                                   (parseFloat (tip_amount tip)) = None ->
  Forall (fun api => Price.usable (api.2 (tip_currency tip)).1 = None)
         (Price.apis net) ->
  let o := Donation.handleTipccDonation cfg net msg db in
  Donation.out_db o = db /\ Donation.out_saved o = false /\
  Donation.out_events o = [].
Proof.
  intros Hp He Hall. apply (handler_aborts_without_value _ _ _ _ tip Hp).
  unfold Price.resolveUsdValue. rewrite He. simpl.
  unfold Price.getCryptoPrice.
  now rewrite (loop_all_unusable _ _ _ Hall).
Qed.

(** ** Donor roles *)

Section Tiers.
Variable P : DonorRole -> bool.

(** Both loops of [assignDonorRoles] keep the qualifying role with the
    largest minimum seen so far. *)
Lemma pick_spec (l : list DonorRole) (cur : option DonorRole) (val : Q) :
  let r := Rewards.highest_from P l (cur, val) in
  (val <= r.2)%Q /\
  (forall x, In x l -> P x = true -> (role_minAmount x <= r.2)%Q) /\
  ((r.1 = cur /\ r.2 = val) \/
   exists x, In x l /\ P x = true /\ r.1 = Some x /\
             r.2 = role_minAmount x /\ (val < r.2)%Q).
Proof.
  unfold Rewards.highest_from.
  revert cur val. induction l as [|a l IH]; intros cur val; simpl.
  - split; [lra|]. split; [tauto | now left].
  - destruct (P a) eqn:Pa; simpl.
    + destruct (Qltb val (role_minAmount a)) eqn:E.
      * apply Qltb_true in E.
        destruct (IH (Some a) (role_minAmount a)) as (H1 & H2 & H3).
        split; [lra|]. split.
        -- intros x [<-|Hx] Px; [exact H1 | now apply H2].
        -- right. destruct H3 as [[Hc Hv]|(x & Hx & Px & Hc & Hv & Hlt)].
           ++ exists a. rewrite Hc, Hv.
              split; [now left|]. repeat split; auto.
           ++ exists x. split; [now right|]. repeat split; auto. lra.
      * apply Qltb_false in E.
        destruct (IH cur val) as (H1 & H2 & H3).
        split; [exact H1|]. split.
        -- intros x [<-|Hx] Px; [lra | now apply H2].
        -- destruct H3 as [H3|(x & Hx & Px & Hc & Hv & Hlt)]; [now left|].
           right. exists x. split; [now right|]. repeat split; auto.
    + destruct (IH cur val) as (H1 & H2 & H3).
      split; [exact H1|]. split.
      * intros x [<-|Hx] Px; [congruence | now apply H2].
      * destruct H3 as [H3|(x & Hx & Px & Hc & Hv & Hlt)]; [now left|].
        right. exists x. split; [now right|]. repeat split; auto.
Qed.

End Tiers.

(** The handler that reads the roles the member holds never moves a member
    to a tier that is not strictly above every tier the member holds:
    either it sends no role command at all, or the role it adds has a
    minimum strictly above the minimum of every configured role the member
    holds. *)
Lemma assignDonorRoles_only_upgrades (db : Database.t) (g : Guild)
    (m : Member) (newTotal oldTotal : Q) :
  let donorRoles := default [] (Database.cfg Config.donorRoles db) in
  let evs := Rewards.assignDonorRoles db g m newTotal oldTotal in
  evs = [] \/
  exists new,
    In new (ovalues donorRoles) /\
    Rewards.in_range newTotal new = true /\
    evs = (Rewards.replaceRoles m donorRoles new
           ++ Rewards.upgradeNotice g m new newTotal)%list /\
    forall held, In held (ovalues donorRoles) ->
                 Rewards.has_role m (role_id held) = true ->
                 (role_minAmount held < role_minAmount new)%Q.
Proof.
  intros donorRoles evs. subst evs. unfold Rewards.assignDonorRoles.
  fold donorRoles. destruct (okeys donorRoles) eqn:Hk; [now left|]. clear Hk.
  unfold Rewards.currentRole, Rewards.newRole.
  pose proof (pick_spec (fun role => Rewards.has_role m (role_id role))
                        (ovalues donorRoles) None 0%Q) as Hcur.
  pose proof (pick_spec (Rewards.in_range newTotal)
                        (ovalues donorRoles) None 0%Q) as Hnew.
  cbv zeta in Hcur, Hnew.
  destruct (Rewards.highest_from (fun role => Rewards.has_role m (role_id role))
              (ovalues donorRoles) (None, 0%Q)) as [cur cval].
  destruct (Rewards.highest_from (Rewards.in_range newTotal)
              (ovalues donorRoles) (None, 0%Q)) as [new nval].
  simpl in Hcur, Hnew.
  destruct Hcur as (Hc0 & Hcmax & Hcur). destruct Hnew as (Hn0 & _ & Hnew).
  destruct new as [nr|]; [|now left].
  destruct Hnew as [[[=] _]|(x & Hx & Px & [= <-] & -> & Hpos)].
  assert (Hstrict : match cur with None => true | Some _ => false end
                    || Qltb cval (role_minAmount nr) = true ->
                    (cval < role_minAmount nr)%Q).
  { destruct cur as [c|]; simpl.
    - apply Qltb_true.
    - intros _. destruct Hcur as [[_ ->]|(y & _ & _ & [=] & _)]. exact Hpos. }
  destruct (match cur with None => true | Some _ => false end
            || Qltb cval (role_minAmount nr)) eqn:E; [|now left].
  right. exists nr. repeat split; auto.
  intros held Hin Hheld. specialize (Hcmax held Hin Hheld).
  specialize (Hstrict eq_refl). lra.
Qed.

(** C7. Donor roles never downgrade.  The handler that receives the
    messages of tip.cc either sends no role command, or removes the
    configured roles the member holds and adds one whose minimum is
    strictly above the minimum of each of them; in particular it sends
    nothing when the role found for the new total has a minimum that is
    not strictly above the minimum of the role found among those the
    member holds.  The other handler drops every message of a bot before
    it looks for tip.cc, so its role assignment receives no donation. *)
Theorem donor_roles_never_downgrade (db : Database.t) (g : Guild)
    (m : Member) (newTotal oldTotal : Q) :
  let donorRoles := default [] (Database.cfg Config.donorRoles db) in
  let evs := Rewards.assignDonorRoles db g m newTotal oldTotal in
  (evs = [] \/
   exists new,
     In new (ovalues donorRoles) /\
     Rewards.in_range newTotal new = true /\
     evs = (Rewards.replaceRoles m donorRoles new
            ++ Rewards.upgradeNotice g m new newTotal)%list /\
     forall held, In held (ovalues donorRoles) ->
                  Rewards.has_role m (role_id held) = true ->
                  (role_minAmount held < role_minAmount new)%Q) /\
  (forall computed current,
     (Rewards.newRole newTotal donorRoles).1 = Some computed ->
     (Rewards.currentRole m donorRoles).1 = Some current ->
     (role_minAmount computed <= role_minAmount current)%Q ->
     evs = []) /\
  (forall author_id,
     Donation.execute author_id true
     = String.eqb author_id "617037497574359050" /\
     Legacy.execute author_id true = false).
Proof.
  intros donorRoles evs.
  split; [apply assignDonorRoles_only_upgrades|].
  split; [|intros author_id; split; reflexivity].
  intros computed current Hnew Hcur Hle.
  subst evs. unfold Rewards.assignDonorRoles. fold donorRoles.
  destruct (okeys donorRoles); [reflexivity|].
  pose proof (pick_spec (fun role => Rewards.has_role m (role_id role))
                        (ovalues donorRoles) None 0%Q) as Hc.
  pose proof (pick_spec (Rewards.in_range newTotal)
                        (ovalues donorRoles) None 0%Q) as Hn.
  cbv zeta in Hc, Hn. unfold Rewards.currentRole, Rewards.newRole in *.
  destruct (Rewards.highest_from (fun role => Rewards.has_role m (role_id role))
              (ovalues donorRoles) (None, 0%Q)) as [cur cval].
  destruct (Rewards.highest_from (Rewards.in_range newTotal)
              (ovalues donorRoles) (None, 0%Q)) as [new nval].
  cbn [fst snd] in *. subst cur new.
  destruct Hc as (_ & _ & [[[=] _]|(x & _ & _ & [= <-] & -> & _)]).
  destruct Hn as (_ & _ & [[[=] _]|(y & _ & _ & [= <-] & -> & _)]).
  cbn [orb].
  destruct (Qltb (role_minAmount current) (role_minAmount computed)) eqn:E;
    [|reflexivity].
  apply Qltb_true in E. lra.
Qed.

(** The role assignment of the handler that is never reached derives the
    role from the totals alone: called for a member who holds Gold
    (minimum 51) with totals 0 and 10 it would remove Gold and add Bronze
    (minimum 5). *)
Example legacy_assignDonorRoles_downgrades :
  Legacy.assignDonorRoles Sample.tiers Sample.guild_1 Sample.golden 10%Q 0%Q =
  [RoleRemoved "222222222222222222" "900000000000000003";
   RoleAdded "222222222222222222" "900000000000000001";
   RoleUpgrade "general" "222222222222222222" "Bronze" 10%Q].
Proof. vm_compute. reflexivity. Qed.

(** On the same input the handler that reads the held roles sends
    nothing. *)
Lemma assignDonorRoles_keeps_gold :
  Rewards.assignDonorRoles
    (Database.mk (Some (Config.mk None None (Some Sample.tiers) None None None None None))
                 [] None)
    Sample.guild_1 Sample.golden 10%Q 0%Q = [].
Proof. vm_compute. reflexivity. Qed.

(** ** Winner selection *)

Section Winner.

Lemma weighted_spec (l : obj jsint) (c : Z) :
  sum_counts l = Int c ->
  exists w, Admin.weightedEntries l = Some w /\
            c <= Z.of_nat (length w) /\
            forall u, In u w -> exists n, In (u, Int n) l /\ 1 <= n.
Proof.
  revert c. induction l as [|[k x] l IH]; intros c H.
  - injection H as <-. exists []. simpl. repeat split; [lia | tauto].
  - apply sum_counts_cons in H as (y & r & -> & Hr & ->).
    destruct (IH r Hr) as (w & Hw & Hlen & Hin).
    exists (replicate (Z.to_nat y) k ++ w)%list. simpl. rewrite Hw.
    split; [reflexivity|]. split.
    + rewrite length_app, length_replicate. lia.
    + intros u Hu. apply in_app_or in Hu as [Hu|Hu].
      * apply list_elem_of_In, elem_of_replicate in Hu as [-> Hy].
        exists y. split; [now left | lia].
      * destruct (Hin u Hu) as (n & Hn & Hn1). exists n. split; [now right | exact Hn1].
Qed.

Lemma pick_in (random : Q) (w : list string) :
  (0 <= random)%Q -> (random < 1)%Q -> w <> [] ->
  exists u, Admin.pick random w = Some u /\ In u w.
Proof.
  intros H0 H1 Hw. unfold Admin.pick.
  set (len := Z.of_nat (length w)).
  assert (Hlen : 0 < len) by (destruct w; [congruence | unfold len; simpl; lia]).
  assert (HlenQ : (0 < inject_Z len)%Q).
  { change 0%Q with (inject_Z 0). now rewrite <- Zlt_Qlt. }
  set (x := (random * inject_Z len)%Q).
  assert (Hx0 : (0 <= x)%Q) by (apply Qmult_le_0_compat; lra).
  assert (Hx1 : (x < inject_Z len)%Q).
  { unfold x.
    apply Qlt_le_trans with (1 * inject_Z len)%Q.
    - apply Qmult_lt_compat_r; assumption.
    - rewrite Qmult_1_l. apply Qle_refl. }
  assert (Hf0 : 0 <= Qfloor x).
  { change 0 with (Qfloor 0). now apply Qfloor_resp_le. }
  assert (Hf1 : Qfloor x < len).
  { rewrite Zlt_Qlt. pose proof (Qfloor_le x). lra. }
  destruct (Z.ltb_spec (Qfloor x) 0); [lia|].
  destruct (lookup_lt_is_Some_2 w (Z.to_nat (Qfloor x))) as [u Hu].
  { unfold len in Hf1. lia. }
  exists u. split; [exact Hu|].
  apply list_elem_of_In. eapply list_elem_of_lookup_2. exact Hu.
Qed.

End Winner.

(** C8 (as amended). For an active draw whose ledger holds integers: when
    the total is zero the command reports that there are no entries and
    leaves the document as it was; when the total is positive it closes the
    draw, records as winner a user who holds at least one entry in it, and
    adds exactly one to that user's wins, the record of every other user and
    every other draw being left as it was. *)
Theorem winner_selection (drawId : string) (random : Q) (now : Z)
    (by_ : string) (db : Database.t) (draw : Draw.t) :
  Database.donationDraws db ≫= oget drawId = Some draw ->
  Draw.active draw = true ->
  (sum_counts (Draw.ledger draw) = Int 0 ->
   Admin.handleSelectWinner drawId random now by_ db
     = Some (db, false, Admin.NoEntriesFound)) /\
  (forall c,
     sum_counts (Draw.ledger draw) = Int c -> 0 < c ->
     (0 <= random)%Q -> (random < 1)%Q ->
     NoDup (okeys (Draw.ledger draw)) ->
     exists w n db' draw',
       Admin.handleSelectWinner drawId random now by_ db
         = Some (db', true, Admin.WinnerSelected (Some w) (Int c)) /\
       oget w (Draw.ledger draw) = Some (Int n) /\ 1 <= n /\
       Database.donationDraws db' ≫= oget drawId = Some draw' /\
       Draw.active draw' = false /\ Draw.winner draw' = Some w /\
       Draw.entries draw' = Draw.entries draw /\
       User.wins <$> oget w (Database.users db')
         = Some (default 0 (User.wins <$> oget w (Database.users db)) + 1) /\
       (forall k, k <> w ->
                  oget k (Database.users db') = oget k (Database.users db)) /\
       (forall k, k <> drawId ->
                  Database.donationDraws db' ≫= oget k
                  = Database.donationDraws db ≫= oget k) /\
       Database.config db' = Database.config db).
Proof.
  intros Hd Ha. unfold Admin.handleSelectWinner. rewrite Hd, Ha. simpl. split.
  - intros ->. reflexivity.
  - intros c Hc Hpos H0 H1 Hnd. rewrite Hc.
    rewrite bool_decide_eq_false_2 by (intros [=]; lia).
    destruct (weighted_spec _ _ Hc) as (w & -> & Hlen & Hin).
    destruct (pick_in random w H0 H1) as (u & -> & Hu).
    { intros ->. simpl in Hlen. lia. }
    destruct (Hin u Hu) as (n & Hn & Hn1).
    exists u, n. eexists. eexists. split; [reflexivity|]. simpl.
    split; [now apply In_oget|]. split; [exact Hn1|].
    rewrite oget_oset_eq. split; [reflexivity|].
    split; [reflexivity|]. split; [reflexivity|]. split; [reflexivity|].
    rewrite oget_oset_eq. split.
    + simpl. destruct (oget u (Database.users db)); reflexivity.
    + split; [|split; [|reflexivity]].
      * intros k Hk. apply oget_oset_ne. congruence.
      * intros k Hk. rewrite oget_oset_ne by congruence.
        destruct (Database.donationDraws db); reflexivity.
Qed.

(** The statement of C8 fails for a draw that is no longer active: the
    command replies that the draw is not active, and names no winner
    although the draw holds three entries. *)
Lemma inactive_draw_has_no_winner :
  sum_counts (Draw.ledger Sample.closed_draw) = Int 3 /\
  Admin.handleSelectWinner "draw_4" (1 # 2)%Q 5 "659745190382141453"
                           Sample.closed_db
    = Some (Sample.closed_db, false, Admin.DrawNotActive).
Proof. split; reflexivity. Qed.

(** ** Achievements *)

Section Evaluate.
Variable earn : string -> bool.

Lemma holds_In (arr : list string) (k : string) :
  Rewards.holds arr k = true <-> In k arr.
Proof.
  unfold Rewards.holds. rewrite existsb_exists. split.
  - intros (x & Hx & E). apply String.eqb_eq in E. now subst.
  - intros H. exists k. split; [exact H | apply String.eqb_refl].
Qed.

(** The loop only appends, appends no key twice, appends no key that is
    already held, and leaves no key of the catalogue both earned and
    absent. *)
Lemma evaluate_from_spec (ks : list string) :
  forall arr new,
    let r := Rewards.evaluate_from earn ks (arr, new) in
    exists added,
      r.1 = (arr ++ added)%list /\ r.2 = (new ++ added)%list /\
      NoDup added /\
      (forall k, In k added -> ~ In k arr /\ earn k = true) /\
      (forall k, In k ks -> In k r.1 \/ earn k = false).
Proof.
  unfold Rewards.evaluate_from.
  induction ks as [|key ks IH]; intros arr new; simpl.
  - exists []. rewrite !app_nil_r.
    split; [reflexivity|]. split; [reflexivity|].
    split; [apply NoDup_nil_2|]. split; [intros k []|intros k []].
  - destruct (Rewards.holds arr key) eqn:Hh.
    + destruct (IH arr new) as (added & H1 & H2 & H3 & H4 & H5).
      exists added. split; [exact H1|]. split; [exact H2|].
      split; [exact H3|]. split; [exact H4|].
      intros k [<-|Hk]; [left | now apply H5].
      rewrite H1. apply in_or_app. left. now apply holds_In.
    + assert (Hnot : ~ In key arr).
      { rewrite <- holds_In. congruence. }
      destruct (earn key) eqn:He.
      * destruct (IH (arr ++ [key]) (new ++ [key]))%list
          as (added & H1 & H2 & H3 & H4 & H5).
        rewrite <- app_assoc in H1, H2. simpl in H1, H2.
        exists (key :: added). split; [exact H1|]. split; [exact H2|]. split.
        -- apply NoDup_cons. split; [|exact H3].
           rewrite list_elem_of_In. intros Hin.
           apply (proj1 (H4 key Hin)). apply in_or_app. right. now left.
        -- split.
           ++ intros k [<-|Hk]; [now split|].
              destruct (H4 k Hk) as [Hn Hearn]. split; [|exact Hearn].
              intros Hin. apply Hn. apply in_or_app. now left.
           ++ intros k [<-|Hk]; [left | now apply H5].
              rewrite H1. apply in_or_app. right. now left.
      * destruct (IH arr new) as (added & H1 & H2 & H3 & H4 & H5).
        exists added. split; [exact H1|]. split; [exact H2|].
        split; [exact H3|]. split; [exact H4|].
        intros k [<-|Hk]; [now right | now apply H5].
Qed.

Lemma evaluate_from_stable (ks : list string) :
  forall arr new,
    (forall k, In k ks -> In k arr \/ earn k = false) ->
    Rewards.evaluate_from earn ks (arr, new) = (arr, new).
Proof.
  unfold Rewards.evaluate_from.
  induction ks as [|key ks IH]; intros arr new H; simpl; [reflexivity|].
  destruct (Rewards.holds arr key) eqn:Hh.
  - apply IH. intros k Hk. apply H. now right.
  - destruct (H key (or_introl eq_refl)) as [Hin| ->].
    + apply holds_In in Hin. congruence.
    + apply IH. intros k Hk. apply H. now right.
Qed.

Lemma evaluate_from_ext (earn' : string -> bool) (ks : list string) :
  (forall k, earn k = earn' k) ->
  forall init, Rewards.evaluate_from earn ks init
               = Rewards.evaluate_from earn' ks init.
Proof.
  intros Hext. unfold Rewards.evaluate_from.
  induction ks as [|key ks IH]; intros [arr new]; simpl; [reflexivity|].
  now rewrite Hext, IH.
Qed.

(** A second run of the loop on the array the first run left adds
    nothing. *)
Lemma evaluate_from_twice (ks : list string) (arr : list string) :
  let arr1 := (Rewards.evaluate_from earn ks (arr, [])).1 in
  Rewards.evaluate_from earn ks (arr1, []) = (arr1, []).
Proof.
  intros arr1. apply evaluate_from_stable.
  destruct (evaluate_from_spec ks arr []) as (added & _ & _ & _ & _ & H).
  exact H.
Qed.

End Evaluate.

Section Facts.

Lemma facts_inv (u u' : User.t) :
  Spec.facts u = Spec.facts u' ->
  User.totalDonated u = User.totalDonated u' /\
  User.streaks u = User.streaks u' /\
  User.wins u = User.wins u' /\
  User.referredBy u = User.referredBy u'.
Proof. unfold Spec.facts. intros [= -> -> -> ->]. repeat split. Qed.

Lemma facts_set_achievements (x : option (list string)) (u : User.t) :
  Spec.facts (User.set_achievements x u) = Spec.facts u.
Proof. reflexivity. Qed.

Lemma same_facts_cons_inv k0 u0 (us : obj User.t) k1 u1 (us' : obj User.t) :
  Spec.same_facts ((k0, u0) :: us) ((k1, u1) :: us') ->
  k0 = k1 /\ Spec.facts u0 = Spec.facts u1 /\ Spec.same_facts us us'.
Proof.
  unfold Spec.same_facts. simpl. intros H. split; [|split].
  - exact (f_equal (fun l => hd k0 (map fst l)) H).
  - exact (f_equal (fun l => hd (Spec.facts u0) (map snd l)) H).
  - exact (f_equal (@tl _) H).
Qed.

Lemma same_facts_nil_inv (us us' : obj User.t) :
  Spec.same_facts us us' -> (us = [] <-> us' = []).
Proof.
  unfold Spec.same_facts. destruct us, us'; simpl; try discriminate;
    intros _; split; congruence.
Qed.

Lemma same_facts_refl (us : obj User.t) : Spec.same_facts us us.
Proof. reflexivity. Qed.

Lemma same_facts_trans (a b c : obj User.t) :
  Spec.same_facts a b -> Spec.same_facts b c -> Spec.same_facts a c.
Proof. unfold Spec.same_facts. congruence. Qed.

Lemma same_facts_oset (us : obj User.t) (k : string) (u u' : User.t) :
  oget k us = Some u -> Spec.facts u' = Spec.facts u ->
  Spec.same_facts us (oset k u' us).
Proof.
  unfold Spec.same_facts. intros Hget Hf.
  induction us as [|[k0 u0] us IH]; simpl in *; [discriminate|].
  destruct (String.eqb k k0).
  - injection Hget as ->. simpl. now rewrite Hf.
  - simpl. now rewrite <- IH.
Qed.

Lemma same_facts_In (us us' : obj User.t) (k : string) (u' : User.t) :
  Spec.same_facts us us' -> In (k, u') us' ->
  exists u, In (k, u) us /\ Spec.facts u = Spec.facts u'.
Proof.
  revert us'.
  induction us as [|[k0 u0] us IH]; intros [|[k1 u1] us'] H.
  1: intros [].
  1: apply same_facts_nil_inv in H as [H _]; discriminate (H eq_refl).
  1: apply same_facts_nil_inv in H as [_ H]; discriminate (H eq_refl).
  apply same_facts_cons_inv in H as (-> & Hf & Hrest).
  intros [[= -> ->]|Hin].
  - exists u0. split; [now left | exact Hf].
  - destruct (IH us' Hrest Hin) as (u & Hu & Hfu). exists u. split; [now right | exact Hfu].
Qed.

Lemma same_facts_oget (us us' : obj User.t) (k : string) :
  Spec.same_facts us us' -> is_Some (oget k us) -> is_Some (oget k us').
Proof.
  revert us'.
  induction us as [|[k0 u0] us IH]; intros [|[k1 u1] us'] H.
  1: intros [? [=]].
  1: apply same_facts_nil_inv in H as [H _]; discriminate (H eq_refl).
  1: apply same_facts_nil_inv in H as [_ H]; discriminate (H eq_refl).
  apply same_facts_cons_inv in H as (-> & Hf & Hrest). simpl.
  destruct (String.eqb k k1); [now eexists|].
  now apply IH.
Qed.

Lemma referralCount_same (us us' : obj User.t) (uid : string) :
  Spec.same_facts us us' ->
  Rewards.referralCount us uid = Rewards.referralCount us' uid.
Proof.
  unfold Rewards.referralCount, ovalues. intros H. f_equal.
  revert us' H.
  induction us as [|[k0 u0] us IH]; intros [|[k1 u1] us'] H.
  1: reflexivity.
  1: apply same_facts_nil_inv in H as [H _]; discriminate (H eq_refl).
  1: apply same_facts_nil_inv in H as [_ H]; discriminate (H eq_refl).
  apply same_facts_cons_inv in H as (_ & Hf & Hrest).
  apply facts_inv in Hf as (_ & _ & _ & Hr). simpl.
  rewrite Hr. destruct (bool_decide _); simpl; now rewrite (IH us' Hrest).
Qed.

Lemma earned_same (us us' : obj User.t) (uid : string) (u u' : User.t)
    (key : string) :
  Spec.same_facts us us' -> Spec.facts u = Spec.facts u' ->
  Rewards.earned us uid u key = Rewards.earned us' uid u' key.
Proof.
  intros Hus Hf. unfold Rewards.earned.
  rewrite (referralCount_same _ _ uid Hus).
  apply facts_inv in Hf as (-> & -> & -> & _). reflexivity.
Qed.

Lemma evaluate_same (ACH : obj Achievement) (us us' : obj User.t)
    (uid : string) (u u' : User.t) (held : list string) :
  Spec.same_facts us us' -> Spec.facts u = Spec.facts u' ->
  Rewards.evaluate ACH us uid u held = Rewards.evaluate ACH us' uid u' held.
Proof.
  intros Hus Hf. unfold Rewards.evaluate.
  apply evaluate_from_ext. intros key. now apply earned_same.
Qed.

End Facts.

Section Repair.
Variable ACH : obj Achievement.

Local Opaque Spec.facts.

Lemma In_oget_some {V} (k : string) (v : V) (o : obj V) :
  In (k, v) o -> is_Some (oget k o).
Proof.
  induction o as [|[k' v'] o IH]; simpl; [tauto|].
  intros [[= -> ->]|Hin].
  - rewrite String.eqb_refl. now eexists.
  - destruct (String.eqb k k'); [now eexists | now apply IH].
Qed.

Lemma fix_inv (db db' : Database.t) (k : string) (n : Z) :
  Admin.fixUserAchievements ACH db k = Some (db', n) ->
  exists u,
    oget k (Database.users db) = Some u /\
    let r := Rewards.evaluate ACH (Database.users db) k u
               (default [] (User.achievements u)) in
    db' = Database.set_users
            (oset k (User.set_achievements (Some r.1) u) (Database.users db)) db /\
    n = Z.of_nat (length r.2).
Proof.
  unfold Admin.fixUserAchievements.
  destruct (oget k (Database.users db)) as [u|]; [|discriminate].
  destruct (Rewards.evaluate _ _ _ _ _) as [arr new] eqn:E. intros [= <- <-].
  exists u. split; [reflexivity|]. cbv zeta. rewrite E. split; reflexivity.
Qed.

Lemma fix_total (db : Database.t) (k : string) :
  is_Some (oget k (Database.users db)) ->
  exists db' n, Admin.fixUserAchievements ACH db k = Some (db', n).
Proof.
  intros [u Hu]. unfold Admin.fixUserAchievements. rewrite Hu.
  destruct (Rewards.evaluate _ _ _ _ _). now do 2 eexists.
Qed.

Lemma fix_same_facts (db db' : Database.t) (k : string) (n : Z) :
  Admin.fixUserAchievements ACH db k = Some (db', n) ->
  Spec.same_facts (Database.users db) (Database.users db') /\
  Database.config db' = Database.config db /\
  Database.donationDraws db' = Database.donationDraws db.
Proof.
  intros H. apply fix_inv in H as (u & Hu & -> & _). simpl.
  split; [|split; reflexivity].
  apply (same_facts_oset _ _ u); [exact Hu | apply facts_set_achievements].
Qed.

Lemma fix_settles (db db' : Database.t) (k : string) (n : Z) :
  Admin.fixUserAchievements ACH db k = Some (db', n) ->
  Spec.settled ACH (Database.users db') k.
Proof.
  intros H. pose proof (fix_same_facts _ _ _ _ H) as (Hsf & _ & _).
  apply fix_inv in H as (u & Hu & -> & _). simpl in *.
  eexists. eexists. split; [apply oget_oset_eq|]. split; [reflexivity|].
  rewrite <- (evaluate_same ACH _ _ k u _ _ Hsf
                (eq_sym (facts_set_achievements _ u))).
  unfold Rewards.evaluate. apply evaluate_from_twice.
Qed.

Lemma fix_keeps_settled (db db' : Database.t) (j k : string) (n : Z) :
  Spec.settled ACH (Database.users db) j ->
  Admin.fixUserAchievements ACH db k = Some (db', n) ->
  Spec.settled ACH (Database.users db') j.
Proof.
  intros (u & arr & Hu & Ha & He) H.
  destruct (String.eqb_spec k j) as [->|Hne]; [exact (fix_settles _ _ _ _ H)|].
  pose proof (fix_same_facts _ _ _ _ H) as (Hsf & _ & _).
  apply fix_inv in H as (u0 & Hu0 & -> & _). simpl in *.
  exists u, arr. split; [now rewrite oget_oset_ne|]. split; [exact Ha|].
  now rewrite <- (evaluate_same ACH _ _ j u u arr Hsf eq_refl).
Qed.

Lemma settled_fix (db : Database.t) (k : string) :
  Spec.settled ACH (Database.users db) k ->
  Admin.fixUserAchievements ACH db k = Some (db, 0).
Proof.
  intros (u & arr & Hu & Ha & He). unfold Admin.fixUserAchievements.
  rewrite Hu, Ha. simpl. rewrite He. simpl.
  replace (User.set_achievements (Some arr) u) with u
    by (destruct u; simpl in *; now subst).
  rewrite (oset_same _ _ _ Hu). now destruct db.
Qed.

Lemma positives_same (us us' : obj User.t) :
  Spec.same_facts us us' -> Spec.positives us = Spec.positives us'.
Proof.
  unfold Spec.positives. intros H. f_equal. revert us' H.
  induction us as [|[k0 u0] us IH]; intros [|[k1 u1] us'] H.
  1: reflexivity.
  1: apply same_facts_nil_inv in H as [H _]; discriminate (H eq_refl).
  1: apply same_facts_nil_inv in H as [_ H]; discriminate (H eq_refl).
  apply same_facts_cons_inv in H as (_ & Hf & Hrest).
  apply facts_inv in Hf as (Ht & _). simpl. rewrite Ht.
  destruct (Qltb _ _); simpl; now rewrite (IH us' Hrest).
Qed.

Lemma positives_cons (k : string) (u : User.t) (l : obj User.t) :
  Spec.positives ((k, u) :: l) =
  (if Qltb 0 (User.totalDonated u) then 1 else 0) + Spec.positives l.
Proof.
  unfold Spec.positives. simpl.
  destruct (Qltb _ _); simpl; lia.
Qed.

(** The first pass over the users: it ends, changes nothing but
    achievement arrays, and leaves every visited user settled. *)
Lemma repair_pass (l : obj User.t) :
  forall db f p,
    (forall k u, In (k, u) l -> is_Some (oget k (Database.users db))) ->
    exists db1 f1,
      fold_left (Admin.fix_step ACH) l (Some (db, f, p))
        = Some (db1, f1, p + Spec.positives l) /\
      Spec.same_facts (Database.users db) (Database.users db1) /\
      (forall j, Spec.settled ACH (Database.users db) j ->
                 Spec.settled ACH (Database.users db1) j) /\
      (forall k u, In (k, u) l -> Qltb 0 (User.totalDonated u) = true ->
                   Spec.settled ACH (Database.users db1) k).
Proof.
  induction l as [|[k u] l IH]; intros db f p Hin.
  - exists db, f. change (Spec.positives []) with 0. rewrite Z.add_0_r.
    split; [reflexivity|].
    split; [apply same_facts_refl|]. split; [auto | intros ? ? []].
  - rewrite positives_cons. cbn [fold_left]. unfold Admin.fix_step at 2.
    cbn [fst snd]. destruct (Qltb 0 (User.totalDonated u)) eqn:Hpos.
    + destruct (fix_total db k (Hin k u (or_introl eq_refl))) as (db' & n & Hfix).
      rewrite Hfix.
      pose proof (fix_same_facts _ _ _ _ Hfix) as (Hsf & _ & _).
      destruct (IH db' (f + n) (p + 1)) as (db1 & f1 & Hfold & Hsf1 & Hkeep & Hall).
      { intros k' u' Hk'. apply (same_facts_oget _ _ _ Hsf).
        apply (Hin k' u'). now right. }
      exists db1, f1. split; [rewrite Hfold, Z.add_assoc; reflexivity|].
      split; [exact (same_facts_trans _ _ _ Hsf Hsf1)|]. split.
      * intros j Hj. apply Hkeep. exact (fix_keeps_settled _ _ _ _ _ Hj Hfix).
      * intros k' u' [[= -> ->]|Hk'] Hp.
        -- apply Hkeep. exact (fix_settles _ _ _ _ Hfix).
        -- now apply (Hall k' u').
    + destruct (IH db f p) as (db1 & f1 & Hfold & Hsf1 & Hkeep & Hall).
      { intros k' u' Hk'. apply (Hin k' u'). now right. }
      exists db1, f1. split; [rewrite Hfold, Z.add_0_l; reflexivity|].
      split; [exact Hsf1|]. split; [exact Hkeep|].
      intros k' u' [[= -> ->]|Hk'] Hp; [congruence | now apply (Hall k' u')].
Qed.

(** A pass over users that are all settled changes nothing and counts no
    achievement. *)
Lemma repair_pass_settled (l : obj User.t) :
  forall db f p,
    (forall k u, In (k, u) l -> Qltb 0 (User.totalDonated u) = true ->
                 Spec.settled ACH (Database.users db) k) ->
    fold_left (Admin.fix_step ACH) l (Some (db, f, p))
      = Some (db, f, p + Spec.positives l).
Proof.
  induction l as [|[k u] l IH]; intros db f p Hall.
  - change (Spec.positives []) with 0. now rewrite Z.add_0_r.
  - rewrite positives_cons. cbn [fold_left]. unfold Admin.fix_step at 2.
    cbn [fst snd]. destruct (Qltb 0 (User.totalDonated u)) eqn:Hpos.
    + rewrite (settled_fix db k (Hall k u (or_introl eq_refl) Hpos)).
      rewrite IH by (intros k' u' Hk'; apply (Hall k' u'); now right).
      now rewrite Z.add_0_r, Z.add_assoc.
    + rewrite IH by (intros k' u' Hk'; apply (Hall k' u'); now right).
      now rewrite Z.add_0_l.
Qed.

(** Running the repair command a second time adds no achievement and
    leaves the document as the first run left it. *)
Lemma repair_twice (targetUser : option string) (db : Database.t) :
  let r1 := Admin.handleFixAchievements ACH targetUser db in
  Admin.handleFixAchievements ACH targetUser (Admin.fix_db r1) =
  {| Admin.fix_db := Admin.fix_db r1; Admin.fix_saved := true;
     Admin.fixedCount := 0; Admin.usersProcessed := Admin.usersProcessed r1 |}.
Proof.
  unfold Admin.handleFixAchievements. destruct targetUser as [k|].
  - destruct (Admin.fixUserAchievements ACH db k) as [[db' n]|] eqn:Hfix; simpl.
    + now rewrite (settled_fix db' k (fix_settles _ _ _ _ Hfix)).
    + now rewrite Hfix.
  - destruct (repair_pass (Database.users db) db 0 0)
      as (db1 & f1 & Hfold & Hsf & _ & Hall).
    { intros k u. apply In_oget_some. }
    rewrite Hfold. simpl.
    rewrite repair_pass_settled.
    + now rewrite (positives_same _ _ Hsf).
    + intros k u' Hin Hpos.
      destruct (same_facts_In _ _ _ _ Hsf Hin) as (u & Hu & Hf).
      apply facts_inv in Hf as (Ht & _).
      apply (Hall k u Hu). now rewrite Ht.
Qed.

End Repair.

(** C9. An evaluation of achievements only appends to the array a user
    holds: it appends no key the user already holds and no key twice, so
    an array without duplicates stays without duplicates; evaluating again
    adds nothing.  This holds for the evaluation that follows a donation
    and for the repair of one user; and a second run of the repair
    command, for one user or for all of them, reports zero achievements
    and leaves the document as the first run left it. *)
Theorem achievements_idempotent (ACH : obj Achievement) (g : Guild)
    (m : Member) (userData : User.t) (users : obj User.t)
    (db : Database.t) (userId : string) (targetUser : option string) :
  (let held := default [] (User.achievements userData) in
   let r := Rewards.checkAndAssignAchievements ACH g m userData users in
   exists added,
     User.achievements r.1 = Some (held ++ added)%list /\
     NoDup added /\ (forall k, In k added -> ~ In k held) /\
     (NoDup held -> NoDup (held ++ added)%list) /\
     forall users', Spec.same_facts users users' ->
       Rewards.checkAndAssignAchievements ACH g m r.1 users' = (r.1, [])) /\
  (forall db' n,
     Admin.fixUserAchievements ACH db userId = Some (db', n) ->
     exists u added,
       oget userId (Database.users db) = Some u /\
       User.achievements <$> oget userId (Database.users db')
         = Some (Some (default [] (User.achievements u) ++ added)%list) /\
       n = Z.of_nat (length added) /\
       NoDup added /\
       (forall k, In k added -> ~ In k (default [] (User.achievements u))) /\
       Admin.fixUserAchievements ACH db' userId = Some (db', 0)) /\
  (let r1 := Admin.handleFixAchievements ACH targetUser db in
   Admin.handleFixAchievements ACH targetUser (Admin.fix_db r1) =
   {| Admin.fix_db := Admin.fix_db r1; Admin.fix_saved := true;
      Admin.fixedCount := 0; Admin.usersProcessed := Admin.usersProcessed r1 |}).
Proof.
  split; [|split; [|apply repair_twice]].
  - intros held r. subst r. unfold Rewards.checkAndAssignAchievements.
    fold held. unfold Rewards.evaluate.
    destruct (evaluate_from_spec
                (Rewards.earned users (member_id m) userData)
                (okeys ACH) held []) as (added & H1 & H2 & H3 & H4 & H5).
    destruct (Rewards.evaluate_from _ _ _) as [arr new] eqn:E.
    simpl in H1, H2, H5. subst arr new. simpl.
    exists added. split; [reflexivity|]. split; [exact H3|].
    split; [intros k Hk; exact (proj1 (H4 k Hk))|]. split.
    + intros Hnd. apply NoDup_app. split; [exact Hnd|]. split; [|exact H3].
      intros x Hx Hx'. rewrite list_elem_of_In in Hx, Hx'.
      exact (proj1 (H4 x Hx') Hx).
    + intros users' Hsf.
      rewrite (evaluate_from_ext _
                 (Rewards.earned users (member_id m) userData)).
      * rewrite evaluate_from_stable by exact H5. simpl.
        destruct userData; reflexivity.
      * intros key. symmetry. now apply earned_same.
  - intros db' n Hfix.
    pose proof (settled_fix ACH db' userId (fix_settles _ _ _ _ _ Hfix)) as H2.
    apply fix_inv in Hfix as (u & Hu & -> & ->). simpl.
    unfold Rewards.evaluate.
    destruct (evaluate_from_spec
                (Rewards.earned (Database.users db) userId u)
                (okeys ACH) (default [] (User.achievements u)) [])
      as (added & H1 & H1' & H3 & H4 & H5).
    exists u, added. split; [exact Hu|].
    rewrite oget_oset_eq. simpl. unfold Rewards.evaluate in H2.
    rewrite H1. simpl in H1'. rewrite H1'.
    split; [reflexivity|]. split; [reflexivity|]. split; [exact H3|].
    split; [intros k Hk; exact (proj1 (H4 k Hk))|].
    rewrite <- H1. exact H2.
Qed.

(** ** The blacklist *)

Section Blacklist.
Variables (cfg : Donation.Settings) (net : Net) (msg : Message).

(** Whatever the blacklist command does, it changes nothing the donation
    handler reads. *)
Lemma handleBlacklist_blind (action : Admin.BlacklistAction)
    (user : option (string * string)) (reason : option string) (by_ : string)
    (now : Z) (db : Database.t) :
  Spec.blind db (Admin.handleBlacklist action user reason by_ now db).1.
Proof.
  unfold Admin.handleBlacklist, Spec.blind, Database.cfg.
  destruct db as [[c|] us ds]; simpl;
    destruct action, user as [[uid uname]|]; simpl;
    try destruct (existsb _ _); simpl; repeat split.
Qed.

Lemma recordDonation_blind (tip : Tip) (v : Q) (sender : Member)
    (calls : list Call) (db1 db2 : Database.t) :
  Spec.blind db1 db2 ->
  let o1 := Donation.recordDonation cfg msg tip v sender calls db1 in
  let o2 := Donation.recordDonation cfg msg tip v sender calls db2 in
  Donation.out_saved o1 = Donation.out_saved o2 /\
  Donation.out_events o1 = Donation.out_events o2 /\
  Donation.out_calls o1 = Donation.out_calls o2 /\
  Spec.blind (Donation.out_db o1) (Donation.out_db o2) /\
  Database.config (Donation.out_db o1) = Database.config db1 /\
  Database.config (Donation.out_db o2) = Database.config db2.
Proof.
  destruct db1 as [c1 us1 ds1], db2 as [c2 us2 ds2].
  unfold Spec.blind, Database.cfg. simpl.
  intros (-> & -> & Ha & Hc & Hd & Hv & Had).
  unfold Donation.recordDonation, Rewards.assignDonorRoles, Database.cfg.
  simpl. rewrite Hd, Hv.
  destruct (Rewards.checkAndAssignAchievements _ _ _ _ _) as [user4 achEvents].
  simpl. repeat split; assumption.
Qed.

End Blacklist.

(** C10. The donation handler does not read the blacklist: on two
    documents that differ at most in [config.globalBlacklist] it saves or
    not alike, sends the same role commands and messages, asks the same
    providers, and leaves documents that again differ at most in the
    blacklist, which it does not change.  A document before and after any
    blacklist command (for instance one that puts the sender on the
    blacklist) are two such documents. *)
Theorem blacklist_not_consulted (cfg : Donation.Settings) (net : Net)
    (msg : Message) (db1 db2 : Database.t) :
  Spec.blind db1 db2 ->
  let o1 := Donation.handleTipccDonation cfg net msg db1 in
  let o2 := Donation.handleTipccDonation cfg net msg db2 in
  Donation.out_saved o1 = Donation.out_saved o2 /\
  Donation.out_events o1 = Donation.out_events o2 /\
  Donation.out_calls o1 = Donation.out_calls o2 /\
  Spec.blind (Donation.out_db o1) (Donation.out_db o2) /\
  Database.config (Donation.out_db o1) = Database.config db1 /\
  Database.config (Donation.out_db o2) = Database.config db2 /\
  forall action user reason by_ now,
    Spec.blind db1 (Admin.handleBlacklist action user reason by_ now db1).1.
Proof.
  intros Hb o1 o2.
  cut (Donation.out_saved o1 = Donation.out_saved o2 /\
       Donation.out_events o1 = Donation.out_events o2 /\
       Donation.out_calls o1 = Donation.out_calls o2 /\
       Spec.blind (Donation.out_db o1) (Donation.out_db o2) /\
       Database.config (Donation.out_db o1) = Database.config db1 /\
       Database.config (Donation.out_db o2) = Database.config db2).
  { intros (H1 & H2 & H3 & H4 & H5 & H6). repeat (split; [assumption|]).
    intros. apply handleBlacklist_blind. }
  subst o1 o2. pose proof Hb as (Hu & Hds & Ha & Hc & Hd & Hv & Had).
  unfold Donation.handleTipccDonation, Policy.currencyAccepted.
  rewrite Ha, Hc.
  assert (Hdrop : forall calls,
            let o1 := Donation.dropped db1 calls in
            let o2 := Donation.dropped db2 calls in
            Donation.out_saved o1 = Donation.out_saved o2 /\
            Donation.out_events o1 = Donation.out_events o2 /\
            Donation.out_calls o1 = Donation.out_calls o2 /\
            Spec.blind (Donation.out_db o1) (Donation.out_db o2) /\
            Database.config (Donation.out_db o1) = Database.config db1 /\
            Database.config (Donation.out_db o2) = Database.config db2).
  { intros calls. simpl. repeat split; assumption. }
  destruct (negb (truthy_str (guildId msg))); [apply Hdrop|].
  destruct (Grammar.parseTip (content msg)) as [tip|]; [|apply Hdrop].
  destruct (Database.cfg Config.allowedRecipients db2) as [[|a l]|];
    try apply Hdrop.
  destruct (negb (Policy.isAllowedRecipient _ _)); [apply Hdrop|].
  destruct (negb (existsb _ _)); [apply Hdrop|].
  destruct (Price.resolveUsdValue _ _ _ _) as [[v|] calls]; [|apply Hdrop].
  destruct (negb (truthy_Q (Some v))); [apply Hdrop|].
  destruct (Donation.findSender _ _) as [sender|]; [|apply Hdrop].
  now apply recordDonation_blind.
Qed.

Lemma blacklist_not_consulted_witness :
  let db' :=
    (Admin.handleBlacklist Admin.add_user
       (Some ("111111111111111111", "alice")) None "659745190382141453" 7
       Sample.live_db).1 in
  let msg := Sample.announcement "alice sent 0.5 LTC to bob ($10.00)" in
  Donation.out_events
    (Donation.handleTipccDonation Sample.settings Sample.offline msg Sample.live_db)
  = Donation.out_events
      (Donation.handleTipccDonation Sample.settings Sample.offline msg db').
Proof.
  intros db' msg.
  exact (proj1 (proj2 (blacklist_not_consulted Sample.settings Sample.offline
                         msg Sample.live_db db'
                         (handleBlacklist_blind _ _ _ _ _ Sample.live_db)))).
Defined.

(** On that message the sender, although on the blacklist, receives the
    Bronze role, the first achievement and two entries. *)
Example blacklisted_sender_is_rewarded :
  let db' :=
    (Admin.handleBlacklist Admin.add_user
       (Some ("111111111111111111", "alice")) None "659745190382141453" 7
       Sample.live_db).1 in
  Donation.out_events
    (Donation.handleTipccDonation Sample.settings Sample.offline
       (Sample.announcement "alice sent 0.5 LTC to bob ($10.00)") db')
  = [RoleAdded "111111111111111111" "900000000000000001";
     RoleUpgrade "general" "111111111111111111" "Bronze" (fadd 0 (1000 # 100));
     AchievementUnlocked "general" "111111111111111111" "first_steps";
     EntriesAdded "Weekly" (Int 2);
     Confirmation "111111111111111111" (1000 # 100) (Int 2) (fadd 0 (1000 # 100))].
Proof. vm_compute. reflexivity. Qed.

(** ** The theorems at sample inputs *)

Lemma weekly_eligible :
  Spec.eligible None Sample.alice None 10%Q "draw_1" Sample.weekly.
Proof.
  split; [|intros [=]].
  split; [reflexivity|]. split; [vm_compute; discriminate|].
  split; [right; eexists; split; [reflexivity | vm_compute; discriminate]|].
  split; [reflexivity | left; now left].
Qed.

Lemma allocation_grants_witness :
  Spec.granted
    (Donation.grant None Sample.alice None 10%Q "draw_1" Sample.weekly) = Int 2.
Proof.
  destruct (proj2 (proj2 (proj2
              (allocation_grants None Sample.alice "111111111111111111" 10%Q
                 User.fresh_donor [("draw_1", Sample.weekly)]))
              "draw_1" Sample.weekly)
              0 weekly_eligible ltac:(reflexivity) eq_refl)
    as [[Hinf _]|(e & Hf & _ & _ & _ & Hg & _)].
  - vm_compute in Hinf. discriminate.
  - vm_compute in Hf. injection Hf as <-. exact Hg.
Defined.

Lemma capacity_never_exceeded_witness :
  exists draws' d' c',
    Database.donationDraws
      (Donation.out_db
         (Donation.handleTipccDonation Sample.settings Sample.offline
            (Sample.announcement "alice sent 0.5 LTC to bob ($10.00)")
            Sample.live_db))
      = Some draws' /\
    draws' !! 0%nat = Some ("draw_1", d') /\
    sum_counts (Draw.ledger d') = Int c' /\ c' <= 100.
Proof.
  destruct (proj1 (capacity_never_exceeded Sample.settings Sample.offline
                     (Sample.announcement "alice sent 0.5 LTC to bob ($10.00)")
                     None None 1 None Sample.live_db
                     [("draw_1", Sample.weekly)] 0 "draw_1" Sample.weekly 100 0
                     eq_refl eq_refl eq_refl eq_refl)
                  ltac:(discriminate))
    as (draws' & d' & c' & H1 & H2 & _ & H3 & _ & H5).
  exists draws', d', c'. split; [exact H1|]. split; [exact H2|].
  split; [exact H3|].
  destruct H5 as [[_ ->]|[_ H5]]; [lia | exact H5].
Defined.

Lemma no_price_no_mutation_witness :
  Donation.out_db
    (Donation.handleTipccDonation Sample.settings Sample.offline
       (Sample.announcement "alice sent 0.5 LTC to bob") Sample.live_db)
  = Sample.live_db.
Proof.
  refine (proj1 (no_price_no_mutation Sample.settings Sample.offline
                   (Sample.announcement "alice sent 0.5 LTC to bob")
                   Sample.live_db
                   {| tip_sender := "alice"; tip_recipient := "bob";
                      tip_amount := "0.5"; tip_currency := "LTC" |}
                   eq_refl eq_refl _)).
  repeat constructor.
Defined.

Lemma winner_selection_witness :
  exists w n db' draw',
    Admin.handleSelectWinner "draw_5" (3 # 4)%Q 9 "659745190382141453"
                             Sample.running_db
      = Some (db', true, Admin.WinnerSelected (Some w) (Int 3)) /\
    oget w (Draw.ledger Sample.running_draw) = Some (Int n) /\ 1 <= n /\
    Draw.active draw' = false /\ Draw.winner draw' = Some w.
Proof.
  destruct (proj2 (winner_selection "draw_5" (3 # 4)%Q 9 "659745190382141453"
                     Sample.running_db Sample.running_draw eq_refl eq_refl)
                  3 eq_refl ltac:(lia) ltac:(vm_compute; discriminate)
                  ltac:(reflexivity)
                  ltac:(apply (bool_decide_unpack _); vm_compute; reflexivity))
    as (w & n & db' & draw' & H1 & H2 & H3 & _ & H5 & H6 & _).
  exists w, n, db', draw'. repeat split; assumption.
Defined.

Lemma achievements_idempotent_witness :
  let r1 := Admin.handleFixAchievements (Donation.ACHIEVEMENTS Sample.settings)
              None Sample.live_db in
  Admin.fixedCount
    (Admin.handleFixAchievements (Donation.ACHIEVEMENTS Sample.settings) None
       (Admin.fix_db r1)) = 0.
Proof.
  intros r1.
  exact (f_equal Admin.fixedCount
           (proj2 (proj2 (achievements_idempotent
                            (Donation.ACHIEVEMENTS Sample.settings)
                            Sample.guild_1 Sample.alice User.fresh_donor []
                            Sample.live_db "111111111111111111" None)))).
Defined.

(** * Further properties of the commands *)

(** ** Donation streaks *)

Section Streaks.

Lemma updateStreaks_next (t : Z) (s : Streaks) (t0 : Z) :
  lastDonation s = Some t0 -> t0 <> 0 -> t - t0 <= Rewards.oneDayMs ->
  Rewards.updateStreaks t (Some s)
  = {| current := current s + 1;
       longest := if (longest s <? current s + 1)%Z then current s + 1
                  else longest s;
       lastDonation := Some t |}.
Proof.
  intros Hl Ht0 Hgap. unfold Rewards.updateStreaks.
  change (default _ (Some s)) with s. cbv zeta. rewrite Hl.
  assert (Htr : Rewards.truthy_time (Some t0) = true)
    by (destruct t0; simpl; congruence).
  rewrite Htr. destruct (Z.leb_spec (t - t0) Rewards.oneDayMs); [reflexivity|lia].
Qed.

Lemma after_donations_current (times : list Z) :
  forall (u : User.t) (s : Streaks) (t0 : Z),
    User.streaks u = Some s -> lastDonation s = Some t0 ->
    Notions.within_a_day t0 times ->
    exists s',
      User.streaks (Notions.after_donations times u) = Some s' /\
      current s' = current s + Z.of_nat (length times).
Proof.
  induction times as [|t r IH]; intros u s t0 Hs Hl Hw.
  - exists s. simpl. split; [exact Hs | lia].
  - destruct Hw as (Ht0 & Hgap & Hw). cbn [Notions.after_donations fold_left].
    destruct (IH (Rewards.updateDonationStreak t u)
                 (Rewards.updateStreaks t (Some s)) t) as (s' & Hs' & Hc).
    + unfold Rewards.updateDonationStreak. simpl. now rewrite Hs.
    + now rewrite (updateStreaks_next t s t0).
    + exact Hw.
    + exists s'. split; [exact Hs'|]. rewrite Hc.
      rewrite (updateStreaks_next t s t0) by assumption. simpl.
      rewrite Nat2Z.inj_succ. lia.
Qed.

End Streaks.

(** X1. Every update of the donation streak stamps the instant of the
    donation, leaves the longest streak at least as long as the current
    one and never shorter than it was, and moves the current streak to 1,
    to its old value or to one more. *)
Theorem streak_update_invariants (now : Z) (u : User.t) :
  let old := default {| current := 0; longest := 0; lastDonation := None |}
                     (User.streaks u) in
  exists s,
    User.streaks (Rewards.updateDonationStreak now u) = Some s /\
    lastDonation s = Some now /\
    current s <= longest s /\
    longest old <= longest s /\
    (current s = 1 \/ current s = current old \/ current s = current old + 1) /\
    (longest s = longest old \/ longest s = current s).
Proof.
  intros old. eexists. split; [reflexivity|].
  unfold Rewards.updateStreaks. fold old. cbn [lastDonation current longest].
  split; [reflexivity|].
  set (cur := match lastDonation old with Some t => _ | None => 1 end).
  assert (Hcur : cur = 1 \/ cur = current old \/ cur = current old + 1).
  { subst cur. destruct (lastDonation old) as [t|]; [|now left].
    destruct (Rewards.truthy_time (Some t)); [|now left].
    destruct (_ <=? _)%Z; [now right; right|].
    destruct (_ <=? _)%Z; [now right; left | now left]. }
  destruct (Z.ltb_spec (longest old) cur); repeat split; auto; lia.
Qed.

(** X2. The streak counts donations, not days: donations that each come
    within a day of the one before raise the current streak by one each,
    however close together they are; once it reaches 7 the user meets the
    test of the [streak_master] achievement. *)
Theorem streak_counts_donations (times : list Z) (u : User.t) (s : Streaks)
    (t0 : Z) :
  User.streaks u = Some s -> lastDonation s = Some t0 ->
  Notions.within_a_day t0 times ->
  exists s',
    User.streaks (Notions.after_donations times u) = Some s' /\
    current s' = current s + Z.of_nat (length times) /\
    (7 <= current s' ->
     forall users uid,
       Rewards.earned users uid (Notions.after_donations times u)
                      "streak_master" = true).
Proof.
  intros Hs Hl Hw.
  destruct (after_donations_current times u s t0 Hs Hl Hw) as (s' & Hs' & Hc).
  exists s'. split; [exact Hs'|]. split; [exact Hc|].
  intros H7 users uid. unfold Rewards.earned. simpl. rewrite Hs'.
  now apply Z.leb_le.
Qed.

Lemma streak_counts_donations_witness :
  exists s',
    User.streaks
      (Notions.after_donations [1700000000100; 1700000000200; 1700000000300;
                                1700000000400; 1700000000500; 1700000000600]
         (Rewards.updateDonationStreak 1700000000000 User.fresh_donor))
    = Some s' /\
    current s' = 1 + Z.of_nat 6 /\
    (7 <= current s' ->
     forall users uid,
       Rewards.earned users uid
         (Notions.after_donations [1700000000100; 1700000000200; 1700000000300;
                                   1700000000400; 1700000000500; 1700000000600]
            (Rewards.updateDonationStreak 1700000000000 User.fresh_donor))
         "streak_master" = true).
Proof.
  apply (streak_counts_donations
           [1700000000100; 1700000000200; 1700000000300;
            1700000000400; 1700000000500; 1700000000600]
           (Rewards.updateDonationStreak 1700000000000 User.fresh_donor)
           {| current := 1; longest := 1; lastDonation := Some 1700000000000 |}
           1700000000000).
  - reflexivity.
  - reflexivity.
  - simpl. unfold Rewards.oneDayMs. repeat split; lia.
Defined.

(** ** The list of recipients *)

Section Recipients.

Lemma config_of_with_allowed (l : list jsval) (db : Database.t) :
  Database.cfg Config.allowedRecipients (Configure.with_allowed l db) = Some l.
Proof. reflexivity. Qed.

Lemma with_allowed_same (l : list jsval) (db : Database.t) :
  Database.cfg Config.allowedRecipients db = Some l ->
  Configure.with_allowed l db = db.
Proof.
  destruct db as [[[a c d v ad b]|] us ds]; unfold Database.cfg; simpl;
    [|discriminate].
  now intros ->.
Qed.

Lemma default_allowed (db : Database.t) :
  default [] (Config.allowedRecipients (Configure.config_of db))
  = default [] (Database.cfg Config.allowedRecipients db).
Proof. now destruct db as [[c|] us ds]. Qed.

Lemma is_str_true (r : string) (x : jsval) :
  Configure.is_str r x = true <-> x = VStr r.
Proof.
  destruct x as [a|]; simpl; [|split; discriminate].
  rewrite String.eqb_eq. split; congruence.
Qed.

Lemma is_str_other (r other : string) :
  other <> r -> Configure.is_str other (VStr r) = false.
Proof.
  intros Hne. simpl. apply String.eqb_neq. congruence.
Qed.

Lemma occurrences_app (r : string) (l l' : list jsval) :
  Notions.occurrences r (l ++ l')
  = Notions.occurrences r l + Notions.occurrences r l'.
Proof.
  unfold Notions.occurrences.
  rewrite List.filter_app, length_app. lia.
Qed.

Lemma occurrences_nonneg (r : string) (l : list jsval) :
  0 <= Notions.occurrences r l.
Proof. unfold Notions.occurrences. lia. Qed.

Lemma occurrences_existsb (r : string) (l : list jsval) :
  existsb (Configure.is_str r) l = negb (Notions.occurrences r l =? 0)%Z.
Proof.
  unfold Notions.occurrences.
  induction l as [|x l IH]; simpl; [reflexivity|].
  destruct (Configure.is_str r x); simpl; [reflexivity | exact IH].
Qed.

Lemma occurrences_splice (r : string) (l : list jsval) :
  existsb (Configure.is_str r) l = true ->
  Notions.occurrences r (Configure.splice_first (Configure.is_str r) l)
  = Notions.occurrences r l - 1.
Proof.
  unfold Notions.occurrences.
  induction l as [|x l IH]; cbn [existsb Configure.splice_first List.filter];
    [discriminate|].
  destruct (Configure.is_str r x) eqn:E; cbn [orb length].
  - intros _. lia.
  - intros H. cbn [List.filter]. rewrite E. now apply IH.
Qed.

Lemma occurrences_splice_other (r other : string) (l : list jsval) :
  other <> r ->
  Notions.occurrences other (Configure.splice_first (Configure.is_str r) l)
  = Notions.occurrences other l.
Proof.
  intros Hne. unfold Notions.occurrences. f_equal.
  induction l as [|x l IH]; simpl; [reflexivity|].
  destruct (Configure.is_str r x) eqn:E; simpl.
  - apply is_str_true in E. subst x. now rewrite (is_str_other _ _ Hne).
  - destruct (Configure.is_str other x); simpl; now rewrite IH.
Qed.

Lemma splice_first_app {A} (p : A -> bool) (l : list A) (a : A) :
  existsb p l = false -> p a = true ->
  Configure.splice_first p (l ++ [a]) = l.
Proof.
  intros Hl Ha. induction l as [|x l IH]; simpl in *.
  - now rewrite Ha.
  - apply orb_false_iff in Hl as [-> Hl]. now rewrite IH.
Qed.

Lemma existsb_app_last {A} (p : A -> bool) (l : list A) (a : A) :
  p a = true -> existsb p (l ++ [a]) = true.
Proof.
  intros Ha. rewrite existsb_app. simpl. rewrite Ha. now rewrite orb_true_r.
Qed.

Lemma includes_refl (s : string) : includes s s = true.
Proof.
  assert (H : forall t, String.prefix t t = true).
  { induction t as [|c t IH]; simpl; [reflexivity|].
    destruct (ascii_dec c c); [exact IH | congruence]. }
  destruct s; cbn [includes]; now rewrite H.
Qed.

Lemma add_recipient_list (recipient : string) (db : Database.t) :
  default [] (Database.cfg Config.allowedRecipients
                (Configure.res_db (Configure.handleAddRecipient recipient db)))
  = let l := default [] (Database.cfg Config.allowedRecipients db) in
    if existsb (Configure.is_str recipient) l then l
    else (l ++ [VStr recipient])%list.
Proof.
  unfold Configure.handleAddRecipient. rewrite default_allowed. cbv zeta.
  now destruct (existsb _ _).
Qed.

Lemma remove_recipient_list (recipient : string) (db : Database.t) :
  default [] (Database.cfg Config.allowedRecipients
                (Configure.res_db
                   (Configure.handleRemoveRecipient recipient db)))
  = let l := default [] (Database.cfg Config.allowedRecipients db) in
    if existsb (Configure.is_str recipient) l
    then Configure.splice_first (Configure.is_str recipient) l else l.
Proof.
  unfold Configure.handleRemoveRecipient.
  destruct (Database.cfg Config.allowedRecipients db) as [l|] eqn:Hc;
    cbv zeta; simpl; [|now rewrite Hc].
  destruct (existsb _ _); simpl; [reflexivity | now rewrite Hc].
Qed.

End Recipients.

(** X3. A recipient added with [add_recipient] passes the recipient
    tests of the donation handlers: the list is not empty, the handler
    that compares for equality accepts the recipient, and so does the
    handler that tests containment whenever it checks the recipient under
    the name given (the recipient is not a numeric id of a member the
    guild can fetch). *)
Theorem added_recipient_is_accepted (recipient : string) (db : Database.t) :
  let db' := Configure.res_db (Configure.handleAddRecipient recipient db) in
  exists allowed,
    Database.cfg Config.allowedRecipients db' = Some allowed /\
    allowed <> [] /\
    Policy.isAllowedRecipient allowed recipient = true /\
    Notions.accepts db' recipient = true /\
    forall g, Policy.recipientToCheck g recipient = recipient ->
              Policy.isAllowedRecipient_flexible g allowed recipient = true.
Proof.
  intros db'.
  assert (H : exists allowed,
             Database.cfg Config.allowedRecipients db' = Some allowed /\
             In (VStr recipient) allowed).
  { subst db'. unfold Configure.handleAddRecipient.
    destruct (existsb _ _) eqn:E; simpl; eexists; (split; [reflexivity|]).
    - apply existsb_exists in E as (x & Hin & Hx).
      apply is_str_true in Hx. now subst x.
    - apply in_or_app. right. now left. }
  destruct H as (allowed & Hcfg & Hin). exists allowed.
  assert (Hex : Policy.isAllowedRecipient allowed recipient = true).
  { unfold Policy.isAllowedRecipient. apply existsb_exists.
    exists (VStr recipient). split; [exact Hin | apply String.eqb_refl]. }
  split; [exact Hcfg|]. split; [now destruct allowed|].
  split; [exact Hex|]. split.
  - unfold Notions.accepts. now rewrite Hcfg.
  - intros g Hg. unfold Policy.isAllowedRecipient_flexible. rewrite Hg.
    apply existsb_exists. exists (VStr recipient). split; [exact Hin|].
    simpl. now rewrite includes_refl.
Qed.

(** X4. [add_recipient] never creates a duplicate and [remove_recipient]
    takes away one occurrence: after adding, the recipient occurs once if
    it did not occur and as often as before otherwise; after removing, it
    occurs once less, if it occurred; the occurrences of every other
    recipient stay as they were. *)
Theorem recipient_commands_count (recipient other : string)
    (db : Database.t) :
  let occ x d :=
    Notions.occurrences x
      (default [] (Database.cfg Config.allowedRecipients d)) in
  let added := Configure.res_db (Configure.handleAddRecipient recipient db) in
  let removed :=
    Configure.res_db (Configure.handleRemoveRecipient recipient db) in
  occ recipient added = Z.max 1 (occ recipient db) /\
  occ recipient removed = Z.max 0 (occ recipient db - 1) /\
  (other <> recipient ->
   occ other added = occ other db /\ occ other removed = occ other db).
Proof.
  intros occ added removed. subst occ added removed. cbv beta.
  rewrite add_recipient_list, remove_recipient_list. cbv zeta.
  set (l := default [] (Database.cfg Config.allowedRecipients db)).
  pose proof (occurrences_nonneg recipient l) as H0.
  pose proof (occurrences_existsb recipient l) as He.
  destruct (existsb (Configure.is_str recipient) l) eqn:E.
  - symmetry in He. apply negb_true_iff, Z.eqb_neq in He.
    split; [lia|]. split.
    + rewrite occurrences_splice by exact E. lia.
    + intros Hne. split; [reflexivity|].
      now apply occurrences_splice_other.
  - symmetry in He. apply negb_false_iff, Z.eqb_eq in He.
    assert (Hlast : forall x, Notions.occurrences x [VStr recipient]
                              = if String.eqb recipient x then 1 else 0).
    { intros x. unfold Notions.occurrences. simpl.
      now destruct (String.eqb recipient x). }
    split.
    + rewrite occurrences_app, He, Hlast, String.eqb_refl. reflexivity.
    + split; [lia|]. intros Hne. split; [|reflexivity].
      rewrite occurrences_app, Hlast.
      rewrite (proj2 (String.eqb_neq recipient other)) by congruence. lia.
Qed.

(** X5. Removing a recipient that was just added gives back the document:
    for a guild that has a list in which the recipient does not occur,
    [remove_recipient] after [add_recipient] restores the list, order
    included. *)
Theorem remove_recipient_undoes_add (recipient : string) (db : Database.t)
    (allowed : list jsval) :
  Database.cfg Config.allowedRecipients db = Some allowed ->
  Notions.occurrences recipient allowed = 0 ->
  Configure.handleRemoveRecipient recipient
    (Configure.res_db (Configure.handleAddRecipient recipient db))
  = {| Configure.res_db := db; Configure.res_saved := true;
       Configure.res_reply := Configure.RecipientRemoved recipient allowed |}.
Proof.
  intros Hc H0.
  pose proof (occurrences_existsb recipient allowed) as He.
  rewrite H0 in He. simpl in He.
  unfold Configure.handleAddRecipient. rewrite default_allowed, Hc.
  change (default [] (Some allowed)) with allowed. cbv zeta.
  rewrite He. cbn [Configure.res_db].
  unfold Configure.handleRemoveRecipient.
  rewrite config_of_with_allowed.
  rewrite existsb_app_last by (simpl; apply String.eqb_refl).
  rewrite splice_first_app; [|exact He|simpl; apply String.eqb_refl].
  f_equal.
  destruct db as [[[a c d v ad b]|] us ds]; unfold Database.cfg in Hc;
    simpl in Hc; [|discriminate].
  subst a. reflexivity.
Qed.

Lemma remove_recipient_undoes_add_witness :
  Configure.handleRemoveRecipient "carol"
    (Configure.res_db (Configure.handleAddRecipient "carol" Sample.live_db))
  = {| Configure.res_db := Sample.live_db; Configure.res_saved := true;
       Configure.res_reply :=
         Configure.RecipientRemoved "carol" [VStr "bob"; VOther] |}.
Proof.
  apply (remove_recipient_undoes_add "carol" Sample.live_db
           [VStr "bob"; VOther]); reflexivity.
Defined.

(** ** The fields a grammar extracts *)

Section GrammarFacts.

Import Grammar.

Lemma append_assoc_cons (acc : string) (c : ascii) (t : string) :
  (acc ++ String c "") ++ t = acc ++ String c t.
Proof.
  induction acc as [|a acc IH]; [reflexivity|].
  rewrite !append_cons. now rewrite IH.
Qed.

Lemma append_empty_r (s : string) : s ++ "" = s.
Proof.
  induction s as [|a s IH]; [reflexivity|]. rewrite append_cons. now rewrite IH.
Qed.

(** What a greedy repetition hands to its continuation: the text it was
    given minus a prefix made of the class. *)
Lemma star_spec {R} (p : ascii -> bool) (k : string -> string -> option R)
    (x : R) (s : string) :
  forall acc, star p s acc k = Some x ->
  exists consumed rest,
    Notions.made_of p consumed = true /\ k rest (acc ++ consumed) = Some x.
Proof.
  induction s as [|c r IH]; intros acc; cbn [star].
  - intros H. exists "", "". split; [reflexivity|]. now rewrite append_empty_r.
  - destruct (p c) eqn:Hc.
    + destruct (star p r (acc ++ String c "") k) as [y|] eqn:Hs.
      * intros [= ->]. destruct (IH _ Hs) as (consumed & rest & Hm & Hk).
        exists (String c consumed), rest. split.
        -- cbn [Notions.made_of]. now rewrite Hc, Hm.
        -- now rewrite <- append_assoc_cons.
      * intros H. exists "", (String c r). split; [reflexivity|].
        now rewrite append_empty_r.
    + intros H. exists "", (String c r). split; [reflexivity|].
      now rewrite append_empty_r.
Qed.

Lemma match_here_caps (items : list item) :
  forall s caps res,
    match_here items s caps = Some res ->
    exists new,
      res = (caps ++ new)%list /\
      Forall2 Notions.cap_ok (List.filter captured items) new.
Proof.
  induction items as [|it items IH]; intros s caps res; cbn [match_here].
  - intros [= <-]. exists []. split; [now rewrite app_nil_r | constructor].
  - assert (Hstep : forall rest consumed,
              Notions.cap_ok it consumed ->
              match_here items rest
                (if captured it then (caps ++ [consumed])%list else caps)
              = Some res ->
              exists new,
                res = (caps ++ new)%list /\
                Forall2 Notions.cap_ok (List.filter captured (it :: items)) new).
    { intros rest consumed Hok H. apply IH in H as (new & -> & Hall).
      cbn [List.filter]. destruct (captured it).
      - exists (consumed :: new). split; [now rewrite <- app_assoc|].
        now constructor.
      - now exists new. }
    unfold run_item. destruct (rep it) eqn:Hrep.
    + destruct s as [|c r]; [discriminate|].
      destruct (cls it c) eqn:Hc; [|discriminate].
      apply Hstep. split; [|congruence].
      cbn [Notions.made_of]. now rewrite Hc.
    + assert (Hempty : match_here items s
                         (if captured it then (caps ++ [""])%list else caps)
                       = Some res ->
                       exists new,
                         res = (caps ++ new)%list /\
                         Forall2 Notions.cap_ok (List.filter captured (it :: items)) new).
      { apply Hstep. split; [reflexivity | congruence]. }
      destruct s as [|c r]; [exact Hempty|].
      destruct (cls it c) eqn:Hc; [|exact Hempty].
      destruct (match_here items r _) as [y|] eqn:Hm; [|exact Hempty].
      intros [= ->]. revert Hm. apply Hstep. split; [|congruence].
      cbn [Notions.made_of]. now rewrite Hc.
    + intros H. apply star_spec in H as (consumed & rest & Hm & H).
      rewrite append_nil in H. revert H. apply Hstep.
      split; [exact Hm | congruence].
    + destruct s as [|c r]; [discriminate|].
      destruct (cls it c) eqn:Hc; [|discriminate].
      intros H. apply star_spec in H as (consumed & rest & Hm & H).
      rewrite append_cons, append_nil in H. revert H. apply Hstep.
      split; [|discriminate]. cbn [Notions.made_of]. now rewrite Hc, Hm.
Qed.

Lemma search_caps (items : list item) (s : string) (caps : list string) :
  search items s = Some caps ->
  Forall2 Notions.cap_ok (List.filter captured items) caps.
Proof.
  induction s as [|c r IH]; cbn [search];
    destruct (match_here items _ []) as [y|] eqn:Hm.
  - intros [= <-]. now apply match_here_caps in Hm as (new & -> & H).
  - discriminate.
  - intros [= <-]. now apply match_here_caps in Hm as (new & -> & H).
  - exact IH.
Qed.

(** A pattern with four groups captures four strings or does not match. *)
Lemma four_groups (items : list item) (g1 g2 g3 g4 : item) (s : string) :
  List.filter captured items = [g1; g2; g3; g4] ->
  search items s = None \/
  exists a b c d,
    search items s = Some [a; b; c; d] /\
    Notions.cap_ok g1 a /\ Notions.cap_ok g2 b /\ Notions.cap_ok g3 c /\ Notions.cap_ok g4 d.
Proof.
  intros Hg. destruct (search items s) as [caps|] eqn:Hs; [|now left].
  right. apply search_caps in Hs. rewrite Hg in Hs.
  inversion Hs as [|? a ? l1 Ha H1]; subst.
  inversion H1 as [|? b ? l2 Hb H2]; subst.
  inversion H2 as [|? c ? l3 Hc H3]; subst.
  inversion H3 as [|? d ? l4 Hd H4]; subst.
  inversion H4; subst. now exists a, b, c, d.
Qed.

Lemma made_of_weaken (p q : ascii -> bool) (s : string) :
  (forall c, p c = true -> q c = true) ->
  Notions.made_of p s = true -> Notions.made_of q s = true.
Proof.
  intros Hpq. induction s as [|c r IH]; cbn [Notions.made_of]; [reflexivity|].
  intros H. apply andb_true_iff in H as [Hc Hr].
  now rewrite (Hpq _ Hc), IH.
Qed.

Lemma digit_word (c : ascii) : digit c = true -> word c = true.
Proof.
  unfold word, digit. intros ->. now rewrite orb_true_r.
Qed.

Lemma letter_word (c : ascii) : letter c = true -> word c = true.
Proof. unfold word. now intros ->. Qed.

Lemma parseTip_well_formed (content : string) (tip : Tip) :
  parseTip content = Some tip -> Notions.well_formed tip.
Proof.
  assert (Hd : forall it s, Notions.cap_ok it s -> rep it = Plus ->
                 (forall c, cls it c = true -> word c = true) ->
                 s <> "" /\ Notions.made_of word s = true).
  { intros it s [Hm Hne] Hrep Hsub. split; [now apply Hne|].
    now apply (made_of_weaken (cls it)). }
  assert (Ha : forall s, Notions.cap_ok (group digit_or_dot) s ->
                 s <> "" /\ Notions.made_of digit_or_dot s = true).
  { intros s [Hm Hne]. split; [now apply Hne | exact Hm]. }
  unfold parseTip.
  destruct (four_groups tipRegex1
              {| cls := digit; rep := Plus; captured := true |}
              {| cls := digit; rep := Plus; captured := true |}
              (group digit_or_dot) (group letter) content eq_refl)
    as [->|(a & b & c & d & -> & H1 & H2 & H3 & H4)].
  2:{ intros [= <-]. unfold Notions.well_formed. cbn [tip_sender tip_recipient tip_amount tip_currency].
      split; [apply (Hd _ _ H1 eq_refl digit_word)|].
      split; [apply (Hd _ _ H2 eq_refl digit_word)|].
      split; [apply (Ha _ H3)|]. apply (Hd _ _ H4 eq_refl letter_word). }
  destruct (four_groups tipRegex2 (group word) (group word)
              (group digit_or_dot) (group word) content eq_refl)
    as [->|(a & b & c & d & -> & H1 & H2 & H3 & H4)].
  2:{ intros [= <-]. unfold Notions.well_formed. cbn [tip_sender tip_recipient tip_amount tip_currency].
      split; [apply (Hd _ _ H1 eq_refl); auto|].
      split; [apply (Hd _ _ H2 eq_refl); auto|].
      split; [apply (Ha _ H3)|]. apply (Hd _ _ H4 eq_refl); auto. }
  destruct (four_groups tipRegex3
              {| cls := digit; rep := Plus; captured := true |}
              {| cls := digit; rep := Plus; captured := true |}
              (group digit_or_dot) (group word) content eq_refl)
    as [->|(a & b & c & d & -> & H1 & H2 & H3 & H4)].
  2:{ intros [= <-]. unfold Notions.well_formed. cbn [tip_sender tip_recipient tip_amount tip_currency].
      split; [apply (Hd _ _ H1 eq_refl digit_word)|].
      split; [apply (Hd _ _ H2 eq_refl digit_word)|].
      split; [apply (Ha _ H3)|]. apply (Hd _ _ H4 eq_refl); auto. }
  destruct (four_groups tipRegex4 (group word) (group digit_or_dot)
              (group word) (group word) content eq_refl)
    as [->|(a & b & c & d & -> & H1 & H2 & H3 & H4)]; [discriminate|].
  intros [= <-]. unfold Notions.well_formed. cbn [tip_sender tip_recipient tip_amount tip_currency].
  split; [apply (Hd _ _ H1 eq_refl); auto|].
  split; [apply (Hd _ _ H4 eq_refl); auto|].
  split; [apply (Ha _ H2)|]. apply (Hd _ _ H3 eq_refl); auto.
Qed.

(** Letters, digits and underscores are neither decoration nor white
    space. *)
Lemma word_plain (c : ascii) :
  word c = true -> Policy.decoration c = false /\ space c = false.
Proof.
  destruct c as [[] [] [] [] [] [] [] []]; vm_compute; intros H;
    first [discriminate H | split; reflexivity].
Qed.

Lemma clean_word (s : string) :
  Notions.made_of word s = true -> Policy.clean s = s.
Proof.
  unfold Policy.clean. induction s as [|c r IH]; cbn [Notions.made_of filter_string];
    [reflexivity|].
  intros H. apply andb_true_iff in H as [Hc Hr].
  destruct (word_plain c Hc) as [-> _]. cbn [negb]. now rewrite IH.
Qed.

Lemma word_ascii (c : ascii) : word c = true -> (nat_of_ascii c < 128)%nat.
Proof.
  destruct c as [[] [] [] [] [] [] [] []]; vm_compute; intros H;
    first [discriminate H | lia].
Qed.

(** A string that starts with an ASCII character other than white space
    is not blank. *)
Lemma ascii_not_blank (c : ascii) (r : string) :
  (nat_of_ascii c < 128)%nat -> space c = false ->
  Configure.blank (String c r) = false.
Proof.
  intros Hc Hs. cbn [Configure.blank]. rewrite Hs.
  destruct r as [|c1 r1]; [reflexivity|].
  assert (H1 : (nat_of_ascii c =? 194)%nat = false)
    by (apply Nat.eqb_neq; lia).
  rewrite H1. cbn [andb].
  destruct r1 as [|c2 r2]; [reflexivity|].
  unfold Configure.white3.
  assert (H2 : (nat_of_ascii c =? 225)%nat = false)
    by (apply Nat.eqb_neq; lia).
  assert (H3 : (nat_of_ascii c =? 226)%nat = false)
    by (apply Nat.eqb_neq; lia).
  assert (H4 : (nat_of_ascii c =? 227)%nat = false)
    by (apply Nat.eqb_neq; lia).
  assert (H5 : (nat_of_ascii c =? 239)%nat = false)
    by (apply Nat.eqb_neq; lia).
  now rewrite H2, H3, H4, H5.
Qed.

Lemma word_not_blank (s : string) :
  s <> "" -> Notions.made_of word s = true -> Configure.blank s = false.
Proof.
  destruct s as [|c r]; [congruence|]. intros _.
  cbn [Notions.made_of]. intros H.
  apply andb_true_iff in H as [Hc _].
  apply ascii_not_blank; [now apply word_ascii|].
  now destruct (word_plain c Hc) as [_ ->].
Qed.

End GrammarFacts.

(** X6. Whatever the text of an announcement, the fields the grammars
    extract from it are well formed: none is empty; sender, recipient and
    currency consist of letters, digits and underscores and the amount of
    digits and dots.  So the removal of decoration characters leaves the
    extracted recipient as it is. *)
Theorem parsed_tip_is_well_formed (content : string) (tip : Tip) :
  Grammar.parseTip content = Some tip ->
  Notions.well_formed tip /\
  Policy.clean (tip_recipient tip) = tip_recipient tip /\
  Policy.clean (tip_sender tip) = tip_sender tip.
Proof.
  intros H. pose proof (parseTip_well_formed _ _ H) as Hwf.
  split; [exact Hwf|].
  destruct Hwf as ((_ & Hs) & (_ & Hr) & _).
  split; now apply clean_word.
Qed.

Lemma parsed_tip_is_well_formed_witness :
  Notions.well_formed
    {| tip_sender := "alice"; tip_recipient := "bob"; tip_amount := "0.5";
       tip_currency := "LTC" |} /\
  Policy.clean "bob" = "bob" /\ Policy.clean "alice" = "alice".
Proof.
  apply (parsed_tip_is_well_formed "alice sent 0.5 LTC to bob ($10.00)"
           {| tip_sender := "alice"; tip_recipient := "bob";
              tip_amount := "0.5"; tip_currency := "LTC" |}).
  vm_compute. reflexivity.
Defined.

(** ** Cleaning the list of recipients *)

Section Cleaning.

(** White space and the bytes above ASCII are no decoration. *)
Lemma plain_byte (c : ascii) :
  Grammar.space c = true \/ (128 <= nat_of_ascii c)%nat ->
  Policy.decoration c = false.
Proof.
  destruct c as [[] [] [] [] [] [] [] []]; vm_compute;
    intros [H|H]; first [discriminate H | reflexivity | lia].
Qed.

Lemma clean_cons (c : ascii) (r : string) :
  Policy.decoration c = false ->
  Policy.clean (String c r) = String c (Policy.clean r).
Proof. intros H. unfold Policy.clean. cbn [filter_string]. now rewrite H. Qed.

Lemma white3_bytes (a b c : nat) :
  Configure.white3 a b c = true -> (128 <= a /\ 128 <= b /\ 128 <= c)%nat.
Proof.
  unfold Configure.white3. intros H.
  repeat (apply orb_true_iff in H as [H|H]);
    repeat (apply andb_true_iff in H as [H ?]);
    repeat match goal with
           | E : (_ =? _)%nat = true |- _ => apply Nat.eqb_eq in E
           | E : (_ <=? _)%nat = true |- _ => apply Nat.leb_le in E
           | E : (_ || _) = true |- _ => apply orb_true_iff in E as [E|E]
           | E : (_ && _) = true |- _ => apply andb_true_iff in E as [E ?]
           end; lia.
Qed.

Lemma blank_clean_upto (n : nat) :
  forall a, (String.length a <= n)%nat ->
            Configure.blank a = true -> Policy.clean a = a.
Proof.
  induction n as [|n IH]; intros a Hlen.
  - destruct a; [reflexivity | cbn [String.length] in Hlen; lia].
  - destruct a as [|c r]; [reflexivity|]. cbn [String.length] in Hlen.
    cbn [Configure.blank].
    destruct (Grammar.space c) eqn:Hs.
    + intros Hr. rewrite clean_cons by (apply plain_byte; now left).
      rewrite (IH r); [reflexivity | lia | exact Hr].
    + destruct r as [|c1 r1]; [discriminate|]. cbn [String.length] in Hlen.
      destruct ((nat_of_ascii c =? 194) && (nat_of_ascii c1 =? 160))%nat eqn:E.
      * apply andb_true_iff in E as [E0 E1].
        apply Nat.eqb_eq in E0, E1. intros Hr.
        rewrite !clean_cons by (apply plain_byte; right; lia).
        rewrite (IH r1); [reflexivity | lia | exact Hr].
      * destruct r1 as [|c2 r2]; [discriminate|].
        cbn [String.length] in Hlen. intros H.
        apply andb_true_iff in H as [Hw Hr].
        apply white3_bytes in Hw as (H0 & H1 & H2).
        rewrite !clean_cons by (apply plain_byte; right; lia).
        rewrite (IH r2); [reflexivity | lia | exact Hr].
Qed.

Lemma blank_clean (a : string) : Configure.blank a = true -> Policy.clean a = a.
Proof. apply (blank_clean_upto (String.length a)). lia. Qed.

(** Entries that [clean_recipients] drops match no recipient that is not
    blank once cleaned. *)
Lemma improper_never_matches (x : jsval) (recipient : string) :
  Configure.blank (Policy.clean recipient) = false ->
  Configure.proper x = false ->
  match x with
  | VStr a => String.eqb (Policy.clean a) (Policy.clean recipient)
  | VOther => false
  end = false.
Proof.
  intros Hr Hx. destruct x as [a|]; [|reflexivity].
  simpl in Hx. apply negb_false_iff in Hx.
  apply String.eqb_neq. intros Heq.
  rewrite (blank_clean _ Hx) in Heq. congruence.
Qed.

Lemma cleaned_verdict (l : list jsval) (recipient : string) :
  Configure.blank (Policy.clean recipient) = false ->
  Policy.isAllowedRecipient (List.filter Configure.proper l) recipient
  = Policy.isAllowedRecipient l recipient.
Proof.
  intros Hr. unfold Policy.isAllowedRecipient.
  induction l as [|x l IH]; [reflexivity|]. cbn [List.filter existsb].
  destruct (Configure.proper x) eqn:Hx; cbn [existsb]; rewrite IH;
    [reflexivity|].
  now rewrite (improper_never_matches x recipient Hr Hx).
Qed.

Lemma clean_recipients_list (db : Database.t) :
  Database.cfg Config.allowedRecipients
    (Configure.res_db (Configure.handleCleanRecipients db))
  = Some (List.filter Configure.proper
            (default [] (Database.cfg Config.allowedRecipients db))).
Proof.
  unfold Configure.handleCleanRecipients. now rewrite default_allowed.
Qed.

Lemma filter_filter {A} (p : A -> bool) (l : list A) :
  List.filter p (List.filter p l) = List.filter p l.
Proof.
  induction l as [|x l IH]; [reflexivity|]. cbn [List.filter].
  destruct (p x) eqn:E; [|exact IH]. cbn [List.filter]. now rewrite E, IH.
Qed.

Lemma filter_length_le {A} (p : A -> bool) (l : list A) :
  (length (List.filter p l) <= length l)%nat.
Proof.
  induction l as [|x l IH]; [reflexivity|]. cbn [List.filter].
  destruct (p x); cbn [length]; lia.
Qed.

(** What a recorded donation reads of the document: the users, the draws,
    the donor roles and the VIP role. *)
Lemma recordDonation_reads (cfg : Donation.Settings) (msg : Message)
    (tip : Tip) (v : Q) (sender : Member) (calls : list Call)
    (db1 db2 : Database.t) :
  Database.users db1 = Database.users db2 ->
  Database.donationDraws db1 = Database.donationDraws db2 ->
  Database.cfg Config.donorRoles db1 = Database.cfg Config.donorRoles db2 ->
  Database.cfg Config.vipRoleId db1 = Database.cfg Config.vipRoleId db2 ->
  let o1 := Donation.recordDonation cfg msg tip v sender calls db1 in
  let o2 := Donation.recordDonation cfg msg tip v sender calls db2 in
  Donation.out_saved o1 = Donation.out_saved o2 /\
  Donation.out_events o1 = Donation.out_events o2 /\
  Donation.out_calls o1 = Donation.out_calls o2 /\
  Database.users (Donation.out_db o1) = Database.users (Donation.out_db o2) /\
  Database.donationDraws (Donation.out_db o1)
  = Database.donationDraws (Donation.out_db o2).
Proof.
  destruct db1 as [c1 us1 ds1], db2 as [c2 us2 ds2].
  unfold Database.cfg. simpl. intros -> -> Hd Hv.
  unfold Donation.recordDonation, Rewards.assignDonorRoles, Database.cfg.
  simpl. rewrite Hd, Hv.
  destruct (Rewards.checkAndAssignAchievements _ _ _ _ _) as [user4 achEvents].
  simpl. repeat split.
Qed.

End Cleaning.

(** A no-break space, U+00A0, is white space: an entry made of it is
    dropped. *)
Example clean_recipients_nbsp :
  Configure.handleCleanRecipients
    (Configure.with_allowed
       [VStr "bob"; VStr (String (ascii_of_nat 194)
                                 (String (ascii_of_nat 160) ""))]
       Sample.live_db)
  = {| Configure.res_db := Configure.with_allowed [VStr "bob"] Sample.live_db;
       Configure.res_saved := true;
       Configure.res_reply := Configure.RecipientsCleaned 2 1 1 [VStr "bob"] |}.
Proof. reflexivity. Qed.

(** X7. [clean_recipients] keeps exactly the entries that are strings
    with a character that is not white space, in their order; the three
    counts of its reply add up; and a second run finds nothing to remove
    and leaves the document as the first run left it. *)
Theorem clean_recipients_result (db : Database.t) :
  let r := Configure.handleCleanRecipients db in
  let before := default [] (Database.cfg Config.allowedRecipients db) in
  exists cleaned removed,
    Database.cfg Config.allowedRecipients (Configure.res_db r) = Some cleaned /\
    cleaned = List.filter Configure.proper before /\
    Forall (fun x => exists a, x = VStr a /\ Configure.blank a = false) cleaned /\
    Configure.res_reply r
    = Configure.RecipientsCleaned (Z.of_nat (length before))
                                  (Z.of_nat (length cleaned)) removed cleaned /\
    Z.of_nat (length before) = Z.of_nat (length cleaned) + removed /\
    0 <= removed /\
    Configure.handleCleanRecipients (Configure.res_db r)
    = {| Configure.res_db := Configure.res_db r; Configure.res_saved := true;
         Configure.res_reply :=
           Configure.RecipientsCleaned (Z.of_nat (length cleaned))
                                       (Z.of_nat (length cleaned)) 0 cleaned |}.
Proof.
  intros r before. subst r.
  exists (List.filter Configure.proper before),
         (Z.of_nat (length before)
          - Z.of_nat (length (List.filter Configure.proper before))).
  split; [apply clean_recipients_list|]. split; [reflexivity|].
  split.
  { apply Forall_forall. intros x Hx. apply list_elem_of_In in Hx.
    apply filter_In in Hx as [_ Hx].
    destruct x as [a|]; [|discriminate]. exists a. split; [reflexivity|].
    now apply negb_true_iff in Hx. }
  split.
  { unfold Configure.handleCleanRecipients. simpl.
    now rewrite default_allowed. }
  split; [lia|].
  split; [pose proof (filter_length_le Configure.proper before); lia|].
  unfold Configure.handleCleanRecipients at 1.
  rewrite default_allowed, clean_recipients_list.
  change (default [] (Some ?l)) with l.
  rewrite !filter_filter, Z.sub_diag. f_equal.
  unfold Configure.handleCleanRecipients. cbn [Configure.res_db].
  rewrite default_allowed. fold before.
  destruct db as [[[a c d v ad b]|] us ds]; reflexivity.
Qed.

(** X8. Cleaning the list of recipients changes the handling of no
    announcement: on the document [clean_recipients] leaves, the donation
    handler saves or not, sends the role commands and messages, asks the
    providers and leaves the users and the draws exactly as on the
    document before the cleaning. *)
Theorem clean_recipients_changes_no_verdict (cfg : Donation.Settings)
    (net : Net) (msg : Message) (db : Database.t) :
  let db' := Configure.res_db (Configure.handleCleanRecipients db) in
  let o := Donation.handleTipccDonation cfg net msg db in
  let o' := Donation.handleTipccDonation cfg net msg db' in
  Donation.out_saved o = Donation.out_saved o' /\
  Donation.out_events o = Donation.out_events o' /\
  Donation.out_calls o = Donation.out_calls o' /\
  Database.users (Donation.out_db o) = Database.users (Donation.out_db o') /\
  Database.donationDraws (Donation.out_db o)
  = Database.donationDraws (Donation.out_db o').
Proof.
  intros db' o o'. subst o o'.
  assert (Hu : Database.users db = Database.users db') by reflexivity.
  assert (Hds : Database.donationDraws db = Database.donationDraws db')
    by reflexivity.
  assert (Hdr : Database.cfg Config.donorRoles db
                = Database.cfg Config.donorRoles db')
    by now destruct db as [[c|] us ds].
  assert (Hv : Database.cfg Config.vipRoleId db
               = Database.cfg Config.vipRoleId db')
    by now destruct db as [[c|] us ds].
  assert (Hac : forall D c, Policy.currencyAccepted D db c
                            = Policy.currencyAccepted D db' c)
    by now destruct db as [[c|] us ds].
  assert (Hdrop : forall calls,
            let o := Donation.dropped db calls in
            let o' := Donation.dropped db' calls in
            Donation.out_saved o = Donation.out_saved o' /\
            Donation.out_events o = Donation.out_events o' /\
            Donation.out_calls o = Donation.out_calls o' /\
            Database.users (Donation.out_db o)
            = Database.users (Donation.out_db o') /\
            Database.donationDraws (Donation.out_db o)
            = Database.donationDraws (Donation.out_db o')).
  { intros calls. simpl. repeat split. }
  unfold Donation.handleTipccDonation.
  destruct (negb (truthy_str (guildId msg))); [apply Hdrop|].
  destruct (Grammar.parseTip (content msg)) as [tip|] eqn:Hp; [|apply Hdrop].
  assert (Hr : Configure.blank (Policy.clean (tip_recipient tip)) = false).
  { destruct (parseTip_well_formed _ _ Hp) as (_ & (Hne & Hw) & _).
    rewrite (clean_word _ Hw). now apply word_not_blank. }
  rewrite <- Hac.
  assert (Hverdict :
            match Database.cfg Config.allowedRecipients db' with
            | None | Some [] => false
            | Some allowed => Policy.isAllowedRecipient allowed (tip_recipient tip)
            end
            = match Database.cfg Config.allowedRecipients db with
              | None | Some [] => false
              | Some allowed =>
                  Policy.isAllowedRecipient allowed (tip_recipient tip)
              end).
  { subst db'. rewrite clean_recipients_list.
    pose proof (cleaned_verdict
                  (default [] (Database.cfg Config.allowedRecipients db))
                  (tip_recipient tip) Hr) as Hc.
    destruct (Database.cfg Config.allowedRecipients db) as [[|a l]|];
      try reflexivity.
    change (default [] (Some ?l)) with l in *.
    destruct (List.filter Configure.proper (a :: l)); exact Hc. }
  destruct (Database.cfg Config.allowedRecipients db') as [[|a' l']|];
    destruct (Database.cfg Config.allowedRecipients db) as [[|a l]|];
    try apply Hdrop;
    try (rewrite <- Hverdict; apply Hdrop);
    try (rewrite Hverdict; apply Hdrop).
  rewrite Hverdict.
  destruct (negb (Policy.isAllowedRecipient _ _)); [apply Hdrop|].
  destruct (negb (Policy.currencyAccepted _ _ _)); [apply Hdrop|].
  destruct (Price.resolveUsdValue _ _ _ _) as [[v|] calls]; [|apply Hdrop].
  destruct (negb (truthy_Q (Some v))); [apply Hdrop|].
  destruct (Donation.findSender _ _) as [sender|]; [|apply Hdrop].
  now apply recordDonation_reads.
Qed.

(** ** The list of accepted currencies *)

Section Currencies.

Lemma upper_char_idem (c : ascii) : upper_char (upper_char c) = upper_char c.
Proof. destruct c as [[] [] [] [] [] [] [] []]; reflexivity. Qed.

Lemma toUpperCase_idem (s : string) :
  toUpperCase (toUpperCase s) = toUpperCase s.
Proof.
  unfold toUpperCase. induction s as [|c r IH]; cbn [map_string];
    [reflexivity|].
  now rewrite upper_char_idem, IH.
Qed.

Lemma toUpperCase_empty (s : string) : toUpperCase s = "" -> s = "".
Proof. now destruct s. Qed.





Lemma accepted_with (D l : list string) (db : Database.t) (c : string) :
  Policy.currencyAccepted D (Configure.with_accepted l db) c
  = existsb (String.eqb (toUpperCase c)) l.
Proof. reflexivity. Qed.


Lemma config_of_accepted (db : Database.t) :
  Config.acceptedCryptocurrencies (Configure.config_of db)
  = Database.cfg Config.acceptedCryptocurrencies db.
Proof. now destruct db as [[c|] us ds]. Qed.

End Currencies.

(** X9. A currency added with [cryptocurrencies add] is accepted by the
    donation handler in every spelling of its letters: whenever the
    command returns, with a symbol that is not empty, the handler's
    currency test accepts each symbol that has the same upper-case
    form. *)
Theorem added_currency_is_accepted (DEFAULTS : option (list string))
    (D : list string) (c c' : string) (db : Database.t)
    (r : Configure.Result) :
  Configure.handleCryptocurrencies DEFAULTS "add" (Some c) db
  = Configure.Done r ->
  c <> "" -> toUpperCase c' = toUpperCase c ->
  Policy.currencyAccepted D (Configure.res_db r) c' = true.
Proof.
  intros Hrun Hne Hc'. unfold Configure.handleCryptocurrencies in Hrun.
  destruct (match Config.acceptedCryptocurrencies (Configure.config_of db) with
            | Some l => Some l
            | None => DEFAULTS
            end) as [accepted|]; [|discriminate].
  change (String.eqb "add" "list") with false in Hrun.
  change (String.eqb "add" "add") with true in Hrun.
  cbv iota in Hrun. cbn [fmap option_fmap option_map] in Hrun.
  assert (Ht : truthy_str (Some (toUpperCase c)) = true).
  { simpl. apply negb_true_iff, String.eqb_neq. intros H.
    now apply toUpperCase_empty in H. }
  rewrite Ht in Hrun. cbn [negb] in Hrun.
  destruct (existsb (String.eqb (toUpperCase c)) accepted) eqn:E;
    injection Hrun as <-; cbn [Configure.res_db]; rewrite accepted_with, Hc'.
  - exact E.
  - apply existsb_app_last, String.eqb_refl.
Qed.

Lemma added_currency_is_accepted_witness :
  Policy.currencyAccepted ["BTC"]
    (Configure.with_accepted ["BTC"; "DOGE"]
       (Database.mk (Some (Config.mk None (Some ["BTC"]) None None None None None None))
                    [] None))
    "Doge" = true.
Proof.
  apply (added_currency_is_accepted None ["BTC"] "doge" "Doge"
           (Database.mk (Some (Config.mk None (Some ["BTC"]) None None None None None None))
                        [] None)
           {| Configure.res_db :=
                Configure.with_accepted ["BTC"; "DOGE"]
                  (Database.mk
                     (Some (Config.mk None (Some ["BTC"]) None None None None None None))
                     [] None);
              Configure.res_saved := true;
              Configure.res_reply := Configure.CurrencyAdded "DOGE" ["BTC"; "DOGE"] |}).
  - reflexivity.
  - discriminate.
  - reflexivity.
Defined.



(** X11. In the module of the command the name [CONFIG] is not bound, so
    the default list cannot be read there: for a guild without a list of
    its own every action of [cryptocurrencies] ends in an exception, and
    [reset] does so for every guild.  Nothing is saved, and the document
    in memory differs from the one before at most by an empty [config]
    where there was none. *)
Theorem currency_commands_need_defaults (action : string)
    (currency : option string) (db : Database.t) :
  (Database.cfg Config.acceptedCryptocurrencies db = None ->
   exists db',
     Configure.handleCryptocurrencies None action currency db
     = Configure.Threw db' /\
     Spec.blind db db' /\
     Database.cfg Config.globalBlacklist db'
     = Database.cfg Config.globalBlacklist db) /\
  exists db',
    Configure.handleCryptocurrencies None "reset" currency db
    = Configure.Threw db' /\
    Spec.blind db db' /\
    Database.cfg Config.globalBlacklist db'
    = Database.cfg Config.globalBlacklist db.
Proof.
  split.
  - intros Hn. unfold Configure.handleCryptocurrencies.
    rewrite config_of_accepted, Hn. eexists. split; [reflexivity|].
    destruct db as [[cf|] us ds]; repeat split.
  - unfold Configure.handleCryptocurrencies. rewrite config_of_accepted.
    destruct (Database.cfg Config.acceptedCryptocurrencies db) as [l|] eqn:Hl;
      (eexists; split; [reflexivity|]);
      destruct db as [[[a c d v ad b]|] us ds]; unfold Database.cfg in Hl;
      simpl in Hl; try discriminate; subst; repeat split.
Qed.

(** ** Editing a draw *)

Section Edit.

Lemma oset_keys {V} (k : string) (v v' : V) (o : obj V) :
  oget k o = Some v -> okeys (oset k v' o) = okeys o.
Proof.
  unfold okeys. induction o as [|[k0 v0] o IH]; simpl; [discriminate|].
  destruct (String.eqb k k0) eqn:E; simpl; [reflexivity|].
  intros H. now rewrite IH.
Qed.

(** Replacing the value under a key that is set: the values before and
    after it stay. *)
Lemma oset_split {V} (k : string) (v v' : V) (o : obj V) :
  oget k o = Some v ->
  exists pre post,
    ovalues o = (pre ++ v :: post)%list /\
    ovalues (oset k v' o) = (pre ++ v' :: post)%list.
Proof.
  unfold ovalues. induction o as [|[k0 v0] o IH]; simpl; [discriminate|].
  destruct (String.eqb k k0) eqn:E; simpl.
  - intros [= ->]. now exists [], (map snd o).
  - intros H. destruct (IH H) as (pre & post & H1 & H2).
    exists (v0 :: pre), post. simpl. now rewrite H1, H2.
Qed.

Lemma oset_map {V W} (f : V -> W) (k : string) (v v' : V) (o : obj V) :
  oget k o = Some v -> f v' = f v ->
  map f (ovalues (oset k v' o)) = map f (ovalues o).
Proof.
  intros H Hf. destruct (oset_split k v v' o H) as (pre & post & -> & ->).
  rewrite !map_app. simpl. now rewrite Hf.
Qed.

Lemma totalEntries_ledgers (draws : obj Draw.t) :
  Stats.totalEntries draws
  = fold_left jadd (map (fun d => sum_counts (Draw.ledger d)) (ovalues draws))
              (Int 0).
Proof.
  unfold Stats.totalEntries. generalize (Int 0).
  induction (ovalues draws) as [|d l IH]; intros a; [reflexivity|].
  simpl. apply IH.
Qed.

Lemma oget_map_values {V} (f : string -> V -> V) (k : string) (o : obj V) :
  oget k (map (fun kd => (kd.1, f kd.1 kd.2)) o) = f k <$> oget k o.
Proof.
  induction o as [|[k0 v0] o IH]; simpl; [reflexivity|].
  destruct (String.eqb k k0) eqn:E; [|exact IH].
  apply String.eqb_eq in E. now subst.
Qed.

(** What a run of the donation handler does to the draws. *)
Lemma handler_draws (cfg : Donation.Settings) (net : Net) (msg : Message)
    (db : Database.t) :
  Database.donationDraws
    (Donation.out_db (Donation.handleTipccDonation cfg net msg db))
  = Database.donationDraws db \/
  exists vipRoleId m sel v,
    Database.donationDraws
      (Donation.out_db (Donation.handleTipccDonation cfg net msg db))
    = map (fun kd =>
             (kd.1, Spec.credit (member_id m)
                      (Donation.grant vipRoleId m sel v kd.1 kd.2) kd.2))
      <$> Database.donationDraws db.
Proof.
  destruct (handler_outcome cfg net msg db) as [->|(tip & v & m & calls & _ & ->)];
    [now left|].
  right. destruct (recordDonation_draws cfg msg tip v m calls db) as [u ->].
  exists (Database.cfg Config.vipRoleId db), m, (User.selectedDraw u), v.
  destruct (Database.donationDraws db) as [draws|]; [|reflexivity].
  simpl. now rewrite addEntries_draws.
Qed.

(** Under an id that is no draw the command leaves the document. *)
Lemma edit_unknown (drawId : string) (newName newReward : option string)
    (newMinAmount newMaxAmount : option Q) (newMaxEntries : option Z)
    (newActive newManualEntries newVipOnly : option bool)
    (now : Z) (by_ : string) (db : Database.t) :
  Database.donationDraws db ≫= oget drawId = None ->
  Configure.res_db
    (Configure.handleEditDraw drawId newName newReward newMinAmount
       newMaxAmount newMaxEntries newActive newManualEntries newVipOnly
       now by_ db).1 = db.
Proof.
  intros Hd. unfold Configure.handleEditDraw. rewrite Hd.
  destruct (_ && inherited drawId); [|reflexivity].
  now destruct (truthy_str newName && _).
Qed.

End Edit.

(** X12. [edit_draw] never touches entries: whatever options it is
    given, the users and the configuration stay as they are, the draws
    keep their order, and every draw keeps its id, its ledger, its winner
    and its creation stamp, so the total number of entries the analytics
    report is unchanged.  A draw id that is no draw changes nothing in
    the document; it is saved all the same exactly when the guild has
    draws and the id names a member that every object inherits, such as
    [constructor], unless a new name is given for a member that is a
    function. *)
Theorem edit_draw_keeps_entries (drawId : string)
    (newName newReward : option string) (newMinAmount newMaxAmount : option Q)
    (newMaxEntries : option Z)
    (newActive newManualEntries newVipOnly : option bool)
    (now : Z) (by_ : string) (db : Database.t) :
  let r := (Configure.handleEditDraw drawId newName newReward newMinAmount
              newMaxAmount newMaxEntries newActive newManualEntries
              newVipOnly now by_ db).1 in
  let draws := default [] (Database.donationDraws db) in
  let draws' := default [] (Database.donationDraws (Configure.res_db r)) in
  let kept d := (Draw.id d, Draw.entries d, Draw.winner d,
                 Draw.winnerSelectedAt d, Draw.selectedBy d,
                 Draw.createdBy d, Draw.createdAt d) in
  Database.users (Configure.res_db r) = Database.users db /\
  Database.config (Configure.res_db r) = Database.config db /\
  okeys draws' = okeys draws /\
  map kept (ovalues draws') = map kept (ovalues draws) /\
  Stats.totalEntries draws' = Stats.totalEntries draws /\
  (forall k, k <> drawId -> oget k draws' = oget k draws) /\
  (Database.donationDraws db ≫= oget drawId = None ->
   Configure.res_db r = db /\
   (Configure.res_saved r = true <->
    is_Some (Database.donationDraws db) /\ inherited drawId = true /\
    (truthy_str newName = false \/ drawId = "__proto__"))).
Proof.
  intros r draws draws' kept. subst r draws'.
  destruct (Database.donationDraws db ≫= oget drawId) as [d|] eqn:Hd.
  - unfold Configure.handleEditDraw. rewrite Hd.
    cbn [fst Configure.res_db Database.set_donationDraws Database.users
         Database.config Database.donationDraws default].
    change (from_option id [] (Some ?l)) with l.
    assert (Hget : oget drawId draws = Some d).
    { subst draws. destruct (Database.donationDraws db); [exact Hd|discriminate]. }
    fold draws.
    split; [reflexivity|]. split; [reflexivity|].
    split; [exact (oset_keys _ _ _ _ Hget)|].
    split; [now apply (oset_map kept _ d)|].
    split.
    + rewrite !totalEntries_ledgers. f_equal.
      now apply (oset_map (fun d => sum_counts (Draw.ledger d)) _ d).
    + split; [|discriminate].
      intros k Hk. apply oget_oset_ne. congruence.
  - rewrite (edit_unknown _ _ _ _ _ _ _ _ _ _ _ _ Hd). fold draws.
    do 6 (split; [reflexivity|]). intros _. split; [reflexivity|].
    unfold Configure.handleEditDraw. rewrite Hd.
    destruct (Database.donationDraws db) as [l|]; cbn [andb].
    + destruct (inherited drawId); cbn [fst Configure.res_saved].
      * destruct (truthy_str newName); cbn [andb fst Configure.res_saved].
        -- destruct (String.eqb_spec drawId "__proto__");
             cbn [negb fst Configure.res_saved].
           ++ split; [intros _|reflexivity].
              split; [now eexists|]. split; [reflexivity|now right].
           ++ split; [discriminate|]. intros (_ & _ & [H|H]); congruence.
        -- split; [intros _|reflexivity].
           split; [now eexists|]. split; [reflexivity|now left].
      * split; [discriminate|]. intros (_ & H & _). discriminate.
    + split; [discriminate|]. intros ([x H] & _). discriminate.
Qed.

(** On a guild with a draw, [edit_draw] for the id [constructor] finds
    the member every object inherits: it leaves the document and saves;
    with a new name it fails, and nothing is saved. *)
Example edit_draw_constructor :
  (Configure.handleEditDraw "constructor" None None None None None (Some true)
                            None None 9 "659745190382141453"
                            Sample.running_db).1
  = {| Configure.res_db := Sample.running_db; Configure.res_saved := true;
       Configure.res_reply := Configure.MemberUpdated "constructor" |} /\
  (Configure.handleEditDraw "constructor" (Some "Prize") None None None None
                            None None None 9 "659745190382141453"
                            Sample.running_db).1
  = {| Configure.res_db := Sample.running_db; Configure.res_saved := false;
       Configure.res_reply := Configure.CommandFailed |}.
Proof. split; reflexivity. Qed.

(** X13. A draw that [edit_draw] sets inactive is frozen: the donation
    loop grants it nothing, so a donation announcement leaves it as it
    is, and both [assign_entries] and [select_winner] answer that the
    draw is not active and change nothing; its ledger is the one it had
    before the edit. *)
Theorem deactivated_draw_is_frozen (drawId : string)
    (newName newReward : option string) (newMinAmount newMaxAmount : option Q)
    (newMaxEntries : option Z) (newManualEntries newVipOnly : option bool)
    (now : Z) (by_ : string) (db : Database.t) (d : Draw.t) :
  Database.donationDraws db ≫= oget drawId = Some d ->
  let db' :=
    Configure.res_db
      (Configure.handleEditDraw drawId newName newReward newMinAmount
         newMaxAmount newMaxEntries (Some false) newManualEntries newVipOnly
         now by_ db).1 in
  exists d',
    Database.donationDraws db' ≫= oget drawId = Some d' /\
    Draw.entries d' = Draw.entries d /\
    (forall vipRoleId m sel v,
       Donation.grant vipRoleId m sel v drawId d' = None) /\
    (forall cfg net msg,
       Database.donationDraws
         (Donation.out_db (Donation.handleTipccDonation cfg net msg db'))
       ≫= oget drawId = Some d') /\
    (forall user role entries members,
       Admin.handleAssignEntries user role drawId entries members db'
       = (db', false, Admin.DrawNotActive)) /\
    (forall random now' by',
       Admin.handleSelectWinner drawId random now' by' db'
       = Some (db', false, Admin.DrawNotActive)).
Proof.
  intros Hd db'. subst db'. unfold Configure.handleEditDraw. rewrite Hd.
  cbn [fst Configure.res_db].
  set (d' := Draw.mk _ _ _ _ _ _ _ _ _ _ _ _ _ _ _).
  set (db' := Database.set_donationDraws _ db).
  assert (Hget : Database.donationDraws db' ≫= oget drawId = Some d').
  { subst db'. simpl. apply oget_oset_eq. }
  assert (Hgrant : forall vipRoleId m sel v,
            Donation.grant vipRoleId m sel v drawId d' = None)
    by reflexivity.
  exists d'. split; [exact Hget|]. split; [reflexivity|].
  split; [exact Hgrant|]. split; [|split].
  - intros cfg net msg.
    destruct (handler_draws cfg net msg db')
      as [->|(vip & m & sel & v & ->)]; [exact Hget|].
    destruct (Database.donationDraws db') as [draws|]; [|discriminate].
    simpl in *.
    rewrite (oget_map_values
               (fun k x => Spec.credit (member_id m)
                             (Donation.grant vip m sel v k x) x)).
    rewrite Hget. cbn [fmap option_fmap option_map]. now rewrite Hgrant.
  - intros user role entries members. unfold Admin.handleAssignEntries.
    now rewrite Hget.
  - intros random now' by'. unfold Admin.handleSelectWinner.
    now rewrite Hget.
Qed.

Lemma deactivated_draw_is_frozen_witness :
  exists d',
    Database.donationDraws
      (Configure.res_db
         (Configure.handleEditDraw "draw_5" None None None None None
            (Some false) None None 9 "659745190382141453"
            Sample.running_db).1)
    ≫= oget "draw_5" = Some d' /\
    Draw.entries d' = Draw.entries Sample.running_draw /\
    (forall vipRoleId m sel v,
       Donation.grant vipRoleId m sel v "draw_5" d' = None) /\
    (forall cfg net msg,
       Database.donationDraws
         (Donation.out_db
            (Donation.handleTipccDonation cfg net msg
               (Configure.res_db
                  (Configure.handleEditDraw "draw_5" None None None None None
                     (Some false) None None 9 "659745190382141453"
                     Sample.running_db).1)))
       ≫= oget "draw_5" = Some d') /\
    (forall user role entries members,
       Admin.handleAssignEntries user role "draw_5" entries members
         (Configure.res_db
            (Configure.handleEditDraw "draw_5" None None None None None
               (Some false) None None 9 "659745190382141453"
               Sample.running_db).1)
       = (Configure.res_db
            (Configure.handleEditDraw "draw_5" None None None None None
               (Some false) None None 9 "659745190382141453"
               Sample.running_db).1, false, Admin.DrawNotActive)) /\
    (forall random now' by',
       Admin.handleSelectWinner "draw_5" random now' by'
         (Configure.res_db
            (Configure.handleEditDraw "draw_5" None None None None None
               (Some false) None None 9 "659745190382141453"
               Sample.running_db).1)
       = Some (Configure.res_db
                 (Configure.handleEditDraw "draw_5" None None None None None
                    (Some false) None None 9 "659745190382141453"
                    Sample.running_db).1, false, Admin.DrawNotActive)).
Proof.
  apply (deactivated_draw_is_frozen "draw_5" None None None None None None None
           9 "659745190382141453" Sample.running_db Sample.running_draw).
  reflexivity.
Defined.

(** ** Configuring the donor roles *)

Section DonorRoles.

Lemma odel_oset_fresh {V} (k : string) (v : V) (o : obj V) :
  oget k o = None -> odel k (oset k v o) = o.
Proof.
  induction o as [|[k0 v0] o IH]; simpl.
  - now rewrite String.eqb_refl.
  - destruct (String.eqb k k0) eqn:E; [discriminate|]. simpl. rewrite E.
    intros H. now rewrite IH.
Qed.

Lemma donorRoles_with (roles : obj DonorRole) (db : Database.t) :
  Notions.donorRoles_of (Configure.with_donorRoles roles db) = roles.
Proof. reflexivity. Qed.

Lemma config_of_donorRoles (db : Database.t) :
  default [] (Config.donorRoles (Configure.config_of db))
  = Notions.donorRoles_of db.
Proof. now destruct db as [[c|] us ds]. Qed.

Lemma with_donorRoles_twice (a b : obj DonorRole) (db : Database.t) :
  Configure.with_donorRoles a (Configure.with_donorRoles b db)
  = Configure.with_donorRoles a db.
Proof. now destruct db as [[c|] us ds]. Qed.

(** *** The loop of [auto_setup] as a sequence of Notions.assignments *)

Lemma auto_fold (guildRoles : list (string * string))
    (table : list (string * Q * option Q)) :
  forall roles n,
    fold_left (Configure.auto_step guildRoles) table (roles, n)
    = (fold_left Notions.put (omap (Notions.assignment guildRoles) table) roles,
       n + Z.of_nat (length (omap (Notions.assignment guildRoles) table))).
Proof.
  induction table as [|[[name min] max] table IH]; intros roles n.
  - cbn [fold_left omap list_omap length Z.of_nat]. now rewrite Z.add_0_r.
  - cbn [fold_left omap list_omap]. unfold Configure.auto_step at 2.
    destruct (Configure.findRole guildRoles name) as [[rid rname]|] eqn:E.
    + assert (Ha : Notions.assignment guildRoles (name, min, max)
                   = Some (rid, {| role_name := rname; role_minAmount := min;
                                   role_maxAmount := max; role_id := rid |})).
      { unfold Notions.assignment. cbn [fst snd]. now rewrite E. }
      rewrite Ha, IH. cbn [fold_left length]. unfold Notions.put at 2. cbn [fst snd].
      apply pair_equal_spec. split; [reflexivity | lia].
    + assert (Ha : Notions.assignment guildRoles (name, min, max) = None).
      { unfold Notions.assignment. cbn [fst snd]. now rewrite E. }
      rewrite Ha. apply IH.
Qed.

Section Assignments.
Context {V : Type}.
Implicit Types (o : obj V) (l : list (string * V)).

Let last_of (k : string) l (init : option V) : option V :=
  fold_left (fun acc kv => if String.eqb k kv.1 then Some kv.2 else acc) l init.

Lemma oget_fold_put (k : string) l :
  forall o, oget k (fold_left Notions.put l o) = last_of k l (oget k o).
Proof.
  induction l as [|[k0 v0] l IH]; intros o; [reflexivity|].
  cbn [fold_left]. rewrite IH. unfold last_of. cbn [fold_left fst snd].
  f_equal. unfold Notions.put. cbn [fst snd].
  destruct (String.eqb k k0) eqn:E.
  - apply String.eqb_eq in E. subst. apply oget_oset_eq.
  - apply oget_oset_ne. apply String.eqb_neq in E. congruence.
Qed.

Lemma last_of_init (k : string) l :
  forall init,
    last_of k l init
    = match last_of k l None with Some v => Some v | None => init end.
Proof.
  unfold last_of. induction l as [|[k0 v0] l IH]; intros init; [reflexivity|].
  cbn [fold_left fst snd]. rewrite IH. symmetry. rewrite IH.
  destruct (fold_left _ l None); [reflexivity|].
  now destruct (String.eqb k k0).
Qed.

Lemma last_of_twice (k : string) l (init : option V) :
  last_of k l (last_of k l init) = last_of k l init.
Proof.
  rewrite (last_of_init k l (last_of k l init)), (last_of_init k l init).
  now destruct (last_of k l None).
Qed.

Lemma okeys_put_present o (kv : string * V) :
  is_Some (oget kv.1 o) -> okeys (Notions.put o kv) = okeys o.
Proof. intros [v Hv]. unfold Notions.put. now apply (oset_keys _ v). Qed.

Lemma okeys_put_incl o (kv : string * V) (k : string) :
  is_Some (oget k o) -> is_Some (oget k (Notions.put o kv)).
Proof.
  intros H. unfold Notions.put. destruct (String.eqb kv.1 k) eqn:E.
  - apply String.eqb_eq in E. subst k. rewrite oget_oset_eq. now eexists.
  - rewrite oget_oset_ne; [exact H|]. now apply String.eqb_neq.
Qed.

Lemma okeys_fold_present l :
  forall o, (forall kv, In kv l -> is_Some (oget kv.1 o)) ->
            okeys (fold_left Notions.put l o) = okeys o.
Proof.
  induction l as [|kv l IH]; intros o H; [reflexivity|].
  cbn [fold_left]. rewrite IH.
  - apply okeys_put_present. apply H. now left.
  - intros kv' Hin. apply okeys_put_incl. apply H. now right.
Qed.

Lemma fold_put_present l :
  forall o kv, In kv l -> is_Some (oget kv.1 (fold_left Notions.put l o)).
Proof.
  induction l as [|kv0 l IH]; intros o kv; [intros []|].
  cbn [fold_left]. intros [->|Hin]; [|now apply IH].
  assert (H : is_Some (oget kv.1 (Notions.put o kv))).
  { unfold Notions.put. rewrite oget_oset_eq. now eexists. }
  clear IH. revert H. generalize (Notions.put o kv). clear o.
  induction l as [|kv1 l IH]; intros o H; [exact H|].
  cbn [fold_left]. apply IH. now apply okeys_put_incl.
Qed.

Lemma obj_ext (a b : obj V) :
  NoDup (okeys a) -> okeys a = okeys b ->
  (forall k, oget k a = oget k b) -> a = b.
Proof.
  revert b. induction a as [|[k v] a IH]; intros [|[k' v'] b] Hnd Hk Hg;
    try discriminate; [reflexivity|].
  unfold okeys in *. cbn [map fst] in Hk, Hnd. injection Hk as <- Hk.
  apply NoDup_cons in Hnd as [Hfresh Hnd].
  pose proof (Hg k) as Hkk. simpl in Hkk. rewrite String.eqb_refl in Hkk.
  injection Hkk as <-. f_equal. apply IH; [exact Hnd | exact Hk|].
  intros k0. specialize (Hg k0). simpl in Hg.
  destruct (String.eqb k0 k) eqn:E; [|exact Hg].
  apply String.eqb_eq in E. subst k0.
  assert (Ha : oget k a = None).
  { destruct (oget k a) as [x|] eqn:Hx; [|reflexivity].
    exfalso. apply Hfresh. apply list_elem_of_In.
    apply oget_In in Hx. change k with (fst (k, x)). now apply in_map. }
  assert (Hb : oget k b = None).
  { destruct (oget k b) as [x|] eqn:Hx; [|reflexivity].
    exfalso. apply Hfresh. rewrite Hk. apply list_elem_of_In.
    apply oget_In in Hx. change k with (fst (k, x)). now apply in_map. }
  now rewrite Ha, Hb.
Qed.

Lemma NoDup_put o (kv : string * V) :
  NoDup (okeys o) -> NoDup (okeys (Notions.put o kv)).
Proof.
  intros Hnd. unfold Notions.put. destruct (oget kv.1 o) as [v|] eqn:Hg.
  - now rewrite (oset_keys _ v).
  - rewrite (oset_fresh _ _ _ Hg). unfold okeys. rewrite map_app. simpl.
    apply NoDup_app. split; [exact Hnd|]. split; [|apply NoDup_singleton].
    intros x Hx Hin. apply list_elem_of_singleton in Hin. subst x.
    apply list_elem_of_In, in_map_iff in Hx as ([k0 v0] & Hk & Hin).
    simpl in Hk. subst k0. apply (In_oget _ _ _ Hnd) in Hin. congruence.
Qed.

Lemma NoDup_fold_put l :
  forall o, NoDup (okeys o) -> NoDup (okeys (fold_left Notions.put l o)).
Proof.
  induction l as [|kv l IH]; intros o H; [exact H|].
  cbn [fold_left]. apply IH. now apply NoDup_put.
Qed.

(** Running a sequence of Notions.assignments a second time changes nothing. *)
Lemma fold_put_twice l o :
  NoDup (okeys o) ->
  fold_left Notions.put l (fold_left Notions.put l o) = fold_left Notions.put l o.
Proof.
  intros Hnd. symmetry. apply obj_ext.
  - now apply NoDup_fold_put.
  - symmetry. apply okeys_fold_present. intros kv Hin.
    now apply fold_put_present.
  - intros k. rewrite !oget_fold_put. symmetry. apply last_of_twice.
Qed.

Lemma Forall_put (P : V -> Prop) o (kv : string * V) :
  Forall P (ovalues o) -> P kv.2 -> Forall P (ovalues (Notions.put o kv)).
Proof.
  intros Ho Hv. unfold Notions.put, ovalues.
  induction o as [|[k0 v0] o IH]; simpl.
  - now repeat constructor.
  - apply Forall_cons in Ho as [H0 Ho].
    destruct (String.eqb kv.1 k0); simpl; constructor; auto.
Qed.

Lemma Forall_fold_put (P : V -> Prop) l :
  forall o, Forall P (ovalues o) -> Forall (fun kv => P kv.2) l ->
            Forall P (ovalues (fold_left Notions.put l o)).
Proof.
  induction l as [|kv l IH]; intros o Ho Hl; [exact Ho|].
  apply Forall_cons in Hl as [Hkv Hl]. cbn [fold_left].
  apply IH; [|exact Hl]. now apply Forall_put.
Qed.

End Assignments.

Lemma auto_setup_result (guildRoles : list (string * string))
    (role : option (string * string)) (minAmount maxAmount : option Q)
    (db : Database.t) :
  let sigma := omap (Notions.assignment guildRoles) Configure.donorRoleNames in
  Configure.handleConfigureDonorRoles guildRoles "auto_setup" role minAmount
                                      maxAmount db
  = let roles' := fold_left Notions.put sigma (Notions.donorRoles_of db) in
    let setupCount := Z.of_nat (length sigma) in
    {| Configure.res_db := Configure.with_donorRoles roles' db;
       Configure.res_saved := (0 <? setupCount)%Z;
       Configure.res_reply := if (0 <? setupCount)%Z
                              then Configure.AutoConfigured setupCount
                              else Configure.NoMatchingRoles |}.
Proof.
  intros sigma. unfold Configure.handleConfigureDonorRoles.
  change (String.eqb "auto_setup" "view") with false.
  change (String.eqb "auto_setup" "auto_setup") with true. cbv iota.
  rewrite config_of_donorRoles, auto_fold. fold sigma. cbv zeta.
  rewrite Z.add_0_l. now destruct (0 <? _)%Z.
Qed.

(** No role of the table holds a total that lies between its ranges. *)
Lemma table_gaps (t : Q) :
  Notions.between_tiers t ->
  Forall (fun rc : string * Q * option Q =>
            forall rid rname,
              Rewards.in_range t {| role_name := rname;
                                    role_minAmount := rc.1.2;
                                    role_maxAmount := rc.2;
                                    role_id := rid |} = false)
         Configure.donorRoleNames.
Proof.
  intros Ht. unfold Notions.between_tiers in Ht.
  assert (Hr : forall mn mx rid rname,
            (t < mn \/ mx < t)%Q -> ~ (mx == 0)%Q ->
            Rewards.in_range t {| role_name := rname; role_minAmount := mn;
                                  role_maxAmount := Some mx;
                                  role_id := rid |} = false).
  { intros mn mx rid rname H Hmx. unfold Rewards.in_range. simpl.
    apply andb_false_iff. destruct H as [H|H].
    - left. apply not_true_iff_false. rewrite Qle_bool_iff. lra.
    - right. apply orb_false_iff. split.
      + apply negb_false_iff, negb_true_iff. now apply Qzero_false.
      + apply not_true_iff_false. rewrite Qle_bool_iff. lra. }
  assert (Hopen : forall mn rid rname,
            (t < mn)%Q ->
            Rewards.in_range t {| role_name := rname; role_minAmount := mn;
                                  role_maxAmount := None;
                                  role_id := rid |} = false).
  { intros mn rid rname H. unfold Rewards.in_range. simpl.
    apply andb_false_iff. left.
    apply not_true_iff_false. rewrite Qle_bool_iff. lra. }
  unfold Configure.donorRoleNames.
  repeat (apply Forall_cons; split;
          [intros rid rname; cbn [fst snd];
           first [apply Hr; [lra | intros H0; lra] | apply Hopen; lra]|]).
  constructor.
Qed.

Lemma highest_from_none (P : DonorRole -> bool) (l : list DonorRole)
    (init : option DonorRole * Q) :
  Forall (fun r => P r = false) l -> Rewards.highest_from P l init = init.
Proof.
  unfold Rewards.highest_from. revert init.
  induction l as [|r l IH]; intros [cur val] H; [reflexivity|].
  apply Forall_cons in H as [Hr Hl]. cbn [fold_left]. rewrite Hr.
  cbn [andb]. now apply IH.
Qed.

End DonorRoles.

(** X14. [configure_donor_roles add] stores the role under its id with
    the range given and leaves every other role as it was; for a role
    that was not configured, [remove] after [add] gives back the roles
    the guild had, order included. *)
Theorem donor_role_add_then_remove (guildRoles : list (string * string))
    (rid rname : string) (min : Q) (max : option Q) (db : Database.t) :
  let added :=
    Configure.res_db
      (Configure.handleConfigureDonorRoles guildRoles "add"
         (Some (rid, rname)) (Some min) max db) in
  let removed :=
    Configure.res_db
      (Configure.handleConfigureDonorRoles guildRoles "remove"
         (Some (rid, rname)) None None added) in
  oget rid (Notions.donorRoles_of added)
  = Some {| role_name := rname; role_minAmount := min;
            role_maxAmount := max; role_id := rid |} /\
  (forall k, k <> rid ->
             oget k (Notions.donorRoles_of added)
             = oget k (Notions.donorRoles_of db)) /\
  (oget rid (Notions.donorRoles_of db) = None ->
   Notions.donorRoles_of removed = Notions.donorRoles_of db).
Proof.
  intros added removed. subst removed added.
  unfold Configure.handleConfigureDonorRoles.
  change (String.eqb "add" "view") with false.
  change (String.eqb "add" "auto_setup") with false.
  change (String.eqb "add" "add") with true.
  change (String.eqb "remove" "view") with false.
  change (String.eqb "remove" "auto_setup") with false.
  change (String.eqb "remove" "add") with false.
  change (String.eqb "remove" "remove") with true.
  cbv iota. cbn [Configure.res_db].
  rewrite !config_of_donorRoles, donorRoles_with.
  set (roles := Notions.donorRoles_of db).
  set (new := {| role_name := rname; role_minAmount := min;
                 role_maxAmount := max; role_id := rid |}).
  rewrite oget_oset_eq. cbn [Configure.res_db]. rewrite donorRoles_with.
  split; [reflexivity|]. split; [intros k Hk; now apply oget_oset_ne|].
  intros Hnone. now apply odel_oset_fresh.
Qed.

(** X15. [auto_setup] can be repeated: on a document whose donor roles
    have distinct ids, a second run with the same guild roles leaves the
    document, the saved flag and the reply of the first run. *)
Theorem auto_setup_is_idempotent (guildRoles : list (string * string))
    (role : option (string * string)) (minAmount maxAmount : option Q)
    (db : Database.t) :
  NoDup (okeys (Notions.donorRoles_of db)) ->
  let once :=
    Configure.handleConfigureDonorRoles guildRoles "auto_setup" role
                                        minAmount maxAmount db in
  Configure.handleConfigureDonorRoles guildRoles "auto_setup" role
                                      minAmount maxAmount
                                      (Configure.res_db once)
  = once.
Proof.
  intros Hnd once. subst once. rewrite !auto_setup_result. cbv zeta.
  cbn [Configure.res_db]. rewrite donorRoles_with, with_donorRoles_twice.
  now rewrite fold_put_twice.
Qed.

Lemma auto_setup_is_idempotent_witness :
  Configure.handleConfigureDonorRoles
    [("900000000000000001", "Bronze Donor"); ("900000000000000003", "Gold Donor")]
    "auto_setup" None None None
    (Configure.res_db
       (Configure.handleConfigureDonorRoles
          [("900000000000000001", "Bronze Donor");
           ("900000000000000003", "Gold Donor")]
          "auto_setup" None None None Sample.live_db))
  = Configure.handleConfigureDonorRoles
      [("900000000000000001", "Bronze Donor"); ("900000000000000003", "Gold Donor")]
      "auto_setup" None None None Sample.live_db.
Proof.
  apply (auto_setup_is_idempotent
           [("900000000000000001", "Bronze Donor");
            ("900000000000000003", "Gold Donor")]
           None None None Sample.live_db).
  apply (bool_decide_unpack _). vm_compute. reflexivity.
Defined.

(** X16. The table of [auto_setup] leaves gaps: on a guild that had no
    donor roles before the command, a member whose total lies below 5 or
    strictly between two ranges of the table (25 to 26, 50 to 51, 100 to
    101, 250 to 251) is given no role and loses none, whatever roles the
    guild has. *)
Theorem auto_setup_leaves_gaps (guildRoles : list (string * string))
    (role : option (string * string)) (minAmount maxAmount : option Q)
    (db : Database.t) (g : Guild) (m : Member) (newTotal oldTotal : Q) :
  Notions.donorRoles_of db = [] ->
  Notions.between_tiers newTotal ->
  Rewards.assignDonorRoles
    (Configure.res_db
       (Configure.handleConfigureDonorRoles guildRoles "auto_setup" role
                                           minAmount maxAmount db))
    g m newTotal oldTotal
  = [].
Proof.
  intros Hempty Hgap. rewrite auto_setup_result. cbv zeta.
  cbn [Configure.res_db]. unfold Rewards.assignDonorRoles.
  change (default [] (Database.cfg Config.donorRoles
                        (Configure.with_donorRoles ?r db))) with r.
  rewrite Hempty.
  set (roles := fold_left Notions.put _ []).
  assert (Hall : Forall (fun r => Rewards.in_range newTotal r = false)
                        (ovalues roles)).
  { subst roles. apply Forall_fold_put; [constructor|].
    pose proof (table_gaps newTotal Hgap) as Ht.
    induction Ht as [|[[name mn] mx] table Hrow Ht IH]; [constructor|].
    cbn [omap list_omap]. unfold Notions.assignment at 1. cbn [fst snd].
    destruct (Configure.findRole guildRoles name) as [[rid rname]|];
      [|exact IH].
    constructor; [|exact IH]. apply Hrow. }
  destruct (okeys roles); [reflexivity|].
  unfold Rewards.newRole. rewrite (highest_from_none _ _ _ Hall).
  now destruct (Rewards.currentRole m roles).
Qed.

Lemma auto_setup_leaves_gaps_witness :
  Rewards.assignDonorRoles
    (Configure.res_db
       (Configure.handleConfigureDonorRoles
          [("900000000000000001", "Bronze Donor");
           ("900000000000000002", "Silver Donor")]
          "auto_setup" None None None (Database.mk None [] None)))
    Sample.guild_1 Sample.alice (51 # 2) 0
  = [].
Proof.
  apply (auto_setup_leaves_gaps
           [("900000000000000001", "Bronze Donor");
            ("900000000000000002", "Silver Donor")]
           None None None (Database.mk None [] None) Sample.guild_1
           Sample.alice (51 # 2) 0).
  - reflexivity.
  - right. left. split; reflexivity.
Defined.

(** X17. When the donation handler gives a donor role, it is the best
    fit: a configured role whose range holds the new total, whose
    minimum is above 0 and is the largest among the configured roles
    whose range holds the total; before it is added, exactly the
    configured roles the member holds are removed.  A member who holds
    no configured role is given a role as soon as one with a minimum
    above 0 holds the total. *)
Theorem assigned_role_is_best_fit (db : Database.t) (g : Guild) (m : Member)
    (newTotal oldTotal : Q) :
  let donorRoles := Notions.donorRoles_of db in
  let events := Rewards.assignDonorRoles db g m newTotal oldTotal in
  (events = [] \/
   exists new,
     In new (ovalues donorRoles) /\
     Rewards.in_range newTotal new = true /\
     (0 < role_minAmount new)%Q /\
     (forall other, In other (ovalues donorRoles) ->
                    Rewards.in_range newTotal other = true ->
                    (role_minAmount other <= role_minAmount new)%Q) /\
     events
     = (map (fun role => RoleRemoved (member_id m) (role_id role))
            (List.filter (fun role => Rewards.has_role m (role_id role))
                         (ovalues donorRoles))
        ++ [RoleAdded (member_id m) (role_id new)]
        ++ Rewards.upgradeNotice g m new newTotal)%list) /\
  ((forall held, In held (ovalues donorRoles) ->
                 Rewards.has_role m (role_id held) = false) ->
   (exists fit, In fit (ovalues donorRoles) /\
                Rewards.in_range newTotal fit = true /\
                (0 < role_minAmount fit)%Q) ->
   exists new, In (RoleAdded (member_id m) (role_id new)) events).
Proof.
  intros donorRoles events. subst events. unfold Rewards.assignDonorRoles.
  fold (Notions.donorRoles_of db). fold donorRoles.
  unfold Rewards.currentRole, Rewards.newRole.
  pose proof (pick_spec (fun role => Rewards.has_role m (role_id role))
                        (ovalues donorRoles) None 0%Q) as Hcur.
  pose proof (pick_spec (Rewards.in_range newTotal)
                        (ovalues donorRoles) None 0%Q) as Hnew.
  cbv zeta in Hcur, Hnew.
  destruct (Rewards.highest_from (fun role => Rewards.has_role m (role_id role))
              (ovalues donorRoles) (None, 0%Q)) as [cur cval].
  destruct (Rewards.highest_from (Rewards.in_range newTotal)
              (ovalues donorRoles) (None, 0%Q)) as [new nval].
  simpl in Hcur, Hnew.
  destruct Hcur as (_ & _ & Hcur). destruct Hnew as (_ & Hnmax & Hnew).
  split.
  - destruct (okeys donorRoles); [now left|].
    destruct new as [nr|]; [|now left].
    destruct Hnew as [[[=] _]|(x & Hx & Px & [= <-] & -> & Hpos)].
    destruct (_ || _); [|now left].
    right. exists nr. split; [exact Hx|]. split; [exact Px|].
    split; [exact Hpos|]. split; [exact Hnmax|].
    unfold Rewards.replaceRoles. now rewrite <- app_assoc.
  - intros Hnone (fit & Hfit & Pfit & Hfpos).
    assert (Hc : cur = None).
    { destruct Hcur as [[-> _]|(y & Hy & Py & _)]; [reflexivity|].
      rewrite (Hnone y Hy) in Py. discriminate. }
    subst cur.
    destruct (okeys donorRoles) eqn:Hk.
    { destruct donorRoles; [destruct Hfit | discriminate]. }
    destruct Hnew as [[-> ->]|(x & Hx & Px & -> & -> & Hpos)].
    + specialize (Hnmax fit Hfit Pfit). lra.
    + exists x. cbn [orb]. unfold Rewards.replaceRoles.
      apply in_or_app. left. apply in_or_app. right. now left.
Qed.

(** ** Access to the admin commands *)

Lemma check_with_role (OWNER_ID : option string) (g : Guild)
    (adminRole someone : string) (db : Database.t) :
  adminRole <> "" ->
  Database.cfg Config.adminRoleId db = Some adminRole ->
  Configure.checkAdminPermissions OWNER_ID g someone db = true
  <-> someone = Configure.ownerId OWNER_ID \/
      exists member,
        members_fetch g someone = Some member /\ adminRole ∈ roles member.
Proof.
  intros Hrole Hcfg. unfold Configure.checkAdminPermissions. rewrite Hcfg.
  assert (Ht : truthy_str (Some adminRole) = true)
    by (simpl; now apply negb_true_iff, String.eqb_neq).
  rewrite Ht. cbn [negb].
  destruct (String.eqb someone (Configure.ownerId OWNER_ID)) eqn:Es.
  - apply String.eqb_eq in Es. split; [intros _; now left | reflexivity].
  - apply String.eqb_neq in Es.
    destruct (members_fetch g someone) as [member|].
    + unfold Rewards.has_role. rewrite bool_decide_eq_true. split.
      * intros H. right. now exists member.
      * intros [H|(mb & [= <-] & H)]; [congruence | exact H].
    + split; [discriminate|]. intros [H|(mb & [=] & _)]. congruence.
Qed.

(** X18. [setup] runs behind two tests: the permission check of every
    admin command, then its own.  It is carried out exactly for the owner
    and for a Discord administrator who passes the permission check, so
    on a guild that has no admin role yet only the owner can run it; a
    refusal changes nothing.  When it runs it writes [config.adminRoleId]
    and the channel ids that are given and leaves the users, the draws
    and every other setting, and from then on [checkAdminPermissions]
    passes exactly the owner and the members the guild can fetch who hold
    the role named in the command. *)
Theorem setup_grants_access (OWNER_ID : option string) (g : Guild)
    (userId : string) (administrator : bool) (adminRole : string)
    (logChannel notificationChannel : option string) (db : Database.t) :
  let r := Configure.setup OWNER_ID g userId administrator adminRole
             logChannel notificationChannel db in
  let db' := Configure.res_db r in
  (Configure.res_saved r = true <->
   userId = Configure.ownerId OWNER_ID \/
   (Configure.checkAdminPermissions OWNER_ID g userId db = true /\
    administrator = true)) /\
  (Configure.res_saved r = true ->
   Database.cfg Config.adminRoleId db = None ->
   userId = Configure.ownerId OWNER_ID) /\
  (Configure.res_saved r = false -> db' = db) /\
  (Configure.res_saved r = true ->
   Database.cfg Config.adminRoleId db' = Some adminRole /\
   Database.cfg Config.logChannelId db'
   = match logChannel with
     | Some ch => Some ch
     | None => Database.cfg Config.logChannelId db
     end /\
   Database.cfg Config.notificationChannelId db'
   = match notificationChannel with
     | Some ch => Some ch
     | None => Database.cfg Config.notificationChannelId db
     end /\
   Database.users db' = Database.users db /\
   Database.donationDraws db' = Database.donationDraws db /\
   Database.cfg Config.allowedRecipients db'
   = Database.cfg Config.allowedRecipients db /\
   Database.cfg Config.acceptedCryptocurrencies db'
   = Database.cfg Config.acceptedCryptocurrencies db /\
   Database.cfg Config.donorRoles db' = Database.cfg Config.donorRoles db /\
   Database.cfg Config.vipRoleId db' = Database.cfg Config.vipRoleId db /\
   Database.cfg Config.globalBlacklist db'
   = Database.cfg Config.globalBlacklist db) /\
  (Configure.res_saved r = true -> adminRole <> "" ->
   forall someone,
     Configure.checkAdminPermissions OWNER_ID g someone db' = true <->
     someone = Configure.ownerId OWNER_ID \/
     exists member,
       members_fetch g someone = Some member /\ adminRole ∈ roles member).
Proof.
  intros r db'. subst db' r. unfold Configure.setup, Configure.handleSetup.
  assert (Hfirst :
    forall b : bool,
      Configure.checkAdminPermissions OWNER_ID g userId db = b ->
      Database.cfg Config.adminRoleId db = None ->
      b = true -> userId = Configure.ownerId OWNER_ID).
  { intros b <- Hnone. unfold Configure.checkAdminPermissions.
    rewrite Hnone.
    destruct (String.eqb_spec userId (Configure.ownerId OWNER_ID));
      [tauto | discriminate]. }
  assert (Howner : userId = Configure.ownerId OWNER_ID ->
                   Configure.checkAdminPermissions OWNER_ID g userId db = true).
  { intros ->. unfold Configure.checkAdminPermissions.
    now rewrite String.eqb_refl. }
  destruct (Configure.checkAdminPermissions OWNER_ID g userId db) eqn:Echk;
    cbn [negb].
  - destruct (negb (String.eqb userId (Configure.ownerId OWNER_ID))
              && negb administrator) eqn:Eref;
      cbn [Configure.res_saved Configure.res_db].
    + apply andb_true_iff in Eref as [Eo Ea].
      apply negb_true_iff, String.eqb_neq in Eo. apply negb_true_iff in Ea.
      split.
      { split; [discriminate|]. intros [Ho|[_ Ha]]; congruence. }
      split; [discriminate|]. split; [reflexivity|].
      split; discriminate.
    + split.
      { split; [intros _|reflexivity].
        destruct (String.eqb userId (Configure.ownerId OWNER_ID)) eqn:Eo;
          [left; now apply String.eqb_eq|].
        right. split; [reflexivity|].
        destruct administrator; [reflexivity | discriminate Eref]. }
      split; [intros _ Hnone; exact (Hfirst true eq_refl Hnone eq_refl)|].
      split; [discriminate|]. split.
      { intros _. destruct db as [[c|] us ds]; destruct logChannel;
          destruct notificationChannel; repeat split. }
      intros _ Hrole someone. apply check_with_role; [exact Hrole|reflexivity].
  - cbn [Configure.res_saved Configure.res_db].
    split; [split; [discriminate|]|].
    { intros [Ho|[Hc _]]; [|discriminate].
      discriminate (Howner Ho). }
    split; [discriminate|]. split; [reflexivity|].
    split; discriminate.
Qed.

(** ** What the analytics report after a command *)

Section Analytics.

Lemma count_app {A} (l l' : list A) :
  Stats.count (l ++ l') = Stats.count l + Stats.count l'.
Proof. unfold Stats.count. rewrite length_app. lia. Qed.

Lemma totalWins_from (l : list User.t) (a : Z) :
  fold_left (fun sum user => sum + User.wins user) l a
  = a + fold_left (fun sum user => sum + User.wins user) l 0.
Proof.
  revert a. induction l as [|u l IH]; intros a; simpl; [lia|].
  rewrite IH, (IH (0 + User.wins u)). lia.
Qed.

Lemma totalWins_app (l l' : list User.t) :
  fold_left (fun sum user => sum + User.wins user) (l ++ l') 0
  = fold_left (fun sum user => sum + User.wins user) l 0
    + fold_left (fun sum user => sum + User.wins user) l' 0.
Proof. rewrite fold_left_app. apply totalWins_from. Qed.

Lemma totalWins_cons (u : User.t) (l : list User.t) :
  fold_left (fun sum user => sum + User.wins user) (u :: l) 0
  = User.wins u + fold_left (fun sum user => sum + User.wins user) l 0.
Proof. cbn [fold_left]. rewrite totalWins_from. lia. Qed.

(** One more win for the user under a key raises the total by one,
    whether the user had a record or not. *)
Lemma totalWins_oset (k : string) (users : obj User.t) :
  let user := default User.fresh_admin (oget k users) in
  Stats.totalWins (oset k (User.set_wins (User.wins user + 1) user) users)
  = Stats.totalWins users + 1.
Proof.
  intros user. subst user. unfold Stats.totalWins.
  destruct (oget k users) as [u|] eqn:Hu.
  - change (default User.fresh_admin (Some u)) with u.
    destruct (oset_split k u (User.set_wins (User.wins u + 1) u) users Hu)
      as (pre & post & -> & ->).
    rewrite !totalWins_app, !totalWins_cons. simpl. lia.
  - change (default User.fresh_admin None) with User.fresh_admin.
    rewrite (oset_fresh _ _ _ Hu). unfold ovalues. rewrite map_app.
    rewrite totalWins_app. simpl. lia.
Qed.

Lemma map_oset {V W} (f : V -> W) (k : string) (v : V) (o : obj V) :
  map (fun kd => (kd.1, f kd.2)) (oset k v o)
  = oset k (f v) (map (fun kd => (kd.1, f kd.2)) o).
Proof.
  induction o as [|[k0 v0] o IH]; simpl; [reflexivity|].
  destruct (String.eqb k k0); simpl; [reflexivity|]. now rewrite IH.
Qed.

Lemma oget_map {V W} (f : V -> W) (k : string) (o : obj V) :
  oget k (map (fun kd => (kd.1, f kd.2)) o) = f <$> oget k o.
Proof.
  induction o as [|[k0 v0] o IH]; simpl; [reflexivity|].
  now destruct (String.eqb k k0).
Qed.

(** The total the analytics report is the sum of the table that gives
    each draw the sum of its ledger. *)
Lemma totalEntries_table (draws : obj Draw.t) :
  Stats.totalEntries draws
  = sum_counts (map (fun kd => (kd.1, sum_counts (Draw.ledger kd.2))) draws).
Proof.
  rewrite totalEntries_ledgers. unfold sum_counts at 2, ovalues.
  now rewrite !map_map.
Qed.

End Analytics.

(** X19. Drawing a winner shows in the analytics as one draw moved from
    active to completed and one more win: whenever [select_winner]
    records a winner, the report on draws has the same number of draws
    and the same total of entries, one active draw less and one completed
    draw more, and the total of wins in the report on users is one
    higher. *)
Theorem winner_shows_in_analytics (drawId : string) (random : Q) (now : Z)
    (by_ : string) (db db' : Database.t) (w : string) (total : jsint) :
  Admin.handleSelectWinner drawId random now by_ db
  = Some (db', true, Admin.WinnerSelected (Some w) total) ->
  w <> "" ->
  let draws := default [] (Database.donationDraws db) in
  let draws' := default [] (Database.donationDraws db') in
  Stats.handleAnalytics (Some "draws") db'
  = Stats.Draws (Stats.count (okeys draws))
                (Stats.count (Stats.activeDraws draws) - 1)
                (Stats.count (Stats.completedDraws draws) + 1)
                (Stats.totalEntries draws) /\
  Stats.totalWins (Database.users db') = Stats.totalWins (Database.users db) + 1.
Proof.
  intros Hrun Hw draws draws'. subst draws'.
  unfold Admin.handleSelectWinner in Hrun.
  destruct (Database.donationDraws db ≫= oget drawId) as [draw|] eqn:Hd;
    [|discriminate].
  destruct (Draw.active draw) eqn:Hact; [|discriminate]. cbn [negb] in Hrun.
  destruct (bool_decide _); [discriminate|].
  destruct (Admin.weightedEntries _) as [ws|]; [|discriminate].
  injection Hrun as <- Hpick _. rewrite Hpick.
  cbn [Database.users Database.donationDraws].
  split; [|apply totalWins_oset].
  assert (Hget : oget drawId draws = Some draw).
  { subst draws. destruct (Database.donationDraws db); [exact Hd|discriminate]. }
  fold draws.
  set (draw' := Draw.close (Some w) now by_ draw).
  unfold Stats.handleAnalytics.
  change (String.eqb "draws" "overview") with false.
  change (String.eqb "draws" "donations") with false.
  change (String.eqb "draws" "draws") with true.
  cbn [truthy_str negb String.eqb Ascii.eqb Bool.eqb Database.donationDraws].
  change (default [] (Some ?x)) with x. fold draws. f_equal.
  - unfold Stats.count. now rewrite (oset_keys _ draw).
  - unfold Stats.activeDraws.
    destruct (oset_split drawId draw draw' draws Hget) as (pre & post & -> & ->).
    rewrite !List.filter_app. cbn [List.filter]. rewrite Hact.
    change (Draw.active draw') with false. cbv iota.
    rewrite !count_app. unfold Stats.count. cbn [length]. lia.
  - unfold Stats.completedDraws.
    destruct (oset_split drawId draw draw' draws Hget) as (pre & post & -> & ->).
    rewrite !List.filter_app. cbn [List.filter]. rewrite Hact.
    change (Draw.active draw') with false.
    change (Draw.winner draw') with (Some w).
    assert (Ht : truthy_str (Some w) = true)
      by (simpl; now apply negb_true_iff, String.eqb_neq).
    rewrite Ht. cbn [negb andb].
    rewrite !count_app. unfold Stats.count. cbn [length]. lia.
  - rewrite !totalEntries_ledgers. f_equal.
    now apply (oset_map (fun d => sum_counts (Draw.ledger d)) _ draw).
Qed.

Lemma winner_shows_in_analytics_witness :
  Stats.handleAnalytics (Some "draws")
    (Database.mk None
       [("111111111111111111", User.set_wins 1 User.fresh_admin)]
       (Some [("draw_5", Draw.close (Some "111111111111111111") 10
                                    "659745190382141453" Sample.running_draw)]))
  = Stats.Draws 1 (1 - 1) (0 + 1) (Int 3) /\
  Stats.totalWins [("111111111111111111", User.set_wins 1 User.fresh_admin)]
  = 0 + 1.
Proof.
  apply (winner_shows_in_analytics "draw_5" 0 10 "659745190382141453"
           Sample.running_db
           (Database.mk None
              [("111111111111111111", User.set_wins 1 User.fresh_admin)]
              (Some [("draw_5", Draw.close (Some "111111111111111111") 10
                                           "659745190382141453"
                                           Sample.running_draw)]))
           "111111111111111111" (Int 3)).
  - reflexivity.
  - discriminate.
Defined.

(** X20. Entries assigned by hand are counted: whenever [assign_entries]
    succeeds on a document whose ledgers hold integers, the total of
    entries the analytics report grows by the number of users served
    times the entries given to each, and the numbers of draws and of
    active draws stay. *)
Theorem assigned_entries_are_counted (user role : option string)
    (drawId : string) (entries : Z) (members : option (list Member))
    (db db' : Database.t) (perUser served total : Z) :
  Admin.handleAssignEntries user role drawId entries members db
  = (db', true, Admin.EntriesAssigned perUser served) ->
  Stats.totalEntries (default [] (Database.donationDraws db)) = Int total ->
  let draws := default [] (Database.donationDraws db) in
  let draws' := default [] (Database.donationDraws db') in
  Stats.totalEntries draws' = Int (total + served * perUser) /\
  0 < served * perUser /\
  okeys draws' = okeys draws /\
  Stats.count (Stats.activeDraws draws') = Stats.count (Stats.activeDraws draws).
Proof.
  intros Hrun Htotal draws draws'. subst draws'.
  unfold Admin.handleAssignEntries in Hrun.
  destruct (Database.donationDraws db ≫= oget drawId) as [draw|] eqn:Hd;
    [|discriminate].
  destruct (Draw.active draw) eqn:Hact; [|discriminate]. cbn [negb] in Hrun.
  destruct (Z.leb_spec entries 0) as [|Hpos]; [discriminate|].
  destruct (match user, role with
            | Some u, _ => _ | None, Some r => _ | None, None => _ end)
    as [[[|t ts]|]|]; try discriminate.
  destruct (jlt _ _); [discriminate|].
  destruct (fold_left _ (t :: ts) _) as [ledger users] eqn:Hfold.
  injection Hrun as <- <- <-.
  cbn [Database.donationDraws]. change (default [] (Some ?x)) with x.
  assert (Hget : oget drawId draws = Some draw).
  { subst draws. destruct (Database.donationDraws db); [exact Hd|discriminate]. }
  fold draws in Htotal |- *.
  set (draw' := Draw.set_entries (Some ledger) draw).
  rewrite totalEntries_table in Htotal.
  assert (Hc : exists c, sum_counts (Draw.ledger draw) = Int c).
  { apply (sum_counts_In drawId _ _ _ Htotal).
    apply oget_In.
    rewrite (oget_map (fun d => sum_counts (Draw.ledger d))), Hget. reflexivity. }
  destruct Hc as [c Hc].
  pose proof (assign_fold_sum drawId entries (t :: ts) (Draw.ledger draw)
                (Database.users db) c Hc) as Hsum.
  rewrite Hfold in Hsum. cbn [fst] in Hsum.
  split.
  - rewrite totalEntries_table.
    rewrite (map_oset (fun d => sum_counts (Draw.ledger d))).
    change (sum_counts (Draw.ledger draw')) with (sum_counts ledger).
    rewrite Hsum.
    rewrite (sum_counts_oset _ drawId total c _ Htotal).
    + cbn [length]. apply f_equal. lia.
    + rewrite (oget_map (fun d => sum_counts (Draw.ledger d))), Hget.
      cbn [fmap option_fmap option_map]. now rewrite Hc.
  - split; [cbn [length]; nia|].
    split; [exact (oset_keys _ _ _ _ Hget)|].
    unfold Stats.activeDraws.
    destruct (oset_split drawId draw draw' draws Hget) as (pre & post & -> & ->).
    rewrite !List.filter_app. cbn [List.filter]. rewrite Hact.
    change (Draw.active draw') with (Draw.active draw). rewrite Hact.
    now rewrite !count_app.
Qed.

Lemma assigned_entries_are_counted_witness :
  Stats.totalEntries
    [("draw_5",
      Draw.set_entries
        (Some [("111111111111111111", Int 6); ("222222222222222222", Int 1)])
        Sample.running_draw)]
  = Int (3 + 1 * 4) /\
  0 < 1 * 4 /\
  okeys [("draw_5",
          Draw.set_entries
            (Some [("111111111111111111", Int 6); ("222222222222222222", Int 1)])
            Sample.running_draw)]
  = okeys [("draw_5", Sample.running_draw)] /\
  Stats.count
    (Stats.activeDraws
       [("draw_5",
         Draw.set_entries
           (Some [("111111111111111111", Int 6); ("222222222222222222", Int 1)])
           Sample.running_draw)])
  = Stats.count (Stats.activeDraws [("draw_5", Sample.running_draw)]).
Proof.
  apply (assigned_entries_are_counted (Some "111111111111111111") None
           "draw_5" 4 None Sample.running_db
           (Database.mk None
              [("111111111111111111",
                User.set_entries (Some {[ "draw_5" := Int 4 ]}) User.fresh_admin)]
              (Some [("draw_5",
                      Draw.set_entries
                        (Some [("111111111111111111", Int 6);
                               ("222222222222222222", Int 1)])
                        Sample.running_draw)]))
           4 1 3).
  - vm_compute. reflexivity.
  - reflexivity.
Defined.

(** ** Entries granted by a donation are counted *)

Section Conservation.

Lemma jadd_comm (a b : jsint) : jadd a b = jadd b a.
Proof. destruct a, b; simpl; try reflexivity. f_equal. lia. Qed.

Lemma jadd_assoc (a b c : jsint) : jadd a (jadd b c) = jadd (jadd a b) c.
Proof. destruct a, b, c; simpl; try reflexivity. f_equal. lia. Qed.

Lemma jadd_0_l (a : jsint) : jadd (Int 0) a = a.
Proof. destruct a; simpl; try reflexivity. Qed.

Lemma fold_jadd_from (l : list jsint) (a : jsint) :
  fold_left jadd l a = jadd a (fold_left jadd l (Int 0)).
Proof.
  revert a. induction l as [|x l IH]; intros a; cbn [fold_left].
  - now rewrite jadd_0_r.
  - rewrite IH, (IH (jadd (Int 0) x)), jadd_0_l. symmetry. apply jadd_assoc.
Qed.

Lemma fold_jadd_cons (x : jsint) (l : list jsint) :
  fold_left jadd (x :: l) (Int 0) = jadd x (fold_left jadd l (Int 0)).
Proof. cbn [fold_left]. now rewrite fold_jadd_from, jadd_0_l. Qed.

Lemma sum_counts_step (k : string) (x : jsint) (l : obj jsint) :
  sum_counts ((k, x) :: l) = jadd x (sum_counts l).
Proof. unfold sum_counts, ovalues. cbn [map snd]. apply fold_jadd_cons. Qed.

(** Writing any number under a key that holds an integer. *)
Lemma sum_counts_oset_any (l : obj jsint) (k : string) (c o : Z) (x : jsint) :
  sum_counts l = Int c -> oget k l = Some (Int o) ->
  sum_counts (oset k x l) = jadd (Int (c - o)) x.
Proof.
  revert c. induction l as [|[k' x'] l IH]; simpl; intros c H; [discriminate|].
  apply sum_counts_cons in H as (y & r & -> & Hr & ->).
  destruct (String.eqb k k') eqn:E.
  - intros [= ->]. rewrite sum_counts_step, Hr.
    destruct x; simpl; try reflexivity. apply f_equal. lia.
  - intros Hget. rewrite sum_counts_step, (IH _ Hr Hget).
    destruct x; simpl; try reflexivity. apply f_equal. lia.
Qed.

(** Crediting any count to a ledger of integers adds it to the sum. *)
Lemma sum_counts_ledger_add_any (l : obj jsint) (k : string) (c : Z)
    (n : jsint) :
  sum_counts l = Int c ->
  sum_counts (Donation.ledger_add k n l) = jadd (Int c) n.
Proof.
  intros H. unfold Donation.ledger_add.
  destruct (oget k l) as [x|] eqn:G.
  - destruct (sum_counts_In _ _ _ _ H (oget_In _ _ _ G)) as [o ->].
    destruct (Z.eq_dec o 0) as [->|Hne].
    + cbn [truthy_oint truthy_int]. rewrite (oset_same _ _ _ G), G.
      cbn [default]. unfold id.
      rewrite (sum_counts_oset_any _ _ _ _ _ H G), jadd_0_l.
      now rewrite Z.sub_0_r.
    + assert (Ht : truthy_oint (Some (Int o)) = true) by now destruct o.
      rewrite Ht, G. cbn [default]. unfold id.
      rewrite (sum_counts_oset_any _ _ _ _ _ H G).
      destruct n; simpl; try reflexivity. apply f_equal. lia.
  - cbn [truthy_oint]. rewrite (oset_fresh _ _ _ G).
    assert (G' : oget k (l ++ [(k, Int 0)])%list = Some (Int 0)).
    { rewrite <- (oset_fresh _ _ _ G). apply oget_oset_eq. }
    rewrite G'. cbn [default]. unfold id.
    rewrite (sum_counts_oset_any _ k (c + 0) 0 _
               (sum_counts_app_Int _ _ _ _ H) G'), jadd_0_l.
    destruct n; simpl; try reflexivity. apply f_equal. lia.
Qed.

(** The draws after the loop hold what they held and what was granted. *)
Lemma credited_total (senderId : string)
    (g : string -> Draw.t -> option jsint) (draws : obj Draw.t) :
  forall total,
    Stats.totalEntries draws = Int total ->
    Stats.totalEntries
      (map (fun kd => (kd.1, Spec.credit senderId (g kd.1 kd.2) kd.2)) draws)
    = jadd (Int total)
           (fold_left jadd (map (fun kd => Spec.granted (g kd.1 kd.2)) draws)
                      (Int 0)).
Proof.
  induction draws as [|[k d] draws IH]; intros total H.
  - unfold Stats.totalEntries in *. simpl in *. rewrite H. simpl.
    f_equal. lia.
  - rewrite totalEntries_table in H. cbn [map fst snd] in H.
    apply sum_counts_cons in H as (c & r & Hc & Hr & ->).
    rewrite <- totalEntries_table in Hr. specialize (IH r Hr).
    rewrite totalEntries_table in IH |- *. cbn [map fst snd].
    rewrite sum_counts_step, map_map in *. cbn [fst snd] in *.
    rewrite IH, fold_jadd_cons.
    assert (Hd : sum_counts (Draw.ledger (Spec.credit senderId (g k d) d))
                 = jadd (Int c) (Spec.granted (g k d))).
    { destruct (g k d) as [n|]; simpl.
      - change (Draw.ledger (Draw.set_entries (Some ?l) d)) with l.
        now apply sum_counts_ledger_add_any.
      - rewrite Hc. simpl. f_equal. lia. }
    rewrite Hd.
    set (G := fold_left jadd _ (Int 0)). set (x := Spec.granted (g k d)).
    rewrite <- !jadd_assoc. change (Int (c + r)) with (jadd (Int c) (Int r)).
    rewrite <- !jadd_assoc. f_equal.
    rewrite !jadd_assoc. f_equal. apply jadd_comm.
Qed.

End Conservation.

Section Confirmation.

Let quiet (e : Event) : Prop :=
  forall member usd n t, e <> Confirmation member usd n t.

Lemma loop_log_quiet vipRoleId m senderId sel v (l : obj Draw.t) :
  forall st0,
    Forall quiet (Donation.ls_log st0) ->
    Forall quiet
      (Donation.ls_log
         (fold_left (Donation.loop_body vipRoleId m senderId sel v) l st0)).
Proof.
  induction l as [|[k d] l IH]; intros st0 H; [exact H|].
  cbn [fold_left]. apply IH. unfold Donation.loop_body.
  destruct (Donation.grant _ _ _ _ _ _); cbn [Donation.ls_log]; [|exact H].
  apply Forall_app. split; [exact H|]. constructor; [|constructor].
  intros ? ? ? ?. discriminate.
Qed.

Lemma roles_quiet db g m newTotal oldTotal :
  Forall quiet (Rewards.assignDonorRoles db g m newTotal oldTotal).
Proof.
  unfold Rewards.assignDonorRoles.
  destruct (okeys _); [constructor|].
  destruct (Rewards.currentRole _ _) as [cur cv].
  destruct (Rewards.newRole _ _) as [[nr|] nv]; [|constructor].
  destruct (_ || _); [|constructor].
  unfold Rewards.replaceRoles, Rewards.upgradeNotice.
  apply Forall_app. split; [apply Forall_app; split|].
  - apply Forall_forall. intros e He.
    apply list_elem_of_In, in_map_iff in He as (r & <- & _).
    intros ? ? ? ?. discriminate.
  - constructor; [|constructor]. intros ? ? ? ?. discriminate.
  - destruct (Rewards.announceChannel g); [|constructor].
    constructor; [|constructor]. intros ? ? ? ?. discriminate.
Qed.

Lemma achievements_quiet ACH g m u users :
  Forall quiet (Rewards.checkAndAssignAchievements ACH g m u users).2.
Proof.
  unfold Rewards.checkAndAssignAchievements.
  destruct (Rewards.evaluate _ _ _ _ _) as [arr new]. cbn [snd].
  destruct new as [|a new]; [constructor|].
  destruct (Rewards.announceChannel g); [|constructor].
  apply Forall_forall. intros e He.
  apply list_elem_of_In, in_map_iff in He as (r & <- & _).
  intros ? ? ? ?. discriminate.
Qed.

Lemma loop_user_totals vipRoleId m senderId sel v (l : obj Draw.t) :
  forall st0,
    let st := fold_left (Donation.loop_body vipRoleId m senderId sel v) l st0 in
    User.totalDonated (Donation.ls_user st)
    = User.totalDonated (Donation.ls_user st0) /\
    User.donations (Donation.ls_user st)
    = User.donations (Donation.ls_user st0).
Proof.
  induction l as [|[k d] l IH]; intros st0; [now split|].
  cbn [fold_left]. cbv zeta in IH.
  destruct (IH (Donation.loop_body vipRoleId m senderId sel v st0 (k, d)))
    as [-> ->].
  unfold Donation.loop_body.
  now destruct (Donation.grant _ _ _ _ _ _).
Qed.

(** What a recorded donation leaves: the draws the loop leaves, and
    events of which only the last can be a confirmation, which states the
    new total of the sender. *)
Lemma recordDonation_shape (cfg : Donation.Settings) (msg : Message)
    (tip : Tip) (v : Q) (sender : Member) (calls : list Call)
    (db : Database.t) :
  let o := Donation.recordDonation cfg msg tip v sender calls db in
  exists userData others,
    let st := Donation.addEntries (Database.cfg Config.vipRoleId db) sender
                (member_id sender) v userData
                (default [] (Database.donationDraws db)) in
    default [] (Database.donationDraws (Donation.out_db o))
    = match Database.donationDraws db with
      | Some _ => Donation.ls_draws st
      | None => []
      end /\
    Forall quiet others /\
    Donation.out_events o
    = (others ++
       (if jlt (Int 0) (Donation.ls_entriesAdded st)
        then [Confirmation (member_id sender) v (Donation.ls_entriesAdded st)
                           (User.totalDonated (Donation.ls_user st))]
        else []))%list /\
    User.totalDonated (Donation.ls_user st)
    = fadd (User.totalDonated
              (default User.fresh_donor
                       (oget (member_id sender) (Database.users db)))) v.
Proof.
  intros o. subst o. unfold Donation.recordDonation. cbv zeta.
  destruct (Rewards.checkAndAssignAchievements _ _ _ _ _)
    as [user4 achEvents] eqn:Each.
  assert (Hach : Forall quiet achEvents).
  { match type of Each with
    | Rewards.checkAndAssignAchievements ?a ?b ?c ?d ?e = _ =>
        pose proof (achievements_quiet a b c d e) as H
    end.
    now rewrite Each in H. }
  assert (Htot : User.totalDonated user4
                 = fadd (User.totalDonated
                           (default User.fresh_donor
                              (oget (member_id sender) (Database.users db))))
                        v).
  { unfold Rewards.checkAndAssignAchievements in Each.
    destruct (Rewards.evaluate _ _ _ _ _) as [arr new].
    now injection Each as <- _. }
  clear Each.
  exists user4.
  eexists. cbv zeta. cbn [Donation.out_db Donation.out_events].
  split; [|split; [|split]]; cycle 2.
  - rewrite app_assoc, (app_assoc _ (Donation.ls_log _)). reflexivity.
  - unfold Donation.addEntries.
    match goal with
    | |- context [fold_left (Donation.loop_body ?a ?b ?c ?e ?f) ?l ?st0] =>
        destruct (loop_user_totals a b c e f l st0) as [-> _]
    end.
    exact Htot.
  - cbn [Database.donationDraws Database.set_users Database.cfg
         Database.config mbind option_bind].
    now destruct (Database.donationDraws db).
  - apply Forall_app. split; [apply Forall_app; split|].
    + apply roles_quiet.
    + exact Hach.
    + apply loop_log_quiet. constructor.
Qed.

End Confirmation.

(** A run of the handler either stops early or records a donation. *)
Lemma handler_cases (cfg : Donation.Settings) (net : Net) (msg : Message)
    (db : Database.t) :
  (exists calls,
     Donation.handleTipccDonation cfg net msg db = Donation.dropped db calls) \/
  exists tip v sender calls,
    Donation.handleTipccDonation cfg net msg db
    = Donation.recordDonation cfg msg tip v sender calls db.
Proof.
  unfold Donation.handleTipccDonation.
  destruct (negb (truthy_str (guildId msg))); [left; now eexists|].
  destruct (Grammar.parseTip (content msg)) as [tip|]; [|left; now eexists].
  destruct (Database.cfg Config.allowedRecipients db) as [[|a l]|];
    try (left; now eexists).
  destruct (negb (Policy.isAllowedRecipient _ _)); [left; now eexists|].
  destruct (negb (Policy.currencyAccepted _ _ _)); [left; now eexists|].
  destruct (Price.resolveUsdValue _ _ _ _) as [[v|] calls];
    [|left; now eexists].
  destruct (negb (truthy_Q (Some v))); [left; now eexists|].
  destruct (Donation.findSender _ _) as [sender|]; [|left; now eexists].
  right. now exists tip, v, sender, calls.
Qed.

(** X21. The entries a donation announces are the entries the draws
    gain: on a document whose ledgers hold integers, the total of entries
    the analytics report grows, when an announcement is handled, by one
    amount, and a confirmation is sent exactly when that amount is above
    0 and states that amount. *)
Theorem donation_entries_are_counted (cfg : Donation.Settings) (net : Net)
    (msg : Message) (db : Database.t) (total : Z) :
  Stats.totalEntries (default [] (Database.donationDraws db)) = Int total ->
  let o := Donation.handleTipccDonation cfg net msg db in
  exists added,
    Stats.totalEntries (default [] (Database.donationDraws (Donation.out_db o)))
    = jadd (Int total) added /\
    (forall member usd n t,
       In (Confirmation member usd n t) (Donation.out_events o) ->
       n = added /\ jlt (Int 0) added = true) /\
    (jlt (Int 0) added = true ->
     exists member usd t,
       In (Confirmation member usd added t) (Donation.out_events o)).
Proof.
  intros Htotal o. subst o.
  destruct (handler_cases cfg net msg db)
    as [(calls & ->)|(tip & v & m & calls & ->)].
  - exists (Int 0). cbn [Donation.dropped Donation.out_db Donation.out_events].
    rewrite Htotal. split; [simpl; apply f_equal; lia|].
    split; [intros ? ? ? ? []|discriminate].
  - destruct (recordDonation_shape cfg msg tip v m calls db)
      as (userData & others & Hdraws & Hquiet & Hev & _).
    cbv zeta in Hdraws, Hev. rewrite Hdraws, Hev.
    exists (Donation.ls_entriesAdded
              (Donation.addEntries (Database.cfg Config.vipRoleId db) m
                 (member_id m) v userData
                 (default [] (Database.donationDraws db)))).
    split; [|split].
    + rewrite addEntries_total.
      destruct (Database.donationDraws db) as [draws|].
      * rewrite addEntries_draws.
        change (default [] (Some draws)) with draws in *.
        now apply credited_total.
      * change (default [] None) with (@nil (string * Draw.t)) in *.
        simpl. rewrite Htotal. simpl. apply f_equal. lia.
    + intros member usd n t Hin. apply in_app_or in Hin as [Hin|Hin].
      * exfalso. rewrite Forall_forall in Hquiet.
        apply list_elem_of_In in Hin.
        exact (Hquiet _ Hin member usd n t eq_refl).
      * destruct (jlt (Int 0) _) eqn:E; [|destruct Hin].
        destruct Hin as [[= _ _ <- _]|[]]. now split.
    + intros Hpos. rewrite Hpos. eexists _, _, _.
      apply in_or_app. right. now left.
Qed.

Lemma donation_entries_are_counted_witness :
  let o := Donation.handleTipccDonation Sample.settings Sample.offline
             (Sample.announcement "alice sent 0.5 LTC to bob ($10.00)")
             Sample.live_db in
  exists added,
    Stats.totalEntries (default [] (Database.donationDraws (Donation.out_db o)))
    = jadd (Int 0) added /\
    (forall member usd n t,
       In (Confirmation member usd n t) (Donation.out_events o) ->
       n = added /\ jlt (Int 0) added = true) /\
    (jlt (Int 0) added = true ->
     exists member usd t,
       In (Confirmation member usd added t) (Donation.out_events o)).
Proof.
  apply (donation_entries_are_counted Sample.settings Sample.offline
           (Sample.announcement "alice sent 0.5 LTC to bob ($10.00)")
           Sample.live_db 0).
  reflexivity.
Defined.

(** ** The price lookup that asks two providers *)

Section LegacyLookup.


End LegacyLookup.


(** ** Creating draws *)

(** X23. A draw made by [create_draw] is open and empty: it is active,
    has no winner and an empty ledger, so [select_winner] finds no
    entries in it, and its upper bound is never one the donation loop
    ignores.  Every draw under another id stays as it was, and draws
    created at different instants get different ids, so both are
    there. *)
Theorem created_draw_is_open (name reward : string) (min_amount : Q)
    (max_amount : option Q) (max_entries : Z)
    (vip_only manual_entries : option bool) (now : Z) (by_ : string)
    (db : Database.t) :
  let r := Admin.handleCreateDraw name reward min_amount max_amount
             max_entries vip_only manual_entries now by_ db in
  let drawId := "draw_" ++ pretty now in
  r.2 = Admin.DrawCreated drawId /\
  Database.users r.1 = Database.users db /\
  Database.config r.1 = Database.config db /\
  (exists d,
     Database.donationDraws r.1 ≫= oget drawId = Some d /\
     Draw.active d = true /\ Draw.ledger d = [] /\ Draw.winner d = None /\
     truthy_Q (Draw.maxAmount d) = true /\
     forall random now' by',
       Admin.handleSelectWinner drawId random now' by' r.1
       = Some (r.1, false, Admin.NoEntriesFound)) /\
  (forall k, k <> drawId ->
             Database.donationDraws r.1 ≫= oget k
             = Database.donationDraws db ≫= oget k) /\
  (forall name' reward' min' max' entries' vip' manual' now' by',
     now' <> now ->
     let r' := Admin.handleCreateDraw name' reward' min' max' entries' vip'
                 manual' now' by' r.1 in
     Database.donationDraws r'.1 ≫= oget drawId
     = Database.donationDraws r.1 ≫= oget drawId /\
     is_Some (Database.donationDraws r'.1 ≫= oget ("draw_" ++ pretty now'))).
Proof.
  intros r drawId. subst r. unfold Admin.handleCreateDraw. fold drawId.
  cbn [fst snd].
  set (d := Draw.mk _ _ _ _ _ _ _ _ _ _ _ _ _ _ _).
  set (db1 := Database.set_donationDraws _ db).
  assert (Hget : Database.donationDraws db1 ≫= oget drawId = Some d).
  { subst db1. simpl. apply oget_oset_eq. }
  assert (Hother : forall k, k <> drawId ->
            Database.donationDraws db1 ≫= oget k
            = Database.donationDraws db ≫= oget k).
  { intros k Hk. subst db1. simpl. rewrite oget_oset_ne by congruence.
    now destruct (Database.donationDraws db). }
  split; [reflexivity|]. split; [reflexivity|]. split; [reflexivity|].
  split; [|split].
  - exists d. split; [exact Hget|]. split; [reflexivity|].
    split; [reflexivity|]. split; [reflexivity|]. split.
    + subst d. cbn [Draw.maxAmount].
      destruct max_amount as [q|]; [|reflexivity]. simpl.
      destruct (Qzero q) eqn:E; simpl; [reflexivity | now rewrite E].
    + intros random now' by'. unfold Admin.handleSelectWinner.
      now rewrite Hget.
  - exact Hother.
  - intros name' reward' min' max' entries' vip' manual' now' by' Hnow.
    cbn [fst Database.set_donationDraws Database.donationDraws mbind
         option_bind].
    split; [|rewrite oget_oset_eq; now eexists].
    rewrite oget_oset_ne.
    + subst db1. simpl. reflexivity.
    + intros Heq. apply Hnow. apply (inj pretty).
      unfold drawId in Heq. now apply (String.app_inj "draw_") in Heq.
Qed.

(** ** The blacklist *)

Section BlacklistList.
Variable uid : string.

Let listed (e : BlacklistEntry) : bool := String.eqb (bl_id e) uid.

Lemma listed_In (l : list BlacklistEntry) :
  existsb listed l = true <-> In uid (map bl_id l).
Proof.
  rewrite existsb_exists, in_map_iff. unfold listed.
  split; intros (e & H1 & H2).
  - exists e. apply String.eqb_eq in H2. now split.
  - exists e. split; [exact H2 | now apply String.eqb_eq].
Qed.

Lemma splice_listed_gone (l : list BlacklistEntry) :
  NoDup (map bl_id l) ->
  ~ In uid (map bl_id (Configure.splice_first listed l)).
Proof.
  induction l as [|e l IH]; cbn [Configure.splice_first map]; [tauto|].
  intros Hnd. apply NoDup_cons in Hnd as [He Hnd]. unfold listed at 1.
  destruct (String.eqb (bl_id e) uid) eqn:E.
  - apply String.eqb_eq in E. rewrite <- E. now rewrite <- list_elem_of_In.
  - apply String.eqb_neq in E. cbn [map]. intros [H|H]; [congruence|].
    now apply IH.
Qed.

Lemma splice_listed_other (other : string) (l : list BlacklistEntry) :
  other <> uid ->
  In other (map bl_id (Configure.splice_first listed l))
  <-> In other (map bl_id l).
Proof.
  intros Hne. induction l as [|e l IH]; cbn [Configure.splice_first map];
    [tauto|].
  unfold listed at 1. destruct (String.eqb (bl_id e) uid) eqn:E.
  - apply String.eqb_eq in E. simpl. split; [tauto|].
    intros [H|H]; [congruence | exact H].
  - simpl. tauto.
Qed.

Lemma splice_listed_NoDup (l : list BlacklistEntry) :
  NoDup (map bl_id l) ->
  NoDup (map bl_id (Configure.splice_first listed l)).
Proof.
  induction l as [|e l IH]; cbn [Configure.splice_first map]; [tauto|].
  intros Hnd. apply NoDup_cons in Hnd as [He Hnd]. unfold listed at 1.
  destruct (String.eqb (bl_id e) uid) eqn:E; [exact Hnd|].
  cbn [map]. apply NoDup_cons. split; [|now apply IH].
  rewrite list_elem_of_In in *. intros H. apply He.
  destruct (String.eqb (bl_id e) uid) eqn:E'; [discriminate|].
  apply String.eqb_neq in E'.
  now apply (splice_listed_other (bl_id e) l E').
Qed.

(** The blacklist after each of the two actions on a user. *)
Lemma blacklist_after_add (uname : string) (reason : option string)
    (by_ : string) (now : Z) (db : Database.t) :
  exists l e,
    Notions.blacklisted db = map bl_id l /\ bl_id e = uid /\
    Database.cfg Config.globalBlacklist
      (Admin.handleBlacklist Admin.add_user (Some (uid, uname)) reason by_
                             now db).1
    = Some {| bl_users := if existsb listed l then l else (l ++ [e])%list;
              bl_roles := bl_roles (default {| bl_users := []; bl_roles := [] |}
                                            (Database.cfg Config.globalBlacklist db)) |} /\
    (Admin.handleBlacklist Admin.add_user (Some (uid, uname)) reason by_
                           now db).2
    = negb (existsb listed l).
Proof.
  unfold Admin.handleBlacklist, Notions.blacklisted.
  assert (Hb : default {| bl_users := []; bl_roles := [] |}
                 (Config.globalBlacklist (default Config.empty (Database.config db)))
               = default {| bl_users := []; bl_roles := [] |}
                   (Database.cfg Config.globalBlacklist db))
    by now destruct db as [[c|] us ds].
  rewrite Hb.
  set (bl := default _ (Database.cfg Config.globalBlacklist db)).
  exists (bl_users bl). eexists. split; [reflexivity|].
  fold listed. destruct (existsb listed (bl_users bl)) eqn:E.
  - split; [shelve|]. cbn [fst snd negb]. split; [|reflexivity].
    unfold Database.cfg. cbn. now destruct bl.
  - split; [shelve|]. cbn [fst snd negb]. split; [|reflexivity].
    unfold Database.cfg. cbn. reflexivity.
  Unshelve. all: reflexivity.
Qed.

Lemma blacklist_after_remove (uname : string) (reason : option string)
    (by_ : string) (now : Z) (db : Database.t) :
  Notions.blacklisted
    (Admin.handleBlacklist Admin.remove_user (Some (uid, uname)) reason by_
                           now db).1
  = let l := bl_users (default {| bl_users := []; bl_roles := [] |}
                               (Database.cfg Config.globalBlacklist db)) in
    map bl_id (if existsb listed l then Configure.splice_first listed l else l).
Proof.
  unfold Admin.handleBlacklist, Notions.blacklisted.
  assert (Hb : default {| bl_users := []; bl_roles := [] |}
                 (Config.globalBlacklist (default Config.empty (Database.config db)))
               = default {| bl_users := []; bl_roles := [] |}
                   (Database.cfg Config.globalBlacklist db))
    by now destruct db as [[c|] us ds].
  rewrite Hb. cbv zeta.
  set (bl := default _ (Database.cfg Config.globalBlacklist db)).
  fold listed.
  assert (Hdrop : forall l : list BlacklistEntry,
            (fix drop (l : list BlacklistEntry) :=
               match l with
               | [] => []
               | e :: r => if String.eqb (bl_id e) uid then r else e :: drop r
               end) l
            = Configure.splice_first listed l).
  { induction l as [|e l IH]; [reflexivity|].
    cbn [Configure.splice_first]. unfold listed at 1.
    destruct (String.eqb (bl_id e) uid); [reflexivity | now rewrite IH]. }
  destruct (existsb listed (bl_users bl)); unfold Database.cfg; cbn;
    [now rewrite Hdrop | reflexivity].
Qed.

End BlacklistList.

(** X24. The blacklist holds a user at most once: [add_user] puts the
    user on the list, keeps a list without repeated ids free of them, and
    saves only when the user was not listed; [remove_user] after it takes
    the user off such a list, and gives back the list of ids there was
    when the user was not on it; users other than the one named stay on
    or off the list through both. *)
Theorem blacklist_add_then_remove (uid uname : string)
    (reason reason' : option string) (by_ by' : string) (now now' : Z)
    (db : Database.t) :
  let add :=
    Admin.handleBlacklist Admin.add_user (Some (uid, uname)) reason by_ now db in
  let remove :=
    Admin.handleBlacklist Admin.remove_user (Some (uid, uname)) reason' by'
                          now' add.1 in
  In uid (Notions.blacklisted add.1) /\
  (add.2 = true <-> ~ In uid (Notions.blacklisted db)) /\
  (NoDup (Notions.blacklisted db) ->
   NoDup (Notions.blacklisted add.1) /\
   NoDup (Notions.blacklisted remove.1) /\
   ~ In uid (Notions.blacklisted remove.1)) /\
  (~ In uid (Notions.blacklisted db) ->
   Notions.blacklisted remove.1 = Notions.blacklisted db) /\
  (forall other, other <> uid ->
     (In other (Notions.blacklisted add.1) <-> In other (Notions.blacklisted db)) /\
     (In other (Notions.blacklisted remove.1)
      <-> In other (Notions.blacklisted db))).
Proof.
  intros add remove. subst remove add.
  rewrite blacklist_after_remove. cbv zeta.
  destruct (blacklist_after_add uid uname reason by_ now db)
    as (l & e & Hl & He & Hcfg & Hsaved).
  assert (Hadded : Notions.blacklisted
                     (Admin.handleBlacklist Admin.add_user (Some (uid, uname))
                                            reason by_ now db).1
                   = map bl_id (if existsb (fun e0 => String.eqb (bl_id e0) uid) l
                                then l else (l ++ [e])%list)).
  { unfold Notions.blacklisted. now rewrite Hcfg. }
  rewrite Hcfg, Hadded, Hsaved, Hl. cbn [default bl_users]. unfold id.
  pose proof (listed_In uid l) as Hin.
  assert (Hlast : String.eqb (bl_id e) uid = true) by now apply String.eqb_eq.
  destruct (existsb (fun e0 => String.eqb (bl_id e0) uid) l) eqn:E;
    cbn [bl_users].
  - rewrite E. assert (Huid : In uid (map bl_id l)) by now apply Hin.
    split; [exact Huid|]. split; [split; [discriminate | tauto]|].
    split; [|split].
    + intros Hnd. split; [exact Hnd|].
      split; [now apply splice_listed_NoDup | now apply splice_listed_gone].
    + tauto.
    + intros other Hne. split; [reflexivity|].
      now apply splice_listed_other.
  - assert (Hnot : ~ In uid (map bl_id l)).
    { intros H. apply Hin in H. congruence. }
    rewrite existsb_app_last by exact Hlast.
    rewrite splice_first_app by assumption.
    rewrite map_app. cbn [map]. rewrite He.
    split; [apply in_or_app; right; now left|].
    split; [split; [intros _; exact Hnot | reflexivity]|].
    split; [|split].
    + intros Hnd. split; [|split; [exact Hnd | exact Hnot]].
      apply NoDup_app. split; [exact Hnd|].
      split; [|apply NoDup_singleton].
      intros x Hx Hx'. apply list_elem_of_singleton in Hx'. subst x.
      now apply list_elem_of_In in Hx.
    + reflexivity.
    + intros other Hne. split; [|reflexivity].
      rewrite in_app_iff. simpl. split; [|tauto].
      intros [H|[H|[]]]; [exact H | congruence].
Qed.

(** ** The two copies of the entry counts *)

Section InStep.

Import Notions.

Lemma ledger_add_same (k : string) (n : jsint) (l : obj jsint) :
  oget k (Donation.ledger_add k n l) = Some (jadd (held (oget k l)) n).
Proof.
  unfold Donation.ledger_add, held. rewrite oget_oset_eq. f_equal. f_equal.
  destruct (truthy_oint (oget k l)); [reflexivity|].
  now rewrite oget_oset_eq.
Qed.

Lemma ledger_add_other (k k' : string) (n : jsint) (l : obj jsint) :
  k <> k' -> oget k' (Donation.ledger_add k n l) = oget k' l.
Proof.
  intros Hne. unfold Donation.ledger_add.
  rewrite oget_oset_ne by exact Hne.
  destruct (truthy_oint (oget k l)); [reflexivity|].
  now apply oget_oset_ne.
Qed.

Lemma entries_add_same (k : string) (n : jsint) (e : gmap string jsint) :
  Donation.entries_add k n e !! k = Some (jadd (held (e !! k)) n).
Proof.
  unfold Donation.entries_add, held. rewrite lookup_insert_eq. f_equal. f_equal.
  destruct (truthy_oint (e !! k)); [reflexivity|].
  now rewrite lookup_insert_eq.
Qed.

Lemma entries_add_other (k k' : string) (n : jsint) (e : gmap string jsint) :
  k <> k' -> Donation.entries_add k n e !! k' = e !! k'.
Proof.
  intros Hne. unfold Donation.entries_add.
  rewrite lookup_insert_ne by exact Hne.
  destruct (truthy_oint (e !! k)); [reflexivity|].
  now apply lookup_insert_ne.
Qed.

Lemma entries_of_oset_same (k : string) (u : User.t) (users : obj User.t) :
  entries_of (oset k u users) k = default ∅ (User.entries u).
Proof. unfold entries_of. now rewrite oget_oset_eq. Qed.

Lemma entries_of_oset_other (k k' : string) (u : User.t) (users : obj User.t) :
  k <> k' -> entries_of (oset k u users) k' = entries_of users k'.
Proof. intros Hne. unfold entries_of. now rewrite oget_oset_ne. Qed.

(** The sender's record after the loop: under each draw id, what it held
    and what the draw was granted. *)
Lemma loop_user_entries vipRoleId m senderId sel v (l : obj Draw.t) :
  forall st0,
    NoDup (okeys l) ->
    forall k,
      default ∅ (User.entries
                   (Donation.ls_user
                      (fold_left (Donation.loop_body vipRoleId m senderId sel v)
                                 l st0))) !! k
      = match oget k l ≫= Donation.grant vipRoleId m sel v k with
        | Some n =>
            Some (jadd (held (default ∅ (User.entries (Donation.ls_user st0))
                              !! k)) n)
        | None => default ∅ (User.entries (Donation.ls_user st0)) !! k
        end.
Proof.
  induction l as [|[k0 d0] l IH]; intros st0 Hnd k; [reflexivity|].
  unfold okeys in Hnd. cbn [map fst] in Hnd.
  apply NoDup_cons in Hnd as [Hfresh Hnd].
  cbn [fold_left]. rewrite (IH _ Hnd k). cbn [oget].
  assert (Hrest : String.eqb k k0 = true -> oget k l = None).
  { intros E. apply String.eqb_eq in E. subst k0.
    destruct (oget k l) as [x|] eqn:Hx; [|reflexivity].
    exfalso. apply Hfresh. apply list_elem_of_In.
    apply oget_In in Hx. change k with (fst (k, x)). now apply in_map. }
  set (E0 := default ∅ (User.entries (Donation.ls_user st0))).
  assert (H1 : default ∅ (User.entries
                 (Donation.ls_user
                    (Donation.loop_body vipRoleId m senderId sel v st0 (k0, d0))))
               = match Donation.grant vipRoleId m sel v k0 d0 with
                 | Some n => Donation.entries_add k0 n E0
                 | None => E0
                 end).
  { unfold Donation.loop_body.
    now destruct (Donation.grant vipRoleId m sel v k0 d0). }
  rewrite H1. clear H1.
  destruct (String.eqb k k0) eqn:E.
  - rewrite (Hrest eq_refl). apply String.eqb_eq in E. subst k0.
    cbn [mbind option_bind].
    destruct (Donation.grant vipRoleId m sel v k d0) as [n|]; [|reflexivity].
    apply entries_add_same.
  - apply String.eqb_neq in E.
    destruct (Donation.grant vipRoleId m sel v k0 d0) as [n|]; [|reflexivity].
    now rewrite entries_add_other by congruence.
Qed.

End InStep.

Section InStepHandlers.

Import Notions.

Lemma recordDonation_state (cfg : Donation.Settings) (msg : Message)
    (tip : Tip) (v : Q) (sender : Member) (calls : list Call)
    (db : Database.t) :
  let o := Donation.recordDonation cfg msg tip v sender calls db in
  exists user3 user4,
    let st := Donation.addEntries (Database.cfg Config.vipRoleId db) sender
                (member_id sender) v user4
                (default [] (Database.donationDraws db)) in
    default ∅ (User.entries user4)
    = entries_of (Database.users db) (member_id sender) /\
    Database.users (Donation.out_db o)
    = oset (member_id sender) (Donation.ls_user st)
           (oset (member_id sender) user3 (Database.users db)) /\
    Database.donationDraws (Donation.out_db o)
    = (fun _ => Donation.ls_draws st) <$> Database.donationDraws db.
Proof.
  intros o. subst o. unfold Donation.recordDonation. cbv zeta.
  destruct (Rewards.checkAndAssignAchievements _ _ _ _ _)
    as [user4 achEvents] eqn:Each.
  eexists _, user4. cbv zeta.
  cbn [Donation.out_db Database.users Database.donationDraws
       Database.set_users Database.cfg Database.config].
  split; [|split; [reflexivity|]].
  - unfold Rewards.checkAndAssignAchievements in Each.
    destruct (Rewards.evaluate _ _ _ _ _) as [arr new].
    injection Each as <- _. unfold entries_of.
    now destruct (oget (member_id sender) (Database.users db)).
  - now destruct (Database.donationDraws db).
Qed.

Lemma in_step_donation (cfg : Donation.Settings) (net : Net) (msg : Message)
    (db : Database.t) :
  NoDup (okeys (default [] (Database.donationDraws db))) ->
  in_step db ->
  in_step (Donation.out_db (Donation.handleTipccDonation cfg net msg db)).
Proof.
  intros Hnd Hstep.
  destruct (handler_cases cfg net msg db)
    as [(calls & ->)|(tip & v & m & calls & ->)]; [exact Hstep|].
  destruct (recordDonation_state cfg msg tip v m calls db)
    as (user3 & user4 & HE & Hus & Hds).
  cbv zeta in HE, Hus, Hds.
  intros drawId d' userId Hd'. rewrite Hus. rewrite Hds in Hd'.
  destruct (Database.donationDraws db) as [draws|] eqn:Hdraws;
    [|discriminate].
  change (default [] (Some draws)) with draws in *.
  cbn [fmap option_fmap option_map mbind option_bind] in Hd'.
  rewrite addEntries_draws in Hd'.
  rewrite (oget_map_values
             (fun k x => Spec.credit (member_id m)
                           (Donation.grant (Database.cfg Config.vipRoleId db) m
                                           (User.selectedDraw user4) v k x) x))
    in Hd'.
  destruct (oget drawId draws) as [d|] eqn:Hd; [|discriminate].
  injection Hd' as <-.
  assert (Hold : forall u, held (oget u (Draw.ledger d))
                           = held (entries_of (Database.users db) u !! drawId)).
  { intros u. apply Hstep. rewrite Hdraws. exact Hd. }
  destruct (String.eqb (member_id m) userId) eqn:Eu.
  - apply String.eqb_eq in Eu. subst userId.
    rewrite entries_of_oset_same. unfold Donation.addEntries.
    rewrite (loop_user_entries _ _ _ _ _ draws _ Hnd drawId), Hd.
    cbn [mbind option_bind Donation.ls_user]. rewrite HE.
    destruct (Donation.grant _ _ _ _ _ _) as [n|]; cbn [Spec.credit].
    + change (Draw.ledger (Draw.set_entries (Some ?l) d)) with l.
      now rewrite ledger_add_same, Hold.
    + apply Hold.
  - apply String.eqb_neq in Eu.
    rewrite !entries_of_oset_other by exact Eu. rewrite <- Hold.
    destruct (Donation.grant _ _ _ _ _ _) as [n|]; cbn [Spec.credit];
      [|reflexivity].
    change (Draw.ledger (Draw.set_entries (Some ?l) d)) with l.
    now rewrite ledger_add_other.
Qed.

(** The loop of [assign_entries] keeps the ledger of the draw and the
    records in step, and leaves the counts for other draws alone. *)
Lemma assign_fold_in_step (drawId : string) (entries : Z)
    (users0 : obj User.t) (targets : list string) :
  forall ledger users,
    (forall u, held (oget u ledger) = held (entries_of users u !! drawId)) ->
    (forall u k, k <> drawId ->
                 entries_of users u !! k = entries_of users0 u !! k) ->
    let r := fold_left (Admin.assign_one drawId entries) targets
                       (ledger, users) in
    (forall u, held (oget u r.1) = held (entries_of r.2 u !! drawId)) /\
    (forall u k, k <> drawId ->
                 entries_of r.2 u !! k = entries_of users0 u !! k).
Proof.
  induction targets as [|t ts IH]; intros ledger users H1 H2; [now split|].
  cbn [fold_left]. unfold Admin.assign_one at 2.
  apply IH.
  - intros u. destruct (String.eqb t u) eqn:E.
    + apply String.eqb_eq in E. subst u.
      rewrite ledger_add_same, entries_of_oset_same.
      cbn [User.entries User.set_entries default]. unfold id.
      rewrite entries_add_same. rewrite H1. unfold entries_of.
      now destruct (oget t users).
    + apply String.eqb_neq in E.
      rewrite ledger_add_other, entries_of_oset_other by exact E. apply H1.
  - intros u k Hk. destruct (String.eqb t u) eqn:E.
    + apply String.eqb_eq in E. subst u. rewrite entries_of_oset_same.
      cbn [User.entries User.set_entries default]. unfold id.
      rewrite entries_add_other by congruence. rewrite <- H2 by exact Hk.
      unfold entries_of. now destruct (oget t users).
    + apply String.eqb_neq in E. rewrite entries_of_oset_other by exact E.
      now apply H2.
Qed.

Lemma in_step_assign (user role : option string) (drawId : string)
    (entries : Z) (members : option (list Member)) (db : Database.t) :
  in_step db ->
  in_step (Admin.handleAssignEntries user role drawId entries members db).1.1.
Proof.
  intros Hstep. unfold Admin.handleAssignEntries.
  destruct (Database.donationDraws db ≫= oget drawId) as [draw|] eqn:Hd;
    [|exact Hstep].
  destruct (negb (Draw.active draw)); [exact Hstep|].
  destruct (entries <=? 0)%Z; [exact Hstep|].
  destruct (match user, role with
            | Some u, _ => _ | None, Some r => _ | None, None => _ end)
    as [[[|t ts]|]|]; try exact Hstep.
  destruct (jlt _ _); [exact Hstep|].
  destruct (assign_fold_in_step drawId entries (Database.users db) (t :: ts)
              (Draw.ledger draw) (Database.users db)) as [H1 H2].
  { intros u. apply Hstep. exact Hd. }
  { reflexivity. }
  destruct (fold_left _ (t :: ts) _) as [ledger users]. cbn [fst snd] in *.
  intros k d' u Hd'.
  cbn [Database.donationDraws Database.users mbind option_bind] in *.
  destruct (String.eqb drawId k) eqn:E.
  - apply String.eqb_eq in E. subst k. rewrite oget_oset_eq in Hd'.
    injection Hd' as <-. apply H1.
  - apply String.eqb_neq in E. rewrite oget_oset_ne in Hd' by exact E.
    rewrite H2 by congruence. apply Hstep.
    now destruct (Database.donationDraws db).
Qed.

Lemma in_step_winner (drawId : string) (random : Q) (now : Z) (by_ : string)
    (db : Database.t) (r : Database.t * bool * Admin.Reply) :
  in_step db ->
  Admin.handleSelectWinner drawId random now by_ db = Some r ->
  in_step r.1.1.
Proof.
  intros Hstep. unfold Admin.handleSelectWinner.
  destruct (Database.donationDraws db ≫= oget drawId) as [draw|] eqn:Hd;
    [|now intros [= <-]].
  destruct (negb (Draw.active draw)); [now intros [= <-]|].
  destruct (bool_decide _); [now intros [= <-]|].
  destruct (Admin.weightedEntries _) as [w|]; [|discriminate].
  intros [= <-]. cbn [fst].
  set (key := default "undefined" (Admin.pick random w)).
  intros k d' u Hd'.
  cbn [Database.donationDraws Database.users mbind option_bind] in *.
  assert (Hu : entries_of
                 (oset key
                    (User.set_wins
                       (User.wins (default User.fresh_admin
                                     (oget key (Database.users db))) + 1)
                       (default User.fresh_admin
                          (oget key (Database.users db))))
                    (Database.users db)) u
               = entries_of (Database.users db) u).
  { destruct (String.eqb key u) eqn:E.
    - apply String.eqb_eq in E. subst u. rewrite entries_of_oset_same.
      unfold entries_of. now destruct (oget key (Database.users db)).
    - apply String.eqb_neq in E. now apply entries_of_oset_other. }
  rewrite Hu.
  destruct (String.eqb drawId k) eqn:E.
  - apply String.eqb_eq in E. subst k. rewrite oget_oset_eq in Hd'.
    injection Hd' as <-.
    change (Draw.ledger (Draw.close ?a ?b ?c draw)) with (Draw.ledger draw).
    apply Hstep. exact Hd.
  - apply String.eqb_neq in E. rewrite oget_oset_ne in Hd' by exact E.
    apply Hstep. now destruct (Database.donationDraws db).
Qed.

Lemma in_step_edit (drawId : string) (newName newReward : option string)
    (newMinAmount newMaxAmount : option Q) (newMaxEntries : option Z)
    (newActive newManualEntries newVipOnly : option bool)
    (now : Z) (by_ : string) (db : Database.t) :
  in_step db ->
  in_step
    (Configure.res_db
       (Configure.handleEditDraw drawId newName newReward newMinAmount
          newMaxAmount newMaxEntries newActive newManualEntries newVipOnly
          now by_ db).1).
Proof.
  intros Hstep.
  destruct (Database.donationDraws db ≫= oget drawId) as [draw|] eqn:Hd;
    [|now rewrite (edit_unknown _ _ _ _ _ _ _ _ _ _ _ _ Hd)].
  unfold Configure.handleEditDraw. rewrite Hd.
  cbn [fst Configure.res_db]. intros k d' u Hd'.
  cbn [Database.set_donationDraws Database.donationDraws Database.users
       mbind option_bind] in *.
  destruct (String.eqb drawId k) eqn:E.
  - apply String.eqb_eq in E. subst k. rewrite oget_oset_eq in Hd'.
    injection Hd' as <-. unfold Draw.ledger. cbn [Draw.entries].
    apply Hstep. exact Hd.
  - apply String.eqb_neq in E. rewrite oget_oset_ne in Hd' by exact E.
    apply Hstep. now destruct (Database.donationDraws db).
Qed.

End InStepHandlers.

(** X25. The two copies of the entry counts stay in step.  On a document
    in which every draw's ledger and every user's record give the same
    count for each pair of a draw and a user (a value that is missing, 0
    or not a number counting as 0), the same holds after a donation
    announcement is handled, after [assign_entries], after
    [select_winner] and after [edit_draw]. *)
Theorem entry_counts_stay_in_step (db : Database.t) :
  NoDup (okeys (default [] (Database.donationDraws db))) ->
  Notions.in_step db ->
  (forall cfg net msg,
     Notions.in_step
       (Donation.out_db (Donation.handleTipccDonation cfg net msg db))) /\
  (forall user role drawId entries members,
     Notions.in_step
       (Admin.handleAssignEntries user role drawId entries members db).1.1) /\
  (forall drawId random now by_ r,
     Admin.handleSelectWinner drawId random now by_ db = Some r ->
     Notions.in_step r.1.1) /\
  (forall drawId newName newReward newMinAmount newMaxAmount newMaxEntries
          newActive newManualEntries newVipOnly now by_,
     Notions.in_step
       (Configure.res_db
          (Configure.handleEditDraw drawId newName newReward newMinAmount
             newMaxAmount newMaxEntries newActive newManualEntries newVipOnly
             now by_ db).1)).
Proof.
  intros Hnd Hstep. split; [|split; [|split]].
  - intros cfg net msg. now apply in_step_donation.
  - intros. now apply in_step_assign.
  - intros drawId random now by_ r. now apply in_step_winner.
  - intros. now apply in_step_edit.
Qed.

Lemma synced_db_in_step : Notions.in_step Notions.synced_db.
Proof.
  intros drawId d userId. unfold Notions.synced_db.
  cbn [Database.donationDraws Database.users mbind option_bind oget].
  destruct (String.eqb drawId "draw_5") eqn:E; [|discriminate].
  apply String.eqb_eq in E. subst drawId. intros [= <-].
  unfold Notions.entries_of. cbn [oget].
  destruct (String.eqb userId "111111111111111111") eqn:E1;
    [apply String.eqb_eq in E1; subst userId; reflexivity|].
  destruct (String.eqb userId "222222222222222222") eqn:E2;
    [apply String.eqb_eq in E2; subst userId; reflexivity|].
  unfold Draw.ledger, Sample.running_draw.
  cbn [Draw.entries default oget]. unfold id. cbn [oget].
  rewrite E1, E2. reflexivity.
Qed.

Lemma entry_counts_stay_in_step_witness :
  Notions.in_step Notions.synced_db /\
  (forall user role drawId entries members,
     Notions.in_step
       (Admin.handleAssignEntries user role drawId entries members
                                  Notions.synced_db).1.1) /\
  (forall cfg net msg,
     Notions.in_step
       (Donation.out_db
          (Donation.handleTipccDonation cfg net msg Notions.synced_db))).
Proof.
  split; [exact synced_db_in_step|].
  destruct (entry_counts_stay_in_step Notions.synced_db) as (H1 & H2 & _).
  - change (NoDup ["draw_5"]). apply NoDup_singleton.
  - exact synced_db_in_step.
  - split; [exact H2|exact H1].
Defined.

Section Totals.

Local Open Scope Q_scope.

Lemma fadd_double (a b : Q) : double (fadd a b) = fadd a b.
Proof. apply double_idem. Qed.

Lemma fadd_mono (a a' b b' : Q) :
  double a <= double a' -> double b <= double b' -> fadd a b <= fadd a' b'.
Proof. intros Ha Hb. unfold fadd. apply double_mono. lra. Qed.

Lemma double_nonneg (b : Q) : 0 <= b -> 0 <= double b.
Proof. intros Hb. rewrite <- double_0. now apply double_mono. Qed.

(** Adding a value that is not negative never lowers a sum. *)
Lemma fadd_ge (a b : Q) : 0 <= double b -> double a <= fadd a b.
Proof.
  intros Hb. rewrite <- (double_idem a) at 1. unfold fadd.
  apply double_mono. lra.
Qed.

(** The reducer of the reports on a list of records. *)
Lemma total_double (l : list User.t) :
  forall a, double a = a ->
    double (fold_left (fun sum user => fadd sum (User.totalDonated user)) l a)
    = fold_left (fun sum user => fadd sum (User.totalDonated user)) l a.
Proof.
  induction l as [|u l IH]; intros a Ha; [exact Ha|].
  cbn [fold_left]. apply IH, fadd_double.
Qed.

Lemma total_mono (l : list User.t) :
  forall a a', double a <= double a' ->
    double (fold_left (fun sum user => fadd sum (User.totalDonated user)) l a)
    <= double (fold_left (fun sum user => fadd sum (User.totalDonated user))
                         l a').
Proof.
  induction l as [|u l IH]; intros a a' H; [exact H|].
  cbn [fold_left]. apply IH, double_mono, fadd_mono; [exact H|apply Qle_refl].
Qed.

Lemma oset_oset {V} (k : string) (v w : V) (o : obj V) :
  oset k v (oset k w o) = oset k v o.
Proof.
  induction o as [|[k' x] o IH]; cbn [oset].
  - now rewrite String.eqb_refl.
  - destruct (String.eqb k k') eqn:E; cbn [oset]; rewrite E; [reflexivity|].
    now rewrite IH.
Qed.

(** Raising the total of one user never lowers the total of all. *)
Lemma totalDonations_raise (k : string) (u' : User.t) (users : obj User.t) :
  double (User.totalDonated (default User.fresh_donor (oget k users)))
  <= double (User.totalDonated u') ->
  Stats.totalDonations users <= Stats.totalDonations (oset k u' users).
Proof.
  intros H. unfold Stats.totalDonations.
  rewrite <- (total_double (ovalues users) 0 double_0).
  rewrite <- (total_double (ovalues (oset k u' users)) 0 double_0).
  destruct (oget k users) as [u|] eqn:Hu.
  - destruct (oset_split k u u' users Hu) as (pre & post & -> & ->).
    rewrite !fold_left_app. cbn [fold_left].
    apply total_mono, double_mono, fadd_mono; [apply Qle_refl|exact H].
  - rewrite (oset_fresh _ _ _ Hu). unfold ovalues.
    rewrite map_app, fold_left_app. cbn [map snd fold_left].
    rewrite fadd_double.
    apply fadd_ge.
    change (default User.fresh_donor None) with User.fresh_donor in H.
    change (User.totalDonated User.fresh_donor) with 0 in H.
    now rewrite double_0 in H.
Qed.

(** What a recorded donation does to the record of the sender. *)
Lemma recordDonation_user (cfg : Donation.Settings) (msg : Message)
    (tip : Tip) (v : Q) (sender : Member) (calls : list Call)
    (db : Database.t) :
  let o := Donation.recordDonation cfg msg tip v sender calls db in
  let user0 :=
    default User.fresh_donor (oget (member_id sender) (Database.users db)) in
  exists user5 d,
    Database.users (Donation.out_db o)
    = oset (member_id sender) user5 (Database.users db) /\
    User.totalDonated user5 = fadd (User.totalDonated user0) v /\
    User.donations user5
    = Some (default [] (User.donations user0) ++ [d])%list /\
    don_amount d = v.
Proof.
  intros o user0. subst o. unfold Donation.recordDonation. cbv zeta.
  destruct (Rewards.checkAndAssignAchievements _ _ _ _ _)
    as [user4 achEvents] eqn:Each.
  eexists _, _.
  cbn [Donation.out_db Database.users Database.set_users].
  split; [apply oset_oset|].
  unfold Donation.addEntries.
  match goal with
  | |- context [fold_left (Donation.loop_body ?a ?b ?c ?e ?f) ?l ?st0] =>
      destruct (loop_user_totals a b c e f l st0) as [-> ->]
  end.
  cbn [Donation.ls_user].
  unfold Rewards.checkAndAssignAchievements in Each.
  destruct (Rewards.evaluate _ _ _ _ _) as [arr new].
  injection Each as <- _.
  split; [reflexivity|]. split; [reflexivity|reflexivity].
Qed.

Lemma allDonations_oset_count (k : string) (u : User.t)
    (users : obj User.t) :
  (length (Stats.allDonations (oset k u users))
   + length (default [] (User.donations
                           (default User.fresh_donor (oget k users))))
   = length (Stats.allDonations users)
     + length (default [] (User.donations u)))%nat.
Proof.
  unfold Stats.allDonations, ovalues.
  induction users as [|[k' x] users IH].
  - cbn. rewrite length_app. cbn. lia.
  - cbn [oset oget]. rewrite (String.eqb_sym k k').
    destruct (String.eqb k' k) eqn:E.
    + cbn [map snd flat_map]. rewrite !length_app.
      change (default User.fresh_donor (Some x)) with x. lia.
    + cbn [map snd flat_map]. rewrite !length_app. lia.
Qed.

End Totals.

(** X26. A recorded donation shows in the reports.  Handling an
    announcement either saves nothing and leaves the document as it was,
    or it saves a record of the sender in which the total is the sum, as
    doubles add, of the total before and one dollar value, and the list
    of donations has one more entry, of that value; the record of every
    other user stays.  So the donations report counts one donation more,
    the total of donations the dashboard and the overview add up is not
    lower than before when the value is not negative, and every
    confirmation names the sender, the value and the new total. *)
Theorem donation_shows_in_reports (cfg : Donation.Settings) (net : Net)
    (msg : Message) (db : Database.t) :
  let o := Donation.handleTipccDonation cfg net msg db in
  (Donation.out_saved o = false /\ Donation.out_db o = db) \/
  exists (v : Q) (sender : string) (d : Donation) (after : User.t),
    let before :=
      default User.fresh_donor (oget sender (Database.users db)) in
    Donation.out_saved o = true /\
    oget sender (Database.users (Donation.out_db o)) = Some after /\
    User.totalDonated after = fadd (User.totalDonated before) v /\
    User.donations after
    = Some (default [] (User.donations before) ++ [d])%list /\
    don_amount d = v /\
    (forall other, other <> sender ->
       oget other (Database.users (Donation.out_db o))
       = oget other (Database.users db)) /\
    (exists n t a t' a',
       Stats.handleAnalytics (Some "donations") db = Stats.Donations n t a /\
       Stats.handleAnalytics (Some "donations") (Donation.out_db o)
       = Stats.Donations (n + 1) t' a') /\
    ((0 <= v)%Q ->
     (Stats.totalDonations (Database.users db)
      <= Stats.totalDonations (Database.users (Donation.out_db o)))%Q) /\
    (forall member usd n t,
       In (Confirmation member usd n t) (Donation.out_events o) ->
       member = sender /\ usd = v /\ t = User.totalDonated after).
Proof.
  intros o. subst o.
  destruct (handler_cases cfg net msg db)
    as [(calls & ->)|(tip & v & m & calls & ->)]; [left; now split|].
  right.
  destruct (recordDonation_user cfg msg tip v m calls db)
    as (user5 & d & Hus & Ht & Hd & Hv).
  cbv zeta in Hus, Ht, Hd.
  exists v, (member_id m), d, user5. cbv zeta. rewrite Hus.
  split.
  { unfold Donation.recordDonation. cbv zeta.
    now destruct (Rewards.checkAndAssignAchievements _ _ _ _ _). }
  split; [apply oget_oset_eq|]. split; [exact Ht|]. split; [exact Hd|].
  split; [exact Hv|]. split.
  { intros other Ho. apply oget_oset_ne. congruence. }
  split.
  { unfold Stats.handleAnalytics. cbn [truthy_str String.eqb Ascii.eqb].
    cbv beta iota. rewrite Hus.
    pose proof (allDonations_oset_count (member_id m) user5
                  (Database.users db)) as H1.
    rewrite Hd in H1. change (default [] (Some ?l)) with l in H1.
    rewrite length_app in H1. cbn [length] in H1.
    eexists _, _, _, _, _. split; [reflexivity|].
    apply f_equal3; [|reflexivity|reflexivity].
    unfold Stats.count. lia. }
  split.
  { intros Hv0. apply totalDonations_raise. rewrite Ht, fadd_double.
    apply fadd_ge. now apply double_nonneg. }
  intros member usd n t Hin.
  destruct (recordDonation_shape cfg msg tip v m calls db)
    as (userData & others & _ & Hquiet & Hev & Htot).
  cbv zeta in Hev, Htot. rewrite Hev in Hin.
  apply in_app_or in Hin as [Hin|Hin].
  - exfalso. rewrite Forall_forall in Hquiet.
    apply list_elem_of_In in Hin.
    exact (Hquiet _ Hin member usd n t eq_refl).
  - destruct (jlt (Int 0) _); [|destruct Hin].
    destruct Hin as [[= <- <- _ <-]|[]].
    split; [reflexivity|]. split; [reflexivity|]. now rewrite Htot, Ht.
Qed.


Lemma In_oset {V} (k : string) (v : V) (o : obj V) : In (k, v) (oset k v o).
Proof.
  induction o as [|[k' x] o IH]; cbn [oset]; [now left|].
  destruct (String.eqb k k') eqn:E; [|now right].
  apply String.eqb_eq in E. subst k'. now left.
Qed.

(** X27. A feature toggle reads back as it was set.  After [features]
    sets a feature other than [view_all], the document is saved, asking
    for the feature reports the value set, asking for any other feature
    reports what it reported before, and the feature is on the list that
    [view_all] shows, also when its name was not on the list before. *)
Theorem feature_toggle_round_trip (feature : string) (e : bool)
    (db : Database.t) (featureToggles : option (obj bool)) :
  feature <> "view_all" ->
  let r := Configure.handleFeatures feature (Some e) db featureToggles in
  let ask g :=
    Configure.res_reply
      (Configure.handleFeatures g None (Configure.res_db r.1) (Some r.2)).1 in
  Configure.res_saved r.1 = true /\
  ask feature = Configure.FeatureIs (Configure.getFeatureName feature) e /\
  (forall g, g <> feature -> g <> "view_all" ->
     ask g = Configure.res_reply
               (Configure.handleFeatures g None db featureToggles).1) /\
  exists rows,
    ask "view_all" = Configure.FeatureStatus rows /\
    In (e, Configure.getFeatureName feature) rows.
Proof.
  intros Hf r ask. subst ask r. unfold Configure.handleFeatures. cbv zeta.
  apply String.eqb_neq in Hf. rewrite Hf.
  cbn [fst snd Configure.res_saved Configure.res_reply Configure.res_db].
  change (default Configure.defaultToggles (Some ?t)) with t.
  split; [reflexivity|]. split; [|split].
  - now rewrite oget_oset_eq.
  - intros g Hg Hv. apply String.eqb_neq in Hv. rewrite Hv.
    cbn [fst Configure.res_reply]. now rewrite oget_oset_ne by congruence.
  - cbn [String.eqb Ascii.eqb Bool.eqb fst Configure.res_reply].
    eexists. split; [reflexivity|].
    apply (in_map (fun ke => (ke.2, Configure.getFeatureName ke.1))
                  _ (feature, e)).
    apply In_oset.
Qed.

Lemma feature_toggle_round_trip_witness :
  Configure.res_reply
    (Configure.handleFeatures "vipDraws" None
       (Configure.res_db
          (Configure.handleFeatures "vipDraws" (Some false)
                                    Sample.live_db None).1)
       (Some (Configure.handleFeatures "vipDraws" (Some false)
                                       Sample.live_db None).2)).1
  = Configure.FeatureIs "VIP Draws" false.
Proof.
  apply (feature_toggle_round_trip "vipDraws" false Sample.live_db None).
  discriminate.
Defined.
